(* ===== verification/_CoqProject ===== *)
-Q . S2P
Prelude.v
GoStrings.v
Base64.v
Mysql.v
Json.v
TaggedJson.v
Message.v
Commerce.v
Wallet.v
GiftRepository.v
GiftSpec.v
Realtime.v
Kafka.v
Outbox.v
Instances.v
OutboxSpec.v
WalletSpec.v
CommerceInvariants.v
GiftProperties.v
Room.v
RoomSpec.v
GiftService.v
GiftServiceSpec.v
Dedup.v
GiftConsumer.v
DeliverySpec.v
ConsumerSpec.v
GroupSpec.v
Redis.v
RedisSpec.v
Like.v
Stats.v
LikeSpec.v
StatsSpec.v
ViewerSpec.v
SnapshotSpec.v
Traffic.v
TrafficSpec.v
Auth.v
AuthSpec.v
Danmaku.v
DanmakuSpec.v
Http.v
Contract.v
HttpApi.v
HttpSpec.v
BanSpec.v
IdentityClient.v
IdentitySpec.v
CommerceApi.v
CommerceApiSpec.v
HandlerSpec.v
Gateway.v
GatewaySpec.v
Query.v
Config.v
ConfigSpec.v
Migrate.v
MigrateSpec.v
Worker.v
WorkerSpec.v
Metrics.v
Middleware.v
MiddlewareSpec.v
Process.v
ProcessSpec.v
Loops.v
Journey.v
Pool.v
Httpload.v
HttploadSpec.v
Loadtest.v
LoadtestSpec.v
Webui.v
Wiring.v
WiringSpec.v
PlatformSpec.v
ExactlyOnce.v
