(* ===== verification/Prelude.v ===== *)
(** * LUMI LIVE platform: verification development

    The platform is a set of Go services for live streaming rooms. Users register
    and log in ([internal/auth]); anchors open rooms and moderate them
    ([internal/room]); viewers send danmaku, likes and gifts ([internal/danmaku],
    [internal/like], [internal/gift]). A gift is charged in one MySQL transaction
    that also writes an outbox row; a publisher moves outbox rows to Kafka
    ([internal/outbox], [internal/mq]); consumers deliver them to the room's
    Centrifugo channel, once per event ([internal/gift/consumer.go],
    [internal/eventdedup], [internal/realtime]), or archive them. Counters,
    presence and rate limits live in Redis ([internal/store/redisstore]); an
    aggregator announces them ([internal/stats]) and a snapshotter keeps like totals
    in MySQL. This library translates that code and proves what it promises. Paths
    in comments are relative to [src/] or [src/internal].

    ** How programs are modelled

    A Go function that returns a value and an error is a computation [M W A] (below):
    it reads and writes a state [W] and returns [Ok a] or [Err e]; state changes
    before an error are kept. Errors are values of [error], with [errors.Is],
    [errors.As] and the text of [Error()]. An interface of the code is a type class
    whose operations are computations ([GiftStore], [RoomStore], [StatsStore],
    [Publisher], ...); an implementation is an instance, and [Lens]/[zoom] place a
    component's state in a larger one. Handlers are translated whole, with the
    order of their checks and effects. [time.Now()], random identifiers and random
    salts are arguments. [int64] is [Z] with the wrap-around written where it can
    occur; [float64] is IEEE binary64 ([SpecFloat]).

    Environment, each a parameter with its documented behaviour as named laws:
    - Mysql.v: tables, one transaction at a time, the clock, and a schedule that lets
      any statement fail before or after it took effect; collation, rounding and
      error texts are [MySQLServer]. Theorems hold for every schedule unless they
      say "without faults".
    - Redis.v: strings and sorted sets with expiry, the Lua scripts and pipelines as
      atomic commands, and a schedule of faults.
    - Kafka.v: the client; Realtime.v: the HTTP client; Json.v: the text of JSON, read
      back with invalid UTF-8 replaced by U+FFFD, and of times; GoStrings.v: Unicode
      tables; Auth.v: HMAC and PBKDF2.
    Instances.v and TaggedJson.v give concrete instances on which the examples
    compute.

    ** Parts

    - Prelude.v: errors, the monad and its rules, [keeps], lenses, integers, lists.
      GoStrings.v, Base64.v, Json.v: the standard library as the code uses it, with
      round trips of [FormatInt]/[ParseInt], UTF-8 and base64.
    - Commerce.v (tables), GiftRepository.v ([gift/repository.go]), Wallet.v
      ([wallet]); GiftSpec.v and WalletSpec.v give each transaction an atomic
      specification and prove the statements implement it; CommerceInvariants.v is
      the step relation over all writers of these tables and their invariant;
      GiftProperties.v states the results: a gift happens entirely or not at all,
      the books balance in every reachable table, a request id is charged once,
      [Create] equals a reference decision function on all its branches, development
      credit.
    - GiftService.v ([gift/service.go]) and GiftServiceSpec.v: only admitted requests
      are charged, and a finished request can be repeated after admission ended.
    - Outbox.v and OutboxSpec.v: claims take the oldest eligible rows, a lease is
      exclusive, a row is marked published only after the broker acknowledged it,
      and retry delays double up to their cap.
    - Message.v ([mq/message.go]), Kafka.v ([mq/kafka.go], [mq/dlq.go]), Dedup.v
      ([eventdedup/store.go]), GiftConsumer.v, Realtime.v; DeliverySpec.v: a stored
      gift event reaches the room channel with its fields, deduplication leases;
      ConsumerSpec.v: an offset is committed only after handling or dead-lettering,
      retries end, dead letters - their JSON and base64 written out - replay to the
      original key and value.
    - Room.v ([room]) and RoomSpec.v: the room life cycle as an invariant of the
      reachable tables, moderation by the anchor only, bans and mutes.
    - Redis.v ([redisstore/redis.go]) and RedisSpec.v: the fixed-window limiter bounds
      what passes in every span of time.
    - Like.v, LikeSpec.v, SnapshotSpec.v ([like]); Stats.v, StatsSpec.v ([stats]);
      ViewerSpec.v ([viewer], in Stats.v): likes are counted in both counters or not
      at all, acknowledged announcements never exceed them, and they are restored from
      checkpoints; presence refines a
      map from users to expiry times.
    - Traffic.v, TrafficSpec.v ([traffic/policy.go]): the sample rate is a number
      within its bounds, for all inputs of the floating-point formula.
    - Auth.v, AuthSpec.v ([auth], [token]): accounts are unique and log in with their
      password; access tokens hold until their expiry and other tokens never pass.
    - Danmaku.v, DanmakuSpec.v ([danmaku]): the trie filter finds exactly the
      configured words, a message leaves only when admitted, and is archived at
      most once.
    - GroupSpec.v: the consumer loop over many polls, rebalances and restarts: every
      record below a committed offset was dealt with.

    The processes around these services:
    - Http.v: requests, responses, bodies, authentication and the mux; Contract.v: the
      catalogue of [doc/contracts/public-api-v1.json] and what it is for a list of
      routes to follow it.
    - HttpApi.v ([httpapi/server.go]): every handler and the three servers, over records
      of the operations they call; HttpSpec.v: the servers follow the contract, refuse
      without a token and change nothing then; BanSpec.v: a ban answered 200 is
      enforced everywhere.
    - IdentityClient.v ([identityclient]), IdentitySpec.v: the client and the internal
      routes in a loop give what the local service gives; JSON of rooms and users
      round-trips; a refused join becomes a 500.
    - CommerceApi.v ([commerceapi]), CommerceApiSpec.v: the answer to a gift request
      tells what happened to the money, and no request breaks the invariant of
      CommerceInvariants.v. HandlerSpec.v: what the public handlers leave unchanged.
    - Gateway.v ([gateway]), GatewaySpec.v: forwarding agrees with the owners of the
      contract, and what the interaction, commerce and query services promise carries
      over to the gateway, with 502 for a service that cannot be reached.
    - Query.v ([querymodel], the views of migration 008): the message history.
    - Metrics.v, Middleware.v ([observability], [idgen] and the middlewares of the
      servers), MiddlewareSpec.v: the registry, and every request to a route that answers
      a whole response is answered, counted and logged once, panics included; the
      commerce server and the copies of the gateway's proxies have lemmas of their own.
    - Webui.v ([webui]): which file or page a path gets.
    - Config.v ([config]), ConfigSpec.v: what holds of a configuration that loads;
      Worker.v ([cmd/worker]), WorkerSpec.v: the roles it names get their dependencies;
      Process.v ([cmd], [mysqlstore], [redisstore.Open]), ProcessSpec.v: what each
      process opens, serves and releases. Loops.v: the timer loops of the worker's
      components; an outbox row that is due reaches Kafka. Journey.v: a gift that was
      charged is shown in its room.
    - Migrate.v ([cmd/migrate]), MigrateSpec.v: interrupted migrations converge, service
      accounts are confined.
    - Pool.v, Httpload.v, Loadtest.v ([tools/httpload], [tools/loadtest]), HttploadSpec.v,
      LoadtestSpec.v: bounded pools of goroutines and callbacks under every
      interleaving; the reports count what happened.

    The platform as a whole:
    - Wiring.v: the services as the processes wire them from a configuration, over the
      databases they share, with the identity-room service reached over HTTP and the
      gateway in front; WiringSpec.v: readiness. PlatformSpec.v: the invariants of
      rooms and commerce tables hold after any requests to any of them, with lost
      exchanges and faults. ExactlyOnce.v: a gift that the gateway answered 200 has one
      order, one debit and one event in every later state.

    ** Bounds and fuel

    - [decode] and [FormatInt] take as fuel the length of the text and the number of
      binary digits; [decode_concat] and [ParseInt_FormatInt] show it is enough.
    - [handle_loop] (retries of one record) has explicit fuel, because the code
      retries forever: running out is the result [StillRetrying], about which safety
      theorems also speak, and [retries_end_in_commit] gives enough fuel when the
      handler eventually accepts.
    - [retry_loop] stops at its cap ([retryDelay_is_capped_doubling]).
    - [Run] of the consumer is bounded by a number of polls; [None] means it would poll
      again, and [no_record_is_skipped] holds for every number.
    - [duration_terms] has the length of the text as fuel; every term consumes text
      ([duration_terms_fuel]).
    - [recover_loop] pages through the checkpoints; [recover_restores_every_checkpoint]
      shows that one page more than the number of checkpoints is enough.

    - The loops of Loops.v take the list of their wakes; [due_events_reach_kafka] says
      how many ticks are enough. A run of Pool.v or Loadtest.v is the list of its steps;
      [pool_can_finish] extends every run to one that ends.

    ** Not modelled

    Log lines other than those of the middlewares and the process ends, timeouts and
    cancellation apart from the ends of the loops, the trace context apart from the
    carrier map that travels in messages and the spans of TraceHTTP. Of the HTTP layer
    the bytes on the wire, of [net/http] the transport; of the metrics the exposition
    format and the collectors of the client library. The contents of the web pages.
    Of the migrations the tables and the views are modelled where the code uses them;
    their scripts are parameters of the runner. Of the load generators the websocket
    library, the sockets and the description of the host. Constructors and interfaces
    of the code that only carry what the definitions take as arguments have no
    definition of their own. *)

From stdpp Require Export base tactics option list gmap strings sorting.
From Stdlib Require Export ZArith Lia.

#[global] Open Scope Z_scope.

(** ** Go errors

    A Go [error] is a package-level sentinel ([Sentinel], compared by identity,
    here by its qualified name), a fresh value built where it is returned
    ([Fresh]), an error of the MySQL driver ([MySQLError]; the third field is
    what the driver's [Error()] prints), an [%w] wrap ([Wrapped], with the text
    before and after the cause), [mq.permanentError] ([permanentError]) or
    [errors.Join] ([Joined]). *)
Inductive error : Type :=
| Sentinel (name msg : string)
| Fresh (msg : string)
| MySQLError (number : Z) (message text : string)
| Wrapped (pre : string) (cause : error) (post : string)
| permanentError (err : error)
| Joined (errs : list error).

(** [errors.Is(err, target)] for a sentinel target. *)
Fixpoint errors_Is_name (e : error) (target : string) : bool :=
  match e with
  | Sentinel name _ => bool_decide (name = target)
  | Fresh _ | MySQLError _ _ _ => false
  | Wrapped _ c _ => errors_Is_name c target
  | permanentError c => errors_Is_name c target
  | Joined es => existsb (fun e => errors_Is_name e target) es
  end.

Definition errors_Is (e target : error) : bool :=
  match target with
  | Sentinel name _ => errors_Is_name e name
  | _ => false
  end.

(** [err == target] for a sentinel target. *)
Definition same_error (e target : error) : bool :=
  match e, target with
  | Sentinel a _, Sentinel b _ => bool_decide (a = b)
  | _, _ => false
  end.

(** [errors.As(err, &mysqlErr)]: number and message of the first driver error. *)
Fixpoint errors_As_mysql (e : error) : option (Z * string) :=
  match e with
  | MySQLError n m _ => Some (n, m)
  | Sentinel _ _ | Fresh _ => None
  | Wrapped _ c _ => errors_As_mysql c
  | permanentError c => errors_As_mysql c
  | Joined es =>
    (fix go es := match es with
                  | [] => None
                  | e :: es => match errors_As_mysql e with Some x => Some x | None => go es end
                  end) es
  end.

(** The text that [err.Error()] returns. *)
Fixpoint error_text (e : error) : string :=
  match e with
  | Sentinel _ msg | Fresh msg => msg
  | MySQLError _ _ text => text
  | Wrapped pre c post => pre +:+ error_text c +:+ post
  | permanentError c => error_text c
  | Joined es => String.concat (String (Ascii.ascii_of_nat 10) "") (map error_text es)
  end.

(** [errors.Join]: [nil] for an empty list. *)
Definition errors_Join (es : list error) : option error :=
  match es with [] => None | _ => Some (Joined es) end.

(** Sentinels of the standard library and of the Redis client the code
    compares against. *)
Definition sql_ErrNoRows := Sentinel "sql.ErrNoRows" "sql: no rows in result set".
Definition sql_ErrTxDone :=
  Sentinel "sql.ErrTxDone" "sql: transaction has already been committed or rolled back".
Definition redis_Nil := Sentinel "redis.Nil" "redis: nil".
Definition context_Canceled := Sentinel "context.Canceled" "context canceled".
Definition context_DeadlineExceeded :=
  Sentinel "context.DeadlineExceeded" "context deadline exceeded".

(** ** Results and the state-and-error monad

    A Go function returning [(A, error)] is a computation that returns [Ok a]
    or [Err e] and the state it leaves. State changes made before an error are
    kept, as in the code. *)
Inductive res (A : Type) : Type :=
| Ok (a : A)
| Err (e : error).
Arguments Ok {A} a.
Arguments Err {A} e.

Definition is_ok {A} (r : res A) : bool := match r with Ok _ => true | Err _ => false end.

Definition M (W A : Type) : Type := W -> res A * W.

#[export] Instance M_ret W : MRet (M W) := fun A a w => (Ok a, w).
#[export] Instance M_bind W : MBind (M W) := fun A B k m w =>
  match m w with
  | (Ok a, w') => k a w'
  | (Err e, w') => (Err e, w')
  end.

Definition throw {W A} (e : error) : M W A := fun w => (Err e, w).
Definition of_res {W A} (r : res A) : M W A := fun w => (r, w).
(** [try m] is [r, err := m()]: the error becomes a value to test. *)
Definition try {W A} (m : M W A) : M W (res A) := fun w => let (r, w') := m w in (Ok r, w').
Definition gets {W A} (f : W -> A) : M W A := fun w => (Ok (f w), w).
Definition modify {W} (f : W -> W) : M W unit := fun w => (Ok tt, f w).
(** [_ = m()]: the error is dropped. *)
Definition ignore {W A} (m : M W A) : M W unit := fun w => (Ok tt, (m w).2).

(** ** Weakest preconditions *)
Definition wp {W A} (m : M W A) (Q : res A -> W -> Prop) : W -> Prop :=
  fun w => Q (m w).1 (m w).2.

Section wp_rules.
Context {W A B : Type}.
Implicit Types (m : M W A) (k : A -> M W B) (w : W).

Lemma wp_ret (a : A) Q w : Q (Ok a) w -> wp (mret a) Q w.
Proof. done. Qed.
Lemma wp_throw (e : error) (Q : res A -> W -> Prop) w : Q (Err e) w -> wp (throw e) Q w.
Proof. done. Qed.
Lemma wp_of_res (r : res A) Q w : Q r w -> wp (of_res r) Q w.
Proof. done. Qed.
Lemma wp_gets (f : W -> A) Q w : Q (Ok (f w)) w -> wp (gets f) Q w.
Proof. done. Qed.
Lemma wp_modify (f : W -> W) (Q : res unit -> W -> Prop) w : Q (Ok tt) (f w) -> wp (modify f) Q w.
Proof. done. Qed.
Lemma wp_bind m k Q w :
  wp m (fun r w' => match r with Ok a => wp (k a) Q w' | Err e => Q (Err e) w' end) w ->
  wp (m ≫= k) Q w.
Proof.
  unfold wp, mbind, M_bind. destruct (m w) as [[a|e] w'] eqn:E; done.
Qed.
Lemma wp_try m (Q : res (res A) -> W -> Prop) w :
  wp m (fun r w' => Q (Ok r) w') w -> wp (try m) Q w.
Proof. unfold wp, try. by destruct (m w). Qed.
Lemma wp_ignore m (Q : res unit -> W -> Prop) w :
  wp m (fun _ w' => Q (Ok tt) w') w -> wp (ignore m) Q w.
Proof. done. Qed.
Lemma wp_mono m (Q Q' : res A -> W -> Prop) w :
  wp m Q w -> (forall r w', Q r w' -> Q' r w') -> wp m Q' w.
Proof. unfold wp. auto. Qed.

(** Success and failure of a sequence. *)
Lemma bind_ok_inv m k w b w2 :
  (m ≫= k) w = (Ok b, w2) ->
  exists a w1, m w = (Ok a, w1) /\ k a w1 = (Ok b, w2).
Proof.
  unfold mbind, M_bind. destruct (m w) as [[a|e] w1] eqn:E; [eauto|congruence].
Qed.
Lemma bind_ok m k w a w1 : m w = (Ok a, w1) -> (m ≫= k) w = k a w1.
Proof. unfold mbind, M_bind. by intros ->. Qed.
Lemma try_run m w r w1 : m w = (r, w1) -> try m w = (Ok r, w1).
Proof. unfold try. by intros ->. Qed.
Lemma bind_err m k w e w1 : m w = (Err e, w1) -> (m ≫= k) w = (Err e, w1).
Proof. unfold mbind, M_bind. by intros ->. Qed.
End wp_rules.

(** ** Computations that keep a predicate, whatever they return *)
Definition keeps {W A} (P : W -> Prop) (m : M W A) : Prop := forall w, P w -> P (m w).2.

Create HintDb keeps discriminated.

Section keeps_rules.
Context {W A B : Type} (P : W -> Prop).
Implicit Types (m : M W A).

Lemma keeps_ret (a : A) : keeps P (mret a).
Proof. by intros w. Qed.
Lemma keeps_throw e : keeps (A := A) P (throw e).
Proof. by intros w. Qed.
Lemma keeps_of_res (r : res A) : keeps P (of_res r).
Proof. by intros w. Qed.
Lemma keeps_gets (f : W -> A) : keeps P (gets f).
Proof. by intros w. Qed.
Lemma keeps_modify (f : W -> W) : (forall w, P w -> P (f w)) -> keeps P (modify f).
Proof. done. Qed.
Lemma keeps_bind m (k : A -> M W B) :
  keeps P m -> (forall a, keeps P (k a)) -> keeps P (m ≫= k).
Proof.
  intros Hm Hk w Hw. specialize (Hm w Hw). unfold mbind, M_bind.
  destruct (m w) as [[a|e] w1]; simpl in *; [by apply Hk|done].
Qed.
Lemma keeps_try m : keeps P m -> keeps P (try m).
Proof. intros Hm w Hw. unfold try. specialize (Hm w Hw). by destruct (m w). Qed.
Lemma keeps_ignore m : keeps P m -> keeps P (ignore m).
Proof. intros Hm w Hw. by apply Hm. Qed.
Lemma keeps_and (Q : W -> Prop) m : keeps P m -> keeps Q m -> keeps (fun w => P w /\ Q w) m.
Proof. intros HP HQ w [H1 H2]. split; auto. Qed.
End keeps_rules.

#[export] Hint Resolve keeps_ret keeps_throw keeps_of_res keeps_gets keeps_bind
  keeps_try keeps_ignore : keeps.

(** Decompose a [keeps] goal along the program: binds, tests and matches. *)
Ltac keeps_step :=
  match goal with
  | |- keeps _ (match ?x with _ => _ end) => destruct x
  | |- keeps _ (if ?x then _ else _) => destruct x
  | |- keeps _ _ => progress eauto with keeps
  | |- keeps _ (_ ≫= _) => apply keeps_bind; [|intros ?]
  | |- keeps _ (try _) => apply keeps_try
  | |- keeps _ (ignore _) => apply keeps_ignore
  end.
Ltac keeps := repeat keeps_step.

(** ** A component's state inside a larger one *)
Class Lens (S W : Type) := {
  lget : W -> S;
  lset : S -> W -> W;
  lget_lset : forall s w, lget (lset s w) = s;
  lset_lget : forall w, lset (lget w) w = w;
  lset_lset : forall s s' w, lset s (lset s' w) = lset s w }.

Definition zoom {S W A} `{Lens S W} (m : M S A) : M W A :=
  fun w => let (r, s) := m (lget w) in (r, lset s w).

#[export, refine] Instance lens_id S : Lens S S :=
  {| lget := fun s => s; lset := fun s _ => s |}.
Proof. all: done. Defined.

#[export, refine] Instance lens_fst A B : Lens A (A * B) :=
  {| lget := fst; lset := fun a w => (a, w.2) |}.
Proof. all: by intros; repeat match goal with x : _ * _ |- _ => destruct x end. Defined.
#[export, refine] Instance lens_snd A B : Lens B (A * B) :=
  {| lget := snd; lset := fun b w => (w.1, b) |}.
Proof. all: by intros; repeat match goal with x : _ * _ |- _ => destruct x end. Defined.

Lemma wp_zoom {S W A} `{Lens S W} (m : M S A) Q w :
  wp m (fun r s => Q r (lset s w)) (lget w) -> wp (zoom m) Q w.
Proof. unfold wp, zoom. by destruct (m (lget w)). Qed.

Lemma keeps_zoom {S W A} `{Lens S W} (P : S -> Prop) (m : M S A) :
  keeps P m -> keeps (fun w => P (lget w)) (zoom m).
Proof.
  intros Hm w Hw. unfold zoom. specialize (Hm _ Hw).
  destruct (m (lget w)) as [r s]. simpl in *. by rewrite lget_lset.
Qed.

Lemma zoom_ok {S W A} `{Lens S W} (m : M S A) w r s :
  m (lget w) = (r, s) -> zoom m w = (r, lset s w).
Proof. unfold zoom. by intros ->. Qed.

Lemma zoom_bind {S W A B} `{Lens S W} (m : M S A) (k : A -> M S B) w :
  zoom (m ≫= k) w = (zoom m ≫= fun a => zoom (k a)) w.
Proof.
  unfold zoom, mbind, M_bind. destruct (m (lget w)) as [[a|e] s]; [|done].
  rewrite lget_lset. destruct (k a s). by rewrite lset_lset.
Qed.
Lemma zoom_ret {S W A} `{Lens S W} (a : A) w : zoom (mret a : M S A) w = (Ok a, w).
Proof. unfold zoom, mret, M_ret. by rewrite lset_lget. Qed.
Lemma zoom_throw {S W A} `{Lens S W} e w : zoom (throw e : M S A) w = (Err e, w).
Proof. unfold zoom, throw. by rewrite lset_lget. Qed.

Lemma zoom_fst_ok {S R A} (m : M S A) s s' (w : R) r : m s = (r, s') -> zoom m (s, w) = (r, (s', w)).
Proof. intros Hm. unfold zoom. simpl. by rewrite Hm. Qed.
Lemma zoom_snd_ok {S R A} (m : M R A) (s : S) w w' r : m w = (r, w') -> zoom m (s, w) = (r, (s, w')).
Proof. intros Hm. unfold zoom. simpl. by rewrite Hm. Qed.

(** ** Invert successful runs *)
Ltac inv_bind H :=
  let a := fresh "v" in let w := fresh "w" in let H1 := fresh "Hrun" in
  apply bind_ok_inv in H as (a & w & H1 & H).

(** ** Go's 64-bit integers *)
Definition int64_max : Z := 2 ^ 63 - 1.
Definition int64_min : Z := - 2 ^ 63.
Definition in_int64 (z : Z) : Prop := int64_min <= z <= int64_max.
(** The result of an [int64] operation: two's-complement wrap-around. *)
Definition wrap64 (z : Z) : Z := (z + 2 ^ 63) mod 2 ^ 64 - 2 ^ 63.

Lemma wrap64_id z : in_int64 z -> wrap64 z = z.
Proof.
  unfold in_int64, wrap64, int64_min, int64_max. intros H.
  rewrite Z.mod_small; lia.
Qed.

Lemma wrap64_range z : in_int64 (wrap64 z).
Proof.
  unfold in_int64, wrap64, int64_min, int64_max.
  pose proof (Z.mod_pos_bound (z + 2 ^ 63) (2 ^ 64)). lia.
Qed.

(** [time.Duration] in nanoseconds. *)
Definition Nanosecond : Z := 1.
Definition Microsecond : Z := 1000.
Definition Millisecond : Z := 1000000.
Definition Second : Z := 1000000000.
Definition Minute : Z := 60 * Second.

(** ** Lists *)
Section lists.
Context {A : Type}.

Lemma find_some_elem (f : A -> bool) l x : List.find f l = Some x -> x ∈ l /\ f x = true.
Proof. intros H. apply List.find_some in H as [H ?]. by rewrite list_elem_of_In. Qed.

Lemma find_none_elem (f : A -> bool) l x : List.find f l = None -> x ∈ l -> f x = false.
Proof. intros H Hx. apply (List.find_none _ _ H). by rewrite <- list_elem_of_In. Qed.

Lemma find_app (f : A -> bool) l1 l2 :
  List.find f (l1 ++ l2) =
  match List.find f l1 with Some x => Some x | None => List.find f l2 end.
Proof. induction l1 as [|x l1 IH]; simpl; [done|]. by destruct (f x). Qed.

(** A map over the elements that satisfy a test (an SQL [UPDATE]). *)
Definition update_where (p : A -> bool) (f : A -> A) (l : list A) : list A :=
  map (fun x => if p x then f x else x) l.

Definition count_where (p : A -> bool) (l : list A) : Z :=
  Z.of_nat (length (List.filter p l)).

Lemma length_update_where p f l : length (update_where p f l) = length l.
Proof. apply length_map. Qed.

Lemma elem_of_update_where p f l y :
  y ∈ update_where p f l <-> exists x, x ∈ l /\ y = if p x then f x else x.
Proof.
  unfold update_where. rewrite list_elem_of_In, in_map_iff. split.
  - intros (x & <- & Hx). exists x. by rewrite list_elem_of_In.
  - intros (x & Hx & ->). exists x. by rewrite <- list_elem_of_In.
Qed.

Lemma update_where_none p f l : (forall x, x ∈ l -> p x = false) -> update_where p f l = l.
Proof.
  induction l as [|x l IH]; intros H; [done|]. unfold update_where in *. simpl.
  rewrite H by left. rewrite IH; [done|]. intros y Hy. apply H. by right.
Qed.

Lemma map_update_where {B} (g : A -> B) p f l :
  (forall x, g (f x) = g x) -> map g (update_where p f l) = map g l.
Proof.
  intros H. unfold update_where. rewrite map_map. apply map_ext. intros x. destruct (p x); auto.
Qed.

Definition sumZ (f : A -> Z) (l : list A) : Z := foldr (fun x acc => f x + acc) 0 l.

Lemma sumZ_app f l1 l2 : sumZ f (l1 ++ l2) = sumZ f l1 + sumZ f l2.
Proof. induction l1 as [|x l1 IH]; simpl; lia. Qed.

Lemma sumZ_plus (f g : A -> Z) l : sumZ (fun x => f x + g x) l = sumZ f l + sumZ g l.
Proof. induction l as [|x l IH]; simpl; lia. Qed.
Lemma sumZ_le (f g : A -> Z) l : (forall x, x ∈ l -> f x <= g x) -> sumZ f l <= sumZ g l.
Proof.
  induction l as [|x l IH]; intros H; simpl; [lia|].
  assert (f x <= g x) by (apply H; left). assert (sumZ f l <= sumZ g l); [|lia].
  apply IH. intros y Hy. apply H. by right.
Qed.

Lemma existsb_false (f : A -> bool) l :
  existsb f l = false <-> forall x, x ∈ l -> f x = false.
Proof.
  split.
  - intros Hf x Hx. destruct (f x) eqn:E; [|done]. exfalso.
    assert (existsb f l = true); [|congruence]. apply existsb_exists. exists x. by rewrite <- list_elem_of_In.
  - intros Hf. destruct (existsb f l) eqn:E; [|done].
    apply existsb_exists in E as (x & Hx & Hfx). rewrite <- list_elem_of_In in Hx.
    rewrite Hf in Hfx by done. done.
Qed.
End lists.

Lemma StronglySorted_filter {A} (R : A -> A -> Prop) (f : A -> bool) l :
  StronglySorted R l -> StronglySorted R (List.filter f l).
Proof.
  induction 1 as [|x l Hl IH Hx]; simpl; [constructor|]. destruct (f x); [|done]. constructor; [done|].
  rewrite List.Forall_forall in *. intros y [Hy _]%filter_In. auto.
Qed.
