(* ===== verification/GoStrings.v ===== *)
(** Go strings: byte strings, their UTF-8 runes, and the functions of the
    packages [strings], [strconv] and [unicode] that the platform calls.

    A Go [string] is a [string] (a list of bytes). A [range] loop, [[]rune(s)]
    and the rune functions see it through [decode], which gives U+FFFD for an
    invalid byte and consumes one byte there. The letter, digit and case tables
    of Unicode above ASCII are a parameter ([UnicodeTables]); on ASCII the
    functions are computed. *)
From S2P Require Import Prelude.
From Stdlib Require Import Ascii.

Definition byteZ (a : ascii) : Z := Z.of_N (N_of_ascii a).
Definition byte_of_Z (z : Z) : ascii := ascii_of_N (Z.to_N z).

(** ** UTF-8 *)
Definition RuneError : Z := 65533.
Definition MaxASCII : Z := 127.

Definition is_cont (b : Z) : bool := (128 <=? b) && (b <=? 191).

(** [utf8.DecodeRuneInString]: the first rune and its width in bytes. *)
Definition decode_rune (s : string) : Z * nat :=
  match s with
  | EmptyString => (RuneError, 0%nat)
  | String a s1 =>
    let b0 := byteZ a in
    if b0 <? 128 then (b0, 1%nat) else
    match s1 with
    | EmptyString => (RuneError, 1%nat)
    | String b s2 =>
      let b1 := byteZ b in
      if (194 <=? b0) && (b0 <=? 223) then
        if is_cont b1 then ((b0 - 192) * 64 + (b1 - 128), 2%nat) else (RuneError, 1%nat)
      else
      match s2 with
      | EmptyString => (RuneError, 1%nat)
      | String c s3 =>
        let b2 := byteZ c in
        if (224 <=? b0) && (b0 <=? 239) then
          if is_cont b1 && is_cont b2
             && negb ((b0 =? 224) && (b1 <? 160)) && negb ((b0 =? 237) && (159 <? b1))
          then ((b0 - 224) * 4096 + (b1 - 128) * 64 + (b2 - 128), 3%nat)
          else (RuneError, 1%nat)
        else
        match s3 with
        | EmptyString => (RuneError, 1%nat)
        | String d _ =>
          let b3 := byteZ d in
          if (240 <=? b0) && (b0 <=? 244) && is_cont b1 && is_cont b2 && is_cont b3
             && negb ((b0 =? 240) && (b1 <? 144)) && negb ((b0 =? 244) && (143 <? b1))
          then ((b0 - 240) * 262144 + (b1 - 128) * 4096 + (b2 - 128) * 64 + (b3 - 128), 4%nat)
          else (RuneError, 1%nat)
        end
      end
    end
  end.

Fixpoint str_split (n : nat) (s : string) : string * string :=
  match n, s with
  | S n, String a s => let (p, q) := str_split n s in (String a p, q)
  | _, _ => (EmptyString, s)
  end.

(** The runes of a string, each with the bytes it was read from. *)
Fixpoint decode_fuel (fuel : nat) (s : string) : list (Z * string) :=
  match fuel, s with
  | S fuel, String _ _ =>
    let (r, n) := decode_rune s in
    let (p, q) := str_split n s in
    (r, p) :: decode_fuel fuel q
  | _, _ => []
  end.
Definition decode (s : string) : list (Z * string) := decode_fuel (String.length s) s.
(** [[]rune(s)] *)
Definition runes (s : string) : list Z := map fst (decode s).

Fixpoint concat_str (l : list string) : string :=
  match l with [] => "" | s :: l => s +:+ concat_str l end.

Lemma str_split_app n s : (str_split n s).1 +:+ (str_split n s).2 = s.
Proof.
  revert s. induction n as [|n IH]; intros [|a s]; simpl; try done.
  specialize (IH s). destruct (str_split n s) as [p q]. cbn in IH |- *.
  change (String a (p +:+ q) = String a s). by rewrite IH.
Qed.

Lemma decode_rune_width a s : (1 <= (decode_rune (String a s)).2)%nat.
Proof. unfold decode_rune. repeat case_match; simpl; lia. Qed.

Lemma str_split_length n s : (1 <= n)%nat -> s <> "" ->
  (String.length (str_split n s).2 < String.length s)%nat.
Proof.
  intros Hn Hs. destruct n as [|n]; [lia|]. destruct s as [|a s]; [done|].
  cbn [str_split]. destruct (str_split n s) as [p q] eqn:E. cbn [snd String.length].
  assert (H : forall n s, (String.length (str_split n s).2 <= String.length s)%nat).
  { clear. induction n as [|n IH]; intros [|a s]; simpl; try lia.
    specialize (IH s). destruct (str_split n s); simpl in *; lia. }
  specialize (H n s). rewrite E in H. simpl in H. lia.
Qed.

(** Nothing is lost: the pieces of [decode] make up the string. *)
Lemma decode_concat s : concat_str (map snd (decode s)) = s.
Proof.
  unfold decode.
  assert (H : forall fuel s, (String.length s <= fuel)%nat ->
    concat_str (map snd (decode_fuel fuel s)) = s); [|by apply H].
  induction fuel as [|fuel IH]; intros t Ht; destruct t as [|a t]; simpl in Ht; try done; [lia|].
  cbn [decode_fuel]. destruct (decode_rune (String a t)) as [r n] eqn:E.
  destruct (str_split n (String a t)) as [p q] eqn:E2.
  pose proof (decode_rune_width a t) as Hw. rewrite E in Hw. simpl in Hw.
  pose proof (str_split_length n (String a t) Hw ltac:(done)) as Hl.
  pose proof (str_split_app n (String a t)) as Happ. rewrite E2 in Hl, Happ. simpl in Hl, Happ.
  simpl. rewrite IH by lia. done.
Qed.

(** ** [unicode] *)
(** [unicode.IsSpace]: the White_Space property. *)
Definition IsSpace (r : Z) : bool :=
  ((9 <=? r) && (r <=? 13)) || (r =? 32) || (r =? 133) || (r =? 160) || (r =? 5760)
  || ((8192 <=? r) && (r <=? 8202)) || (r =? 8232) || (r =? 8233) || (r =? 8239)
  || (r =? 8287) || (r =? 12288).

(** Unicode tables above ASCII. *)
Class UnicodeTables := {
  table_IsLetter : Z -> bool;
  table_IsDigit : Z -> bool;
  table_ToLower : Z -> Z;
  table_ToUpper : Z -> Z }.

Section unicode.
Context `{UnicodeTables}.

Definition is_ascii_upper (r : Z) : bool := (65 <=? r) && (r <=? 90).
Definition is_ascii_lower (r : Z) : bool := (97 <=? r) && (r <=? 122).
Definition IsLetter (r : Z) : bool :=
  if r <=? MaxASCII then is_ascii_upper r || is_ascii_lower r else table_IsLetter r.
Definition IsDigit (r : Z) : bool :=
  if r <=? MaxASCII then (48 <=? r) && (r <=? 57) else table_IsDigit r.
Definition ToLower_rune (r : Z) : Z :=
  if r <=? MaxASCII then (if is_ascii_upper r then r + 32 else r) else table_ToLower r.
Definition ToUpper_rune (r : Z) : Z :=
  if r <=? MaxASCII then (if is_ascii_lower r then r - 32 else r) else table_ToUpper r.
End unicode.

(** [utf8.AppendRune] *)
Definition encode_rune (r : Z) : string :=
  let r := if (r <? 0) || (1114111 <? r) || ((55296 <=? r) && (r <=? 57343))
           then RuneError else r in
  let c z := byte_of_Z z in
  if r <=? 127 then String (c r) ""
  else if r <=? 2047 then String (c (192 + r / 64)) (String (c (128 + r mod 64)) "")
  else if r <=? 65535 then
    String (c (224 + r / 4096)) (String (c (128 + r / 64 mod 64)) (String (c (128 + r mod 64)) ""))
  else
    String (c (240 + r / 262144)) (String (c (128 + r / 4096 mod 64))
      (String (c (128 + r / 64 mod 64)) (String (c (128 + r mod 64)) ""))).

(** ** [strings] *)
Fixpoint drop_space (l : list (Z * string)) : list (Z * string) :=
  match l with
  | (r, p) :: l' => if IsSpace r then drop_space l' else l
  | [] => []
  end.

(** [strings.TrimSpace] *)
Definition TrimSpace (s : string) : string :=
  concat_str (map snd (rev (drop_space (rev (drop_space (decode s)))))).

Fixpoint all_ascii (s : string) : bool :=
  match s with EmptyString => true | String a s => (byteZ a <? 128) && all_ascii s end.

Fixpoint map_bytes (f : Z -> Z) (s : string) : string :=
  match s with EmptyString => "" | String a s => String (byte_of_Z (f (byteZ a))) (map_bytes f s) end.

(** [strings.ToLower] / [strings.ToUpper]: bytewise on ASCII, else rune by rune. *)
Definition ToLower `{UnicodeTables} (s : string) : string :=
  if all_ascii s then map_bytes ToLower_rune s
  else concat_str (map (fun r => encode_rune (ToLower_rune r)) (runes s)).
Definition ToUpper `{UnicodeTables} (s : string) : string :=
  if all_ascii s then map_bytes ToUpper_rune s
  else concat_str (map (fun r => encode_rune (ToUpper_rune r)) (runes s)).

Definition HasPrefix (s p : string) : bool := String.prefix p s.

Fixpoint Contains (s sub : string) : bool :=
  String.prefix sub s || match s with EmptyString => false | String _ s' => Contains s' sub end.

Definition str_rev (s : string) : string :=
  String.string_of_list_ascii (rev (String.list_ascii_of_string s)).
Definition HasSuffix (s p : string) : bool := HasPrefix (str_rev s) (str_rev p).

(** [msg[:n]] *)
Definition str_take (n : nat) (s : string) : string := (str_split n s).1.

(** [strings.Split(s, sep)] for a one-byte separator. *)
Fixpoint Split (sep : ascii) (s : string) : list string :=
  match s with
  | EmptyString => [""]
  | String a s' =>
    if Ascii.eqb a sep then "" :: Split sep s'
    else match Split sep s' with
         | p :: ps => String a p :: ps
         | [] => [String a ""]
         end
  end.

Definition slen (s : string) : Z := Z.of_nat (String.length s).
(** [len([]rune(s))] *)
Definition rune_count (s : string) : Z := Z.of_nat (length (runes s)).

(** ** [strconv] *)
Definition digit (d : Z) : ascii := byte_of_Z (48 + d).

Fixpoint format_digits (fuel : nat) (v : Z) (acc : string) : string :=
  match fuel with
  | O => acc
  | S fuel => if 0 <? v then format_digits fuel (v / 10) (String (digit (v mod 10)) acc) else acc
  end.
Definition digits_fuel (v : Z) : nat := Z.to_nat (Z.log2 v + 1).

(** [strconv.FormatInt(v, 10)] *)
Definition FormatInt (v : Z) : string :=
  if v =? 0 then "0"
  else if v <? 0 then "-" +:+ format_digits (digits_fuel (- v)) (- v) ""
  else format_digits (digits_fuel v) v "".

Definition digit_value (a : ascii) : option Z :=
  let b := byteZ a in if (48 <=? b) && (b <=? 57) then Some (b - 48) else None.

Fixpoint parse_digits (s : string) (acc : Z) : option Z :=
  match s with
  | EmptyString => Some acc
  | String a s => match digit_value a with Some d => parse_digits s (acc * 10 + d) | None => None end
  end.

Definition parse_unsigned (s : string) : option Z :=
  match s with EmptyString => None | _ => parse_digits s 0 end.

(** [strconv.ParseInt(s, 10, 64)]; [None] is a syntax or range error. *)
Definition ParseInt (s : string) : option Z :=
  let signed (neg : bool) (t : string) :=
    match parse_unsigned t with
    | Some n =>
      if neg then (if n <=? 2 ^ 63 then Some (- n) else None)
      else (if n <? 2 ^ 63 then Some n else None)
    | None => None
    end in
  match s with
  | String a t =>
    if Ascii.eqb a "+"%char then signed false t
    else if Ascii.eqb a "-"%char then signed true t
    else signed false s
  | EmptyString => None
  end.
(** [strconv.Atoi]: [int] has 64 bits. *)
Definition Atoi : string -> option Z := ParseInt.

(** *** Printing then parsing an integer *)
Lemma byteZ_digit d : 0 <= d < 10 -> byteZ (digit d) = 48 + d.
Proof.
  intros H. assert (d = 0 \/ d = 1 \/ d = 2 \/ d = 3 \/ d = 4 \/ d = 5 \/ d = 6 \/ d = 7
    \/ d = 8 \/ d = 9) as Hd by lia.
  destruct_or!; subst; reflexivity.
Qed.

Lemma digit_value_digit d : 0 <= d < 10 -> digit_value (digit d) = Some d.
Proof.
  intros H. unfold digit_value. rewrite byteZ_digit by done.
  replace ((48 <=? 48 + d) && (48 + d <=? 57)) with true by lia. f_equal. lia.
Qed.

Lemma log2_div10 v : 0 < v -> 0 < v / 10 -> Z.log2 (v / 10) + 1 <= Z.log2 v.
Proof.
  intros Hv Hd. assert (10 * (v / 10) <= v) by (apply Z.mul_div_le; lia).
  assert (Z.log2 (2 * (v / 10)) = Z.log2 (v / 10) + 1) as <- by (rewrite Z.log2_double; lia).
  apply Z.log2_le_mono. lia.
Qed.

Lemma digits_fuel_step v : 0 < v -> exists n, digits_fuel v = S n.
Proof.
  intros Hv. unfold digits_fuel. pose proof (Z.log2_nonneg v).
  exists (Z.to_nat (Z.log2 v)). lia.
Qed.

(** Enough fuel is as good as more. *)
Lemma format_digits_fuel n m v acc : 0 <= v ->
  v < 10 ^ Z.of_nat n -> v < 10 ^ Z.of_nat m -> format_digits n v acc = format_digits m v acc.
Proof.
  revert m v acc. induction n as [|n IH]; intros m v acc H0 Hn Hm.
  - simpl in Hn. assert (v = 0) as -> by lia. by destruct m.
  - destruct m as [|m]; [assert (v = 0) as -> by (simpl in Hm; lia); done|].
    cbn [format_digits]. destruct (Z.ltb_spec 0 v); [|done].
    rewrite Nat2Z.inj_succ, Z.pow_succ_r in Hn, Hm by lia.
    apply IH; [apply Z.div_pos; lia|apply Z.div_lt_upper_bound; lia|apply Z.div_lt_upper_bound; lia].
Qed.

Lemma digits_fuel_enough v : 0 <= v -> v < 10 ^ Z.of_nat (digits_fuel v).
Proof.
  intros Hv. destruct (Z.eq_dec v 0) as [->|]; [apply Z.pow_pos_nonneg; lia|].
  unfold digits_fuel. pose proof (Z.log2_nonneg v).
  rewrite Z2Nat.id by lia. pose proof (Z.log2_spec v ltac:(lia)) as [_ Hlog].
  eapply Z.lt_le_trans; [exact Hlog|]. apply Z.pow_le_mono_l. lia.
Qed.

Lemma parse_format_digits n v acc k : 0 <= v -> v < 10 ^ Z.of_nat n ->
  parse_digits (format_digits n v acc) k =
  parse_digits acc (k * 10 ^ Z.of_nat (String.length (format_digits n v "")) + v).
Proof.
  revert v acc k. induction n as [|n IH]; intros v acc k H0 Hn.
  - simpl in *. assert (v = 0) as -> by lia. f_equal. lia.
  - cbn [format_digits]. destruct (Z.ltb_spec 0 v) as [Hv|Hv].
    2: { simpl. f_equal. lia. }
    rewrite Nat2Z.inj_succ, Z.pow_succ_r in Hn by lia.
    assert (0 <= v / 10) by (apply Z.div_pos; lia).
    assert (v / 10 < 10 ^ Z.of_nat n) by (apply Z.div_lt_upper_bound; lia).
    rewrite IH by done. cbn [parse_digits].
    pose proof (Z.mod_pos_bound v 10). rewrite digit_value_digit by lia. f_equal.
    assert (Hlen : forall n v s, String.length (format_digits n v s) =
      (String.length (format_digits n v "") + String.length s)%nat).
    { clear. induction n as [|n IH]; intros v s; simpl; [done|].
      destruct (0 <? v); [|done]. rewrite (IH _ (String _ s)), (IH _ (String _ "")). simpl. lia. }
    rewrite (Hlen n (v / 10) (String (digit (v mod 10)) "")).
    cbn [String.length]. rewrite Nat2Z.inj_add, Z.pow_add_r by lia.
    pose proof (Z.div_mod v 10). change (Z.of_nat 1) with 1. lia.
Qed.

Lemma format_digits_nonempty v : 0 < v ->
  exists c s, format_digits (digits_fuel v) v "" = String c s /\ exists d, 0 <= d < 10 /\ c = digit d.
Proof.
  intros Hv. destruct (digits_fuel_step v Hv) as [n ->]. cbn [format_digits].
  destruct (Z.ltb_spec 0 v); [|lia].
  assert (H' : forall n v c s, (exists d, 0 <= d < 10 /\ c = digit d) ->
    exists c' s', format_digits n v (String c s) = String c' s' /\ exists d, 0 <= d < 10 /\ c' = digit d).
  { clear. induction n as [|n IH]; intros v c s Hc; simpl; [eauto|].
    destruct (0 <? v); [|eauto]. apply IH. exists (v mod 10).
    split; [apply Z.mod_pos_bound; lia|done]. }
  apply H'. exists (v mod 10). split; [apply Z.mod_pos_bound; lia|done].
Qed.

Lemma digit_not_sign d : 0 <= d < 10 ->
  Ascii.eqb (digit d) "+"%char = false /\ Ascii.eqb (digit d) "-"%char = false.
Proof.
  intros H. assert (d = 0 \/ d = 1 \/ d = 2 \/ d = 3 \/ d = 4 \/ d = 5 \/ d = 6 \/ d = 7
    \/ d = 8 \/ d = 9) as Hd by lia.
  destruct_or!; subst; done.
Qed.

Lemma ParseInt_FormatInt_eq v : ParseInt (FormatInt v) = if (int64_min <=? v) && (v <=? int64_max) then Some v else None.
Proof.
  unfold int64_min, int64_max, FormatInt.
  destruct (Z.eqb_spec v 0) as [->|H0]; [done|].
  destruct (Z.ltb_spec v 0) as [Hneg|Hpos].
  - change (ParseInt (String "-" (format_digits (digits_fuel (- v)) (- v) ""))
      = if (- 2 ^ 63 <=? v) && (v <=? 2 ^ 63 - 1) then Some v else None).
    unfold ParseInt. cbn [Ascii.eqb]. simpl.
    destruct (format_digits_nonempty (- v) ltac:(lia)) as (c & s & E & _).
    unfold parse_unsigned. rewrite E, <- E.
    rewrite parse_format_digits by (try apply digits_fuel_enough; lia).
    cbn [parse_digits]. rewrite Z.mul_0_l, Z.add_0_l, Z.opp_involutive.
    destruct (_ <=? _) eqn:?; destruct (_ && _) eqn:?; (done || lia).
  - destruct (format_digits_nonempty v ltac:(lia)) as (c & s & E & d & Hd & ->).
    unfold ParseInt. rewrite E. destruct (digit_not_sign d Hd) as [-> ->].
    unfold parse_unsigned. rewrite <- E.
    rewrite parse_format_digits by (try apply digits_fuel_enough; lia).
    cbn [parse_digits]. rewrite Z.mul_0_l, Z.add_0_l.
    destruct (_ <? _) eqn:?; destruct (_ && _) eqn:?; (done || lia).
Qed.
Lemma ParseInt_FormatInt v : in_int64 v -> ParseInt (FormatInt v) = Some v.
Proof.
  unfold in_int64. intros Hv. rewrite ParseInt_FormatInt_eq.
  destruct (_ && _) eqn:?; (done || lia).
Qed.

(** *** Substrings *)
Lemma app_String a (s t : string) : String a s +:+ t = String a (s +:+ t).
Proof. done. Qed.

Lemma prefix_app p s : String.prefix p (p +:+ s) = true.
Proof.
  induction p as [|a p IH]; [by destruct s|]. rewrite app_String. cbn [String.prefix].
  destruct (Ascii.ascii_dec a a); [exact IH|done].
Qed.

Lemma Contains_app_r s1 s2 sub : Contains s2 sub = true -> Contains (s1 +:+ s2) sub = true.
Proof. induction s1 as [|a s1 IH]; intros H; [done|]. rewrite app_String. cbn [Contains]. by rewrite IH, orb_true_r. Qed.

Lemma prefix_app_l p s t : String.prefix p s = true -> String.prefix p (s +:+ t) = true.
Proof.
  revert s. induction p as [|a p IH]; intros s H; [by destruct (s +:+ t)|].
  destruct s as [|b s]; [done|]. rewrite app_String. revert H. cbn [String.prefix].
  destruct (Ascii.ascii_dec a b); [intros H; by apply IH|done].
Qed.

Lemma Contains_app_l s1 s2 sub : Contains s1 sub = true -> Contains (s1 +:+ s2) sub = true.
Proof.
  induction s1 as [|a s1 IH]; cbn [Contains].
  - rewrite orb_false_r. destruct sub; [|done]. intros _. by destruct s2.
  - rewrite app_String. cbn [Contains]. intros [H|H]%orb_true_iff.
    + apply orb_true_iff. left. by apply (prefix_app_l _ (String a s1)).
    + rewrite IH by done. apply orb_true_r.
Qed.

Lemma Contains_refl s : Contains s s = true.
Proof.
  assert (String.prefix s s = true) as H.
  { induction s as [|a s IH]; cbn; [done|]. by destruct (Ascii.ascii_dec a a). }
  destruct s; [done|]. cbn [Contains]. by rewrite H.
Qed.

Example TrimSpace_ex : TrimSpace "  a b	" = "a b".
Proof. vm_compute. reflexivity. Qed.

Lemma string_assoc (a b c : string) : a +:+ (b +:+ c) = (a +:+ b) +:+ c.
Proof. induction a as [|x a IH]; [done|]. by rewrite !app_String, IH. Qed.

Lemma prefix_spec p s : String.prefix p s = true <-> exists t, s = p +:+ t.
Proof.
  split.
  - revert s. induction p as [|a p IH]; intros s; [by exists s|].
    destruct s as [|b s]; [done|]. simpl. destruct (Ascii.ascii_dec a b) as [<-|]; [|done].
    intros [t ->]%IH. by exists t.
  - intros [t ->]. apply prefix_app.
Qed.

(** [strings.Contains] is being an infix. *)
Lemma Contains_spec s sub : Contains s sub = true <-> exists a b, s = a +:+ sub +:+ b.
Proof.
  split.
  - induction s as [|c s IH]; cbn [Contains]; intros [H|H]%orb_true_iff; try done.
    + apply prefix_spec in H as [t ->]. by exists "", t.
    + apply prefix_spec in H as [t ->]. by exists "", t.
    + destruct (IH H) as (a & b & ->). exists (String c a), b. by rewrite app_String.
  - intros (a & b & ->). apply Contains_app_r, Contains_app_l, Contains_refl.
Qed.

Lemma Contains_trans s t u : Contains t u = true -> Contains s t = true -> Contains s u = true.
Proof.
  rewrite !Contains_spec. intros (a & b & ->) (c & d & ->).
  exists (c +:+ a), (b +:+ d). by rewrite !string_assoc.
Qed.

(** *** Building keys *)
Lemma string_app_length (a b : string) : String.length (a +:+ b) = (String.length a + String.length b)%nat.
Proof. induction a as [|x a IH]; [done|]. rewrite app_String. cbn [String.length]. by rewrite IH. Qed.

Lemma app_inj_r (a b c : string) : a +:+ c = b +:+ c -> a = b.
Proof.
  intros H. assert (Hl : String.length a = String.length b).
  { apply (f_equal String.length) in H. rewrite !string_app_length in H. lia. }
  revert b H Hl. induction a as [|x a IH]; intros [|y b] H Hl; try done.
  rewrite !app_String in H. injection H as -> H. f_equal. apply IH; [done|]. cbn in Hl. lia.
Qed.

Lemma app_inj_l (c a b : string) : c +:+ a = c +:+ b -> a = b.
Proof. induction c as [|x c IH]; [done|]. rewrite !app_String. intros [= H]. auto. Qed.

Fixpoint last_char (s : string) : option ascii :=
  match s with
  | EmptyString => None
  | String a EmptyString => Some a
  | String _ s => last_char s
  end.
Lemma last_char_app a c s : last_char (a +:+ String c s) = last_char (String c s).
Proof.
  induction a as [|x a IH]; [done|]. rewrite app_String. cbn [last_char].
  destruct (a +:+ String c s) eqn:E; [by destruct a|exact IH].
Qed.
Lemma last_char_ne a b : last_char a <> last_char b -> a <> b.
Proof. by intros ? ->. Qed.

(** The number a decimal text stands for, without a range check. *)
Definition decimal (s : string) : option Z :=
  match s with
  | String a t => if Ascii.eqb a "-"%char then Z.opp <$> parse_digits t 0 else parse_digits s 0
  | EmptyString => None
  end.
Lemma decimal_FormatInt v : decimal (FormatInt v) = Some v.
Proof.
  unfold FormatInt. destruct (Z.eqb_spec v 0) as [->|H0]; [done|].
  destruct (Z.ltb_spec v 0) as [Hneg|Hpos].
  - change (Z.opp <$> parse_digits (format_digits (digits_fuel (- v)) (- v) "") 0 = Some v).
    rewrite parse_format_digits by (try apply digits_fuel_enough; lia).
    cbn [parse_digits]. simpl. f_equal. lia.
  - destruct (format_digits_nonempty v ltac:(lia)) as (c & s & E & d & Hd & ->).
    unfold decimal. rewrite E. destruct (digit_not_sign d Hd) as [_ ->]. rewrite <- E.
    rewrite parse_format_digits by (try apply digits_fuel_enough; lia). simpl. f_equal; lia.
Qed.
Lemma FormatInt_inj a b : FormatInt a = FormatInt b -> a = b.
Proof. intros H. apply (f_equal decimal) in H. rewrite !decimal_FormatInt in H. by injection H. Qed.

Lemma format_digits_app n v acc : format_digits n v acc = format_digits n v "" +:+ acc.
Proof.
  revert v acc. induction n as [|n IH]; intros v acc; [done|]. cbn [format_digits].
  destruct (0 <? v); [|done]. rewrite IH, (IH _ (String _ "")), <- string_assoc. done.
Qed.
(** The text of an integer ends in a digit. *)
Lemma last_char_FormatInt v : exists d, 0 <= d < 10 /\ last_char (FormatInt v) = Some (digit d).
Proof.
  assert (Hpos : forall v, 0 < v -> exists d, 0 <= d < 10 /\ forall s, last_char (s +:+ format_digits (digits_fuel v) v "") = Some (digit d)).
  { clear. intros v Hv. destruct (digits_fuel_step v Hv) as [n ->]. exists (v mod 10). split; [apply Z.mod_pos_bound; lia|].
    intros s. cbn [format_digits]. destruct (Z.ltb_spec 0 v); [|lia]. rewrite format_digits_app, string_assoc. apply last_char_app. }
  unfold FormatInt. destruct (Z.eqb_spec v 0); [by exists 0|]. destruct (Z.ltb_spec v 0).
  - destruct (Hpos (- v)) as (d & ? & Hd); [lia|]. eauto.
  - destruct (Hpos v) as (d & ? & Hd); [lia|]. exists d. split; [done|]. apply (Hd "").
Qed.

(** *** Splitting what was joined *)
(** A string without the separator. *)
Definition free_of (sep : ascii) (s : string) : bool :=
  forallb (fun a => negb (Ascii.eqb a sep)) (String.list_ascii_of_string s).

Lemma Split_free sep s : free_of sep s = true -> Split sep s = [s].
Proof.
  unfold free_of. induction s as [|a s IH]; [done|]. cbn [String.list_ascii_of_string forallb Split].
  intros [H1%negb_true_iff H2]%andb_true_iff. rewrite H1. by rewrite IH.
Qed.
Lemma Split_app sep a s : free_of sep a = true -> Split sep (a +:+ String sep s) = a :: Split sep s.
Proof.
  unfold free_of. induction a as [|x a IH].
  - intros _. change (Split sep (String sep s) = "" :: Split sep s). cbn [Split]. by rewrite Ascii.eqb_refl.
  - rewrite app_String. cbn [String.list_ascii_of_string forallb Split].
    intros [H1%negb_true_iff H2]%andb_true_iff. rewrite H1. by rewrite IH.
Qed.

(** ** Valid UTF-8 *)
(** The code points that [encode_rune] writes as they are. *)
Definition is_scalar (r : Z) : bool := (0 <=? r) && (r <=? 1114111) && negb ((55296 <=? r) && (r <=? 57343)).

Lemma byteZ_bound a : 0 <= byteZ a < 256.
Proof. unfold byteZ. pose proof (N_ascii_bounded a). lia. Qed.
Lemma byteZ_byte_of_Z z : 0 <= z < 256 -> byteZ (byte_of_Z z) = z.
Proof. intros. unfold byteZ, byte_of_Z. rewrite N_ascii_embedding; lia. Qed.

Lemma decode_rune_scalar s : is_scalar (decode_rune s).1 = true.
Proof.
  unfold is_scalar, decode_rune, is_cont.
  repeat (case_match; try reflexivity); cbn [fst]; subst; pose proof (byteZ_bound a); try lia.
Qed.

Lemma decode_rune_encode r t : is_scalar r = true ->
  decode_rune (encode_rune r +:+ t) = (r, String.length (encode_rune r)).
Proof.
  unfold is_scalar. intros Hr. unfold encode_rune.
  replace ((r <? 0) || (1114111 <? r) || ((55296 <=? r) && (r <=? 57343))) with false by lia.
  destruct (Z.leb_spec r 127); [|destruct (Z.leb_spec r 2047); [|destruct (Z.leb_spec r 65535)]];
    rewrite ?app_String; unfold decode_rune, is_cont; rewrite ?app_String;
    rewrite !byteZ_byte_of_Z by (Z.to_euclidean_division_equations; lia).
  - by replace (r <? 128) with true by lia.
  - replace (192 + r / 64 <? 128) with false by (Z.to_euclidean_division_equations; lia).
    replace ((194 <=? 192 + r / 64) && (192 + r / 64 <=? 223)) with true by (Z.to_euclidean_division_equations; lia).
    replace ((128 <=? 128 + r mod 64) && (128 + r mod 64 <=? 191)) with true by (Z.to_euclidean_division_equations; lia).
    f_equal. Z.to_euclidean_division_equations; lia.
  - replace (224 + r / 4096 <? 128) with false by (Z.to_euclidean_division_equations; lia).
    replace ((194 <=? 224 + r / 4096) && (224 + r / 4096 <=? 223)) with false by (Z.to_euclidean_division_equations; lia).
    replace ((224 <=? 224 + r / 4096) && (224 + r / 4096 <=? 239)) with true by (Z.to_euclidean_division_equations; lia).
    match goal with |- (if ?b then _ else _) = _ => replace b with true by (Z.to_euclidean_division_equations; lia) end.
    f_equal. Z.to_euclidean_division_equations; lia.
  - replace (240 + r / 262144 <? 128) with false by (Z.to_euclidean_division_equations; lia).
    replace ((194 <=? 240 + r / 262144) && (240 + r / 262144 <=? 223)) with false by (Z.to_euclidean_division_equations; lia).
    replace ((224 <=? 240 + r / 262144) && (240 + r / 262144 <=? 239)) with false by (Z.to_euclidean_division_equations; lia).
    match goal with |- (if ?b then _ else _) = _ => replace b with true by (Z.to_euclidean_division_equations; lia) end.
    f_equal. Z.to_euclidean_division_equations; lia.
Qed.

Lemma str_split_exact s t : str_split (String.length s) (s +:+ t) = (s, t).
Proof.
  induction s as [|a s IH]; [by destruct t|]. rewrite app_String. cbn [String.length str_split]. by rewrite IH.
Qed.

Lemma decode_fuel_enough n s : (String.length s <= n)%nat -> decode_fuel n s = decode s.
Proof.
  unfold decode. enough (H : forall n m s, (String.length s <= n)%nat -> (String.length s <= m)%nat -> decode_fuel n s = decode_fuel m s)
    by (intros; by apply H).
  clear. induction n as [|n IH]; intros [|m] [|a s] Hn Hm; try done; cbn [String.length] in *; try lia.
  cbn [decode_fuel]. destruct (decode_rune (String a s)) as [r w] eqn:E.
  pose proof (decode_rune_width a s) as Hw. rewrite E in Hw. cbn [snd] in Hw.
  pose proof (str_split_length w (String a s) Hw ltac:(done)) as Hl.
  destruct (str_split w (String a s)) as [p q]. cbn [snd String.length] in Hl. f_equal. apply IH; lia.
Qed.

Lemma decode_nonempty s : s <> "" ->
  decode s = let (r, n) := decode_rune s in let (p, q) := str_split n s in (r, p) :: decode q.
Proof.
  destruct s as [|a s]; [done|]. intros _. unfold decode at 1. cbn [String.length decode_fuel].
  destruct (decode_rune (String a s)) as [r w] eqn:E.
  pose proof (decode_rune_width a s) as Hw. rewrite E in Hw. cbn [snd] in Hw.
  pose proof (str_split_length w (String a s) Hw ltac:(done)) as Hl.
  destruct (str_split w (String a s)) as [p q]. cbn [snd String.length] in Hl. f_equal. apply decode_fuel_enough. lia.
Qed.

Lemma encode_rune_nonempty r t : encode_rune r +:+ t <> "".
Proof. unfold encode_rune. by repeat case_match. Qed.

Lemma decode_encode r t : is_scalar r = true -> decode (encode_rune r +:+ t) = (r, encode_rune r) :: decode t.
Proof.
  intros Hr. rewrite decode_nonempty by apply encode_rune_nonempty.
  rewrite decode_rune_encode by done. by rewrite str_split_exact.
Qed.

Lemma runes_scalar s : forallb is_scalar (runes s) = true.
Proof.
  unfold runes, decode. generalize (String.length s) as n. intros n. revert s.
  induction n as [|n IH]; intros [|a s]; try done. cbn [decode_fuel].
  pose proof (decode_rune_scalar (String a s)) as Hr. destruct (decode_rune (String a s)) as [r w].
  destruct (str_split w (String a s)) as [p q]. cbn [map forallb fst] in *. by rewrite Hr, IH.
Qed.

(** The string with U+FFFD in the place of every invalid byte, as [encoding/json]
    writes it ([strings.ToValidUTF8] of every byte apart). *)
Definition valid_utf8 (s : string) : string := concat_str (map encode_rune (runes s)).

Lemma runes_encoded l : forallb is_scalar l = true -> runes (concat_str (map encode_rune l)) = l.
Proof.
  unfold runes. induction l as [|r l IH]; [done|]. cbn [forallb map concat_str]. intros [Hr Hl]%andb_true_iff.
  rewrite decode_encode by done. cbn [map fst]. by rewrite IH.
Qed.
Lemma runes_valid_utf8 s : runes (valid_utf8 s) = runes s.
Proof. apply runes_encoded, runes_scalar. Qed.
Lemma valid_utf8_idem s : valid_utf8 (valid_utf8 s) = valid_utf8 s.
Proof. unfold valid_utf8 at 1. by rewrite runes_valid_utf8. Qed.

Lemma valid_utf8_ascii s : all_ascii s = true -> valid_utf8 s = s.
Proof.
  unfold valid_utf8, runes. induction s as [|a s IH]; [done|]. cbn [all_ascii]. intros [Ha Hs]%andb_true_iff.
  rewrite decode_nonempty by done. cbn [decode_rune]. rewrite Ha. cbn [str_split map fst concat_str].
  rewrite IH by done. unfold encode_rune. pose proof (byteZ_bound a).
  replace ((byteZ a <? 0) || (1114111 <? byteZ a) || ((55296 <=? byteZ a) && (byteZ a <=? 57343))) with false by lia.
  replace (byteZ a <=? 127) with true by lia. rewrite app_String. f_equal.
  unfold byte_of_Z, byteZ. by rewrite N2Z.id, ascii_N_embedding.
Qed.

(** A string is blank when all its runes are white space. *)
Lemma drop_space_nil l : drop_space l = [] <-> forallb IsSpace (map fst l) = true.
Proof.
  induction l as [|[r p] l IH]; [done|]. cbn [drop_space map fst forallb]. destruct (IsSpace r); [exact IH|done].
Qed.
Lemma drop_space_head l : forallb IsSpace (map fst (drop_space l)) = true -> drop_space l = [].
Proof.
  induction l as [|[r p] l IH]; [done|]. cbn [drop_space]. destruct (IsSpace r) eqn:E; [exact IH|].
  cbn [map forallb fst]. by rewrite E.
Qed.
Lemma drop_space_Forall (P : Z * string -> Prop) l : Forall P l -> Forall P (drop_space l).
Proof. induction 1 as [|[r p] l Hx Hl IH]; cbn [drop_space]; [done|]. destruct (IsSpace r); [done|by constructor]. Qed.
Lemma decode_pieces s : Forall (fun x => x.2 <> "") (decode s).
Proof.
  unfold decode. generalize (String.length s) as n. intros n. revert s.
  induction n as [|n IH]; intros [|a s]; try constructor. cbn [decode_fuel].
  pose proof (decode_rune_width a s) as Hw. destruct (decode_rune (String a s)) as [r [|w]]; [cbn in Hw; lia|].
  cbn [str_split]. destruct (str_split w s) as [p q]. by constructor.
Qed.
Lemma concat_pieces_nil l : Forall (fun x : Z * string => x.2 <> "") l -> concat_str (map snd l) = "" -> l = [].
Proof. destruct 1 as [|[r [|a p]] l Hx _]; [done| |]; intros H; [done|by cbn in H]. Qed.

Lemma TrimSpace_blank s : TrimSpace s = "" <-> forallb IsSpace (runes s) = true.
Proof.
  unfold TrimSpace, runes. split.
  - intros H. apply concat_pieces_nil in H; [|by apply Forall_rev, drop_space_Forall, Forall_rev, drop_space_Forall, decode_pieces].
    apply (f_equal (@rev _)) in H. rewrite rev_involutive in H. apply drop_space_nil.
    apply drop_space_nil in H. rewrite map_rev, forallb_forall in H.
    apply drop_space_head, forallb_forall. intros x Hx. by apply H, (proj1 (in_rev _ _)).
  - intros H%drop_space_nil. by rewrite H.
Qed.
Lemma TrimSpace_valid_utf8 s : TrimSpace (valid_utf8 s) = "" <-> TrimSpace s = "".
Proof. by rewrite !TrimSpace_blank, runes_valid_utf8. Qed.

Lemma format_digits_ascii n v acc : all_ascii acc = true -> all_ascii (format_digits n v acc) = true.
Proof.
  revert v acc. induction n as [|n IH]; intros v acc Hacc; [done|]. cbn [format_digits].
  destruct (0 <? v); [|done]. apply IH. cbn [all_ascii]. rewrite Hacc, byteZ_digit by (apply Z.mod_pos_bound; lia).
  pose proof (Z.mod_pos_bound v 10 ltac:(lia)). lia.
Qed.
Lemma FormatInt_ascii v : all_ascii (FormatInt v) = true.
Proof.
  unfold FormatInt. destruct (v =? 0); [done|]. destruct (v <? 0); [|by apply format_digits_ascii].
  change ("-" +:+ ?t) with (String "-" t). cbn [all_ascii]. by rewrite format_digits_ascii.
Qed.
