(* ===== verification/Base64.v ===== *)
(** [encoding/base64] of the standard library, as far as the code uses it:
    [StdEncoding] through [encoding/json] (byte slices) and [RawURLEncoding] in the
    tokens. *)
From S2P Require Import Prelude GoStrings.
From Stdlib Require Import Ascii.

(** The 62nd and 63rd characters tell the two alphabets apart. *)
Definition char64 (c62 c63 v : Z) : Ascii.ascii :=
  byte_of_Z (if v <? 26 then 65 + v else if v <? 52 then 97 + (v - 26) else if v <? 62 then 48 + (v - 52)
             else if v =? 62 then c62 else c63).
Definition value64 (c62 c63 : Z) (a : Ascii.ascii) : option Z :=
  let c := byteZ a in
  if (65 <=? c) && (c <=? 90) then Some (c - 65)
  else if (97 <=? c) && (c <=? 122) then Some (c - 97 + 26)
  else if (48 <=? c) && (c <=? 57) then Some (c - 48 + 52)
  else if c =? c62 then Some 62 else if c =? c63 then Some 63 else None.

Definition pad_char : string := "=".

Section codec.
Variables (c62 c63 : Z) (pad : bool).
Let ch := char64 c62 c63.

Fixpoint encode64 (s : string) : string :=
  match s with
  | EmptyString => ""
  | String a (String b (String c s)) =>
    let a := byteZ a in let b := byteZ b in let c := byteZ c in
    String (ch (a / 4)) (String (ch (a mod 4 * 16 + b / 16)) (String (ch (b mod 16 * 4 + c / 64))
      (String (ch (c mod 64)) (encode64 s))))
  | String a (String b EmptyString) =>
    let a := byteZ a in let b := byteZ b in
    String (ch (a / 4)) (String (ch (a mod 4 * 16 + b / 16)) (String (ch (b mod 16 * 4)) (if pad then pad_char else "")))
  | String a EmptyString =>
    let a := byteZ a in
    String (ch (a / 4)) (String (ch (a mod 4 * 16)) (if pad then pad_char +:+ pad_char else ""))
  end.
End codec.

Section decoder.
Variables (c62 c63 : Z).
Let val := value64 c62 c63.

(** Without padding; left-over bits of the last character are dropped. *)
Fixpoint decode64 (s : string) : option string :=
  match s with
  | EmptyString => Some ""
  | String a (String b (String c (String d s))) =>
    a ← val a; b ← val b; c ← val c; d ← val d; rest ← decode64 s;
    Some (String (byte_of_Z (a * 4 + b / 16)) (String (byte_of_Z (b mod 16 * 16 + c / 4))
           (String (byte_of_Z (c mod 4 * 64 + d)) rest)))
  | String a (String b (String c EmptyString)) =>
    a ← val a; b ← val b; c ← val c;
    Some (String (byte_of_Z (a * 4 + b / 16)) (String (byte_of_Z (b mod 16 * 16 + c / 4)) ""))
  | String a (String b EmptyString) =>
    a ← val a; b ← val b; Some (String (byte_of_Z (a * 4 + b / 16)) "")
  | String _ EmptyString => None
  end.

(** With padding, which ends the text. *)
Fixpoint decode64_padded (s : string) : option string :=
  match s with
  | EmptyString => Some ""
  | String a (String b (String c (String d s))) =>
    a ← val a; b ← val b;
    let first := byte_of_Z (a * 4 + b / 16) in
    if Ascii.eqb d "="%char then
      match s with
      | EmptyString =>
        if Ascii.eqb c "="%char then Some (String first "")
        else c ← val c; Some (String first (String (byte_of_Z (b mod 16 * 16 + c / 4)) ""))
      | String _ _ => None
      end
    else
      c ← val c; d ← val d; rest ← decode64_padded s;
      Some (String first (String (byte_of_Z (b mod 16 * 16 + c / 4)) (String (byte_of_Z (c mod 4 * 64 + d)) rest)))
  | _ => None
  end.
End decoder.

(** Line breaks are ignored by the decoder. *)
Fixpoint skip_newlines (s : string) : string :=
  match s with
  | EmptyString => ""
  | String a s => if (byteZ a =? 10) || (byteZ a =? 13) then skip_newlines s else String a (skip_newlines s)
  end.

Definition StdEncode : string -> string := encode64 43 47 true.
Definition StdDecode (s : string) : option string := decode64_padded 43 47 (skip_newlines s).
Definition RawURLEncode : string -> string := encode64 45 95 false.
Definition RawURLDecode (s : string) : option string := decode64 45 95 (skip_newlines s).

(** *** Round trip *)
Lemma byteZ_range a : 0 <= byteZ a < 256.
Proof. unfold byteZ. pose proof (Ascii.N_ascii_bounded a). lia. Qed.

Lemma byte_of_byteZ a : byte_of_Z (byteZ a) = a.
Proof. unfold byte_of_Z, byteZ. rewrite N2Z.id. apply Ascii.ascii_N_embedding. Qed.

Lemma byte_eq z a : z = byteZ a -> byte_of_Z z = a.
Proof. intros ->. apply byte_of_byteZ. Qed.

Lemma below_64_cases (P : Z -> bool) : forallb P (map Z.of_nat (seq 0 64)) = true -> forall v, 0 <= v < 64 -> P v = true.
Proof.
  intros Hall v Hv. rewrite forallb_forall in Hall. apply Hall. rewrite in_map_iff.
  exists (Z.to_nat v). split; [lia|]. apply in_seq. lia.
Qed.

Lemma string3_ind (P : string -> Prop) :
  P "" -> (forall a, P (String a "")) -> (forall a b, P (String a (String b ""))) ->
  (forall a b c s, P s -> P (String a (String b (String c s)))) -> forall s, P s.
Proof.
  intros H0 H1 H2 H3. fix IH 1. intros [|a [|b [|c s]]]; [exact H0|exact (H1 a)|exact (H2 a b)|exact (H3 a b c s (IH s))].
Qed.

Section roundtrip.
(** An alphabet whose characters are told apart and are not line breaks. *)
Variables (c62 c63 : Z).
Hypothesis alphabet_ok :
  forallb (fun v => bool_decide (value64 c62 c63 (char64 c62 c63 v) = Some v)
                    && negb ((byteZ (char64 c62 c63 v) =? 10) || (byteZ (char64 c62 c63 v) =? 13)
                             || (byteZ (char64 c62 c63 v) =? 46) || (byteZ (char64 c62 c63 v) =? 36)
                             || (byteZ (char64 c62 c63 v) =? 61)))
    (map Z.of_nat (seq 0 64)) = true.

Lemma alphabet v : 0 <= v < 64 -> value64 c62 c63 (char64 c62 c63 v) = Some v
  /\ (byteZ (char64 c62 c63 v) =? 10) || (byteZ (char64 c62 c63 v) =? 13) = false
  /\ Ascii.eqb (char64 c62 c63 v) "."%char = false /\ Ascii.eqb (char64 c62 c63 v) "$"%char = false
  /\ Ascii.eqb (char64 c62 c63 v) "="%char = false.
Proof.
  intros Hv. pose proof (below_64_cases _ alphabet_ok v Hv) as H.
  apply andb_true_iff in H as [H1 H2]. apply bool_decide_eq_true in H1. apply negb_true_iff in H2.
  rewrite !orb_false_iff in H2. destruct H2 as [[[[H2 H3] H4] H5] H6]. split; [done|]. split; [by rewrite H2, H3|].
  split_and!; apply not_true_iff_false; intros E%Ascii.eqb_eq; rewrite E in *; done.
Qed.
Lemma value_char64 v : 0 <= v < 64 -> value64 c62 c63 (char64 c62 c63 v) = Some v.
Proof. apply alphabet. Qed.
Lemma char64_visible v : 0 <= v < 64 -> (byteZ (char64 c62 c63 v) =? 10) || (byteZ (char64 c62 c63 v) =? 13) = false.
Proof. apply alphabet. Qed.

Lemma skip_newlines_encoded s : skip_newlines (encode64 c62 c63 false s) = encode64 c62 c63 false s.
Proof.
  induction s as [|a|a b|a b c s IH] using string3_ind; cbn [encode64 skip_newlines]; [done|..];
    pose proof (byteZ_range a); try pose proof (byteZ_range b); try pose proof (byteZ_range c);
    rewrite !char64_visible by (Z.to_euclidean_division_equations; lia); [done|done|by rewrite IH].
Qed.

Lemma encode64_roundtrip s : decode64 c62 c63 (skip_newlines (encode64 c62 c63 false s)) = Some s.
Proof.
  rewrite skip_newlines_encoded.
  induction s as [|a|a b|a b c s IH] using string3_ind; [done|..];
    pose proof (byteZ_range a); try pose proof (byteZ_range b); try pose proof (byteZ_range c);
    cbn [encode64 decode64]; rewrite !value_char64 by (Z.to_euclidean_division_equations; lia);
    cbn [mbind option_bind]; rewrite ?IH; cbn [mbind option_bind].
  all: repeat first [apply byte_eq; Z.to_euclidean_division_equations; lia | done | f_equal].
Qed.

(** With padding. *)
Lemma char64_not_pad v : 0 <= v < 64 -> Ascii.eqb (char64 c62 c63 v) "="%char = false.
Proof. apply alphabet. Qed.
Lemma skip_newlines_padded s : skip_newlines (encode64 c62 c63 true s) = encode64 c62 c63 true s.
Proof.
  induction s as [|a|a b|a b c s IH] using string3_ind; cbn [encode64 skip_newlines]; [done|..];
    pose proof (byteZ_range a); try pose proof (byteZ_range b); try pose proof (byteZ_range c);
    rewrite !char64_visible by (Z.to_euclidean_division_equations; lia); [done|done|by rewrite IH].
Qed.
Lemma encode64_padded_roundtrip s : decode64_padded c62 c63 (skip_newlines (encode64 c62 c63 true s)) = Some s.
Proof.
  rewrite skip_newlines_padded.
  induction s as [|a|a b|a b c s IH] using string3_ind; [done|..];
    pose proof (byteZ_range a); try pose proof (byteZ_range b); try pose proof (byteZ_range c);
    cbn [encode64]; unfold pad_char; rewrite ?app_String; cbn [decode64_padded];
    rewrite !value_char64 by (Z.to_euclidean_division_equations; lia);
    cbn [mbind option_bind Ascii.eqb Bool.eqb]; rewrite ?char64_not_pad by (Z.to_euclidean_division_equations; lia);
    rewrite ?value_char64 by (Z.to_euclidean_division_equations; lia);
    cbn [mbind option_bind]; rewrite ?IH; cbn [mbind option_bind].
  all: repeat first [apply byte_eq; Z.to_euclidean_division_equations; lia | done | f_equal].
Qed.

(** The separators of tokens and password hashes are not in the alphabet. *)
Lemma encode64_free sep s : sep = "."%char \/ sep = "$"%char ->
  free_of sep (encode64 c62 c63 false s) = true.
Proof.
  intros Hsep. unfold free_of.
  assert (Hch : forall v, 0 <= v < 64 -> Ascii.eqb (char64 c62 c63 v) sep = false).
  { intros v Hv. destruct (alphabet v Hv) as (_ & _ & H1 & H2 & _). by destruct Hsep as [->| ->]. }
  induction s as [|a|a b|a b c s IH] using string3_ind; [done|..];
    pose proof (byteZ_range a); try pose proof (byteZ_range b); try pose proof (byteZ_range c);
    cbn [encode64 String.list_ascii_of_string forallb];
    rewrite !Hch by (Z.to_euclidean_division_equations; lia); [done|done|exact IH].
Qed.
End roundtrip.

Definition RawStdEncode : string -> string := encode64 43 47 false.
Definition RawStdDecode (s : string) : option string := decode64 43 47 (skip_newlines s).

Lemma RawURL_roundtrip s : RawURLDecode (RawURLEncode s) = Some s.
Proof. by apply encode64_roundtrip; vm_compute. Qed.
Lemma RawStd_roundtrip s : RawStdDecode (RawStdEncode s) = Some s.
Proof. by apply encode64_roundtrip; vm_compute. Qed.
Lemma Std_roundtrip s : StdDecode (StdEncode s) = Some s.
Proof. by apply encode64_padded_roundtrip; vm_compute. Qed.
Lemma RawURL_free s : free_of "."%char (RawURLEncode s) = true.
Proof. apply encode64_free; [by vm_compute|by left]. Qed.
Lemma RawStd_free s : free_of "$"%char (RawStdEncode s) = true.
Proof. apply encode64_free; [by vm_compute|by right]. Qed.
