(* ===== verification/Mysql.v ===== *)
(** A MySQL connection as the repositories use it: committed tables, one open
    transaction working on its own copy, the server clock, and a schedule of
    faults.

    Every statement consumes one entry of the schedule. [NoFault] runs it;
    [Fails e] reports [e] without running it; [AckLost e] runs it and reports [e]
    (the connection breaks after the server executed it). An empty schedule means
    no more faults. Theorems about repositories quantify over all schedules.

    Transactions are serial: between [begin_tx] and [commit_tx] no other
    transaction commits (the statements of the modelled transactions take row
    locks on the rows they test and change). *)
From S2P Require Import Prelude GoStrings.

Inductive fault : Type :=
| NoFault
| Fails (e : error)
| AckLost (e : error).

Record Mysql (T : Type) : Type := mkMysql {
  committed : T;
  txn : option T;
  db_now : Z;           (** the server clock, nanoseconds since the epoch *)
  faults : list fault }.
Arguments mkMysql {T}.
Arguments committed {T}.
Arguments txn {T}.
Arguments db_now {T}.
Arguments faults {T}.

(** [NOW(3)]: the clock cut to milliseconds. *)
Definition NOW3 (now : Z) : Z := now / 1000000 * 1000000.

(** Behaviour of the server that the code relies on: [collate] is the comparison
    key of the column collation ([utf8mb4_0900_ai_ci]); [dup_entry_message] is
    the message of error 1062 for a value and a key name; [error_string] is what
    the driver prints for an error number and message; [datetime3] is how a time
    parameter is rounded into a [DATETIME(3)] column and [time_param] how it is
    seen in a comparison; [text_ok] says which byte strings a [utf8mb4] column
    accepts. *)
Class MySQLServer := {
  collate : string -> string;
  dup_entry_message : string -> string -> string;
  error_string : Z -> string -> string;
  datetime3 : Z -> Z;
  time_param : Z -> Z;
  text_ok : string -> bool }.

Fixpoint ascii_word (s : string) : bool :=
  match s with
  | EmptyString => true
  | String a s => (is_ascii_upper (byteZ a) || is_ascii_lower (byteZ a)) && ascii_word s
  end.

(** Documented behaviour: the message of a duplicate-key error names the key, the
    driver's text contains the word the message starts with, and the collation
    only identifies words of ASCII letters that differ in case. *)
Class MySQLServerOk `{UnicodeTables} `{MySQLServer} := {
  dup_entry_names_key : forall v key,
    Contains (ToLower (dup_entry_message v key)) (ToLower key) = true;
  error_string_duplicate : forall n v key,
    Contains (ToLower (error_string n (dup_entry_message v key))) "duplicate" = true;
  collate_words : forall a b, ascii_word a = true -> ascii_word b = true ->
    collate a = collate b -> ToLower a = ToLower b }.

Section dup.
Context `{MySQLServer}.
Definition ER_DUP_ENTRY : Z := 1062.
Definition dup_entry (value key : string) : error :=
  let m := dup_entry_message value key in
  MySQLError ER_DUP_ENTRY m (error_string ER_DUP_ENTRY m).
Definition ER_DATA_OUT_OF_RANGE : Z := 1690.
Definition out_of_range : error :=
  MySQLError ER_DATA_OUT_OF_RANGE "BIGINT value is out of range"
    (error_string ER_DATA_OUT_OF_RANGE "BIGINT value is out of range").
Definition ER_CHECK_CONSTRAINT_VIOLATED : Z := 3819.
Definition check_violated : error :=
  MySQLError ER_CHECK_CONSTRAINT_VIOLATED "Check constraint is violated."
    (error_string ER_CHECK_CONSTRAINT_VIOLATED "Check constraint is violated.").
Definition ER_TRUNCATED_WRONG_VALUE_FOR_FIELD : Z := 1366.
Definition incorrect_string : error :=
  MySQLError ER_TRUNCATED_WRONG_VALUE_FOR_FIELD "Incorrect string value"
    (error_string ER_TRUNCATED_WRONG_VALUE_FOR_FIELD "Incorrect string value").
Definition str_eq (a b : string) : bool := bool_decide (collate a = collate b).

Lemma str_eq_refl a : str_eq a a = true.
Proof. unfold str_eq. by rewrite bool_decide_true. Qed.
End dup.

(** A statement: from [NOW(3)] and the tables it sees, an error or a result and
    the new tables. *)
Definition stmt (T A : Type) : Type := Z -> T -> res (A * T).
Definition reads {T A} (f : T -> res A) : stmt T A := fun _ t =>
  match f t with Ok a => Ok (a, t) | Err e => Err e end.

Section conn.
Context {T : Type}.
Implicit Types s : Mysql T.

Definition next_fault (fl : list fault) : fault * list fault :=
  match fl with [] => (NoFault, []) | f :: fl => (f, fl) end.

(** A statement outside a transaction (autocommit). *)
Definition db_exec {A} (f : stmt T A) : M (Mysql T) A := fun s =>
  let (fa, fl) := next_fault (faults s) in
  let keep := mkMysql (committed s) (txn s) (db_now s) fl in
  match fa with
  | Fails e => (Err e, keep)
  | NoFault =>
    match f (NOW3 (db_now s)) (committed s) with
    | Ok (a, t) => (Ok a, mkMysql t (txn s) (db_now s) fl)
    | Err e => (Err e, keep)
    end
  | AckLost e =>
    match f (NOW3 (db_now s)) (committed s) with
    | Ok (_, t) => (Err e, mkMysql t (txn s) (db_now s) fl)
    | Err _ => (Err e, keep)
    end
  end.

(** [Ping]: a round trip that reads nothing. *)
Definition Store_Ping : M (Mysql T) unit := db_exec (reads (fun _ => Ok tt)).

(** [BeginTx]. *)
Definition begin_tx : M (Mysql T) unit := fun s =>
  let (fa, fl) := next_fault (faults s) in
  match fa with
  | NoFault => (Ok tt, mkMysql (committed s) (Some (committed s)) (db_now s) fl)
  | Fails e | AckLost e => (Err e, mkMysql (committed s) (txn s) (db_now s) fl)
  end.

(** A statement of the open transaction. *)
Definition tx_exec {A} (f : stmt T A) : M (Mysql T) A := fun s =>
  match txn s with
  | None => (Err sql_ErrTxDone, s)
  | Some t =>
    let (fa, fl) := next_fault (faults s) in
    let keep := mkMysql (committed s) (Some t) (db_now s) fl in
    match fa with
    | Fails e => (Err e, keep)
    | NoFault =>
      match f (NOW3 (db_now s)) t with
      | Ok (a, t') => (Ok a, mkMysql (committed s) (Some t') (db_now s) fl)
      | Err e => (Err e, keep)
      end
    | AckLost e =>
      match f (NOW3 (db_now s)) t with
      | Ok (_, t') => (Err e, mkMysql (committed s) (Some t') (db_now s) fl)
      | Err _ => (Err e, keep)
      end
    end
  end.

(** [tx.Commit()]; a failed commit leaves no open transaction. *)
Definition commit_tx : M (Mysql T) unit := fun s =>
  match txn s with
  | None => (Err sql_ErrTxDone, s)
  | Some t =>
    let (fa, fl) := next_fault (faults s) in
    match fa with
    | NoFault => (Ok tt, mkMysql t None (db_now s) fl)
    | Fails e => (Err e, mkMysql (committed s) None (db_now s) fl)
    | AckLost e => (Err e, mkMysql t None (db_now s) fl)
    end
  end.

(** [_ = tx.Rollback()]: no transaction stays open. *)
Definition rollback_tx : M (Mysql T) unit := fun s =>
  (Ok tt, mkMysql (committed s) None (db_now s) (faults s)).

(** [BeginTx] followed by a body under [defer tx.Rollback()]. *)
Definition with_tx {A} (body : M (Mysql T) A) : M (Mysql T) A :=
  begin_tx ≫= fun _ =>
  try body ≫= fun r =>
  rollback_tx ≫= fun _ =>
  of_res r.

(** *** Rules *)
Lemma wp_tx_exec {A} (f : stmt T A) Q c t n fl :
  (forall a t' fl', f (NOW3 n) t = Ok (a, t') -> Q (Ok a) (mkMysql c (Some t') n fl')) ->
  (forall e t' fl', Q (Err e) (mkMysql c (Some t') n fl')) ->
  wp (tx_exec f) Q (mkMysql c (Some t) n fl).
Proof.
  intros Hok Herr. unfold wp, tx_exec. simpl.
  destruct (next_fault fl) as [[|e|e] fl']; simpl; try apply Herr;
    destruct (f (NOW3 n) t) as [[a t']|e'] eqn:E; simpl; eauto.
Qed.

Lemma wp_db_exec {A} (f : stmt T A) Q c x n fl :
  (forall a t' fl', f (NOW3 n) c = Ok (a, t') -> Q (Ok a) (mkMysql t' x n fl')) ->
  (forall e fl', Q (Err e) (mkMysql c x n fl')) ->
  (forall e a t' fl', f (NOW3 n) c = Ok (a, t') -> Q (Err e) (mkMysql t' x n fl')) ->
  wp (db_exec f) Q (mkMysql c x n fl).
Proof.
  intros Hok Herr Hlost. unfold wp, db_exec. simpl.
  destruct (next_fault fl) as [[|e|e] fl']; simpl; try apply Herr;
    destruct (f (NOW3 n) c) as [[a t']|e'] eqn:E; simpl; eauto.
Qed.

(** A read outside a transaction leaves the tables alone. *)
Lemma wp_db_read {A} (f : T -> res A) Q c x n fl :
  (forall a fl', f c = Ok a -> Q (Ok a) (mkMysql c x n fl')) ->
  (forall e fl', Q (Err e) (mkMysql c x n fl')) ->
  wp (db_exec (reads f)) Q (mkMysql c x n fl).
Proof.
  intros Hok Herr. apply wp_db_exec; unfold reads.
  - intros a t' fl'. destruct (f c) eqn:E; [|done]. intros [= <- <-]. by apply Hok.
  - done.
  - intros e a t' fl'. destruct (f c); [|done]. intros [= _ <-]. apply Herr.
Qed.

Lemma wp_commit Q c t n fl :
  (forall fl', Q (Ok tt) (mkMysql t None n fl')) ->
  (forall e fl', Q (Err e) (mkMysql c None n fl')) ->
  (forall e fl', Q (Err e) (mkMysql t None n fl')) ->
  wp commit_tx Q (mkMysql c (Some t) n fl).
Proof.
  intros. unfold wp, commit_tx. simpl. destruct (next_fault fl) as [[|e|e] fl']; simpl; eauto.
Qed.

Lemma wp_rollback (Q : res unit -> Mysql T -> Prop) c x n fl :
  Q (Ok tt) (mkMysql c None n fl) -> wp rollback_tx Q (mkMysql c x n fl).
Proof. done. Qed.

(** [with_tx]: the body starts from a copy of the committed tables; whatever it
    returns, no transaction is left open. *)
Lemma wp_with_tx {A} (body : M (Mysql T) A) Q c x n fl :
  (forall e fl', Q (Err e) (mkMysql c x n fl')) ->
  (forall fl', wp body (fun r s => Q r (mkMysql (committed s) None (db_now s) (faults s)))
                 (mkMysql c (Some c) n fl')) ->
  wp (with_tx body) Q (mkMysql c x n fl).
Proof.
  intros Herr Hbody. unfold with_tx. apply wp_bind.
  unfold wp at 1, begin_tx. simpl.
  destruct (next_fault fl) as [[|e|e] fl']; simpl; try apply Herr.
  apply wp_bind, wp_try. eapply wp_mono; [apply Hbody|].
  intros r s HQ. simpl. apply wp_bind. unfold wp, rollback_tx, of_res. done.
Qed.

(** Without faults a statement does what it says. *)
Lemma tx_exec_nofault {A} (f : stmt T A) c t n a t' :
  f (NOW3 n) t = Ok (a, t') ->
  tx_exec f (mkMysql c (Some t) n []) = (Ok a, mkMysql c (Some t') n []).
Proof. intros H. unfold tx_exec. simpl. by rewrite H. Qed.
Lemma tx_exec_nofault_err {A} (f : stmt T A) c t n e :
  f (NOW3 n) t = Err e ->
  tx_exec f (mkMysql c (Some t) n []) = (Err e, mkMysql c (Some t) n []).
Proof. intros H. unfold tx_exec. simpl. by rewrite H. Qed.
Lemma db_exec_nofault {A} (f : stmt T A) c x n a t' :
  f (NOW3 n) c = Ok (a, t') ->
  db_exec f (mkMysql c x n []) = (Ok a, mkMysql t' x n []).
Proof. intros H. unfold db_exec. simpl. by rewrite H. Qed.
Lemma db_exec_nofault_err {A} (f : stmt T A) c x n e :
  f (NOW3 n) c = Err e ->
  db_exec f (mkMysql c x n []) = (Err e, mkMysql c x n []).
Proof. intros H. unfold db_exec. simpl. by rewrite H. Qed.

Lemma with_tx_nofault {A} (body : M (Mysql T) A) c x n :
  with_tx body (mkMysql c x n []) =
  let (r, s) := body (mkMysql c (Some c) n []) in
  (r, mkMysql (committed s) None (db_now s) (faults s)).
Proof.
  unfold with_tx, mbind, M_bind, begin_tx, try, rollback_tx, of_res. simpl.
  by destruct (body _) as [r s].
Qed.
End conn.

(** ** Where a computation may lead
    [leads n P m c]: started with the connection outside a transaction on tables [c]
    at server time [n], under any faults, [m] ends outside a transaction on tables
    with [P]. The connection is a part of the state [W] of the process. *)
Section leads.
Context {T W : Type} `{Lens (Mysql T) W} (n : Z).
Definition idle (P : T -> Prop) (w : W) : Prop :=
  txn (lget w) = None /\ db_now (lget w) = n /\ P (committed (lget w)).
Context (P : T -> Prop).

Definition leads {A} (m : M W A) (c : T) : Prop := forall w, idle (eq c) w -> wp m (fun _ => idle P) w.

Lemma idle_here c w : P c -> idle (eq c) w -> idle P w.
Proof. intros Hc (? & ? & ->). by split_and!. Qed.
Lemma idle_there t fl w : P t -> idle P (lset (mkMysql t None n fl) w).
Proof. intros Ht. unfold idle. by rewrite lget_lset. Qed.

Lemma leads_ret {A} (a : A) c : P c -> leads (mret a) c.
Proof. intros ? w. by apply idle_here. Qed.
Lemma leads_throw {A} e c : P c -> leads (A := A) (throw e) c.
Proof. intros ? w. by apply idle_here. Qed.
Lemma leads_of_res {A} (r : res A) c : P c -> leads (of_res r) c.
Proof. intros ? w. by apply idle_here. Qed.
Lemma leads_ignore {A} (m : M W A) c : leads m c -> leads (ignore m) c.
Proof. intros Hm w Hw. apply wp_ignore. by apply Hm. Qed.
Lemma leads_ext {A} (m m' : M W A) c : (forall w, m w = m' w) -> leads m' c -> leads m c.
Proof. intros Heq Hl w Hw. unfold wp. rewrite Heq. by apply Hl. Qed.

(** A statement, and what follows it. *)
Lemma leads_exec {A B} (f : stmt T A) (k : A -> M W B) c :
  P c -> (forall a t', f (NOW3 n) c = Ok (a, t') -> P t' /\ leads (k a) t') -> leads (zoom (db_exec f) ≫= k) c.
Proof.
  intros Hc Hk w (Ht & Hn & Hcom). apply wp_bind, wp_zoom. destruct (lget w) as [c0 x n0 fl]. cbn in Ht, Hn, Hcom. subst.
  apply wp_db_exec.
  - intros a t' fl' Hf. apply (proj2 (Hk a t' Hf)). unfold idle. by rewrite lget_lset.
  - intros e fl'. by apply idle_there.
  - intros e a t' fl' Hf. apply idle_there. by eapply Hk.
Qed.

Lemma leads_bind_assoc {A B C} (m : M W A) (k1 : A -> M W B) (k2 : B -> M W C) c :
  leads (m ≫= fun a => k1 a ≫= k2) c -> leads ((m ≫= k1) ≫= k2) c.
Proof. apply leads_ext. intros w. unfold mbind, M_bind. by destruct (m w) as [[a|e] w']. Qed.
Lemma leads_ret_bind {A B} (a : A) (k : A -> M W B) c : leads (k a) c -> leads (mret a ≫= k) c.
Proof. done. Qed.
Lemma leads_throw_bind {A B} e (k : A -> M W B) c : P c -> leads (throw e ≫= k) c.
Proof. intros ? w. by apply idle_here. Qed.
(** Several statements of the connection. *)
Lemma leads_zoom_bind {A B C} (m : M (Mysql T) A) (k1 : A -> M (Mysql T) B) (k2 : B -> M W C) c :
  leads (zoom m ≫= fun a => zoom (k1 a) ≫= k2) c -> leads (zoom (m ≫= k1) ≫= k2) c.
Proof.
  apply leads_ext. intros w. unfold mbind at 1, M_bind at 1. rewrite zoom_bind. unfold mbind, M_bind.
  by destruct (zoom m w) as [[a|e] w'].
Qed.
Lemma leads_zoom_ret {A B} (a : A) (k : A -> M W B) c : leads (k a) c -> leads (zoom (mret a) ≫= k) c.
Proof. apply leads_ext. intros w. unfold mbind, M_bind. by rewrite zoom_ret. Qed.
Lemma leads_zoom_throw {A B} e (k : A -> M W B) c : P c -> leads (zoom (throw e) ≫= k) c.
Proof. intros Hc w Hw. unfold wp, mbind, M_bind. rewrite zoom_throw. by eapply idle_here. Qed.

(** A computation that leaves the connection as it is. *)
Lemma leads_pure {A B} (m : M W A) (k : A -> M W B) c :
  (forall w, idle (eq c) w -> idle (eq c) (m w).2) -> P c -> (forall a, leads (k a) c) -> leads (m ≫= k) c.
Proof.
  intros Hm Hc Hk w Hw. apply wp_bind. unfold wp at 1. specialize (Hm w Hw).
  destruct (m w) as [[a|e] w']; [by apply Hk|by eapply idle_here].
Qed.
End leads.

(** ** SQL updates on a table kept as a list of rows *)
Section sql.
Context {R : Type} `{EqDecision R}.

(** [UPDATE ... SET f WHERE p]: the new rows and [RowsAffected()], the number
    of rows whose columns changed. *)
Definition sql_update (p : R -> bool) (f : R -> R) (rows : list R) : Z * list R :=
  (count_where (fun r => p r && negb (bool_decide (f r = r))) rows, update_where p f rows).

Lemma sql_update_rows p f rows : (sql_update p f rows).2 = update_where p f rows.
Proof. done. Qed.

Lemma count_where_pos (p : R -> bool) rows :
  count_where p rows <> 0 -> exists r, r ∈ rows /\ p r = true.
Proof.
  unfold count_where. intros H.
  destruct (List.filter p rows) as [|r l] eqn:E; [done|].
  exists r. rewrite list_elem_of_In. apply filter_In. rewrite E. by left.
Qed.
End sql.
