(* ===== verification/Json.v ===== *)
(** JSON values as [encoding/json] reads and writes them.

    A byte string is seen through [raw]: [Valid j] when it is the text of the
    JSON value [j], [Invalid b] otherwise. Key order and white space of the text
    are not observable by the code and are not kept, except inside [Invalid].
    Decoding into a struct follows [json.Unmarshal]: keys match field names
    without case, later keys override earlier ones, [null] leaves the field,
    unknown keys are skipped and a value of the wrong type is an error. *)
From S2P Require Import Prelude GoStrings.
From Stdlib Require Import SpecFloat.

Inductive json : Type :=
| JNull
| JBool (b : bool)
| JNum (z : Z)
| JFloat (f : spec_float)
| JStr (s : string)
| JArr (l : list json)
| JObj (o : list (string * json)).

Inductive raw : Type :=
| Valid (j : json)
| Invalid (b : string).

(** [len(raw) == 0] and [json.Valid(raw)]. *)
Definition raw_empty (r : raw) : bool :=
  match r with Invalid EmptyString => true | _ => false end.
Definition json_Valid (r : raw) : bool := match r with Valid _ => true | _ => false end.

(** [json.Marshal] of a payload value: infinite and NaN floats are refused. *)
Fixpoint json_finite (j : json) : bool :=
  match j with
  | JFloat f => match f with SpecFloat.S754_infinity _ | SpecFloat.S754_nan => false | _ => true end
  | JArr l => forallb json_finite l
  | JObj o => forallb (fun kv => json_finite (snd kv)) o
  | _ => true
  end.
Definition json_Marshal (j : json) : res raw :=
  if json_finite j then Ok (Valid j) else Err (Fresh "json: unsupported value").

(** What is read back of a value that was written: invalid bytes of strings and keys
    have become U+FFFD. *)
Fixpoint json_clean (j : json) : json :=
  match j with
  | JStr s => JStr (valid_utf8 s)
  | JArr l => JArr (map json_clean l)
  | JObj o => JObj (map (fun kv => (valid_utf8 (fst kv), json_clean (snd kv))) o)
  | _ => j
  end.
(** Values without floating point numbers (which may be written as integers). *)
Fixpoint json_no_float (j : json) : bool :=
  match j with
  | JFloat _ => false
  | JArr l => forallb json_no_float l
  | JObj o => forallb (fun kv => json_no_float (snd kv)) o
  | _ => true
  end.

(** The bytes of a value and the value of bytes. *)
Class JsonText := {
  json_text : json -> string;
  json_parse : string -> raw }.
(** Documented behaviour of [encoding/json]: what it writes it reads back, with
    U+FFFD in the place of invalid UTF-8 (strings are coerced to valid UTF-8). *)
Class JsonTextOk `{JsonText} := {
  json_parse_text : forall j, json_no_float j = true -> json_parse (json_text j) = Valid (json_clean j) }.
Definition raw_text `{JsonText} (r : raw) : string :=
  match r with Valid j => json_text j | Invalid b => b end.

(** [time.Time] as nanoseconds since the Unix epoch. *)
Definition zero_time : Z := -62135596800 * Second.
Definition IsZero (t : Z) : bool := t =? zero_time.

(** The RFC 3339 text of a time and its parser (package [time]). *)
Class TimeText := {
  time_text : Z -> string;
  parse_time : string -> option Z }.
Class TimeTextOk `{TimeText} := {
  parse_time_text : forall t, 0 <= t <= int64_max -> parse_time (time_text t) = Some t }.

Definition lower_ascii (s : string) : string :=
  map_bytes (fun r => if (65 <=? r) && (r <=? 90) then r + 32 else r) s.
Definition key_match (name key : string) : bool :=
  bool_decide (lower_ascii name = lower_ascii key).

(** The values given to a field, in order. *)
Definition field_values (name : string) (o : list (string * json)) : list json :=
  map snd (List.filter (fun '(k, _) => key_match name k) o).

Definition decode_field {A} (zero : A) (dec : json -> option A)
    (name : string) (o : list (string * json)) : option A :=
  fold_left (fun acc j =>
    match acc, j with
    | Some old, JNull => Some old
    | Some _, _ => dec j
    | None, _ => None
    end) (field_values name o) (Some zero).

Definition dec_string (j : json) : option string := match j with JStr s => Some s | _ => None end.
Definition dec_int64 (j : json) : option Z :=
  match j with
  | JNum z => if (int64_min <=? z) && (z <=? int64_max) then Some z else None
  | _ => None
  end.
Definition dec_bool (j : json) : option bool := match j with JBool b => Some b | _ => None end.
Definition dec_time `{TimeText} (j : json) : option Z :=
  match j with JStr s => parse_time s | _ => None end.
Definition dec_string_map (j : json) : option (list (string * string)) :=
  match j with
  | JObj o => mapM (fun '(k, v) => match v with JStr s => Some (k, s) | JNull => Some (k, "") | _ => None end) o
  | _ => None
  end.
(** A [json.RawMessage] field keeps any value, [null] included. *)
Definition decode_raw_field (name : string) (o : list (string * json)) : raw :=
  match last (field_values name o) with Some j => Valid j | None => Invalid "" end.

(** The object a struct is decoded from: [null] changes nothing. *)
Definition decode_object (r : raw) : option (list (string * json)) :=
  match r with
  | Valid (JObj o) => Some o
  | Valid JNull => Some []
  | _ => None
  end.

(** *** Computing fields of an object whose keys are literals *)
Fixpoint pick_values (bs : list bool) (o : list (string * json)) : list json :=
  match bs, o with
  | b :: bs, (_, v) :: o => if b then v :: pick_values bs o else pick_values bs o
  | _, _ => []
  end.
Lemma field_values_pick name o bs :
  map (fun kv => key_match name kv.1) o = bs -> field_values name o = pick_values bs o.
Proof.
  intros <-. unfold field_values. induction o as [|[k v] o IH]; [done|]. simpl.
  destruct (key_match name k); simpl; by rewrite IH.
Qed.

(** Replace the fields of the goal by the values of their keys. *)
Ltac json_keys :=
  unfold decode_field, decode_raw_field;
  repeat (erewrite field_values_pick by (vm_compute; reflexivity); cbn [pick_values fold_left last]).
