(* ===== verification/TaggedJson.v ===== *)
(** A concrete text for JSON values, with the proof that it is read back: an
    instance of the interface to [encoding/json] for evaluating definitions that
    depend on the bytes of a value. *)
From S2P Require Import Prelude GoStrings Json.
From Stdlib Require Import Ascii SpecFloat.

(** Tags, binary numerals and escaped strings. *)
Fixpoint print_pos (p : positive) : string :=
  match p with xH => ";" | xO p => "0" +:+ print_pos p | xI p => "1" +:+ print_pos p end.
Fixpoint parse_pos (s : string) : option (positive * string) :=
  match s with
  | String ";" s => Some (xH, s)
  | String "0" s => p ← parse_pos s; Some (xO p.1, p.2)
  | String "1" s => p ← parse_pos s; Some (xI p.1, p.2)
  | _ => None
  end.
Definition print_Z (z : Z) : string :=
  match z with Z0 => "z" | Zpos p => "+" +:+ print_pos p | Zneg p => "-" +:+ print_pos p end.
Definition parse_Z (s : string) : option (Z * string) :=
  match s with
  | String "z" s => Some (0, s)
  | String "+" s => p ← parse_pos s; Some (Zpos p.1, p.2)
  | String "-" s => p ← parse_pos s; Some (Zneg p.1, p.2)
  | _ => None
  end.
Fixpoint print_str (s : string) : string :=
  match s with EmptyString => ";" | String a s => String "." (String a (print_str s)) end.
Fixpoint parse_str (s : string) : option (string * string) :=
  match s with
  | String ";" s => Some ("", s)
  | String "." (String a s) => p ← parse_str s; Some (String a p.1, p.2)
  | _ => None
  end.
Definition print_bool (b : bool) : string := if b then "t" else "f".

Fixpoint print_json (j : json) : string :=
  match j with
  | JNull => "n"
  | JBool b => print_bool b
  | JNum z => "i" +:+ print_Z z
  | JFloat (S754_zero s) => "0" +:+ print_bool s
  | JFloat (S754_finite s m e) => "d" +:+ print_bool s +:+ print_pos m +:+ print_Z e
  | JFloat _ => ""
  | JStr s => "s" +:+ print_str s
  | JArr l => "[" +:+ (fix go l := match l with [] => "]" | x :: l => "," +:+ print_json x +:+ go l end) l
  | JObj o => "{" +:+ (fix go l := match l with [] => "}" | (k, x) :: l => "," +:+ print_str k +:+ print_json x +:+ go l end) o
  end.
Fixpoint print_arr (l : list json) : string :=
  match l with [] => "]" | x :: l => "," +:+ print_json x +:+ print_arr l end.
Fixpoint print_obj (o : list (string * json)) : string :=
  match o with [] => "}" | (k, x) :: o => "," +:+ print_str k +:+ print_json x +:+ print_obj o end.

Fixpoint parse_json (n : nat) (s : string) : option (json * string) :=
  match n with
  | O => None
  | S n =>
    match s with
    | String "n" s => Some (JNull, s)
    | String "t" s => Some (JBool true, s)
    | String "f" s => Some (JBool false, s)
    | String "i" s => p ← parse_Z s; Some (JNum p.1, p.2)
    | String "0" (String b s) => Some (JFloat (S754_zero (Ascii.eqb b "t")), s)
    | String "d" (String b s) => p ← parse_pos s; q ← parse_Z p.2; Some (JFloat (S754_finite (Ascii.eqb b "t") p.1 q.1), q.2)
    | String "s" s => p ← parse_str s; Some (JStr p.1, p.2)
    | String "[" s => p ← parse_arr n s; Some (JArr p.1, p.2)
    | String "{" s => p ← parse_obj n s; Some (JObj p.1, p.2)
    | _ => None
    end
  end
with parse_arr (n : nat) (s : string) : option (list json * string) :=
  match n with
  | O => None
  | S n =>
    match s with
    | String "]" s => Some ([], s)
    | String "," s => p ← parse_json n s; q ← parse_arr n p.2; Some (p.1 :: q.1, q.2)
    | _ => None
    end
  end
with parse_obj (n : nat) (s : string) : option (list (string * json) * string) :=
  match n with
  | O => None
  | S n =>
    match s with
    | String "}" s => Some ([], s)
    | String "," s => k ← parse_str s; p ← parse_json n k.2; q ← parse_obj n p.2; Some ((k.1, p.1) :: q.1, q.2)
    | _ => None
    end
  end.

Lemma empty_app (s : string) : "" +:+ s = s.
Proof. done. Qed.
Lemma parse_print_pos p rest : parse_pos (print_pos p +:+ rest) = Some (p, rest).
Proof. induction p as [p IH|p IH|]; cbn [print_pos]; rewrite <- ?string_assoc, ?app_String, ?empty_app; cbn [parse_pos]; by rewrite ?IH. Qed.
Lemma parse_print_Z z rest : parse_Z (print_Z z +:+ rest) = Some (z, rest).
Proof. destruct z; cbn [print_Z]; rewrite <- ?string_assoc, ?app_String, ?empty_app; cbn [parse_Z]; by rewrite ?parse_print_pos. Qed.
Lemma parse_print_str s rest : parse_str (print_str s +:+ rest) = Some (s, rest).
Proof. induction s as [|a s IH]; [done|]. cbn [print_str]. rewrite !app_String. cbn [parse_str]. by rewrite IH. Qed.

Lemma json_induction (P : json -> Prop) :
  (forall j, match j with JArr _ | JObj _ => True | _ => P j end) ->
  (forall l, Forall P l -> P (JArr l)) -> (forall o, Forall (fun kv => P kv.2) o -> P (JObj o)) -> forall j, P j.
Proof.
  intros H0 Harr Hobj. fix IH 1. intros j.
  destruct j; try exact (H0 JNull); try exact (H0 (JBool _)); try exact (H0 (JNum _)); try exact (H0 (JFloat _)); try exact (H0 (JStr _)).
  - apply Harr. induction l; constructor; [apply IH|assumption].
  - apply Hobj. induction o as [|[k v] o IHo]; constructor; [apply IH|assumption].
Qed.


(** What [print_json] leaves to the lists of a value. *)
Lemma print_json_arr l : print_json (JArr l) = "[" +:+ print_arr l.
Proof. done. Qed.
Lemma print_json_obj o : print_json (JObj o) = "{" +:+ print_obj o.
Proof. done. Qed.

Definition reads_back (j : json) : Prop := json_finite j = true ->
  forall n rest, (String.length (print_json j) < n)%nat -> parse_json n (print_json j +:+ rest) = Some (j, rest).

Lemma parse_print_arr l : Forall reads_back l -> forallb json_finite l = true ->
  forall n rest, (String.length (print_arr l) < n)%nat -> parse_arr n (print_arr l +:+ rest) = Some (l, rest).
Proof.
  induction 1 as [|x l Hx Hl IH]; intros Hf [|n] rest Hn; try lia; [done|].
  cbn [forallb] in Hf. apply andb_true_iff in Hf as [Hf1 Hf2]. cbn [print_arr] in *.
  rewrite !string_app_length in Hn. cbn [String.length] in Hn.
  rewrite <- !string_assoc, app_String, empty_app. cbn [parse_arr]. rewrite Hx by (done || lia).
  cbn [mbind option_bind snd fst]. by rewrite IH by (done || lia).
Qed.
Lemma parse_print_obj o : Forall (fun kv => reads_back kv.2) o -> forallb (fun kv => json_finite (snd kv)) o = true ->
  forall n rest, (String.length (print_obj o) < n)%nat -> parse_obj n (print_obj o +:+ rest) = Some (o, rest).
Proof.
  induction 1 as [|[k x] o Hx Ho IH]; intros Hf [|n] rest Hn; try lia; [done|].
  cbn [forallb snd] in *. apply andb_true_iff in Hf as [Hf1 Hf2]. cbn [print_obj] in *.
  rewrite !string_app_length in Hn. cbn [String.length] in Hn.
  rewrite <- !string_assoc, app_String, empty_app. cbn [parse_obj]. rewrite parse_print_str.
  cbn [mbind option_bind snd fst]. rewrite Hx by (done || lia).
  cbn [mbind option_bind snd fst]. by rewrite IH by (done || lia).
Qed.

Lemma parse_print_json j : reads_back j.
Proof.
  revert j. apply (json_induction reads_back); [intros j|intros l IH|intros o IH].
  - destruct j as [|[]|z|[s|s| |s m e]|s| |]; try exact I; intros Hf [|n] rest Hn; try lia; try discriminate Hf;
      cbn [print_json print_bool] in *; try (destruct s; cbn [print_bool]);
      rewrite <- ?string_assoc, ?app_String, ?empty_app; cbn [parse_json];
      rewrite ?parse_print_Z, ?parse_print_str, ?parse_print_pos; try done;
      cbn [mbind option_bind snd fst]; by rewrite parse_print_Z.
  - intros Hf [|n] rest Hn; [lia|].
    rewrite print_json_arr, string_app_length in *. rewrite <- string_assoc, app_String, empty_app. cbn [parse_json].
    rewrite parse_print_arr by (done || (cbn in Hn; lia)). done.
  - intros Hf [|n] rest Hn; [lia|].
    rewrite print_json_obj, string_app_length in *. rewrite <- string_assoc, app_String, empty_app. cbn [parse_json].
    rewrite parse_print_obj by (done || (cbn in Hn; lia)). done.
Qed.

Lemma json_clean_finite j : json_no_float j = true -> json_finite (json_clean j) = true.
Proof.
  revert j. apply (json_induction (fun j => json_no_float j = true -> json_finite (json_clean j) = true)).
  - intros j. destruct j; try exact I; done.
  - intros l IH. cbn [json_no_float json_clean json_finite]. induction IH as [|x l Hx _ IH]; [done|].
    cbn [forallb map]. intros [H1 H2]%andb_true_iff. by rewrite Hx, IH.
  - intros o IH. cbn [json_no_float json_clean json_finite]. induction IH as [|[k x] o Hx _ IH]; [done|].
    cbn [forallb map fst snd] in *. intros [H1 H2]%andb_true_iff. by rewrite Hx, IH.
Qed.

Definition tagged_json : JsonText := {|
  json_text := fun j => print_json (json_clean j);
  json_parse := fun s => match parse_json (S (String.length s)) s with Some (j, EmptyString) => Valid j | _ => Invalid s end |}.
Lemma tagged_json_ok : @JsonTextOk tagged_json.
Proof.
  constructor. intros j Hf%json_clean_finite. cbn [json_text json_parse tagged_json].
  pose proof (parse_print_json (json_clean j) Hf (S (String.length (print_json (json_clean j)))) "" ltac:(lia)) as Hp.
  assert (Happ : forall s : string, s +:+ "" = s).
  { intros s. induction s as [|a s IH]; [done|]. by rewrite app_String, IH. }
  by rewrite Happ in Hp; rewrite Hp.
Qed.
