(* ===== verification/Message.v ===== *)
(** Kafka message envelopes: [internal/mq/message.go].

    The OpenTelemetry context is seen as the carrier map that the propagator
    writes for it (an argument named [ctx]). *)
From S2P Require Import Prelude GoStrings Json.

Definition trace_map : Type := list (string * string).

Definition EventTypeDanmakuSent : string := "danmaku.sent".
Definition EventTypeGiftSent : string := "gift.sent".

Record Envelope : Type := mkEnvelope {
  env_EventID : string;
  env_EventType : string;
  env_RoomID : Z;
  env_CreatedAt : Z;
  env_Trace : option trace_map;
  env_Payload : raw }.

(** [ValidateRoomEnvelope]: [Ok tt] is a nil error. *)
Definition ValidateRoomEnvelope (e : Envelope) : res unit :=
  if bool_decide (TrimSpace (env_EventID e) = "") then Err (Fresh "event_id is required")
  else if bool_decide (TrimSpace (env_EventType e) = "") then Err (Fresh "event_type is required")
  else if env_RoomID e <=? 0 then Err (Fresh "room_id must be positive")
  else if IsZero (env_CreatedAt e) then Err (Fresh "created_at is required")
  else if raw_empty (env_Payload e) || negb (json_Valid (env_Payload e))
    then Err (Fresh "payload must be valid JSON")
  else Ok tt.

Definition injectTraceMap (ctx : trace_map) : option trace_map :=
  match ctx with [] => None | _ => Some ctx end.

(** [now] is [time.Now().UTC()]. *)
Definition NewEnvelopeContext (ctx : trace_map) (now : Z) (eventID eventType : string)
    (roomID : Z) (payload : json) : res Envelope :=
  match json_Marshal payload with
  | Err err => Err err
  | Ok raw =>
    Ok {| env_EventID := eventID; env_EventType := eventType; env_RoomID := roomID; env_CreatedAt := now;
          env_Trace := injectTraceMap ctx; env_Payload := raw |}
  end.

Definition NewEnvelope (now : Z) (eventID eventType : string) (roomID : Z) (payload : json) : res Envelope :=
  NewEnvelopeContext [] now eventID eventType roomID payload.

Section codec.
Context `{TimeText}.

(** The struct tags: [room_id] and [trace] are [omitempty]. *)
Definition envelope_json (e : Envelope) : res json :=
  let payload := match env_Payload e with
                 | Valid j => if json_finite j then Ok j else Err (Fresh "json: unsupported value")
                 | Invalid EmptyString => Ok JNull
                 | Invalid _ => Err (Fresh "json: error calling MarshalJSON for type json.RawMessage")
                 end in
  match payload with
  | Err err => Err err
  | Ok p =>
    Ok (JObj ([("event_id", JStr (env_EventID e)); ("event_type", JStr (env_EventType e))]
      ++ (if env_RoomID e =? 0 then [] else [("room_id", JNum (env_RoomID e))])
      ++ [("created_at", JStr (time_text (env_CreatedAt e)))]
      ++ match env_Trace e with
         | Some ((_ :: _) as tr) => [("trace", JObj (map (fun kv => (kv.1, JStr kv.2)) tr))]
         | _ => []
         end
      ++ [("payload", p)]))
  end.

Definition marshal_envelope (e : Envelope) : res raw :=
  match envelope_json e with Ok j => Ok (Valid j) | Err err => Err err end.

(** [json.Unmarshal(raw, &e)]; [None] is an error. *)
Definition unmarshal_envelope (r : raw) : option Envelope :=
  o ← decode_object r;
  id ← decode_field "" dec_string "event_id" o;
  ty ← decode_field "" dec_string "event_type" o;
  room ← decode_field 0 dec_int64 "room_id" o;
  created ← decode_field zero_time dec_time "created_at" o;
  tr ← decode_field None (fun j => Some <$> dec_string_map j) "trace" o;
  Some {| env_EventID := id; env_EventType := ty; env_RoomID := room; env_CreatedAt := created;
          env_Trace := tr; env_Payload := decode_raw_field "payload" o |}.

(** [ContextFromEnvelope]: the carrier extracted into the parent context, [None]
    when the parent is returned unchanged. *)
Definition ContextFromEnvelope (r : raw) : option trace_map :=
  match unmarshal_envelope r with
  | Some e => match env_Trace e with Some ((_ :: _) as tr) => Some tr | _ => None end
  | None => None
  end.

Definition InjectTrace (r : raw) (ctx : trace_map) : raw :=
  match unmarshal_envelope r with
  | None => r
  | Some e =>
    if bool_decide (TrimSpace (env_EventID e) = "") || bool_decide (TrimSpace (env_EventType e) = "")
       || IsZero (env_CreatedAt e) || raw_empty (env_Payload e) then r
    else
      match marshal_envelope {| env_EventID := env_EventID e; env_EventType := env_EventType e; env_RoomID := env_RoomID e;
                                env_CreatedAt := env_CreatedAt e; env_Trace := injectTraceMap ctx;
                                env_Payload := env_Payload e |} with
      | Ok out => out
      | Err _ => r
      end
  end.
End codec.

(** An envelope whose fields survive the wire: what the producers build. *)
Definition wire_ok (e : Envelope) : Prop :=
  in_int64 (env_RoomID e) /\ 0 <= env_CreatedAt e <= int64_max /\
  match env_Trace e with Some [] => False | _ => True end /\
  match env_Payload e with Valid JNull => True | Valid j => json_finite j = true | Invalid _ => False end.

Section codec_facts.
Context `{TimeTextOk}.

Lemma dec_string_map_obj tr :
  dec_string_map (JObj (map (fun kv : string * string => (kv.1, JStr kv.2)) tr)) = Some tr.
Proof.
  unfold dec_string_map. induction tr as [|[k v] tr IH]; [done|].
  simpl in *. by rewrite IH.
Qed.

Lemma dec_int64_num z : in_int64 z -> dec_int64 (JNum z) = Some z.
Proof.
  unfold in_int64, dec_int64. intros ?. by replace ((int64_min <=? z) && (z <=? int64_max)) with true by lia.
Qed.

Lemma dec_time_text t : 0 <= t <= int64_max -> dec_time (JStr (time_text t)) = Some t.
Proof. apply parse_time_text. Qed.

Lemma marshal_unmarshal_envelope e :
  wire_ok e ->
  exists r, marshal_envelope e = Ok r /\ unmarshal_envelope r = Some e.
Proof.
  destruct e as [id ty room created tr payload]. unfold wire_ok. simpl.
  intros (Hroom & Hcreated & Htr & Hp).
  destruct payload as [p|b]; [|done].
  assert (json_finite p = true) as Hf by (destruct p; done).
  unfold marshal_envelope, envelope_json. simpl. rewrite Hf.
  eexists. split; [reflexivity|].
  unfold unmarshal_envelope.
  destruct tr as [[|kv tr]|]; [done| |]; destruct (Z.eqb_spec room 0) as [->|Hr];
    cbn [decode_object app mbind option_bind]; json_keys;
    rewrite ?dec_time_text by done; cbn [mbind option_bind dec_string];
    rewrite ?dec_int64_num by done; cbn [mbind option_bind];
    by rewrite ?dec_string_map_obj.
Qed.

(** A validated envelope is an envelope in the sense of [InjectTrace]. *)
Lemma validated_fields e : ValidateRoomEnvelope e = Ok tt ->
  TrimSpace (env_EventID e) <> "" /\ TrimSpace (env_EventType e) <> "" /\ 0 < env_RoomID e
  /\ env_CreatedAt e <> zero_time /\ exists j, env_Payload e = Valid j.
Proof.
  unfold ValidateRoomEnvelope. repeat case_bool_decide; try done.
  destruct (Z.leb_spec (env_RoomID e) 0); [done|].
  unfold IsZero. destruct (Z.eqb_spec (env_CreatedAt e) zero_time); [done|].
  destruct (env_Payload e) as [j|[|? ?]]; simpl; [|done|done]. eauto 6.
Qed.

Lemma InjectTrace_envelope e ctx r :
  wire_ok e -> ValidateRoomEnvelope e = Ok tt -> marshal_envelope e = Ok r ->
  unmarshal_envelope (InjectTrace r ctx) =
    Some {| env_EventID := env_EventID e; env_EventType := env_EventType e; env_RoomID := env_RoomID e;
            env_CreatedAt := env_CreatedAt e; env_Trace := injectTraceMap ctx; env_Payload := env_Payload e |}.
Proof.
  intros Hw Hv Hm. destruct (validated_fields e Hv) as (Hid & Hty & Hroom & Hc & j & Hj).
  destruct (marshal_unmarshal_envelope e Hw) as (r' & Hm' & Hu).
  assert (r' = r) as -> by congruence.
  unfold InjectTrace. rewrite Hu.
  rewrite !bool_decide_false by done. unfold IsZero.
  destruct (Z.eqb_spec (env_CreatedAt e) zero_time); [done|]. rewrite Hj. cbn [raw_empty orb].
  edestruct (marshal_unmarshal_envelope {| env_EventID := env_EventID e; env_EventType := env_EventType e;
    env_RoomID := env_RoomID e; env_CreatedAt := env_CreatedAt e; env_Trace := injectTraceMap ctx;
    env_Payload := Valid j |}) as (out & -> & Hout); [|done].
  unfold wire_ok in *. simpl. rewrite Hj in Hw. by destruct Hw as (? & ? & ? & ?), ctx.
Qed.
End codec_facts.
