(* ===== verification/Commerce.v ===== *)
(** The commerce database: tables of [migrations/003_m4.sql] and of the
    outbox in [migrations/004_m5.sql].

    [gifts] and [wallets] are maps from their primary key; [wallet_transactions],
    [gift_orders] and [outbox_events] are lists in insertion ([AUTO_INCREMENT])
    order. An outbox row carries its id, which the publisher uses. *)
From S2P Require Import Prelude GoStrings Mysql Json.
From Stdlib Require Import SpecFloat.

Record gift_row : Type := mkGift {
  gift_name : string;
  gift_price : Z;
  gift_status : Z }.

Record wallet_row : Type := mkWallet {
  wallet_balance : Z;
  wallet_version : Z;
  wallet_updated_at : Z }.

Record wallet_tx_row : Type := mkWalletTx {
  wt_transaction_no : string;
  wt_user_id : Z;
  wt_biz_type : string;
  wt_biz_id : string;
  wt_amount : Z;
  wt_balance_before : Z;
  wt_balance_after : Z;
  wt_created_at : Z }.

Record order_row : Type := mkOrder {
  o_order_no : string;
  o_request_id : string;
  o_user_id : Z;
  o_anchor_id : Z;
  o_room_id : Z;
  o_gift_id : Z;
  o_gift_count : Z;
  o_unit_price : Z;
  o_total_amount : Z;
  o_status : Z;
  o_created_at : Z;
  o_updated_at : Z }.

Record outbox_row : Type := mkOutbox {
  ob_id : Z;
  ob_event_id : string;
  ob_aggregate_type : string;
  ob_aggregate_id : string;
  ob_event_type : string;
  ob_topic : string;
  ob_partition_key : string;
  ob_payload : raw;
  ob_status : Z;
  ob_retry_count : Z;
  ob_next_retry_at : option Z;
  ob_locked_by : option string;
  ob_locked_at : option Z;
  ob_last_error : option string;
  ob_created_at : Z;
  ob_published_at : option Z }.

Record CommerceDB : Type := mkCommerce {
  gifts : gmap Z gift_row;
  wallets : gmap Z wallet_row;
  wallet_txs : list wallet_tx_row;
  orders : list order_row;
  outbox : list outbox_row;
  outbox_next_id : Z }.

#[export] Instance spec_float_eq_dec : EqDecision spec_float.
Proof. solve_decision. Defined.
#[export] Instance json_eq_dec : EqDecision json.
Proof.
  refine (fix go (x y : json) {struct x} : Decision (x = y) :=
    match x, y with
    | JNull, JNull => left eq_refl
    | JBool a, JBool b => cast_if (decide (a = b))
    | JNum a, JNum b => cast_if (decide (a = b))
    | JFloat a, JFloat b => cast_if (decide (a = b))
    | JStr a, JStr b => cast_if (decide (a = b))
    | JArr a, JArr b => cast_if (@list_eq_dec _ go a b)
    | JObj a, JObj b =>
      cast_if (@list_eq_dec _ (@prod_eq_dec _ _ _ go) a b)
    | _, _ => right _
    end); clear go; abstract congruence.
Defined.
#[export] Instance raw_eq_dec : EqDecision raw.
Proof. solve_decision. Defined.
#[export] Instance gift_row_eq_dec : EqDecision gift_row.
Proof. solve_decision. Defined.
#[export] Instance wallet_row_eq_dec : EqDecision wallet_row.
Proof. solve_decision. Defined.
#[export] Instance wallet_tx_row_eq_dec : EqDecision wallet_tx_row.
Proof. solve_decision. Defined.
#[export] Instance order_row_eq_dec : EqDecision order_row.
Proof. solve_decision. Defined.
#[export] Instance outbox_row_eq_dec : EqDecision outbox_row.
Proof. solve_decision. Defined.

Definition set_wallets (w : gmap Z wallet_row) (t : CommerceDB) : CommerceDB :=
  mkCommerce (gifts t) w (wallet_txs t) (orders t) (outbox t) (outbox_next_id t).
Definition set_wallet_txs (l : list wallet_tx_row) (t : CommerceDB) : CommerceDB :=
  mkCommerce (gifts t) (wallets t) l (orders t) (outbox t) (outbox_next_id t).
Definition set_orders (l : list order_row) (t : CommerceDB) : CommerceDB :=
  mkCommerce (gifts t) (wallets t) (wallet_txs t) l (outbox t) (outbox_next_id t).
Definition set_outbox (l : list outbox_row) (t : CommerceDB) : CommerceDB :=
  mkCommerce (gifts t) (wallets t) (wallet_txs t) (orders t) l (outbox_next_id t).

Section statements.
Context `{MySQLServer}.

(** [INSERT INTO wallets ... VALUES (?, 0, 0, NOW(3)) ON DUPLICATE KEY UPDATE user_id=user_id] *)
Definition insert_wallet (userID : Z) : stmt CommerceDB unit := fun now t =>
  Ok (tt, match wallets t !! userID with
          | Some _ => t
          | None => set_wallets (<[userID := mkWallet 0 0 now]> (wallets t)) t
          end).

(** [SELECT balance FROM wallets WHERE user_id=?] *)
Definition select_balance (userID : Z) : stmt CommerceDB Z := reads (fun t =>
  match wallets t !! userID with
  | Some w => Ok (wallet_balance w)
  | None => Err sql_ErrNoRows
  end).

(** [INSERT INTO wallet_transactions ... VALUES (..., NOW(3))], with the unique
    key [uk_wallet_transactions_no]. *)
Definition insert_wallet_tx (no : string) (userID : Z) (bizType bizID : string)
    (amount before after : Z) : stmt CommerceDB unit := fun now t =>
  if existsb (fun r => str_eq (wt_transaction_no r) no) (wallet_txs t)
  then Err (dup_entry no "wallet_transactions.uk_wallet_transactions_no")
  else Ok (tt, set_wallet_txs (wallet_txs t ++
         [mkWalletTx no userID bizType bizID amount before after now]) t).
End statements.
