(* ===== verification/Wallet.v ===== *)
(** The wallet component: [internal/wallet] ([model.go], [repository.go],
    [service.go]) over the commerce database. *)
From S2P Require Import Prelude GoStrings Mysql Commerce.

Record Balance : Type := mkBalance { bal_UserID : Z; bal_Balance : Z }.

Definition ErrInvalidCredit : error :=
  Sentinel "wallet.ErrInvalidCredit" "credit amount must be between 1 and 100000000".
Definition ErrCreditDisabled : error :=
  Sentinel "wallet.ErrCreditDisabled" "development wallet credit is disabled".

Module WalletRepository.
Section repository.
Context `{MySQLServer}.

(** [Repository.Balance] *)
Definition balance (userID : Z) : M (Mysql CommerceDB) Balance :=
  _ ← db_exec (insert_wallet userID);
  v ← db_exec (select_balance userID);
  mret (mkBalance userID v).

(** [UPDATE wallets SET balance=balance+?, version=version+1, updated_at=NOW(3) WHERE user_id=?];
    the column is a [BIGINT] with [CHECK (balance >= 0)]. *)
Definition add_balance (amount userID : Z) : stmt CommerceDB unit := fun now t =>
  match wallets t !! userID with
  | None => Ok (tt, t)
  | Some w =>
    let b := wallet_balance w + amount in
    if int64_max <? b then Err out_of_range
    else if b <? 0 then Err check_violated
    else Ok (tt, set_wallets (<[userID := mkWallet b (wallet_version w + 1) now]> (wallets t)) t)
  end.

(** [Repository.Credit] *)
Definition credit (userID amount : Z) (transactionNo bizID : string) : M (Mysql CommerceDB) Balance :=
  with_tx (
    _ ← tx_exec (insert_wallet userID);
    _ ← tx_exec (add_balance amount userID);
    after ← tx_exec (select_balance userID);
    let before := wrap64 (after - amount) in
    _ ← tx_exec (insert_wallet_tx transactionNo userID "DEV_CREDIT" bizID amount before after);
    _ ← commit_tx;
    mret (mkBalance userID after)).

(** [Repository.Transactions]: [ORDER BY id DESC LIMIT ?]. *)
Definition transactions (userID limit : Z) : M (Mysql CommerceDB) (list wallet_tx_row) :=
  db_exec (reads (fun t =>
    Ok (take (Z.to_nat limit)
          (rev (List.filter (fun r => wt_user_id r =? userID) (wallet_txs t)))))).
End repository.
End WalletRepository.

(** The interface [wallet.Store] that the service is written against. *)
Class WalletStore (W : Type) := {
  store_Balance : Z -> M W Balance;
  store_Credit : Z -> Z -> string -> string -> M W Balance;
  store_Transactions : Z -> Z -> M W (list wallet_tx_row) }.

Module WalletService.
Section service.
Context {W : Type} `{WalletStore W}.
(** [NewService(store, devCreditEnabled)] *)
Variable devCreditEnabled : bool.

Definition Balance_ (userID : Z) : M W Balance := store_Balance userID.
Definition Transactions (userID : Z) : M W (list wallet_tx_row) := store_Transactions userID 50.

(** [id] is [idgen.New()]. *)
Definition DevCredit (id : string) (userID amount : Z) : M W Balance :=
  if negb devCreditEnabled then throw ErrCreditDisabled
  else if (amount <? 1) || (100000000 <? amount) then throw ErrInvalidCredit
  else store_Credit userID amount ("WT" +:+ id) ("DEV" +:+ id).
End service.
End WalletService.

#[export] Instance wallet_repository `{MySQLServer} : WalletStore (Mysql CommerceDB) := {|
  store_Balance := WalletRepository.balance;
  store_Credit := WalletRepository.credit;
  store_Transactions := WalletRepository.transactions |}.
