(* ===== verification/GiftRepository.v ===== *)
(** Gift orders: [internal/gift/model.go] and [internal/gift/repository.go].

    [Create] is the gift transaction: order, wallet debit, ledger line and outbox
    event in one MySQL transaction, with replay of a request id that was already
    used. *)
From S2P Require Import Prelude GoStrings Mysql Json Message Commerce.

Definition messageID (orderNo : string) : string := "gift:" +:+ TrimSpace orderNo.

Record Gift : Type := mkGiftV {
  gift_ID : Z; gift_Name : string; gift_Price : Z; gift_Status : Z }.

Record Order : Type := mkOrderV {
  OrderNo : string;
  RequestID : string;
  UserID : Z;
  AnchorID : Z;
  RoomID : Z;
  GiftID : Z;
  GiftName : string;
  GiftCount : Z;
  UnitPrice : Z;
  TotalAmount : Z;
  Status : string;
  CreatedAt : Z }.

Record SendResult : Type := mkSendResult {
  sr_Order : Order; sr_IdempotentReplay : bool; sr_EventQueued : bool }.

Definition ErrGiftNotFound := Sentinel "gift.ErrGiftNotFound" "gift not found".
Definition ErrGiftOffline := Sentinel "gift.ErrGiftOffline" "gift is offline".
Definition ErrInsufficientBalance := Sentinel "gift.ErrInsufficientBalance" "insufficient balance".
Definition ErrOrderNotFound := Sentinel "gift.ErrOrderNotFound" "gift order not found".
Definition ErrIdempotencyConflict := Sentinel "gift.ErrIdempotencyConflict"
  "idempotency key was already used for different request parameters".

Record CreateParams : Type := mkCreateParams {
  p_OrderNo : string;
  p_RequestID : string;
  p_TransactionNo : string;
  p_EventID : string;
  p_GiftTopic : string;
  p_UserID : Z;
  p_AnchorID : Z;
  p_RoomID : Z;
  p_GiftID : Z;
  p_Count : Z }.

(** [ORDER BY id] *)
Definition gift_id_le (a b : Z * gift_row) : Prop := a.1 <= b.1.
#[export] Instance gift_id_le_dec a b : Decision (gift_id_le a b).
Proof. unfold gift_id_le. apply _. Defined.

Section repository.
Context `{UnicodeTables} `{MySQLServer} `{TimeText}.

Definition isDuplicateRequest (err : error) : bool :=
  match errors_As_mysql err with
  | Some (number, message) =>
    (number =? 1062) &&
    let msg := ToLower message in
    Contains msg "uk_gift_orders_request_id" || Contains msg "request_id"
  | None => false
  end.

(** *** Statements *)
(** [SELECT id, name, price, status FROM gifts WHERE id=?] *)
Definition select_gift (id : Z) : stmt CommerceDB Gift := reads (fun t =>
  match gifts t !! id with
  | Some g => Ok (mkGiftV id (gift_name g) (gift_price g) (gift_status g))
  | None => Err sql_ErrNoRows
  end).

(** [INSERT INTO gift_orders ... status 0], with [uk_gift_orders_order_no] and
    [uk_gift_orders_request_id]. That the server refuses a text that is longer than its
    column, or not UTF-8, is a fault of the schedule. *)
Definition insert_order (p : CreateParams) (price total : Z) : stmt CommerceDB unit := fun now t =>
  if existsb (fun o => str_eq (o_order_no o) (p_OrderNo p)) (orders t)
  then Err (dup_entry (p_OrderNo p) "gift_orders.uk_gift_orders_order_no")
  else if existsb (fun o => str_eq (o_request_id o) (p_RequestID p)) (orders t)
  then Err (dup_entry (p_RequestID p) "gift_orders.uk_gift_orders_request_id")
  else Ok (tt, set_orders (orders t ++
    [mkOrder (p_OrderNo p) (p_RequestID p) (p_UserID p) (p_AnchorID p) (p_RoomID p)
             (p_GiftID p) (p_Count p) price total 0 now now]) t).

(** [UPDATE wallets SET balance=balance-?, ... WHERE user_id=? AND balance>=?];
    the result is [RowsAffected()]. *)
Definition debit_wallet (total userID : Z) : stmt CommerceDB Z := fun now t =>
  match wallets t !! userID with
  | Some w =>
    if total <=? wallet_balance w then
      Ok (1, set_wallets (<[userID := mkWallet (wallet_balance w - total) (wallet_version w + 1) now]>
                            (wallets t)) t)
    else Ok (0, t)
  | None => Ok (0, t)
  end.

(** [UPDATE gift_orders SET status=1, updated_at=NOW(3) WHERE order_no=?] *)
Definition complete_order (now : Z) (o : order_row) : order_row :=
  mkOrder (o_order_no o) (o_request_id o) (o_user_id o) (o_anchor_id o) (o_room_id o)
          (o_gift_id o) (o_gift_count o) (o_unit_price o) (o_total_amount o) 1
          (o_created_at o) now.
Definition update_order_status (orderNo : string) : stmt CommerceDB unit := fun now t =>
  Ok (tt, set_orders (update_where (fun o => str_eq (o_order_no o) orderNo) (complete_order now)
                        (orders t)) t).

(** [INSERT INTO outbox_events ... status 0, retry_count 0], with [uk_outbox_event_id]. *)
Definition insert_outbox (eventID aggregateID eventType topic key : string) (payload : raw)
  : stmt CommerceDB unit := fun now t =>
  if existsb (fun r => str_eq (ob_event_id r) eventID) (outbox t)
  then Err (dup_entry eventID "outbox_events.uk_outbox_event_id")
  else Ok (tt, mkCommerce (gifts t) (wallets t) (wallet_txs t) (orders t)
    (outbox t ++ [mkOutbox (outbox_next_id t) eventID "GIFT_ORDER" aggregateID eventType topic key
                           payload 0 0 (Some now) None None None now None])
    (outbox_next_id t + 1)).

(** [orderSelect ... WHERE p LIMIT 1] and [scanOrder]: the join with [gifts]
    drops orders whose gift row is gone. *)
Definition scan_order (t : CommerceDB) (o : order_row) : option Order :=
  match gifts t !! o_gift_id o with
  | Some g =>
    Some (mkOrderV (o_order_no o) (o_request_id o) (o_user_id o) (o_anchor_id o) (o_room_id o)
            (o_gift_id o) (gift_name g) (o_gift_count o) (o_unit_price o) (o_total_amount o)
            (if o_status o =? 1 then "SUCCESS" else "PENDING") (o_created_at o))
  | None => None
  end.
Definition orderSelect (p : order_row -> bool) (t : CommerceDB) : res Order :=
  match head (omap (fun o => if p o then scan_order t o else None) (orders t)) with
  | Some v => Ok v
  | None => Err ErrOrderNotFound
  end.

(** *** Operations *)
Definition ListActive : M (Mysql CommerceDB) (list Gift) :=
  db_exec (reads (fun t =>
    Ok (map (fun kv => mkGiftV kv.1 (gift_name kv.2) (gift_price kv.2) (gift_status kv.2))
          (List.filter (fun kv => gift_status kv.2 =? 1)
             (merge_sort gift_id_le (map_to_list (gifts t))))))).

Definition ByOrderNo (orderNo : string) : M (Mysql CommerceDB) Order :=
  db_exec (reads (orderSelect (fun o => str_eq (o_order_no o) orderNo))).
Definition ByRequestID (requestID : string) : M (Mysql CommerceDB) Order :=
  db_exec (reads (orderSelect (fun o => str_eq (o_request_id o) requestID))).

(** The payload of the [gift.sent] event. *)
Definition gift_payload (p : CreateParams) (g : Gift) (total : Z) : json := JObj
  [("message_id", JStr (messageID (p_OrderNo p))); ("order_no", JStr (p_OrderNo p));
   ("user_id", JNum (p_UserID p)); ("anchor_id", JNum (p_AnchorID p)); ("gift_id", JNum (p_GiftID p));
   ("gift_name", JStr (gift_Name g)); ("count", JNum (p_Count p)); ("unit_price", JNum (gift_Price g));
   ("total_amount", JNum total)].

(** Order amount guard and product. *)
Definition amount_overflow (count price : Z) : bool :=
  (count <=? 0) || (price <? 0) || ((0 <? count) && (Z.quot int64_max count <? price)).

Definition same_params (existing : Order) (p : CreateParams) : bool :=
  (UserID existing =? p_UserID p) && (RoomID existing =? p_RoomID p)
  && (GiftID existing =? p_GiftID p) && (GiftCount existing =? p_Count p).

(** The branch of [Create] for a request id that is already in the table. *)
Definition replay_duplicate (p : CreateParams) : M (Mysql CommerceDB) (Order * bool) :=
  _ ← rollback_tx;
  existing ← ByRequestID (p_RequestID p);
  if negb (same_params existing p) then throw ErrIdempotencyConflict
  else mret (existing, true).

(** The statements after the order row is inserted, up to the commit. *)
Definition charge_and_enqueue (ctx : trace_map) (now : Z) (p : CreateParams) (g : Gift) (total : Z)
  : M (Mysql CommerceDB) unit :=
  _ ← tx_exec (insert_wallet (p_UserID p));
  n ← tx_exec (debit_wallet total (p_UserID p));
  if negb (n =? 1) then throw ErrInsufficientBalance else
  balanceAfter ← tx_exec (select_balance (p_UserID p));
  let balanceBefore := wrap64 (balanceAfter + total) in
  _ ← tx_exec (insert_wallet_tx (p_TransactionNo p) (p_UserID p) "GIFT" (p_OrderNo p)
                 (wrap64 (- total)) balanceBefore balanceAfter);
  _ ← tx_exec (update_order_status (p_OrderNo p));
  if bool_decide (p_EventID p = "") || bool_decide (p_GiftTopic p = "")
  then throw (Fresh "gift outbox event configuration is required") else
  envelope ← of_res (NewEnvelopeContext ctx now (p_EventID p) EventTypeGiftSent (p_RoomID p)
                       (gift_payload p g total));
  payload ← of_res (marshal_envelope envelope);
  tx_exec (insert_outbox (p_EventID p) (p_OrderNo p) EventTypeGiftSent (p_GiftTopic p)
             (FormatInt (p_RoomID p)) payload).

(** [now] is the application clock read by [NewEnvelopeContext]. *)
Definition Create (ctx : trace_map) (now : Z) (p : CreateParams) : M (Mysql CommerceDB) (Order * bool) :=
  with_tx (
    rg ← try (tx_exec (select_gift (p_GiftID p)));
    match rg with
    | Err err => if errors_Is err sql_ErrNoRows then throw ErrGiftNotFound else throw err
    | Ok g =>
      if negb (gift_Status g =? 1) then throw ErrGiftOffline
      else if amount_overflow (p_Count p) (gift_Price g)
      then throw (Fresh "gift amount overflow") else
      let total := wrap64 (gift_Price g * p_Count p) in
      ro ← try (tx_exec (insert_order p (gift_Price g) total));
      match ro with
      | Err err => if isDuplicateRequest err then replay_duplicate p else throw err
      | Ok _ =>
        _ ← charge_and_enqueue ctx now p g total;
        _ ← commit_tx;
        created ← ByOrderNo (p_OrderNo p);
        mret (created, false)
      end
    end).
End repository.
