(* ===== verification/GiftSpec.v ===== *)
(** What the gift transaction promises: its atomic specification and the proof
    that [GiftRepository.Create] implements it under every fault schedule. *)
From S2P Require Import Prelude GoStrings Mysql Json Message Commerce GiftRepository.

Section spec.
Context `{UnicodeTables} `{MySQLServer} `{TimeText}.

Definition wallet_or_new (now : Z) (t : CommerceDB) (userID : Z) : wallet_row :=
  default (mkWallet 0 0 now) (wallets t !! userID).

Definition gift_total (p : CreateParams) (g : gift_row) : Z := gift_price g * p_Count p.

(** The request can be charged in tables [t]. *)
Record gift_enabled (now : Z) (p : CreateParams) (g : gift_row) (t : CommerceDB) : Prop := {
  ge_gift : gifts t !! p_GiftID p = Some g;
  ge_online : gift_status g = 1;
  ge_count : 0 < p_Count p;
  ge_price : 0 <= gift_price g;
  ge_total : gift_total p g <= int64_max;
  ge_order_new : forall o, o ∈ orders t -> str_eq (o_order_no o) (p_OrderNo p) = false;
  ge_request_new : forall o, o ∈ orders t -> str_eq (o_request_id o) (p_RequestID p) = false;
  ge_tx_new : forall r, r ∈ wallet_txs t -> str_eq (wt_transaction_no r) (p_TransactionNo p) = false;
  ge_event_new : forall r, r ∈ outbox t -> str_eq (ob_event_id r) (p_EventID p) = false;
  ge_funds : gift_total p g <= wallet_balance (wallet_or_new now t (p_UserID p));
  ge_event : p_EventID p <> "" /\ p_GiftTopic p <> "" }.

(** The order row, ledger line and outbox row of the request. *)
Definition new_order (now : Z) (p : CreateParams) (g : gift_row) : order_row :=
  mkOrder (p_OrderNo p) (p_RequestID p) (p_UserID p) (p_AnchorID p) (p_RoomID p) (p_GiftID p)
    (p_Count p) (gift_price g) (gift_total p g) 1 now now.
Definition new_ledger_line (now : Z) (p : CreateParams) (g : gift_row) (balance : Z) : wallet_tx_row :=
  mkWalletTx (p_TransactionNo p) (p_UserID p) "GIFT" (p_OrderNo p) (- gift_total p g)
    (wrap64 (balance - gift_total p g + gift_total p g)) (balance - gift_total p g) now.
Definition new_event (now : Z) (p : CreateParams) (id : Z) (payload : raw) : outbox_row :=
  mkOutbox id (p_EventID p) "GIFT_ORDER" (p_OrderNo p) EventTypeGiftSent (p_GiftTopic p)
    (FormatInt (p_RoomID p)) payload 0 0 (Some now) None None None now None.

(** The envelope written to the outbox. *)
Definition gift_envelope (ctx : trace_map) (app_now : Z) (p : CreateParams) (g : gift_row) : Envelope :=
  {| env_EventID := p_EventID p; env_EventType := EventTypeGiftSent; env_RoomID := p_RoomID p;
     env_CreatedAt := app_now; env_Trace := injectTraceMap ctx;
     env_Payload := Valid (gift_payload p (mkGiftV (p_GiftID p) (gift_name g) (gift_price g) (gift_status g))
                             (gift_total p g)) |}.

(** All the changes of a committed gift, at once. *)
Definition gift_effect (now : Z) (p : CreateParams) (g : gift_row) (payload : raw) (t : CommerceDB)
  : CommerceDB :=
  let w := wallet_or_new now t (p_UserID p) in
  mkCommerce (gifts t)
    (<[p_UserID p := mkWallet (wallet_balance w - gift_total p g) (wallet_version w + 1) now]> (wallets t))
    (wallet_txs t ++ [new_ledger_line now p g (wallet_balance w)])
    (orders t ++ [new_order now p g])
    (outbox t ++ [new_event now p (outbox_next_id t) payload])
    (outbox_next_id t + 1).

(** What [Create] may return and commit, from committed tables [c]. *)
Inductive create_outcome (ctx : trace_map) (app_now now : Z) (p : CreateParams) (c : CommerceDB)
  : res (Order * bool) -> CommerceDB -> Prop :=
| create_failed e : create_outcome ctx app_now now p c (Err e) c
| create_replayed o :
    orderSelect (fun r => str_eq (o_request_id r) (p_RequestID p)) c = Ok o ->
    same_params o p = true ->
    create_outcome ctx app_now now p c (Ok (o, true)) c
| create_committed g payload o :
    gift_enabled now p g c ->
    marshal_envelope (gift_envelope ctx app_now p g) = Ok payload ->
    orderSelect (fun r => str_eq (o_order_no r) (p_OrderNo p)) (gift_effect now p g payload c) = Ok o ->
    create_outcome ctx app_now now p c (Ok (o, false)) (gift_effect now p g payload c)
| create_unacknowledged g payload e :
    gift_enabled now p g c ->
    marshal_envelope (gift_envelope ctx app_now p g) = Ok payload ->
    create_outcome ctx app_now now p c (Err e) (gift_effect now p g payload c).
End spec.

Section refinement.
Context `{UnicodeTables} `{MySQLServer} `{TimeText}.

(** The amount guard is exact: it passes when the product fits in [int64]. *)
Lemma amount_overflow_spec count price :
  amount_overflow count price = false <-> 0 < count /\ 0 <= price /\ price * count <= int64_max.
Proof.
  unfold amount_overflow. destruct (Z.leb_spec count 0); simpl; [lia|].
  destruct (Z.ltb_spec price 0); simpl; [lia|].
  replace (0 <? count) with true by lia. simpl.
  assert (Hq : Z.quot int64_max count = int64_max / count).
  { apply Z.quot_div_nonneg; [done|lia]. }
  rewrite Hq. destruct (Z.ltb_spec (int64_max / count) price) as [Hlt|Hle].
  - split; [done|]. intros (_ & _ & Hp). exfalso.
    assert (price <= int64_max / count); [|lia].
    apply Z.div_le_lower_bound; lia.
  - split; [|done]. intros _. split_and!; [lia|lia|].
    assert (count * (int64_max / count) <= int64_max) by (apply Z.mul_div_le; lia). nia.
Qed.

Lemma insert_wallet_ok uid n t u t' :
  insert_wallet uid n t = Ok (u, t') ->
  t' = set_wallets (<[uid := wallet_or_new n t uid]> (wallets t)) t.
Proof.
  unfold insert_wallet, wallet_or_new. intros [= _ <-]. destruct t as [gs ws wt os ob nx].
  unfold set_wallets. simpl. destruct (ws !! uid) as [w|] eqn:E; simpl; [|done].
  by rewrite insert_id.
Qed.

Lemma insert_order_ok p price total n t u t' :
  insert_order p price total n t = Ok (u, t') ->
  (forall o, o ∈ orders t -> str_eq (o_order_no o) (p_OrderNo p) = false) /\
  (forall o, o ∈ orders t -> str_eq (o_request_id o) (p_RequestID p) = false) /\
  t' = set_orders (orders t ++ [mkOrder (p_OrderNo p) (p_RequestID p) (p_UserID p) (p_AnchorID p)
         (p_RoomID p) (p_GiftID p) (p_Count p) price total 0 n n]) t.
Proof.
  unfold insert_order. destruct (existsb _ (orders t)) eqn:E1; [done|].
  destruct (existsb (fun o => str_eq (o_request_id o) _) (orders t)) eqn:E2; [done|].
  intros [= _ <-]. split_and!; [by apply existsb_false|by apply existsb_false|done].
Qed.

Lemma insert_wallet_tx_ok no uid ty biz a b c n t u t' :
  insert_wallet_tx no uid ty biz a b c n t = Ok (u, t') ->
  (forall r, r ∈ wallet_txs t -> str_eq (wt_transaction_no r) no = false) /\
  t' = set_wallet_txs (wallet_txs t ++ [mkWalletTx no uid ty biz a b c n]) t.
Proof.
  unfold insert_wallet_tx. destruct (existsb _ _) eqn:E; [done|].
  intros [= _ <-]. split; [by apply existsb_false|done].
Qed.

Lemma insert_outbox_ok eid aid ty topic key payload n t u t' :
  insert_outbox eid aid ty topic key payload n t = Ok (u, t') ->
  (forall r, r ∈ outbox t -> str_eq (ob_event_id r) eid = false) /\
  t' = mkCommerce (gifts t) (wallets t) (wallet_txs t) (orders t)
         (outbox t ++ [mkOutbox (outbox_next_id t) eid "GIFT_ORDER" aid ty topic key payload
                         0 0 (Some n) None None None n None]) (outbox_next_id t + 1).
Proof.
  unfold insert_outbox. destruct (existsb _ _) eqn:E; [done|].
  intros [= _ <-]. split; [by apply existsb_false|done].
Qed.

(** After its insertion only the new order is completed. *)
Lemma complete_new_order now p os o :
  (forall o', o' ∈ os -> str_eq (o_order_no o') (p_OrderNo p) = false) ->
  o_order_no o = p_OrderNo p ->
  update_where (fun o => str_eq (o_order_no o) (p_OrderNo p)) (complete_order now) (os ++ [o])
  = os ++ [complete_order now o].
Proof.
  intros Hnew Ho. unfold update_where. rewrite map_app. simpl. rewrite Ho, str_eq_refl. f_equal.
  by apply update_where_none.
Qed.

(** The statements between the order insertion and the commit: on success the
    transaction's copy holds the whole effect. *)
Lemma charge_spec ctx app_now p g c n fl x :
  let t0 := set_orders (orders c ++ [mkOrder (p_OrderNo p) (p_RequestID p) (p_UserID p) (p_AnchorID p)
              (p_RoomID p) (p_GiftID p) (p_Count p) (gift_price g) (gift_total p g) 0 (NOW3 n) (NOW3 n)]) c in
  let gv := mkGiftV (p_GiftID p) (gift_name g) (gift_price g) (gift_status g) in
  gifts c !! p_GiftID p = Some g -> gift_status g = 1 ->
  0 < p_Count p -> 0 <= gift_price g -> gift_total p g <= int64_max ->
  (forall o, o ∈ orders c -> str_eq (o_order_no o) (p_OrderNo p) = false) ->
  (forall o, o ∈ orders c -> str_eq (o_request_id o) (p_RequestID p) = false) ->
  wp (charge_and_enqueue ctx app_now p gv (gift_total p g))
     (fun r s => exists t fl', s = mkMysql x (Some t) n fl' /\
        match r with
        | Ok _ => exists payload, gift_enabled (NOW3 n) p g c
                  /\ marshal_envelope (gift_envelope ctx app_now p g) = Ok payload
                  /\ t = gift_effect (NOW3 n) p g payload c
        | Err _ => True
        end)
     (mkMysql x (Some t0) n fl).
Proof.
  intros t0 gv Hg Hon Hc Hpr Hmax Hono Hreq.
  unfold charge_and_enqueue.
  apply wp_bind, wp_tx_exec; [|eauto]. intros [] t1 fl1 ->%insert_wallet_ok.
  apply wp_bind, wp_tx_exec; [|eauto]. intros aff t2 fl2.
  unfold debit_wallet. cbn [wallets set_wallets set_orders t0]. rewrite lookup_insert_eq.
  destruct (Z.leb_spec (gift_total p g) (wallet_balance (wallet_or_new (NOW3 n) t0 (p_UserID p))))
    as [Hfunds|Hfunds]; intros [= <- <-]; cbn [Z.eqb negb]; [|apply wp_throw; eauto].
  rewrite insert_insert_eq.
  apply wp_bind, wp_tx_exec; [|eauto]. intros after t3 fl3.
  unfold select_balance, reads. cbn [wallets set_wallets]. rewrite lookup_insert_eq. intros [= <- <-].
  cbn [wallet_balance].
  apply wp_bind, wp_tx_exec; [|eauto]. intros [] t4 fl4 [Htx ->]%insert_wallet_tx_ok.
  apply wp_bind, wp_tx_exec; [|eauto]. intros [] t5 fl5. unfold update_order_status. intros [= <-].
  destruct (bool_decide_reflect (p_EventID p = "")) as [|Hev]; [apply wp_throw; eauto|].
  destruct (bool_decide_reflect (p_GiftTopic p = "")) as [|Htopic]; [apply wp_throw; eauto|]. cbn [orb].
  apply wp_bind, wp_of_res. unfold NewEnvelopeContext, json_Marshal. cbn [json_finite gift_payload forallb snd andb].
  apply wp_bind, wp_of_res.
  change {| env_EventID := _; env_EventType := _; env_RoomID := _; env_CreatedAt := _;
            env_Trace := _; env_Payload := _ |} with (gift_envelope ctx app_now p g).
  destruct (marshal_envelope (gift_envelope ctx app_now p g)) as [payload|e] eqn:Hpay; [|eauto].
  apply wp_tx_exec; [|eauto]. intros [] t6 fl6 [Hevn ->]%insert_outbox_ok.
  eexists _, _. split; [reflexivity|]. exists payload. split; [constructor; auto|]. split; [done|].
  unfold gift_effect, set_orders, set_wallet_txs, set_wallets in *. simpl.
  rewrite complete_new_order by done.
  unfold new_ledger_line, new_order, complete_order. simpl.
  rewrite (wrap64_id (- gift_total p g)); [done|].
  unfold gift_total in *. unfold in_int64, int64_min, int64_max in *. nia.
Qed.

Lemma select_gift_ok id n t gv t' :
  select_gift id n t = Ok (gv, t') ->
  t' = t /\ exists g, gifts t !! id = Some g /\ gv = mkGiftV id (gift_name g) (gift_price g) (gift_status g).
Proof.
  unfold select_gift, reads. destruct (gifts t !! id) as [g|]; [|done].
  intros [= <- <-]. eauto.
Qed.

(** The whole of [Create], from any committed tables and any fault schedule. *)
Lemma create_spec ctx app_now p c n fl :
  wp (Create ctx app_now p)
     (fun r s => create_outcome ctx app_now (NOW3 n) p c r (committed s)
                 /\ txn s = None /\ db_now s = n)
     (mkMysql c None n fl).
Proof.
  unfold Create. apply wp_with_tx.
  { intros e fl'. split; [apply create_failed|done]. }
  intros fl1. apply wp_bind, wp_try, wp_tx_exec.
  2: { intros e t' fl'. destruct (errors_Is e sql_ErrNoRows); apply wp_throw; (split; [apply create_failed|done]). }
  intros gv t1 fl2 [-> (g & Hg & ->)]%select_gift_ok. cbn [gift_Status gift_Price].
  destruct (Z.eqb_spec (gift_status g) 1) as [Hon|]; [|apply wp_throw; split; [apply create_failed|done]]. cbn [negb].
  destruct (amount_overflow (p_Count p) (gift_price g)) eqn:Hamt; [apply wp_throw; split; [apply create_failed|done]|].
  apply amount_overflow_spec in Hamt as (Hc & Hp & Hmax).
  rewrite wrap64_id by (unfold in_int64, int64_min, int64_max in *; nia).
  apply wp_bind, wp_try, wp_tx_exec.
  2: { intros e t' fl'. destruct (isDuplicateRequest e); [|apply wp_throw; split; [apply create_failed|done]].
       unfold replay_duplicate. apply wp_bind, wp_rollback, wp_bind, wp_db_read.
       2: { intros; split; [apply create_failed|done]. }
       intros o fl3 Ho. destruct (same_params o p) eqn:Hs; cbn [negb];
         [apply wp_ret|apply wp_throw]; (split; [|done]); [by apply create_replayed|apply create_failed]. }
  intros [] t2 fl3 (Hono & Hreq & ->)%insert_order_ok.
  apply wp_bind. eapply wp_mono.
  { apply charge_spec; eauto. }
  intros r s (t & fl4 & -> & Hr). destruct r as [[]|e]; [|split; [apply create_failed|done]].
  destruct Hr as (payload & Hen & Hpay & ->).
  apply wp_bind, wp_commit.
  - intros fl5. apply wp_bind, wp_db_read.
    + intros o fl6 Ho. apply wp_ret. split; [by eapply create_committed|done].
    + intros e fl6. split; [by eapply create_unacknowledged|done].
  - intros e fl5. split; [apply create_failed|done].
  - intros e fl5. split; [by eapply create_unacknowledged|done].
Qed.
End refinement.
