(* ===== verification/Realtime.v ===== *)
(** Realtime delivery: [internal/realtime] ([channel.go], [event.go],
    [centrifugo.go]).

    The HTTP client is an interface: it sends a request and gives the status and
    the bytes read from the body (at most 1 MiB), or the error of the transport or
    of the read. Spans, metrics and the three-second timeout are not modelled. *)
From S2P Require Import Prelude GoStrings Base64 Json Message.

(** ** Channels *)
Definition RoomStream (roomID : Z) : string := "room:" +:+ FormatInt roomID +:+ ":stream".
Definition RoomStats (roomID : Z) : string := "room:" +:+ FormatInt roomID +:+ ":stats".
Definition Personal (userID : Z) : string := "personal:user#" +:+ FormatInt userID.

(** ** Events *)
(** A value given to [json.Marshal] as [any]: one that marshals to JSON, a byte
    slice (base64 text), or a [json.RawMessage]. *)
Inductive any : Type :=
| AnyValue (j : json)
| AnyBytes (b : raw)
| AnyRaw (r : raw).

Section wire.
Context `{JsonText}.

Definition marshal_any (a : any) : res json :=
  match a with
  | AnyValue j => if json_finite j then Ok j else Err (Fresh "json: unsupported value")
  | AnyBytes b => Ok (JStr (StdEncode (raw_text b)))
  | AnyRaw (Valid j) => Ok j
  | AnyRaw (Invalid EmptyString) => Ok JNull
  | AnyRaw (Invalid _) => Err (Fresh "json: error calling MarshalJSON for type json.RawMessage")
  end.
End wire.

Record RtEvent : Type := mkRtEvent {
  rt_EventID : string;
  rt_Type : string;
  rt_RoomID : Z;
  rt_Priority : string;
  rt_Timestamp : Z;
  rt_Data : any }.

(** [UnixMilli] of a time in nanoseconds. *)
Definition UnixMilli (t : Z) : Z := t / 1000000.

(** [now] is [time.Now()]. *)
Definition NewPriorityEvent (now : Z) (eventID typ : string) (roomID : Z) (priority : string) (data : any) : RtEvent :=
  mkRtEvent eventID typ roomID priority (UnixMilli now) data.
Definition NewEvent (now : Z) (eventID typ : string) (roomID : Z) (data : any) : RtEvent :=
  NewPriorityEvent now eventID typ roomID "" data.

Definition event_json `{JsonText} (e : RtEvent) : res json :=
  match marshal_any (rt_Data e) with
  | Err err => Err err
  | Ok d =>
    Ok (JObj ([("event_id", JStr (rt_EventID e)); ("type", JStr (rt_Type e)); ("room_id", JNum (rt_RoomID e))]
      ++ (if bool_decide (rt_Priority e = "") then [] else [("priority", JStr (rt_Priority e))])
      ++ [("timestamp", JNum (rt_Timestamp e)); ("data", d)]))
  end.

(** The interface [realtime.Publisher]. *)
Class Publisher (W : Type) := { Publish : string -> RtEvent -> M W unit }.

(** ** Centrifugo *)
Record http_request : Type := mkHttpRequest {
  rq_method : string; rq_url : string; rq_headers : list (string * string); rq_body : option json }.
Record http_response : Type := mkHttpResponse { rp_status : Z; rp_body : res raw }.
Class HttpClient (W : Type) := { http_Do : http_request -> M W http_response }.

Record Centrifugo : Type := mkCentrifugo {
  endpoint : string; unsubscribe : string; health : string; apiKey : string }.

(** [strings.TrimRight(s, "/")] and [strings.TrimSuffix]. *)
Fixpoint trim_right_slash (s : string) : string :=
  match s with
  | EmptyString => ""
  | String a s' =>
    let t := trim_right_slash s' in
    if bool_decide (t = "") && (byteZ a =? 47) then "" else String a t
  end.
Definition TrimSuffix (s suffix : string) : string :=
  if HasSuffix s suffix then str_take (Z.to_nat (slen s - slen suffix)) s else s.

Definition NewCentrifugo (apiURL key : string) : Centrifugo :=
  let apiBase := trim_right_slash apiURL in
  let base := TrimSuffix apiBase "/api" in
  mkCentrifugo (apiBase +:+ "/publish") (apiBase +:+ "/unsubscribe") (base +:+ "/health") key.

(** The [error] field of a response object: code and message. *)
Definition dec_api_error (j : json) : option (option (Z * string)) :=
  match j with
  | JNull => Some None
  | JObj o => code ← decode_field 0 dec_int64 "code" o; msg ← decode_field "" dec_string "message" o; Some (Some (code, msg))
  | _ => None
  end.
Definition publishResponse_error (r : raw) : option (Z * string) :=
  match (o ← decode_object r; decode_field None dec_api_error "error" o) with
  | Some (Some e) => Some e
  | _ => None
  end.

Section client.
Context {W : Type} `{HttpClient W} `{JsonText}.
Variable c : Centrifugo.

(** What [Publish] and [Unsubscribe] do with the response. *)
Definition check_response (what read_error : string) (resp : http_response) : M W unit :=
  match rp_body resp with
  | Err err => throw (Wrapped read_error err "")
  | Ok raw =>
    if (rp_status resp <? 200) || (300 <=? rp_status resp)
    then throw (Fresh (what +:+ " status=" +:+ FormatInt (rp_status resp) +:+ " body=" +:+ raw_text raw))
    else match publishResponse_error raw with
         | Some (code, message) => throw (Fresh ("centrifugo error " +:+ FormatInt code +:+ ": " +:+ message))
         | None => mret tt
         end
  end.

Definition api_headers : list (string * string) :=
  [("Content-Type", "application/json"); ("X-API-Key", apiKey c); ("X-Centrifugo-Error-Mode", "transport")].

(** [ctx] is the carrier injected into the headers. *)
Definition centrifugo_Publish (ctx : trace_map) (channel : string) (e : RtEvent) : M W unit :=
  match event_json e with
  | Err err => throw (Wrapped "marshal publish: " err "")
  | Ok d =>
    let body := JObj [("channel", JStr channel); ("data", d)] in
    r ← try (http_Do (mkHttpRequest "POST" (endpoint c) (api_headers ++ ctx) (Some body)));
    match r with
    | Err err => throw (Wrapped "centrifugo publish: " err "")
    | Ok resp => check_response "centrifugo publish" "read centrifugo response: " resp
    end
  end.

Definition Unsubscribe (userID channel : string) : M W unit :=
  let body := JObj [("user", JStr userID); ("channel", JStr channel)] in
  r ← try (http_Do (mkHttpRequest "POST" (unsubscribe c) api_headers (Some body)));
  match r with
  | Err err => throw (Wrapped "centrifugo unsubscribe: " err "")
  | Ok resp => check_response "centrifugo unsubscribe" "read centrifugo unsubscribe response: " resp
  end.

Definition Ping : M W unit :=
  r ← try (http_Do (mkHttpRequest "GET" (health c) [] None));
  match r with
  | Err err => throw (Wrapped "centrifugo health: " err "")
  | Ok resp =>
    if (rp_status resp <? 200) || (300 <=? rp_status resp)
    then throw (Fresh ("centrifugo health status=" +:+ FormatInt (rp_status resp))) else mret tt
  end.
End client.

Definition centrifugo_publisher {W} `{HttpClient W} `{JsonText} (c : Centrifugo) (ctx : trace_map) : Publisher W :=
  {| Publish := centrifugo_Publish c ctx |}.
