(* ===== verification/Kafka.v ===== *)
(** The Kafka layer: producer and consumer of [internal/mq/kafka.go] and the dead
    letter queue of [internal/mq/dlq.go].

    The franz-go client is an interface: it produces and commits records. Spans,
    log lines and metrics are not modelled. A record's value is [None] when the
    broker delivers a null value (a tombstone), which Go sees as a nil slice. *)
From S2P Require Import Prelude GoStrings Base64 Json Message.
From Stdlib Require Import Ascii.

(** ** Errors *)
Definition Permanent (err : error) : error := permanentError err.

Fixpoint IsPermanent (err : error) : bool :=
  match err with
  | permanentError _ => true
  | Wrapped _ c _ => IsPermanent c
  | Joined es => existsb IsPermanent es
  | Sentinel _ _ | Fresh _ | MySQLError _ _ _ => false
  end.

Definition kgo_ErrMaxBuffered := Sentinel "kgo.ErrMaxBuffered"
  "the maximum amount of records are buffered, cannot buffer more".
Definition kgo_ErrClientClosed := Sentinel "kgo.ErrClientClosed" "client closed".

Definition kafkaProduceErrorReason (err : option error) : string :=
  match err with
  | None => "none"
  | Some err =>
    if errors_Is err context_Canceled then "context_canceled"
    else if errors_Is err context_DeadlineExceeded then "deadline_exceeded"
    else if errors_Is err kgo_ErrMaxBuffered then "max_buffered"
    else if errors_Is err kgo_ErrClientClosed then "client_closed"
    else "broker_or_other"
  end.

(** ** Client options *)
Record ClientConfig : Type := mkClientConfig {
  Brokers : list string;
  TLSEnabled : bool;
  SASLMechanism : string;
  SASLUsername : string;
  SASLPassword : string }.

Inductive kgo_opt : Type :=
| SeedBrokers (brokers : list string)
| DialTLS
| SASLPlain (user pass : string)
| SASLScram256 (user pass : string)
| SASLScram512 (user pass : string)
| ClientID (id : string)
| RequiredAcksAllISR
| ProducerLinger (d : Z)
| RecordRetries (n : Z)
| RecordDeliveryTimeout (d : Z)
| MaxBufferedRecords (n : Z)
| GroupOpt (group : string)
| ConsumeTopics (topics : list string)
| DisableAutoCommit
| BlockRebalanceOnPoll
| RebalanceTimeout (d : Z)
| ConsumeStartOffsetAtStart
| ConsumeResetOffsetAtStart.

Definition clientOptions (cfg : ClientConfig) : res (list kgo_opt) :=
  match Brokers cfg with
  | [] => Err (Fresh "kafka brokers are required")
  | _ =>
    let opts := [SeedBrokers (Brokers cfg)] ++ (if TLSEnabled cfg then [DialTLS] else []) in
    let u := SASLUsername cfg in let w := SASLPassword cfg in
    if bool_decide (SASLMechanism cfg = "") then Ok opts
    else if bool_decide (SASLMechanism cfg = "plain") then Ok (opts ++ [SASLPlain u w])
    else if bool_decide (SASLMechanism cfg = "scram-sha-256") then Ok (opts ++ [SASLScram256 u w])
    else if bool_decide (SASLMechanism cfg = "scram-sha-512") then Ok (opts ++ [SASLScram512 u w])
    else Err (Fresh "unsupported kafka SASL mechanism")
  end.

(** The options of the two constructors; [kgo.NewClient] is the library. *)
Definition producerOptions (cfg : ClientConfig) : res (list kgo_opt) :=
  match clientOptions cfg with
  | Ok opts => Ok (opts ++ [ClientID "live-producer"; RequiredAcksAllISR; ProducerLinger (5 * Millisecond); RecordRetries 10;
                            RecordDeliveryTimeout (10 * Second); MaxBufferedRecords 10000])
  | Err err => Err err
  end.
Definition NewProducerWithConfig {C} (NewClient : list kgo_opt -> res C) (cfg : ClientConfig) : res C :=
  match producerOptions cfg with Ok opts => NewClient opts | Err err => Err err end.
Definition consumerOptions (cfg : ClientConfig) (group : string) (topics : list string) : res (list kgo_opt) :=
  if bool_decide (group = "") || bool_decide (topics = []) then Err (Fresh "kafka group and topics are required") else
  match clientOptions cfg with
  | Ok opts => Ok (opts ++ [ClientID ("live-consumer-" +:+ group); GroupOpt group; ConsumeTopics topics; DisableAutoCommit;
                            BlockRebalanceOnPoll; RebalanceTimeout (5 * Minute); ConsumeStartOffsetAtStart; ConsumeResetOffsetAtStart])
  | Err err => Err err
  end.
Definition NewConsumerWithConfig {C} (NewClient : list kgo_opt -> res C) (cfg : ClientConfig) (group : string) (topics : list string) : res C :=
  match consumerOptions cfg group topics with Ok opts => NewClient opts | Err err => Err err end.

(** ** Records *)
Record Record_ : Type := mkRecord {
  Topic : string;
  Partition : Z;
  Offset : Z;
  Key : string;
  Value : option raw }.

(** ** Producer *)
(** The client: [client.ProduceSync(ctx, rec).FirstErr()] for a topic, key and
    value. [delivered] is what brokers have acknowledged or accepted. *)
Class KafkaClient (K : Type) := {
  client_ProduceSync : string -> string -> raw -> M K unit;
  delivered : K -> list (string * string * raw) }.

(** Acknowledged records are in the log, and the log only grows. *)
Class KafkaClientOk (K : Type) `{KafkaClient K} := {
  produce_acked : forall topic key v k k',
    client_ProduceSync topic key v k = (Ok tt, k') -> (topic, key, v) ∈ delivered k';
  produce_grows : forall topic key v k x,
    x ∈ delivered k -> x ∈ delivered (client_ProduceSync topic key v k).2 }.

Section producer.
Context {K : Type} `{KafkaClient K} `{TimeText}.

(** [ctx] is the carrier of the producer span. *)
Definition produceSync (ctx : trace_map) (topic key : string) (value : raw) (injectTrace : bool) : M K unit :=
  let value := if injectTrace then InjectTrace value ctx else value in
  r ← try (client_ProduceSync topic key value);
  match r with
  | Ok _ => mret tt
  | Err err => throw (Wrapped ("kafka produce topic=" +:+ topic +:+ ": ") err "")
  end.

Definition ProduceSync (ctx : trace_map) (topic key : string) (value : raw) : M K unit :=
  produceSync ctx topic key value true.
Definition ProduceRawSync (ctx : trace_map) (topic key : string) (value : raw) : M K unit :=
  produceSync ctx topic key value false.
End producer.

(** [client.TryProduce]: the record is buffered or dropped; the outcome only
    reaches logs and metrics. *)
Class AsyncClient (K : Type) := { TryProduce : string -> string -> raw -> K -> K }.

(** [ctx] is the carrier of the span started on the detached context. *)
Definition ProduceAsync {K} `{AsyncClient K} `{TimeText} (ctx : trace_map) (topic key : string) (value : raw) : M K unit :=
  modify (TryProduce topic key (InjectTrace value ctx)).

(** ** Dead letters *)
Definition DeadLetterTopicSuffix : string := ".dlq".

Record DeadLetter : Type := mkDeadLetter {
  SourceTopic : string;
  SourcePartition : Z;
  SourceOffset : Z;
  ConsumerGroup : string;
  dl_Key : string;
  dl_Value : option raw;
  dl_Error : string;
  FailedAt : Z }.

(** [now] is [time.Now().UTC()]. *)
Definition NewDeadLetter (now : Z) (group : string) (record : Record_) (cause : option error) : DeadLetter :=
  let message := match cause with
                 | Some c => error_text c
                 | None => "permanent consumer error"
                 end in
  let message := if 2048 <? slen message then str_take 2048 message else message in
  mkDeadLetter (Topic record) (Partition record) (Offset record) group (Key record) (Value record) message now.

Definition Validate (d : DeadLetter) : res unit :=
  if bool_decide (TrimSpace (SourceTopic d) = "") || HasSuffix (SourceTopic d) DeadLetterTopicSuffix
  then Err (Fresh "source_topic must be a non-DLQ topic")
  else if bool_decide (TrimSpace (ConsumerGroup d) = "") then Err (Fresh "consumer_group is required")
  else if (SourcePartition d <? 0) || (SourceOffset d <? 0)
  then Err (Fresh "source partition and offset must be non-negative")
  else match dl_Value d with
       | None => Err (Fresh "value is required")
       | Some _ =>
         if bool_decide (TrimSpace (dl_Error d) = "") || IsZero (FailedAt d)
         then Err (Fresh "error and failed_at are required")
         else Ok tt
       end.

(** The JSON object of a dead letter as [encoding/json] writes it: byte slices in
    base64 ([null] for a nil one), [key] left out when empty, strings coerced to
    valid UTF-8. *)
Definition encode_dead `{JsonText} `{TimeText} (d : DeadLetter) : raw := Valid (JObj (
  [("source_topic", JStr (valid_utf8 (SourceTopic d))); ("source_partition", JNum (SourcePartition d));
   ("source_offset", JNum (SourceOffset d)); ("consumer_group", JStr (valid_utf8 (ConsumerGroup d)))]
  ++ (if bool_decide (dl_Key d = "") then [] else [("key", JStr (StdEncode (dl_Key d)))])
  ++ [("value", match dl_Value d with Some v => JStr (StdEncode (raw_text v)) | None => JNull end);
      ("error", JStr (valid_utf8 (dl_Error d))); ("failed_at", JStr (time_text (FailedAt d)))])).

(** A byte slice is read from base64, from an array of numbers, or is nil for
    [null]. *)
Definition dec_byte (j : json) : option ascii :=
  match j with
  | JNum z => if (0 <=? z) && (z <=? 255) then Some (byte_of_Z z) else None
  | JNull => Some (byte_of_Z 0)
  | _ => None
  end.
Definition dec_bytes (j : json) : option (option string) :=
  match j with
  | JNull => Some None
  | JStr s => s ← StdDecode s; Some (Some s)
  | JArr l => l ← mapM dec_byte l; Some (Some (String.string_of_list_ascii l))
  | _ => None
  end.
(** [null] makes a slice nil, where it leaves other fields. *)
Definition decode_bytes_field (name : string) (o : list (string * json)) : option (option string) :=
  fold_left (fun acc j => _ ← acc; dec_bytes j) (field_values name o) (Some None).
Definition dec_int32 (j : json) : option Z :=
  match j with JNum z => if (- 2 ^ 31 <=? z) && (z <? 2 ^ 31) then Some z else None | _ => None end.

(** [json.Unmarshal] of a line of the replay. *)
Definition decode_dead `{JsonText} `{TimeText} (r : raw) : option DeadLetter :=
  o ← decode_object r;
  topic ← decode_field "" dec_string "source_topic" o;
  partition ← decode_field 0 dec_int32 "source_partition" o;
  offset ← decode_field 0 dec_int64 "source_offset" o;
  group ← decode_field "" dec_string "consumer_group" o;
  key ← decode_bytes_field "key" o;
  value ← decode_bytes_field "value" o;
  err ← decode_field "" dec_string "error" o;
  at_ ← decode_field zero_time dec_time "failed_at" o;
  Some (mkDeadLetter topic partition offset group (default "" key) (json_parse <$> value) err at_).

Section dlq.
Context {K : Type} `{KafkaClient K} `{TimeText} `{JsonText}.

(** [KafkaDeadLetterWriter.WriteDeadLetter] with a producer. *)
Definition WriteDeadLetter (ctx : trace_map) (dead : DeadLetter) : M K unit :=
  match Validate dead with
  | Err err => throw err
  | Ok _ =>
    let raw := encode_dead dead in
    let key := if bool_decide (dl_Key dead = "")
               then FormatInt (SourcePartition dead) +:+ ":" +:+ FormatInt (SourceOffset dead)
               else dl_Key dead in
    r ← try (ProduceRawSync ctx (SourceTopic dead +:+ DeadLetterTopicSuffix) key raw);
    match r with
    | Ok _ => mret tt
    | Err err => throw (Wrapped "publish dead letter: " err "")
    end
  end.

(** A line of the replay input: blank, or a text. *)
Inductive line : Type :=
| Blank
| Text (r : raw).

(** The audit writer, when one is given. *)
Variable audit : option (DeadLetter -> M K unit).

Definition wrap_line (what : string) (n : Z) (err : error) : error :=
  Wrapped (what +:+ " " +:+ FormatInt n +:+ ": ") err "".

(** The scan loop of [ReplayJSONLines]: the count is returned with the error. *)
Fixpoint replay_lines (ctx : trace_map) (lines : list line) (n count : Z) : M K (Z * option error) :=
  match lines with
  | [] => mret (count, None)
  | Blank :: lines => replay_lines ctx lines (n + 1) count
  | Text r :: lines =>
    match decode_dead r with
    | None => mret (count, Some (wrap_line "decode DLQ line" n (Fresh "invalid json")))
    | Some dead =>
      match Validate dead, dl_Value dead with
      | Err err, _ => mret (count, Some (wrap_line "validate DLQ line" n err))
      | Ok _, None => mret (count, None)
      | Ok _, Some v =>
        p ← try (ProduceRawSync ctx (SourceTopic dead) (dl_Key dead) v);
        match p with
        | Err err => mret (count, Some (wrap_line "replay DLQ line" n err))
        | Ok _ =>
          match audit with
          | None => replay_lines ctx lines (n + 1) (count + 1)
          | Some w =>
            a ← try (w dead);
            match a with
            | Err err => mret (count + 1, Some (Wrapped "write replay audit: " err ""))
            | Ok _ => replay_lines ctx lines (n + 1) (count + 1)
            end
          end
        end
      end
    end
  end.

(** [scan_err] is [scanner.Err()] at the end of the input. *)
Definition ReplayJSONLines (ctx : trace_map) (lines : list line) (actor : string) (scan_err : option error)
  : M K (Z * option error) :=
  if bool_decide (TrimSpace actor = "") then mret (0, Some (Fresh "replay actor is required"))
  else
    r ← replay_lines ctx lines 1 0;
    match r with
    | (count, None) =>
      match scan_err with
      | Some err => mret (count, Some (Wrapped "read DLQ input: " err ""))
      | None => mret (count, None)
      end
    | _ => mret r
    end.
End dlq.

(** ** Consumer *)
(** What [Consumer.Run] uses: the handler, the dead-letter writer if there is
    one, the client - the records of a poll (errors of fetches are only logged), the
    offset commit and the end of a rebalance block - and the cancellation of the
    context. *)
Class ConsumerEnv (W : Type) := {
  PollRecords : Z -> M W (list Record_);
  AllowRebalance : W -> W;
  handle : Record_ -> M W unit;
  dead_letters : option (DeadLetter -> M W unit);
  CommitRecords : Record_ -> M W unit;
  ctx_Done : M W (option error);   (** [ctx.Err()] once the context is done *)
  consumer_now : M W Z }.

Inductive outcome : Type :=
| Processed (result : string)   (** the record was committed *)
| Stopped (err : error)         (** [Run] returns *)
| StillRetrying.                (** the model's fuel ran out between two attempts *)

Section consumer.
Context {W : Type} `{ConsumerEnv W}.
Variable group : string.

(** [fmt.Errorf("... group=%s topic=%s partition=%d offset=%d: %w", ...)] *)
Definition record_error (what : string) (rec : Record_) (err : error) : error :=
  Wrapped (what +:+ " group=" +:+ group +:+ " topic=" +:+ Topic rec +:+ " partition=" +:+ FormatInt (Partition rec)
           +:+ " offset=" +:+ FormatInt (Offset rec) +:+ ": ") err "".

Definition writeDeadLetter (record : Record_) (cause : error) : M W unit :=
  match dead_letters with
  | None => throw (Fresh "permanent Kafka record cannot be committed without a DLQ writer")
  | Some w => now ← consumer_now; w (NewDeadLetter now group record (Some cause))
  end.

(** The retry loop around [h.Handle]: [inl result] leaves the loop,
    [inr] ends [Run] or the fuel. *)
Fixpoint handle_loop (fuel : nat) (rec : Record_) : M W (string + outcome) :=
  match fuel with
  | O => mret (inr StillRetrying)
  | S fuel =>
    r ← try (handle rec);
    match r with
    | Ok _ => mret (inl "success")
    | Err err =>
      if IsPermanent err then
        d ← try (writeDeadLetter rec err);
        match d with
        | Ok _ => mret (inl "dead_lettered")
        | Err dlqErr => _ ← modify AllowRebalance; mret (inr (Stopped (record_error "dead-letter" rec dlqErr)))
        end
      else
        done ← ctx_Done;
        match done with
        | Some err => mret (inr (Stopped err))
        | None => handle_loop fuel rec
        end
    end
  end.

(** One iteration of the record loop of [Run]. *)
Definition process_record (fuel : nat) (rec : Record_) : M W outcome :=
  l ← handle_loop fuel rec;
  match l with
  | inr o => mret o
  | inl result =>
    c ← try (CommitRecords rec);
    match c with
    | Ok _ => mret (Processed result)
    | Err err => _ ← modify AllowRebalance; mret (Stopped (record_error "commit" rec err))
    end
  end.

(** The records of one poll, in order; a stop skips the rest. *)
Fixpoint process_records (fuel : nat) (recs : list Record_) : M W (option outcome) :=
  match recs with
  | [] => mret None
  | rec :: recs =>
    o ← process_record fuel rec;
    match o with
    | Processed _ => process_records fuel recs
    | _ => mret (Some o)
    end
  end.

(** [Run] for at most [polls] polls: [None] when it would poll again. *)
Fixpoint Run (fuel polls : nat) : M W (option outcome) :=
  match polls with
  | O => mret None
  | S polls =>
    recs ← PollRecords 100;
    done ← ctx_Done;
    match done with
    | Some err => mret (Some (Stopped err))
    | None =>
      o ← process_records fuel recs;
      match o with
      | Some o => mret (Some o)
      | None => _ ← modify AllowRebalance; Run fuel polls
      end
    end
  end.
End consumer.
