(* ===== verification/Outbox.v ===== *)
(** The transactional outbox: [internal/outbox/repository.go] and
    [internal/outbox/publisher.go].

    Rows have status 0 (pending), 2 (claimed by a worker until its lease ends)
    and 1 (published). [skip] says which rows other open transactions hold
    ([FOR UPDATE SKIP LOCKED]). Log lines and counters are not modelled;
    [dispatch] ends with the statistics query that feeds the gauges. The loop of [Run]
    is in Loops.v. *)
From S2P Require Import Prelude GoStrings Mysql Json Message Commerce Kafka.

Record Event : Type := mkEvent {
  ev_ID : Z;
  ev_EventID : string;
  ev_AggregateType : string;
  ev_AggregateID : string;
  ev_EventType : string;
  ev_Topic : string;
  ev_PartitionKey : string;
  ev_Payload : raw;
  ev_RetryCount : Z }.

(** [rows.Scan] of the claim query. *)
Definition scan_event (r : outbox_row) : Event :=
  mkEvent (ob_id r) (ob_event_id r) (ob_aggregate_type r) (ob_aggregate_id r) (ob_event_type r)
    (ob_topic r) (ob_partition_key r) (ob_payload r) (ob_retry_count r).

(** [ORDER BY id] *)
Definition ob_id_le (a b : outbox_row) : Prop := ob_id a <= ob_id b.
#[export] Instance ob_id_le_dec a b : Decision (ob_id_le a b).
Proof. unfold ob_id_le. apply _. Defined.
#[export] Instance ob_id_le_total : Total ob_id_le.
Proof. intros a b. unfold ob_id_le. lia. Qed.
#[export] Instance ob_id_le_trans : Transitive ob_id_le.
Proof. intros a b c. unfold ob_id_le. lia. Qed.

(** The columns that updates write. *)
Definition with_state (r : outbox_row) (status retry : Z) (next : option Z) (by_ : option string)
    (at_ : option Z) (err : option string) (published : option Z) : outbox_row :=
  mkOutbox (ob_id r) (ob_event_id r) (ob_aggregate_type r) (ob_aggregate_id r) (ob_event_type r)
    (ob_topic r) (ob_partition_key r) (ob_payload r) status retry next by_ at_ err (ob_created_at r) published.

Section repository.
Context `{MySQLServer}.

(** The [WHERE] clause of the claim; a comparison with NULL is not true. *)
Definition eligible (now staleBefore : Z) (r : outbox_row) : bool :=
  ((ob_status r =? 0) && match ob_next_retry_at r with None => true | Some n => n <=? now end)
  || ((ob_status r =? 2) && match ob_locked_at r with None => false | Some l => l <? time_param staleBefore end).

Definition claim_rows (skip : outbox_row -> bool) (now staleBefore batch : Z) (rows : list outbox_row)
  : list outbox_row :=
  take (Z.to_nat batch)
    (List.filter (fun r => eligible now staleBefore r && negb (skip r)) (merge_sort ob_id_le rows)).

Definition select_claimable (skip : outbox_row -> bool) (staleBefore batch : Z) : stmt CommerceDB (list Event) :=
  fun now t => Ok (map scan_event (claim_rows skip now staleBefore batch (outbox t)), t).

(** [UPDATE outbox_events SET status=2, locked_by=?, locked_at=NOW(3) WHERE id=?] *)
Definition lock_row (workerID : string) (now : Z) (r : outbox_row) : outbox_row :=
  with_state r 2 (ob_retry_count r) (ob_next_retry_at r) (Some workerID) (Some now) (ob_last_error r)
    (ob_published_at r).
Definition lock_event (workerID : string) (id : Z) : stmt CommerceDB unit := fun now t =>
  Ok (tt, set_outbox (update_where (fun r => ob_id r =? id) (lock_row workerID now) (outbox t)) t).

Fixpoint lock_events (workerID : string) (es : list Event) : M (Mysql CommerceDB) unit :=
  match es with
  | [] => mret tt
  | e :: es => _ ← tx_exec (lock_event workerID (ev_ID e)); lock_events workerID es
  end.

(** [now] is the application's [time.Now().UTC()]. *)
Definition Claim (skip : outbox_row -> bool) (now : Z) (workerID : string) (batch lease : Z)
  : M (Mysql CommerceDB) (list Event) :=
  let batch := if batch <=? 0 then 100 else batch in
  with_tx (
    let staleBefore := now - lease in
    events ← tx_exec (select_claimable skip staleBefore batch);
    match events with
    | [] => _ ← commit_tx; mret []
    | _ =>
      _ ← lock_events workerID events;
      _ ← commit_tx;
      mret events
    end).

(** [WHERE id=? AND status=2 AND locked_by=?] *)
Definition owned (id : Z) (workerID : string) (r : outbox_row) : bool :=
  (ob_id r =? id) && (ob_status r =? 2)
  && match ob_locked_by r with Some w => str_eq w workerID | None => false end.

Definition publish_row (now : Z) (r : outbox_row) : outbox_row :=
  with_state r 1 (ob_retry_count r) (ob_next_retry_at r) None None None (Some now).
Definition update_published (id : Z) (workerID : string) : stmt CommerceDB Z := fun now t =>
  let (n, rows) := sql_update (owned id workerID) (publish_row now) (outbox t) in
  Ok (n, set_outbox rows t).

Definition MarkPublished (id : Z) (workerID : string) : M (Mysql CommerceDB) unit :=
  n ← db_exec (update_published id workerID);
  if negb (n =? 1) then throw (Fresh "outbox publish lock lost") else mret tt.

Definition fail_row (next : Z) (msg : string) (r : outbox_row) : outbox_row :=
  with_state r 0 (ob_retry_count r + 1) (Some (datetime3 next)) None None (Some msg) (ob_published_at r).
Definition update_failed (next : Z) (msg : string) (id : Z) (workerID : string) : stmt CommerceDB Z := fun _ t =>
  if existsb (owned id workerID) (outbox t) && negb (text_ok msg) then Err incorrect_string
  else let (n, rows) := sql_update (owned id workerID) (fail_row next msg) (outbox t) in
       Ok (n, set_outbox rows t).

Definition failure_message (cause : option error) : string :=
  match cause with
  | None => ""
  | Some c => let msg := error_text c in if 512 <? slen msg then str_take 512 msg else msg
  end.

(** [now] is the application's [time.Now().UTC()]. *)
Definition MarkFailed (now id : Z) (workerID : string) (retryAfter : Z) (cause : option error)
  : M (Mysql CommerceDB) unit :=
  let next := now + retryAfter in
  n ← db_exec (update_failed next (TrimSpace (failure_message cause)) id workerID);
  if negb (n =? 1) then throw (Fresh "outbox failure lock lost") else mret tt.

Definition pending (r : outbox_row) : bool := negb (ob_status r =? 1).

Definition PendingCount : M (Mysql CommerceDB) Z :=
  db_exec (reads (fun t => Ok (count_where pending (outbox t)))).

(** [MIN(created_at)] over a column. *)
Definition minimum (l : list Z) : option Z :=
  match l with [] => None | x :: l => Some (foldr Z.min x l) end.
Definition select_pending_stats : stmt CommerceDB (Z * Z) := fun now t =>
  let rows := List.filter pending (outbox t) in
  let age := match minimum (map ob_created_at rows) with
             | Some m => Z.quot (now - m) 1000
             | None => 0
             end in
  Ok ((Z.of_nat (length rows), age), t).

Definition PendingStats : M (Mysql CommerceDB) (Z * Z) :=
  ca ← db_exec select_pending_stats;
  let (count, oldestAgeMicros) := (ca : Z * Z) in
  let oldestAgeMicros := if oldestAgeMicros <? 0 then 0 else oldestAgeMicros in
  mret (count, wrap64 (oldestAgeMicros * Microsecond)).
End repository.

(** ** Publisher *)
(** The loop of [retryDelay]; [n] bounds the number of iterations. *)
Fixpoint retry_loop (n : nat) (i attempt d : Z) : Z :=
  match n with
  | O => d
  | S n => if (i <? attempt) && (d <? 5 * Minute) then retry_loop n (i + 1) attempt (d * 2) else d
  end.

Definition retryDelay (attempt : Z) : Z :=
  let attempt := if attempt <? 1 then 1 else attempt in
  let d := retry_loop 10 1 attempt Second in
  if 5 * Minute <? d then 5 * Minute else d.

(** The interface [outbox.Producer]. *)
Class Producer (K : Type) := {
  producer_ProduceSync : trace_map -> string -> string -> raw -> M K unit }.

Section publisher.
Context `{MySQLServer} `{TimeText} {K : Type} `{Producer K}.
(** Configuration of [NewPublisher]; [metrics] says whether gauges are fed. *)
Variables (workerID : string) (batch lease : Z) (metrics : bool).
(** The rows other transactions hold, and the clock when the claim is made and
    when the failure of an event is recorded. *)
Variables (skip : outbox_row -> bool) (claim_now : Z) (fail_now : Z -> Z).

Definition publish_event (ctx : trace_map) (e : Event) : M (Mysql CommerceDB * K) unit :=
  let eventCtx := default ctx (ContextFromEnvelope (ev_Payload e)) in
  r ← try (zoom (producer_ProduceSync eventCtx (ev_Topic e) (ev_PartitionKey e) (ev_Payload e)));
  match r with
  | Err err =>
    let delay := retryDelay (ev_RetryCount e + 1) in
    ignore (zoom (MarkFailed (fail_now (ev_ID e)) (ev_ID e) workerID delay (Some err)))
  | Ok _ => ignore (zoom (MarkPublished (ev_ID e) workerID))
  end.

Fixpoint publish_events (ctx : trace_map) (es : list Event) : M (Mysql CommerceDB * K) unit :=
  match es with
  | [] => mret tt
  | e :: es => _ ← publish_event ctx e; publish_events ctx es
  end.

Definition updatePending : M (Mysql CommerceDB * K) unit :=
  if metrics then ignore (zoom PendingStats) else mret tt.

Definition dispatch (ctx : trace_map) : M (Mysql CommerceDB * K) unit :=
  r ← try (zoom (Claim skip claim_now workerID batch lease));
  match r with
  | Err _ => updatePending
  | Ok events => _ ← publish_events ctx events; updatePending
  end.
End publisher.

(** What the publisher needs from a producer: an acknowledged event is in the log,
    with at most its trace rewritten, and the log only grows. *)
Class ProducerOk (K : Type) `{Producer K} `{TimeText} := {
  sent : K -> list (string * string * raw);
  producer_acked : forall ctx topic key v k k',
    producer_ProduceSync ctx topic key v k = (Ok tt, k') ->
    exists ctx', (topic, key, InjectTrace v ctx') ∈ sent k';
  producer_grows : forall ctx topic key v k x,
    x ∈ sent k -> x ∈ sent (producer_ProduceSync ctx topic key v k).2 }.

(** The producer of [internal/mq] behind the interface; [span] is the carrier of
    the producer span started under a context. *)
Definition kafka_producer {K} `{KafkaClient K} `{TimeText} (span : trace_map -> trace_map) : Producer K :=
  {| producer_ProduceSync := fun ctx => ProduceSync (span ctx) |}.

#[export, refine] Instance kafka_producer_ok {K} `{KafkaClientOk K} `{TimeText} (span : trace_map -> trace_map) :
  @ProducerOk K (kafka_producer span) _ := {| sent := delivered |}.
Proof.
  - intros ctx topic key v k k'. simpl. unfold ProduceSync, produceSync, try, mbind, M_bind.
    destruct (client_ProduceSync _ _ _ k) as [[[]|e] k1] eqn:E; unfold throw; intros [= <-].
    exists (span ctx). by eapply produce_acked.
  - intros ctx topic key v k x Hx. simpl. unfold ProduceSync, produceSync, try, mbind, M_bind.
    pose proof (produce_grows topic key (InjectTrace v (span ctx)) k x Hx).
    by destruct (client_ProduceSync _ _ _ k) as [[[]|e] k1].
Defined.
