(* ===== verification/Instances.v ===== *)
(** Concrete instances of the interfaces to code outside the repository, for
    evaluating the definitions on examples. *)
From S2P Require Import Prelude GoStrings Mysql Json Message Kafka Outbox.

(** Only ASCII letters have cases. *)
Definition ascii_tables : UnicodeTables := {|
  table_IsLetter := fun _ => false;
  table_IsDigit := fun _ => false;
  table_ToLower := fun r => r;
  table_ToUpper := fun r => r |}.

(** A server with a binary collation that names the key in its message. *)
Definition example_server : MySQLServer := {|
  collate := fun s => s;
  dup_entry_message := fun _ key => key;
  error_string := fun _ _ => "Duplicate entry";
  datetime3 := NOW3;
  time_param := fun t => t / 1000 * 1000;
  text_ok := fun _ => true |}.

Lemma example_server_ok : @MySQLServerOk ascii_tables example_server.
Proof. split; intros; [apply Contains_refl|by vm_compute|by simpl in *; subst]. Qed.

(** Times written as their number of nanoseconds. *)
Definition nano_text : TimeText := {| time_text := FormatInt; parse_time := ParseInt |}.
Definition nano_text_ok : @TimeTextOk nano_text.
Proof.
  constructor. intros t Ht. apply ParseInt_FormatInt.
  unfold in_int64, int64_min, int64_max in *. lia.
Qed.

(** A broker that accepts or refuses every record. *)
Definition broker (up : bool) : KafkaClient (list (string * string * raw)) := {|
  client_ProduceSync := fun topic key v l =>
    if up then (Ok tt, l ++ [(topic, key, v)]) else (Err (Fresh "broker down"), l);
  delivered := fun l => l |}.
Definition broker_ok up : @KafkaClientOk _ (broker up).
Proof.
  split; intros; simpl in *; destruct up; simplify_eq; set_solver.
Qed.
