(* ===== verification/OutboxSpec.v ===== *)
(** What the outbox promises: the proofs about [Outbox].

    - [retryDelay]: closed form and bounds.
    - Rows evolve: every operation only writes the columns of [with_state] and
      leaves published rows alone ([outbox_evolves]).
    - [claim_spec], [mark_published_spec], [mark_failed_spec]: each statement under
      every fault schedule; [claim_nofault], [publish_events_nofault] without faults.
    - [pub_inv]: the publisher's invariant, kept by a whole tick ([dispatch_inv]). *)
From S2P Require Import Prelude GoStrings Mysql Json Message Commerce Kafka Outbox Instances.

(** *** Retry delay *)
Lemma retry_loop_stop n i a d : a <= i \/ 5 * Minute <= d -> retry_loop n i a d = d.
Proof.
  intros H. destruct n; simpl; [done|].
  destruct (Z.ltb_spec i a), (Z.ltb_spec d (5 * Minute)); simpl; [lia|done..].
Qed.

(** Ten iterations are enough for every attempt number. *)
Lemma retry_loop_enough n a : (9 <= n)%nat -> retry_loop n 1 a Second = Z.min (2 ^ (Z.max a 1 - 1)) 512 * Second.
Proof.
  intros Hn. do 9 (destruct n as [|n]; [lia|]). clear Hn.
  destruct (decide (a <= 9)).
  - destruct (decide (a <= 1)); [rewrite retry_loop_stop by lia; by replace (Z.max a 1) with 1 by lia|].
    assert (a = 2 \/ a = 3 \/ a = 4 \/ a = 5 \/ a = 6 \/ a = 7 \/ a = 8 \/ a = 9) as H by lia.
    repeat (destruct H as [->|H]); subst; reflexivity.
  - assert (Hp : 2 ^ 9 <= 2 ^ (Z.max a 1 - 1)) by (apply Z.pow_le_mono_r; lia).
    rewrite Z.min_r by lia.
    do 9 (cbn [retry_loop]; match goal with |- context [?x <? a] => replace (x <? a) with true by lia end;
      match goal with |- context [andb true ?b] => let v := eval vm_compute in b in replace b with v by reflexivity end;
      cbn [andb]; try match goal with |- context [?x + 1] => let v := eval vm_compute in (x + 1) in change (x + 1) with v end).
    by rewrite retry_loop_stop by (right; by vm_compute).
Qed.

Lemma retryDelay_closed a : retryDelay a = Z.min (2 ^ (Z.max a 1 - 1)) 300 * Second.
Proof.
  unfold retryDelay. assert (Hmax : (if a <? 1 then 1 else a) = Z.max a 1) by (destruct (Z.ltb_spec a 1); lia).
  rewrite Hmax, retry_loop_enough by lia. rewrite Z.max_l by lia.
  set (p := 2 ^ _). unfold Minute, Second. destruct (Z.ltb_spec (5 * (60 * 1000000000)) (Z.min p 512 * 1000000000)); lia.
Qed.
(** ** Rows evolve
    Only the columns of [with_state] change, and a published row stays as it is. *)
Definition same_event_row (r r' : outbox_row) : Prop :=
  ob_id r' = ob_id r /\ ob_event_id r' = ob_event_id r /\ ob_topic r' = ob_topic r
  /\ ob_partition_key r' = ob_partition_key r /\ ob_payload r' = ob_payload r /\ ob_aggregate_id r' = ob_aggregate_id r.
Definition row_evolves (r r' : outbox_row) : Prop :=
  same_event_row r r' /\ (ob_status r = 1 -> r' = r).
Definition outbox_evolves (t t' : CommerceDB) : Prop := Forall2 row_evolves (outbox t) (outbox t').

#[export] Instance row_evolves_preorder : PreOrder row_evolves.
Proof.
  split.
  - intros r. by split_and!.
  - intros r1 r2 r3 [H1 K1] [H2 K2]. unfold same_event_row in *. split.
    + destruct_and!. split_and!; congruence.
    + intros Hs. specialize (K1 Hs). subst. by apply K2.
Qed.
#[export] Instance outbox_evolves_preorder : PreOrder outbox_evolves.
Proof.
  split.
  - intros t. unfold outbox_evolves. reflexivity.
  - intros t1 t2 t3 H1 H2. unfold outbox_evolves in *. by etrans.
Qed.

(** The publisher's tables: ids are a primary key. *)
Definition ids_unique (t : CommerceDB) : Prop := NoDup (map ob_id (outbox t)).

Lemma outbox_evolves_ids t t' : outbox_evolves t t' -> map ob_id (outbox t') = map ob_id (outbox t).
Proof.
  unfold outbox_evolves. generalize (outbox t) (outbox t'). intros l l'.
  induction 1 as [|r r' l l' [Hr _] _ IH]; simpl; [done|]. destruct Hr as [-> _]. by rewrite IH.
Qed.

Lemma outbox_evolves_unique t t' : outbox_evolves t t' -> ids_unique t -> ids_unique t'.
Proof. unfold ids_unique. intros H. by rewrite (outbox_evolves_ids _ _ H). Qed.

Lemma unique_row t r r' : ids_unique t -> r ∈ outbox t -> r' ∈ outbox t -> ob_id r = ob_id r' -> r = r'.
Proof.
  unfold ids_unique. intros Hn Hr Hr' Hid.
  apply list_elem_of_lookup in Hr as [i Hi], Hr' as [j Hj].
  assert (i = j); [|congruence].
  eapply NoDup_lookup; [done| |]; rewrite list_lookup_fmap; [by rewrite Hi|by rewrite Hj, Hid].
Qed.

Lemma update_evolves p f t :
  (forall r, r ∈ outbox t -> p r = true -> same_event_row r (f r) /\ ob_status r <> 1) ->
  outbox_evolves t (set_outbox (update_where p f (outbox t)) t).
Proof.
  unfold outbox_evolves. simpl. generalize (outbox t). induction l as [|r l IH]; intros H; [constructor|].
  constructor.
  - destruct (p r) eqn:E; [|reflexivity]. destruct (H r) as [? ?]; [left|done|]. by split.
  - apply IH. intros r' ? ?. apply H; [by right|done].
Qed.

Section repository_facts.
Context `{MySQLServer}.

(** *** Claim *)
Definition claimed (ids : list Z) (r : outbox_row) : bool := bool_decide (ob_id r ∈ ids).
(** The tables with the rows [ids] locked by [w]. *)
Definition locked (w : string) (now : Z) (ids : list Z) (t : CommerceDB) : CommerceDB :=
  set_outbox (update_where (claimed ids) (lock_row w now) (outbox t)) t.

Lemma set_outbox_set l l' t : set_outbox l (set_outbox l' t) = set_outbox l t.
Proof. done. Qed.
Lemma set_outbox_id t : set_outbox (outbox t) t = t.
Proof. by destruct t. Qed.

Lemma locked_nil w now t : locked w now [] t = t.
Proof. unfold locked. rewrite update_where_none; [apply set_outbox_id|]. intros r _. done. Qed.

Lemma locked_step w now ids id t u t' :
  lock_event w id now (locked w now ids t) = Ok (u, t') -> t' = locked w now (ids ++ [id]) t.
Proof.
  unfold lock_event, locked. intros [= _ <-]. rewrite set_outbox_set. simpl. f_equal.
  unfold update_where. rewrite map_map. apply map_ext. intros r. unfold claimed.
  destruct (bool_decide_reflect (ob_id r ∈ ids)) as [Hi|Hi]; simpl;
    destruct (Z.eqb_spec (ob_id r) id) as [Hid|Hid]; case_bool_decide as Ha; rewrite ?elem_of_app, ?list_elem_of_singleton in Ha;
    first [done|tauto].
Qed.

Lemma lock_events_spec w es : forall ids c t n fl,
  wp (lock_events w es)
     (fun r s => exists t' fl', s = mkMysql c (Some t') n fl' /\
        match r with Ok _ => t' = locked w (NOW3 n) (ids ++ map ev_ID es) t | Err _ => True end)
     (mkMysql c (Some (locked w (NOW3 n) ids t)) n fl).
Proof.
  induction es as [|e es IH]; intros ids c t n fl; simpl.
  - apply wp_ret. eexists _, _. by rewrite app_nil_r.
  - apply wp_bind, wp_tx_exec; [|eauto]. intros [] t1 fl1 ->%locked_step.
    eapply wp_mono; [apply IH|]. intros r s. by rewrite <- app_assoc.
Qed.

(** [Claim], under every fault schedule: it returns the first rows of the
    batch and leaves them locked, or returns an error and leaves the tables
    unchanged, or the commit is not acknowledged. *)
Definition claim_batch (batch : Z) : Z := if batch <=? 0 then 100 else batch.
Lemma claim_spec skip now w batch lease c n fl :
  let rows := claim_rows skip (NOW3 n) (now - lease) (claim_batch batch) (outbox c) in
  let c' := locked w (NOW3 n) (map ob_id rows) c in
  wp (Claim skip now w batch lease)
     (fun r s => txn s = None /\ db_now s = n /\
        match r with
        | Ok es => es = map scan_event rows /\ committed s = c'
        | Err _ => committed s = c \/ committed s = c'
        end)
     (mkMysql c None n fl).
Proof.
  intros rows c'. unfold Claim. apply wp_with_tx; [intros; split_and!; auto|]. intros fl1.
  apply wp_bind, wp_tx_exec; [|intros; split_and!; auto].
  intros es t1 fl2. unfold select_claimable. fold (claim_batch batch) rows. intros [= <- <-].
  destruct (map scan_event rows) as [|e es] eqn:Ees.
  - assert (rows = []) as Hr by (by destruct rows).
    assert (Hc : c = c') by (unfold c'; rewrite Hr; simpl; by rewrite locked_nil).
    apply wp_bind, wp_commit; try (intros; split_and!; auto; fail).
    intros fl3. by apply wp_ret.
  - rewrite <- Ees. apply wp_bind. eapply wp_mono.
    { rewrite <- (locked_nil w (NOW3 n) c) at 2. apply lock_events_spec. }
    intros [[]|e1] s (t' & fl' & -> & Ht); [|intros; split_and!; auto].
    rewrite map_map in Ht. simpl in Ht. change (fun x => ob_id x) with ob_id in Ht. subst t'. fold c'.
    apply wp_bind, wp_commit; [|intros; split_and!; auto|intros; split_and!; auto].
    intros fl4. by apply wp_ret.
Qed.

Lemma elem_of_claim_rows skip now stale batch rows r :
  r ∈ claim_rows skip now stale batch rows -> r ∈ rows /\ eligible now stale r = true /\ skip r = false.
Proof.
  unfold claim_rows. intros Hr. assert (r ∈ List.filter (fun r => eligible now stale r && negb (skip r)) (merge_sort ob_id_le rows)) as Hf.
  { apply elem_of_take in Hr as (i & Hi & _). by eapply list_elem_of_lookup_2. }
  apply list_elem_of_In, filter_In in Hf as [Hin [? ?%negb_true_iff]%andb_prop].
  split_and!; [|done..]. apply list_elem_of_In in Hin. by rewrite merge_sort_Permutation in Hin.
Qed.

Lemma eligible_unpublished now stale r : eligible now stale r = true -> ob_status r <> 1.
Proof. unfold eligible. destruct (Z.eqb_spec (ob_status r) 0), (Z.eqb_spec (ob_status r) 2); simpl; [lia..|done]. Qed.

Lemma locked_evolves w now skip stale batch t rows :
  ids_unique t -> rows = claim_rows skip now stale batch (outbox t) ->
  outbox_evolves t (locked w now (map ob_id rows) t).
Proof.
  intros Hu ->. apply update_evolves. intros r Hr Hc%bool_decide_eq_true.
  split; [done|]. apply list_elem_of_In, in_map_iff in Hc as (r' & Hid & Hr').
  rewrite <- list_elem_of_In in Hr'. apply elem_of_claim_rows in Hr' as (Hr' & He & _).
  rewrite (unique_row t r r') by done. by eapply eligible_unpublished.
Qed.

(** *** MarkPublished and MarkFailed *)
Lemma owned_status id w r : owned id w r = true -> ob_id r = id /\ ob_status r = 2.
Proof. unfold owned. rewrite !andb_true_iff. intros [[? ?] _]. lia. Qed.

Lemma mark_published_spec id w c n fl :
  let c' := set_outbox (update_where (owned id w) (publish_row (NOW3 n)) (outbox c)) c in
  wp (MarkPublished id w)
     (fun r s => txn s = None /\ db_now s = n /\
        match r with
        | Ok _ => committed s = c' /\ exists r, r ∈ outbox c /\ owned id w r = true
        | Err _ => committed s = c \/ committed s = c'
        end)
     (mkMysql c None n fl).
Proof.
  intros c'. unfold MarkPublished.
  assert (Hn : forall a t', update_published id w (NOW3 n) c = Ok (a, t') ->
             t' = c' /\ a = count_where (owned id w) (outbox c)).
  { unfold update_published, sql_update. intros a t' [= <- <-]. split; [done|]. unfold count_where. do 2 f_equal.
    apply filter_ext. intros r. destruct (owned id w r) eqn:E; [|done]. apply owned_status in E as [_ E]. simpl.
    rewrite bool_decide_false; [done|]. intros Heq. apply (f_equal ob_status) in Heq. simpl in Heq. congruence. }
  apply wp_bind, wp_db_exec.
  - intros a t' fl' [-> ->]%Hn. destruct (Z.eqb_spec (count_where (owned id w) (outbox c)) 1) as [E|]; simpl.
    + apply wp_ret. split_and!; [done..|]. apply count_where_pos. lia.
    + apply wp_throw. split_and!; auto.
  - intros; split_and!; auto.
  - intros e a t' fl' [-> ->]%Hn. split_and!; auto.
Qed.

Lemma mark_failed_spec now id w delay cause c n fl :
  let msg := TrimSpace (failure_message cause) in
  let c' := set_outbox (update_where (owned id w) (fail_row (now + delay) msg) (outbox c)) c in
  wp (MarkFailed now id w delay cause)
     (fun r s => txn s = None /\ db_now s = n /\ (committed s = c \/ committed s = c'))
     (mkMysql c None n fl).
Proof.
  intros msg c'. unfold MarkFailed. fold msg.
  assert (Hn : forall a t', update_failed (now + delay) msg id w (NOW3 n) c = Ok (a, t') -> t' = c').
  { unfold update_failed. intros a t'. destruct (_ && _); [done|]. by intros [= <- <-]. }
  apply wp_bind, wp_db_exec.
  - intros a t' fl' ->%Hn. destruct (negb _); [apply wp_throw|apply wp_ret]; split_and!; auto.
  - intros; split_and!; auto.
  - intros e a t' fl' ->%Hn. split_and!; auto.
Qed.

Lemma owned_update_evolves id w f t :
  (forall r, same_event_row r (f r)) ->
  outbox_evolves t (set_outbox (update_where (owned id w) f (outbox t)) t).
Proof.
  intros Hf. apply update_evolves. intros r _ Ho%owned_status. split; [done|lia].
Qed.
End repository_facts.

Section publisher_facts.
Context `{MySQLServer} `{TimeText} {K : Type} `{Producer K} `{!ProducerOk K}.
Context (workerID : string) (batch lease : Z) (metrics : bool).
Context (skip : outbox_row -> bool) (claim_now : Z) (fail_now : Z -> Z).
Implicit Types w : Mysql CommerceDB * K.

(** A published row is in the log, with at most its trace rewritten. *)
Definition row_sent (k : K) (r : outbox_row) : Prop :=
  exists ctx, (ob_topic r, ob_partition_key r, InjectTrace (ob_payload r) ctx) ∈ sent k.
Definition published_sent (t : CommerceDB) (k : K) : Prop :=
  forall r, r ∈ outbox t -> ob_status r = 1 -> row_sent k r.

(** The publisher's invariant between statements. *)
Record pub_inv (w : Mysql CommerceDB * K) : Prop := {
  pi_tx : txn w.1 = None;
  pi_ids : ids_unique (committed w.1);
  pi_sent : published_sent (committed w.1) w.2 }.
(** The event was read from a row of the tables. *)
Definition known (w : Mysql CommerceDB * K) (e : Event) : Prop :=
  exists r, r ∈ outbox (committed w.1) /\ ob_id r = ev_ID e /\ ob_topic r = ev_Topic e
    /\ ob_partition_key r = ev_PartitionKey e /\ ob_payload r = ev_Payload e.

Lemma known_evolves w w' e :
  outbox_evolves (committed w.1) (committed w'.1) -> known w e -> known w' e.
Proof.
  intros Hev (r & Hr & Hid & Ht & Hk & Hp).
  apply list_elem_of_lookup in Hr as [i Hi].
  destruct (Forall2_lookup_l _ _ _ _ _ Hev Hi) as (r' & Hi' & (? & ? & ? & ? & ? & ?) & _).
  exists r'. split; [by eapply list_elem_of_lookup_2|]. split_and!; congruence.
Qed.

(** Statements that publish nothing keep the invariant. *)
Lemma pub_inv_evolves c c' n n' fl fl' k :
  outbox_evolves c c' ->
  (forall r, r ∈ outbox c' -> ob_status r = 1 -> r ∈ outbox c) ->
  pub_inv (mkMysql c None n fl, k) -> pub_inv (mkMysql c' None n' fl', k).
Proof.
  intros Hev Hst [_ Hu Hs]. split; simpl in *; [done|by eapply outbox_evolves_unique|].
  intros r Hr Hst1. apply Hs; auto.
Qed.

Lemma update_unpublished p f c r :
  (forall r, ob_status (f r) <> 1) ->
  r ∈ outbox (set_outbox (update_where p f (outbox c)) c) -> ob_status r = 1 -> r ∈ outbox c.
Proof.
  simpl. intros Hf (r' & Hr' & ->)%elem_of_update_where. destruct (p r'); [|done]. by intros ?%Hf.
Qed.

Definition wp_inv {A} (m : M (Mysql CommerceDB * K) A) w : Prop :=
  wp m (fun _ w' => pub_inv w' /\ outbox_evolves (committed w.1) (committed w'.1)) w.

Lemma publish_event_inv ctx e w :
  pub_inv w -> known w e -> wp_inv (publish_event workerID fail_now ctx e) w.
Proof.
  intros Hinv Hkn. unfold wp_inv, publish_event. destruct w as [[c x n fl] k].
  destruct Hinv as [Hx Hu Hs]. simpl in Hx, Hu, Hs. subst x.
  set (ectx := default ctx _).
  apply wp_bind, wp_try, wp_zoom. unfold wp at 1. simpl.
  destruct (producer_ProduceSync _ _ _ _ k) as [r k'] eqn:Ep. simpl.
  pose proof (producer_grows ectx (ev_Topic e) (ev_PartitionKey e) (ev_Payload e) k) as Hg.
  rewrite Ep in Hg. simpl in Hg.
  assert (Hs' : published_sent c k').
  { intros r0 Hr0 Hst1. destruct (Hs r0 Hr0 Hst1) as [ctx' ?]. exists ctx'. auto. }
  destruct r as [[]|err]; apply wp_ignore, wp_zoom; (eapply wp_mono; [apply mark_published_spec || apply mark_failed_spec|]); simpl.
  - intros r [c' x' n' fl']. simpl. intros (-> & -> & Hr).
    assert (Hc : c' = c \/ c' = set_outbox (update_where (owned (ev_ID e) workerID) (publish_row (NOW3 n)) (outbox c)) c).
    { destruct r as [?|?]; [right; tauto|done]. }
    clear Hr. assert (Hev : outbox_evolves c c').
    { destruct Hc as [->| ->]; [reflexivity|]. by apply owned_update_evolves. }
    split; [split; [done|by eapply outbox_evolves_unique|]|done]. simpl.
    destruct Hc as [->| ->]; [done|].
    intros r0 (r1 & Hr1 & ->)%elem_of_update_where. destruct (owned _ _ r1) eqn:Eo; [|by apply Hs'].
    intros _. apply owned_status in Eo as [Hid _].
    destruct Hkn as (r2 & Hr2 & Hid2 & Ht & Hk & Hp). simpl in Hr2.
    assert (r1 = r2) as -> by (eapply unique_row; [done..|congruence]).
    destruct (producer_acked _ _ _ _ _ _ Ep) as [ctx' Hin]. exists ctx'. simpl. by rewrite Ht, Hk, Hp.
  - intros r [c' x' n' fl']. simpl. intros (-> & -> & Hc).
    assert (Hev : outbox_evolves c c').
    { destruct Hc as [->| ->]; [reflexivity|]. by apply owned_update_evolves. }
    split; [|done]. split; simpl; [done|by eapply outbox_evolves_unique|].
    destruct Hc as [->| ->]; [done|]. intros r0 Hr0 Hst1. apply Hs'; [|done].
    eapply update_unpublished; [|done|done]. done.
Qed.

Lemma publish_events_inv ctx es : forall w,
  pub_inv w -> (forall e, e ∈ es -> known w e) -> wp_inv (publish_events workerID fail_now ctx es) w.
Proof.
  induction es as [|e es IH]; intros w Hinv Hkn; unfold wp_inv; simpl.
  - apply wp_ret. split; [done|reflexivity].
  - apply wp_bind. eapply wp_mono.
    { apply publish_event_inv; [done|]. apply Hkn. left. }
    intros [?|?] w1 [Hinv1 Hev1]; [|by split].
    eapply wp_mono.
    { apply IH; [done|]. intros e' He'. eapply known_evolves; [done|]. apply Hkn. by right. }
    intros r w2 [? ?]. split; [done|]. by etrans.
Qed.

Lemma updatePending_inv w : pub_inv w -> wp_inv (updatePending metrics) w.
Proof.
  intros Hinv. unfold wp_inv, updatePending.
  destruct metrics; [|by split]. destruct w as [[c x n fl] k].
  apply wp_ignore, wp_zoom. simpl. unfold PendingStats. apply wp_bind, wp_db_exec.
  - unfold select_pending_stats. intros [cnt age] t' fl' [= _ _ <-]. apply wp_ret.
    split; [|reflexivity]. by destruct Hinv.
  - intros e fl'. split; [|reflexivity]. by destruct Hinv.
  - unfold select_pending_stats. intros e a t' fl' [= _ <-]. split; [|reflexivity]. by destruct Hinv.
Qed.

(** One tick of the publisher, under every database fault and producer
    failure. *)
Lemma dispatch_inv ctx w :
  pub_inv w -> wp_inv (dispatch workerID batch lease metrics skip claim_now fail_now ctx) w.
Proof.
  intros Hinv. unfold wp_inv, dispatch. destruct w as [[c x n fl] k].
  pose proof Hinv as [Hx Hu Hs]. simpl in Hx, Hu, Hs. subst x.
  apply wp_bind, wp_try, wp_zoom. simpl. eapply wp_mono; [apply claim_spec|].
  intros r [c' x' n' fl']. simpl. intros (-> & -> & Hr).
  set (rows := claim_rows _ _ _ _ _) in *.
  assert (Hc : c' = c \/ c' = locked workerID (NOW3 n) (map ob_id rows) c).
  { destruct r; [right; tauto|done]. }
  assert (Hev : outbox_evolves c c').
  { destruct Hc as [->| ->]; [reflexivity|]. by eapply locked_evolves. }
  assert (Hinv' : pub_inv (mkMysql c' None n fl', k)).
  { eapply pub_inv_evolves; [done| |done].
    destruct Hc as [->| ->]; [done|]. intros r0. apply update_unpublished. done. }
  destruct r as [es|err].
  - destruct Hr as [-> ->]. apply wp_bind. eapply wp_mono.
    { apply publish_events_inv; [done|]. intros e He.
      apply list_elem_of_In, in_map_iff in He as (r & <- & Hr). rewrite <- list_elem_of_In in Hr.
      apply elem_of_claim_rows in Hr as (Hr & _). eapply (known_evolves (mkMysql c None n fl, k)); [done|].
      by exists r. }
    intros [?|?] w2 [? ?]; [|by split; [|etrans]].
    eapply wp_mono; [by apply updatePending_inv|]. intros ? ? [? ?]. split; [done|].
    etrans; [|done]. by etrans.
  - eapply wp_mono; [by apply updatePending_inv|]. intros ? ? [? ?]. split; [done|]. by etrans.
Qed.
End publisher_facts.

Section publisher_nofault.
Context `{MySQLServer} `{TimeText} {K : Type} `{Producer K} `{!ProducerOk K}.
Context (workerID : string) (fail_now : Z -> Z).

Lemma mark_published_nofault id c n :
  (MarkPublished id workerID (mkMysql c None n [])).2
  = mkMysql (set_outbox (update_where (owned id workerID) (publish_row (NOW3 n)) (outbox c)) c) None n [].
Proof.
  unfold MarkPublished. erewrite bind_ok by (apply db_exec_nofault; reflexivity).
  by destruct (negb _).
Qed.

(** The outbox while a batch is being published: the rows [done_] are published,
    the other rows of [ids] are locked. *)
Definition batch_row (now : Z) (ids done_ : list Z) (r : outbox_row) : outbox_row :=
  if bool_decide (ob_id r ∈ done_) then publish_row now (lock_row workerID now r)
  else if bool_decide (ob_id r ∈ ids) then lock_row workerID now r else r.
Definition batch_tables (now : Z) (ids done_ : list Z) (t : CommerceDB) : CommerceDB :=
  set_outbox (map (batch_row now ids done_) (outbox t)) t.

Lemma batch_tables_locked now ids t : batch_tables now ids [] t = locked workerID now ids t.
Proof.
  unfold batch_tables, locked, update_where. f_equal.
Qed.

Lemma lock_events_nofault es : forall ids c t n,
  lock_events workerID es (mkMysql c (Some (locked workerID (NOW3 n) ids t)) n [])
  = (Ok tt, mkMysql c (Some (locked workerID (NOW3 n) (ids ++ map ev_ID es) t)) n []).
Proof.
  induction es as [|e es IH]; intros ids c t n; simpl; [by rewrite app_nil_r|].
  erewrite bind_ok; [rewrite (IH (ids ++ [ev_ID e])), <- app_assoc; reflexivity|].
  erewrite tx_exec_nofault by reflexivity. do 3 f_equal. by eapply locked_step.
Qed.

Lemma claim_nofault skip now batch lease c n :
  let rows := claim_rows skip (NOW3 n) (now - lease) (claim_batch batch) (outbox c) in
  Claim skip now workerID batch lease (mkMysql c None n []) =
  (Ok (map scan_event rows), mkMysql (batch_tables (NOW3 n) (map ob_id rows) [] c) None n []).
Proof.
  intros rows. rewrite batch_tables_locked. unfold Claim. rewrite with_tx_nofault.
  erewrite bind_ok by (apply tx_exec_nofault; reflexivity). fold (claim_batch batch) rows.
  destruct (map scan_event rows) as [|e es] eqn:Ees.
  - assert (rows = []) as -> by (by destruct rows). simpl. by rewrite locked_nil.
  - rewrite <- Ees. pose proof (lock_events_nofault (map scan_event rows) [] c c n) as Hl.
    rewrite locked_nil, map_map in Hl. erewrite bind_ok by exact Hl. done.
Qed.

Lemma batch_step now ids done_ id t :
  id ∈ ids ->
  let t1 := batch_tables now ids done_ t in
  set_outbox (update_where (owned id workerID) (publish_row now) (outbox t1)) t1
  = batch_tables now ids (done_ ++ [id]) t.
Proof.
  intros Hid t1. unfold t1, batch_tables. simpl. unfold set_outbox. simpl. f_equal.
  unfold update_where. rewrite map_map. apply map_ext. intros r. unfold batch_row, owned.
  destruct (bool_decide_reflect (ob_id r ∈ done_)) as [Hd|Hd].
  - simpl. rewrite andb_false_r. simpl. rewrite bool_decide_true by (apply elem_of_app; by left). done.
  - destruct (Z.eqb_spec (ob_id r) id) as [<-|Hne].
    + rewrite !(bool_decide_true (ob_id r ∈ _)) by (rewrite ?elem_of_app, ?list_elem_of_singleton; auto). simpl.
      rewrite Z.eqb_refl, str_eq_refl. done.
    + rewrite (bool_decide_false (ob_id r ∈ done_ ++ [id])) by (rewrite elem_of_app, list_elem_of_singleton; tauto).
      destruct (bool_decide (ob_id r ∈ ids)); simpl; destruct (Z.eqb_spec (ob_id r) id); done.
Qed.

Lemma publish_events_nofault ctx n ids : forall es done_ t k,
  (forall ctx topic key v s, exists s', producer_ProduceSync ctx topic key v s = (Ok tt, s')) ->
  (forall e, e ∈ es -> ev_ID e ∈ ids) ->
  exists k', publish_events workerID fail_now ctx es (mkMysql (batch_tables (NOW3 n) ids done_ t) None n [], k)
    = (Ok tt, (mkMysql (batch_tables (NOW3 n) ids (done_ ++ map ev_ID es) t) None n [], k'))
    /\ (forall x, x ∈ sent k -> x ∈ sent k')
    /\ forall e, e ∈ es -> exists c', (ev_Topic e, ev_PartitionKey e, InjectTrace (ev_Payload e) c') ∈ sent k'.
Proof.
  induction es as [|e es IH]; intros done_ t k Hacc Hids; simpl.
  - exists k. rewrite app_nil_r. split_and!; [done..|]. intros e He. by apply not_elem_of_nil in He.
  - set (ectx := default ctx (ContextFromEnvelope (ev_Payload e))).
    destruct (Hacc ectx (ev_Topic e) (ev_PartitionKey e) (ev_Payload e) k) as [k1 Hk1].
    destruct (IH (done_ ++ [ev_ID e]) t k1) as (k' & Hrun & Hgrow & Hsent); [done|set_solver|].
    exists k'. split_and!.
    + rewrite <- app_assoc in Hrun. simpl in Hrun. erewrite bind_ok; [exact Hrun|].
      unfold publish_event. fold ectx. unfold mbind at 1, M_bind, try, zoom at 1. simpl. rewrite Hk1.
      unfold ignore, zoom. simpl.
      pose proof (mark_published_nofault (ev_ID e) (batch_tables (NOW3 n) ids done_ t) n) as Hm.
      rewrite batch_step in Hm by (apply Hids; left).
      destruct (MarkPublished _ _ _) as [r s]. simpl in *. by subst s.
    + intros x Hx. apply Hgrow. pose proof (producer_grows ectx (ev_Topic e) (ev_PartitionKey e) (ev_Payload e) k x Hx) as Hg.
      by rewrite Hk1 in Hg.
    + intros e' [->|He']%elem_of_cons; [|by apply Hsent].
      destruct (producer_acked _ _ _ _ _ _ Hk1) as [c' Hc']. exists c'. by apply Hgrow.
Qed.
End publisher_nofault.

Section claim_rows_facts.
Context `{MySQLServer}.
Context (skip : outbox_row -> bool) (now stale batch : Z) (rows : list outbox_row).

Let free (r : outbox_row) : bool := eligible now stale r && negb (skip r).

Lemma claim_rows_strong : StronglySorted ob_id_le (List.filter free (merge_sort ob_id_le rows)).
Proof. apply StronglySorted_filter, (StronglySorted_merge_sort ob_id_le). Qed.

Lemma claim_rows_sorted : Sorted Z.le (map ob_id (claim_rows skip now stale batch rows)).
Proof.
  unfold claim_rows. pose proof claim_rows_strong as Hs. fold free.
  rewrite <- (take_drop (Z.to_nat batch) (List.filter free _)) in Hs.
  apply StronglySorted_app_1_l, Sorted.StronglySorted_Sorted in Hs.
  induction Hs as [|r l Hl IH Hh]; simpl; [constructor|]. constructor; [done|].
  destruct Hh; constructor. done.
Qed.

Lemma claim_rows_length : 0 <= batch -> Z.of_nat (length (claim_rows skip now stale batch rows)) <= batch.
Proof. intros ?. unfold claim_rows. rewrite length_take. lia. Qed.

(** A free eligible row is left out only when the batch is full of rows that
    come before it. *)
Lemma claim_rows_maximal r :
  r ∈ rows -> eligible now stale r = true -> skip r = false -> r ∉ claim_rows skip now stale batch rows ->
  0 <= batch ->
  Z.of_nat (length (claim_rows skip now stale batch rows)) = batch
  /\ forall r', r' ∈ claim_rows skip now stale batch rows -> ob_id r' <= ob_id r.
Proof.
  unfold claim_rows. fold free. intros Hr He Hs Hn Hb. pose proof claim_rows_strong as Hst.
  assert (Hf : r ∈ List.filter free (merge_sort ob_id_le rows)).
  { apply list_elem_of_In, filter_In. rewrite <- list_elem_of_In, merge_sort_Permutation. unfold free. by rewrite He, Hs. }
  rewrite <- (take_drop (Z.to_nat batch) (List.filter free _)) in Hf, Hst.
  apply elem_of_app in Hf as [Hf|Hf]; [done|]. split.
  - rewrite length_take. enough (Z.to_nat batch <= length (List.filter free (merge_sort ob_id_le rows)))%nat by lia.
    destruct (Nat.le_gt_cases (Z.to_nat batch) (length (List.filter free (merge_sort ob_id_le rows)))); [done|].
    rewrite drop_ge in Hf by lia. by apply not_elem_of_nil in Hf.
  - intros r' Hr'. apply (StronglySorted_app_1_elem_of _ _ _ _ _ Hst Hr' Hf).
Qed.
End claim_rows_facts.

(** ** Properties *)
Section properties.
Context `{MySQLServer}.

Lemma claim_batch_pos b : 0 < claim_batch b.
Proof. unfold claim_batch. destruct (Z.leb_spec b 0); lia. Qed.

(** A claim that returns, whatever faults occurred, has taken exactly the
    oldest eligible rows: at most the batch size of them (100 when it is not
    positive), in id order, each eligible and not held by another transaction,
    and left locked by the worker at the server's time; every other row is as it
    was, and one that was eligible and free was left behind only because the
    batch is full of older rows. *)
Theorem claim_takes_oldest_eligible skip now w batch lease c n fl es s :
  ids_unique c ->
  Claim skip now w batch lease (mkMysql c None n fl) = (Ok es, s) ->
  let ids := map ev_ID es in
  Sorted Z.le ids /\ Z.of_nat (length es) <= claim_batch batch
  /\ (forall e, e ∈ es -> exists r, r ∈ outbox c /\ e = scan_event r)
  /\ forall r, r ∈ outbox c ->
     if bool_decide (ob_id r ∈ ids) then
       eligible (NOW3 n) (now - lease) r = true /\ skip r = false
       /\ lock_row w (NOW3 n) r ∈ outbox (committed s)
     else
       r ∈ outbox (committed s)
       /\ (eligible (NOW3 n) (now - lease) r = true -> skip r = false ->
           Z.of_nat (length es) = claim_batch batch /\ forall e, e ∈ es -> ev_ID e < ob_id r).
Proof.
  intros Hu Hrun ids. pose proof (claim_spec skip now w batch lease c n fl) as Hspec.
  unfold wp in Hspec. rewrite Hrun in Hspec. simpl in Hspec. destruct Hspec as (_ & _ & -> & Hc).
  assert (Hids : ids = map ob_id (claim_rows skip (NOW3 n) (now - lease) (claim_batch batch) (outbox c))).
  { unfold ids. by rewrite map_map. }
  rewrite Hc, Hids, length_map. clear Hrun Hc Hids ids.
  set (rows := claim_rows _ _ _ _ _).
  assert (Hin : forall r, r ∈ outbox c -> ob_id r ∈ map ob_id rows <-> r ∈ rows).
  { intros r Hr. rewrite list_elem_of_In, in_map_iff. setoid_rewrite <- list_elem_of_In. split; [|eauto].
    intros (r' & Hid & Hr'). assert (r' ∈ outbox c) by (by apply elem_of_claim_rows in Hr' as [? _]).
    by rewrite <- (unique_row c r' r). }
  split_and!; [apply claim_rows_sorted|apply claim_rows_length; pose proof (claim_batch_pos batch); lia| |].
  { intros e He. apply list_elem_of_In, in_map_iff in He as (r & <- & Hr). rewrite <- list_elem_of_In in Hr.
    exists r. by apply elem_of_claim_rows in Hr as [? _]. }
  intros r Hr. assert (Hl : forall r', r' = (if claimed (map ob_id rows) r then lock_row w (NOW3 n) r else r) ->
    r' ∈ outbox (locked w (NOW3 n) (map ob_id rows) c)).
  { intros r' ->. apply elem_of_update_where. eauto. }
  case_bool_decide as Hc; unfold claimed in Hl.
  - rewrite bool_decide_true in Hl by done. apply Hin in Hc; [|done].
    apply elem_of_claim_rows in Hc as (_ & ? & ?). auto.
  - rewrite bool_decide_false in Hl by done. split; [by apply Hl|]. intros He Hs.
    rewrite Hin in Hc by done.
    destruct (claim_rows_maximal skip (NOW3 n) (now - lease) (claim_batch batch) (outbox c) r)
      as [Hlen Hlt]; [done|done|done|done|pose proof (claim_batch_pos batch); lia|].
    split; [done|]. intros e He'. apply list_elem_of_In, in_map_iff in He' as (r' & <- & Hr').
    rewrite <- list_elem_of_In in Hr'. simpl.
    assert (ob_id r' <= ob_id r) by (by apply Hlt).
    assert (ob_id r' <> ob_id r); [|lia]. intros Hid.
    assert (r' ∈ outbox c) by (by apply elem_of_claim_rows in Hr' as [? _]).
    apply Hc. by rewrite <- (unique_row c r' r).
Qed.

(** While a lease lasts, a claimed event stays with its worker: after [wA]
    claims at server time [n], a claim by [wB] over the tables [wA] left - at any
    server time, under any faults - returns none of [wA]'s events as long as the
    lease [wB] allows, counted back from its clock, has not passed [wA]'s claim. *)
Theorem claimed_event_stays_with_worker skipA skipB nowA nowB wA wB batchA batchB leaseA leaseB c n m flA flB
    esA esB sA sB :
  ids_unique c ->
  Claim skipA nowA wA batchA leaseA (mkMysql c None n flA) = (Ok esA, sA) ->
  Claim skipB nowB wB batchB leaseB (mkMysql (committed sA) None m flB) = (Ok esB, sB) ->
  time_param (nowB - leaseB) <= NOW3 n ->
  forall e, e ∈ esA -> ev_ID e ∉ map ev_ID esB.
Proof.
  intros Hu HA HB Hlease e He Hin.
  pose proof (claim_spec skipA nowA wA batchA leaseA c n flA) as SA.
  pose proof (claim_spec skipB nowB wB batchB leaseB (committed sA) m flB) as SB.
  unfold wp in SA, SB. rewrite HA in SA. rewrite HB in SB. simpl in SA, SB.
  destruct SA as (_ & _ & -> & Hc), SB as (_ & _ & -> & _).
  rewrite map_map in Hin. simpl in Hin.
  apply list_elem_of_In, in_map_iff in He as (rA & <- & HrA). rewrite <- list_elem_of_In in HrA.
  apply list_elem_of_In, in_map_iff in Hin as (rB & Hid & HrB). rewrite <- list_elem_of_In in HrB. simpl in Hid.
  apply elem_of_claim_rows in HrB as (HrB & Hel & _).
  rewrite Hc in HrB. apply elem_of_update_where in HrB as (r & Hr & ->).
  assert (Hcl : claimed (map ob_id (claim_rows skipA (NOW3 n) (nowA - leaseA) (claim_batch batchA) (outbox c))) r = true).
  { unfold claimed. apply bool_decide_eq_true_2. apply list_elem_of_In, in_map_iff.
    exists rA. rewrite <- list_elem_of_In. split; [|done]. rewrite <- Hid. by destruct (claimed _ r). }
  rewrite Hcl in Hel. unfold eligible in Hel. simpl in Hel.
  destruct (Z.ltb_spec (NOW3 n) (time_param (nowB - leaseB))); [lia|done].
Qed.
End properties.

Section publisher_properties.
Context `{MySQLServer} `{TimeText} {K : Type} `{Producer K} `{!ProducerOk K}.
Context (workerID : string) (batch lease : Z) (metrics : bool).
Context (skip : outbox_row -> bool) (claim_now : Z) (fail_now : Z -> Z).

(** C4 At least once: a tick of the publisher, under any database faults and
    any producer errors, only ever marks a row published when the producer has
    acknowledged it - every published row is in the log, under its topic and
    partition key and with its payload up to the trace field - and no row is
    lost, rewritten or taken back after it was published. *)
Theorem dispatch_publishes_at_least_once ctx w :
  pub_inv w ->
  let w' := (dispatch workerID batch lease metrics skip claim_now fail_now ctx w).2 in
  pub_inv w' /\ outbox_evolves (committed w.1) (committed w'.1).
Proof. apply dispatch_inv. Qed.

(** Progress: when the database answers and the producer accepts records,
    one tick publishes the whole claimed batch: each claimed row becomes
    published at the server's time and is in the log, and every other row of the
    tables is untouched. *)
Theorem dispatch_publishes_the_batch ctx c n k :
  (forall ctx topic key v s, exists s', producer_ProduceSync ctx topic key v s = (Ok tt, s')) ->
  let rows := claim_rows skip (NOW3 n) (claim_now - lease) (claim_batch batch) (outbox c) in
  exists k', dispatch workerID batch lease metrics skip claim_now fail_now ctx (mkMysql c None n [], k)
    = (Ok tt, (mkMysql (batch_tables workerID (NOW3 n) (map ob_id rows) (map ob_id rows) c) None n [], k'))
    /\ (forall x, x ∈ sent k -> x ∈ sent k') /\ forall r, r ∈ rows -> row_sent k' r.
Proof.
  intros Hacc rows. unfold dispatch.
  assert (Hclaim : Claim skip claim_now workerID batch lease (mkMysql c None n []) =
    (Ok (map scan_event rows), mkMysql (batch_tables workerID (NOW3 n) (map ob_id rows) [] c) None n [])).
  { apply claim_nofault. }
  destruct (publish_events_nofault workerID fail_now ctx n (map ob_id rows) (map scan_event rows) [] c k)
    as (k' & Hrun & Hgrow & Hsent); [done| |].
  { intros e He. apply list_elem_of_In, in_map_iff in He as (r & <- & Hr). apply list_elem_of_In, in_map_iff. eauto. }
  exists k'. split_and!; [|done|].
  - erewrite bind_ok by (unfold try, zoom; cbn [lget lens_fst fst]; rewrite Hclaim; reflexivity). cbv beta iota.
    rewrite map_map in Hrun. erewrite bind_ok by exact Hrun.
    unfold updatePending. by destruct metrics.
  - intros r Hr. apply (Hsent (scan_event r)). apply list_elem_of_In, in_map. by apply list_elem_of_In.
Qed.
End publisher_properties.

(** The retry delay doubles from one second and is capped at five minutes;
    ten iterations of its loop are enough for every attempt number. *)
Theorem retryDelay_is_capped_doubling attempt n :
  retryDelay attempt = Z.min (2 ^ (Z.max attempt 1 - 1)) 300 * Second
  /\ Second <= retryDelay attempt <= 5 * Minute
  /\ retry_loop (10 + n) 1 attempt Second = retry_loop 10 1 attempt Second.
Proof.
  rewrite retryDelay_closed. assert (1 <= 2 ^ (Z.max attempt 1 - 1)) by (apply (Z.pow_le_mono_r 2 0); lia).
  split_and!; [done|unfold Minute, Second; lia..|].
  by rewrite !retry_loop_enough by lia.
Qed.

(** ** Examples *)
Definition example_row (id status : Z) (locked_at : option Z) : outbox_row :=
  mkOutbox id ("gift:" +:+ FormatInt id) "GIFT_ORDER" "G1" EventTypeGiftSent "live.gift.v1" "7"
    (Valid (JObj [("order_no", JStr "G1")])) status 0 None (if status =? 2 then Some "w0" else None) locked_at
    None 0 None.
(** A pending row, a published one, one whose lease has ended and one still locked. *)
Definition example_outbox : CommerceDB :=
  mkCommerce ∅ ∅ [] []
    [example_row 1 0 None; example_row 2 1 None; example_row 3 2 (Some (1 * Minute));
     example_row 4 2 (Some (9 * Minute))] 5.
Lemma example_outbox_unique : ids_unique example_outbox.
Proof. apply (bool_decide_unpack _). by vm_compute. Qed.

Definition example_claim (now n : Z) (w : string) (c : CommerceDB) : res (list Event) * Mysql CommerceDB :=
  @Claim example_server (fun _ => false) now w 10 (5 * Minute) (mkMysql c None n []).

Lemma claim_takes_oldest_eligible_witness :
  exists es s, example_claim (10 * Minute) (10 * Minute) "w1" example_outbox = (Ok es, s)
    /\ map ev_ID es = [1; 3] /\ Sorted Z.le (map ev_ID es).
Proof.
  eexists _, _. split; [vm_compute; reflexivity|]. split; [reflexivity|].
  eapply (@claim_takes_oldest_eligible example_server (fun _ => false) (10 * Minute) "w1" 10 (5 * Minute)
           example_outbox (10 * Minute) []);
    [apply example_outbox_unique|vm_compute; reflexivity].
Defined.

Lemma claimed_event_stays_with_worker_witness :
  exists esA sA esB sB, example_claim (10 * Minute) (10 * Minute) "w1" example_outbox = (Ok esA, sA)
    /\ example_claim (15 * Minute) (15 * Minute) "w2" (committed sA) = (Ok esB, sB)
    /\ map ev_ID esB = [4] /\ forall e, e ∈ esA -> ev_ID e ∉ map ev_ID esB.
Proof.
  eexists _, _, _, _. split; [vm_compute; reflexivity|]. split; [vm_compute; reflexivity|].
  split; [reflexivity|].
  eapply (@claimed_event_stays_with_worker example_server (fun _ => false) (fun _ => false) (10 * Minute) (15 * Minute)
           "w1" "w2" 10 10 (5 * Minute) (5 * Minute) example_outbox (10 * Minute) (15 * Minute) [] []);
    [apply example_outbox_unique|vm_compute; reflexivity|vm_compute; reflexivity|by vm_compute].
Defined.

Definition example_producer (up : bool) : Producer (list (string * string * raw)) :=
  @kafka_producer _ (broker up) nano_text (fun ctx => ctx).
Definition example_producer_ok up : @ProducerOk _ (example_producer up) nano_text :=
  @kafka_producer_ok _ (broker up) (broker_ok up) nano_text (fun ctx => ctx).

Lemma dispatch_publishes_at_least_once_witness :
  exists w, @pub_inv nano_text _ (example_producer true) (example_producer_ok true) w.
Proof.
  eexists. eapply (@dispatch_publishes_at_least_once example_server nano_text _ (example_producer true)
    (example_producer_ok true) "w1" 10 (5 * Minute) true (fun _ => false) (10 * Minute) (fun _ => 10 * Minute) []
    (mkMysql (set_outbox [example_row 1 0 None] example_outbox) None (10 * Minute) [], [])).
  split; [done|apply (bool_decide_unpack _); by vm_compute|].
  intros r [->|[]%not_elem_of_nil]%elem_of_cons. done.
Defined.

Lemma dispatch_publishes_the_batch_witness :
  exists s k', @dispatch example_server nano_text _ (example_producer true)
      "w1" 10 (5 * Minute) true (fun _ => false) (10 * Minute) (fun _ => 10 * Minute) []
      (mkMysql example_outbox None (10 * Minute) [], []) = (Ok tt, (s, k'))
    /\ map ob_status (outbox (committed s)) = [1; 1; 1; 2] /\ length k' = 2%nat.
Proof.
  edestruct (@dispatch_publishes_the_batch example_server nano_text _ (example_producer true)
    (example_producer_ok true) "w1" 10 (5 * Minute) true (fun _ => false) (10 * Minute) (fun _ => 10 * Minute) []
    example_outbox (10 * Minute) []) as (k' & Hrun & _ & _).
  { intros ctx topic key v s. eexists. reflexivity. }
  eexists _, k'. split; [exact Hrun|]. split; [reflexivity|].
  apply (f_equal (fun r => length r.2.2)) in Hrun. vm_compute in Hrun. by symmetry.
Defined.
