(* ===== verification/WalletSpec.v ===== *)
(** What the wallet promises: [credit] and [balance] as atomic changes of the
    commerce tables, under every fault schedule. *)
From S2P Require Import Prelude GoStrings Mysql Json Message Commerce Wallet GiftRepository GiftSpec Instances.

Section spec.
Context `{MySQLServer}.

(** Opening a wallet: an empty one is created when the user has none. *)
Definition open_wallet (now userID : Z) (t : CommerceDB) : CommerceDB :=
  set_wallets (<[userID := wallet_or_new now t userID]> (wallets t)) t.

(** A credit: the balance grows by the amount and the ledger gets a line. *)
Definition credit_effect (now userID amount : Z) (no biz : string) (t : CommerceDB) : CommerceDB :=
  let w := wallet_or_new now t userID in
  mkCommerce (gifts t)
    (<[userID := mkWallet (wallet_balance w + amount) (wallet_version w + 1) now]> (wallets t))
    (wallet_txs t ++ [mkWalletTx no userID "DEV_CREDIT" biz amount
                        (wrap64 (wallet_balance w + amount - amount)) (wallet_balance w + amount) now])
    (orders t) (outbox t) (outbox_next_id t).
Record credit_enabled (now userID amount : Z) (no : string) (t : CommerceDB) : Prop := {
  ce_range : 0 <= wallet_balance (wallet_or_new now t userID) + amount <= int64_max;
  ce_no_new : forall r, r ∈ wallet_txs t -> str_eq (wt_transaction_no r) no = false }.

Lemma open_wallet_lookup now u t : wallets (open_wallet now u t) !! u = Some (wallet_or_new now t u).
Proof. unfold open_wallet. simpl. by rewrite lookup_insert_eq. Qed.

Lemma insert_wallet_eq now u t : insert_wallet u now t = Ok (tt, open_wallet now u t).
Proof.
  destruct (insert_wallet u now t) as [[[] t']|e] eqn:E; [|done].
  apply insert_wallet_ok in E. by subst.
Qed.

Lemma add_balance_ok amount u n t x t' :
  WalletRepository.add_balance amount u n (open_wallet n u t) = Ok (x, t') ->
  let w := wallet_or_new n t u in
  0 <= wallet_balance w + amount <= int64_max
  /\ t' = set_wallets (<[u := mkWallet (wallet_balance w + amount) (wallet_version w + 1) n]> (wallets t)) t.
Proof.
  unfold WalletRepository.add_balance. rewrite open_wallet_lookup. simpl.
  destruct (Z.ltb_spec int64_max (wallet_balance (wallet_or_new n t u) + amount)); [done|].
  destruct (Z.ltb_spec (wallet_balance (wallet_or_new n t u) + amount) 0); [done|].
  intros [= _ <-]. split; [lia|]. unfold open_wallet, set_wallets. simpl. by rewrite insert_insert_eq.
Qed.

(** [Repository.Credit]: all or nothing. *)
Lemma credit_spec userID amount no biz c n fl :
  let t' := credit_effect (NOW3 n) userID amount no biz c in
  wp (WalletRepository.credit userID amount no biz)
     (fun r s => txn s = None /\ db_now s = n /\
        match r with
        | Ok b => credit_enabled (NOW3 n) userID amount no c /\ committed s = t'
                  /\ b = mkBalance userID (wallet_balance (wallet_or_new (NOW3 n) c userID) + amount)
        | Err _ => committed s = c \/ (credit_enabled (NOW3 n) userID amount no c /\ committed s = t')
        end)
     (mkMysql c None n fl).
Proof.
  intros t'. unfold WalletRepository.credit. apply wp_with_tx; [intros; split_and!; auto|]. intros fl1.
  apply wp_bind, wp_tx_exec; [|intros; split_and!; auto]. intros [] t1 fl2 ->%insert_wallet_ok.
  apply wp_bind, wp_tx_exec; [|intros; split_and!; auto]. intros [] t2 fl3 [Hr ->]%add_balance_ok.
  apply wp_bind, wp_tx_exec; [|intros; split_and!; auto]. intros after t3 fl4.
  unfold select_balance, reads. cbn [wallets set_wallets]. rewrite lookup_insert_eq. intros [= <- <-].
  apply wp_bind, wp_tx_exec; [|intros; split_and!; auto]. intros [] t4 fl5 [Hno ->]%insert_wallet_tx_ok.
  assert (Hen : credit_enabled (NOW3 n) userID amount no c) by (by split).
  apply wp_bind, wp_commit; intros; [apply wp_ret| |]; simpl; split_and!; auto.
Qed.

(** [Repository.Balance]: it may open the wallet, and reads it. *)
Lemma balance_spec userID c n fl :
  let t' := open_wallet (NOW3 n) userID c in
  wp (WalletRepository.balance userID)
     (fun r s => txn s = None /\ db_now s = n /\
        match r with
        | Ok b => committed s = t' /\ b = mkBalance userID (wallet_balance (wallet_or_new (NOW3 n) c userID))
        | Err _ => committed s = c \/ committed s = t'
        end)
     (mkMysql c None n fl).
Proof.
  intros t'. unfold WalletRepository.balance. apply wp_bind, wp_db_exec.
  - intros [] t1 fl1 ->%insert_wallet_ok. apply wp_bind, wp_db_read; [|intros; split_and!; auto].
    intros v fl2. cbn [wallets set_wallets]. rewrite lookup_insert_eq. intros [= <-].
    apply wp_ret. split_and!; auto.
  - intros; split_and!; auto.
  - intros e [] t1 fl1 ->%insert_wallet_ok. split_and!; auto.
Qed.
End spec.
