(* ===== verification/CommerceInvariants.v ===== *)
(** The commerce database over time: every operation of the wallet, the gift
    service and the outbox publisher, under every fault schedule, and the
    invariants of the reachable tables. *)
From S2P Require Import Prelude GoStrings Mysql Json Message Commerce Wallet GiftRepository GiftSpec Kafka Outbox Instances OutboxSpec WalletSpec.

Section system.
Context `{UnicodeTables} `{MySQLServer} `{TimeText}.

(** The operations that write commerce tables. *)
Inductive commerce_op : Type :=
| OpCreate (ctx : trace_map) (now : Z) (p : CreateParams)
| OpDevCredit (enabled : bool) (id : string) (userID amount : Z)
| OpBalance (userID : Z)
| OpClaim (skip : outbox_row -> bool) (now : Z) (workerID : string) (batch lease : Z)
| OpMarkPublished (id : Z) (workerID : string)
| OpMarkFailed (now id : Z) (workerID : string) (retryAfter : Z) (cause : option error).

Definition run_op (op : commerce_op) : M (Mysql CommerceDB) unit :=
  match op with
  | OpCreate ctx now p => _ ← Create ctx now p; mret tt
  | OpDevCredit enabled id userID amount => _ ← WalletService.DevCredit enabled id userID amount; mret tt
  | OpBalance userID => _ ← WalletService.Balance_ userID; mret tt
  | OpClaim skip now workerID batch lease => _ ← Claim skip now workerID batch lease; mret tt
  | OpMarkPublished id workerID => MarkPublished id workerID
  | OpMarkFailed now id workerID retryAfter cause => MarkFailed now id workerID retryAfter cause
  end.

(** One operation at some server time, with some faults. *)
Inductive commerce_step : CommerceDB -> CommerceDB -> Prop :=
| step_op op n fl t : commerce_step t (committed (run_op op (mkMysql t None n fl)).2).

(** The tables after the migrations: a gift catalogue and empty wallets. *)
Definition commerce_init (catalogue : gmap Z gift_row) (ws : gmap Z wallet_row) : CommerceDB :=
  mkCommerce catalogue ws [] [] [] 1.
Inductive commerce_reachable (catalogue : gmap Z gift_row) : CommerceDB -> Prop :=
| reachable_init ws :
    map_Forall (fun _ w => wallet_balance w = 0) ws ->
    commerce_reachable catalogue (commerce_init catalogue ws)
| reachable_step t t' :
    commerce_reachable catalogue t -> commerce_step t t' -> commerce_reachable catalogue t'.

(** What a step may do to the tables. *)
Inductive commerce_change : CommerceDB -> CommerceDB -> Prop :=
| change_none t : commerce_change t t
| change_gift ctx app_now now p g payload t :
    gift_enabled now p g t -> marshal_envelope (gift_envelope ctx app_now p g) = Ok payload ->
    commerce_change t (gift_effect now p g payload t)
| change_credit now userID amount no biz t :
    0 < amount -> credit_enabled now userID amount no t ->
    commerce_change t (credit_effect now userID amount no biz t)
| change_wallet now userID t : commerce_change t (open_wallet now userID t)
| change_outbox rows t :
    (ids_unique t -> Forall2 row_evolves (outbox t) rows) -> commerce_change t (set_outbox rows t).

Lemma change_refl_outbox t t' : t' = t -> commerce_change t t'.
Proof. intros ->. constructor. Qed.

Lemma wp_committed {A} (m : M (Mysql CommerceDB) A) (k : A -> M (Mysql CommerceDB) unit) P s :
  (forall a s', committed (k a s').2 = committed s') ->
  wp m (fun _ s' => P (committed s')) s -> P (committed ((m ≫= k) s).2).
Proof.
  unfold wp, mbind, M_bind. intros Hk. destruct (m s) as [[a|e] s']; simpl; [|done]. by rewrite Hk.
Qed.

(** The operations of the outbox publisher touch only the outbox. *)
Definition worker_op (op : commerce_op) : bool :=
  match op with OpClaim _ _ _ _ _ | OpMarkPublished _ _ | OpMarkFailed _ _ _ _ _ => true | _ => false end.
Lemma worker_changes_outbox op n fl t :
  worker_op op = true -> exists rows, committed (run_op op (mkMysql t None n fl)).2 = set_outbox rows t
    /\ (ids_unique t -> Forall2 row_evolves (outbox t) rows).
Proof.
  assert (Hnone : exists rows, t = set_outbox rows t /\ (ids_unique t -> Forall2 row_evolves (outbox t) rows)).
  { exists (outbox t). rewrite set_outbox_id. split; [done|]. by intros _. }
  destruct op as [| | |skip now w batch lease|id w|now id w d cause]; try done; intros _; unfold run_op.
  - apply (wp_committed _ _ (fun t' => exists rows, t' = set_outbox rows t /\ (ids_unique t -> Forall2 row_evolves (outbox t) rows))); [done|].
    eapply wp_mono; [apply claim_spec|]. intros r s (_ & _ & Hr).
    assert (Hc : committed s = t \/ committed s = locked w (NOW3 n)
      (map ob_id (claim_rows skip (NOW3 n) (now - lease) (claim_batch batch) (outbox t))) t)
      by (destruct r; [right; tauto|done]).
    destruct Hc as [-> | ->]; [done|]. eexists. split; [done|]. intros Hu. by eapply locked_evolves.
  - pose proof (mark_published_spec id w t n fl) as Hs. unfold wp in Hs. destruct Hs as (_ & _ & Hr).
    assert (Hp : exists rows, set_outbox (update_where (owned id w) (publish_row (NOW3 n)) (outbox t)) t = set_outbox rows t
      /\ (ids_unique t -> Forall2 row_evolves (outbox t) rows)).
    { eexists. split; [done|]. intros _. by apply (owned_update_evolves id w (publish_row (NOW3 n)) t). }
    destruct (MarkPublished id w _) as [[[]|e] s]; simpl in *; [by destruct Hr as [-> _]|by destruct Hr as [-> | ->]].
  - pose proof (mark_failed_spec now id w d cause t n fl) as Hs. unfold wp in Hs. destruct Hs as (_ & _ & Hr).
    destruct Hr as [-> | ->]; [done|]. eexists. split; [done|]. intros _.
    by apply (owned_update_evolves id w (fail_row (now + d) (TrimSpace (failure_message cause))) t).
Qed.

Lemma commerce_step_change t t' : commerce_step t t' -> commerce_change t t'.
Proof.
  intros [op n fl t0]. destruct op as [ctx now p|enabled id u amount|u|skip now w batch lease|id w|now id w d cause].
  - unfold run_op. apply (wp_committed _ _ (commerce_change t0)); [done|].
    eapply wp_mono; [apply create_spec|]. intros r s [Ho _]. destruct Ho; by econstructor.
  - unfold run_op. apply (wp_committed _ _ (commerce_change t0)); [done|]. unfold WalletService.DevCredit.
    destruct enabled; [|constructor]. cbn [negb].
    destruct (Z.ltb_spec amount 1); [constructor|]. destruct (Z.ltb_spec 100000000 amount); [constructor|].
    eapply wp_mono; [apply credit_spec|]. intros r s (_ & _ & Hr).
    destruct r as [b|e]; [destruct Hr as (? & -> & _)|destruct Hr as [-> |[? ->]]]; constructor; (done || lia).
  - unfold run_op. apply (wp_committed _ _ (commerce_change t0)); [done|].
    eapply wp_mono; [apply balance_spec|]. intros r s (_ & _ & Hr).
    destruct r as [b|e]; [destruct Hr as (-> & _)|destruct Hr as [-> | ->]]; constructor.
  - destruct (worker_changes_outbox (OpClaim skip now w batch lease) n fl t0) as (rows & -> & Hr); [done|]. by apply change_outbox.
  - destruct (worker_changes_outbox (OpMarkPublished id w) n fl t0) as (rows & -> & Hr); [done|]. by apply change_outbox.
  - destruct (worker_changes_outbox (OpMarkFailed now id w d cause) n fl t0) as (rows & -> & Hr); [done|]. by apply change_outbox.
Qed.

(** ** The invariant *)
Definition balance_of (t : CommerceDB) (u : Z) : Z :=
  match wallets t !! u with Some w => wallet_balance w | None => 0 end.
Definition ledger_sum (t : CommerceDB) (u : Z) : Z :=
  sumZ wt_amount (List.filter (fun r => wt_user_id r =? u) (wallet_txs t)).
Definition gift_lines (t : CommerceDB) : list wallet_tx_row :=
  List.filter (fun r => bool_decide (wt_biz_type r = "GIFT")) (wallet_txs t).

Record commerce_inv (t : CommerceDB) : Prop := {
  (** balances are non-negative 64-bit integers and are what the ledger says *)
  ci_range : forall u, 0 <= balance_of t u <= int64_max;
  ci_ledger : forall u, balance_of t u = ledger_sum t u;
  ci_lines : forall r, r ∈ wallet_txs t ->
    wt_balance_before r + wt_amount r = wt_balance_after r /\ 0 <= wt_balance_before r /\ 0 <= wt_balance_after r;
  (** orders: completed, priced by unit price and count, one per request *)
  ci_orders : forall o, o ∈ orders t ->
    o_status o = 1 /\ 0 < o_gift_count o /\ 0 <= o_unit_price o
    /\ o_total_amount o = o_unit_price o * o_gift_count o /\ o_total_amount o <= int64_max;
  ci_order_nos : NoDup (map (fun o => collate (o_order_no o)) (orders t));
  ci_request_ids : NoDup (map (fun o => collate (o_request_id o)) (orders t));
  (** each order has its ledger line and its event, in the same order *)
  ci_gift_lines : map (fun r => (wt_biz_id r, wt_user_id r, - wt_amount r)) (gift_lines t)
    = map (fun o => (o_order_no o, o_user_id o, o_total_amount o)) (orders t);
  ci_events : map (fun r => (ob_aggregate_id r, ob_partition_key r)) (outbox t)
    = map (fun o => (o_order_no o, FormatInt (o_room_id o))) (orders t);
  ci_outbox_ids : forall r, r ∈ outbox t -> ob_id r < outbox_next_id t;
  ci_outbox_unique : ids_unique t }.

Lemma NoDup_map_snoc {A B} (f : A -> B) l x :
  NoDup (map f l) -> (forall y, y ∈ l -> f y <> f x) -> NoDup (map f (l ++ [x])).
Proof.
  intros Hn Hx. rewrite map_app. apply NoDup_app. split_and!; [done| |apply NoDup_singleton].
  intros b (y & <- & Hy)%list_elem_of_In%in_map_iff [Hb|[]%not_elem_of_nil]%elem_of_cons.
  rewrite <- list_elem_of_In in Hy. by apply (Hx y).
Qed.

Lemma elem_of_snoc {A} (l : list A) x y : y ∈ l ++ [x] <-> y ∈ l \/ y = x.
Proof. rewrite elem_of_app, list_elem_of_singleton. done. Qed.

Lemma str_eq_false a b : str_eq a b = false -> collate a <> collate b.
Proof. unfold str_eq. by intros ?%bool_decide_eq_false. Qed.

Lemma wallet_or_new_balance now t u : wallet_balance (wallet_or_new now t u) = balance_of t u.
Proof. unfold wallet_or_new, balance_of. by destruct (wallets t !! u). Qed.

Lemma balance_of_insert t u v ws w :
  wallets t = <[v := w]> ws ->
  balance_of t u = if decide (u = v) then wallet_balance w else match ws !! u with Some w => wallet_balance w | None => 0 end.
Proof.
  unfold balance_of. intros ->. destruct (decide (u = v)) as [->|Hne]; [by rewrite lookup_insert_eq|].
  by rewrite lookup_insert_ne.
Qed.

Lemma ledger_sum_snoc t t' r u :
  wallet_txs t' = wallet_txs t ++ [r] ->
  ledger_sum t' u = ledger_sum t u + (if wt_user_id r =? u then wt_amount r else 0).
Proof.
  unfold ledger_sum. intros ->. rewrite List.filter_app, sumZ_app. simpl.
  destruct (wt_user_id r =? u); simpl; lia.
Qed.

(** A change of one wallet by the amount of one new ledger line. *)
Lemma wallet_change_inv t t' u w r :
  commerce_inv t ->
  wallets t' = <[u := w]> (wallets t) -> wallet_txs t' = wallet_txs t ++ [r] ->
  wt_user_id r = u -> wallet_balance w = balance_of t u + wt_amount r -> 0 <= wallet_balance w <= int64_max ->
  (forall u, 0 <= balance_of t' u <= int64_max) /\ (forall u, balance_of t' u = ledger_sum t' u).
Proof.
  intros Hinv Hw Htx Hu Hb Hr. split; intros v.
  - rewrite (balance_of_insert t' v u _ w Hw). destruct (decide (v = u)); [done|]. apply (ci_range t Hinv).
  - rewrite (balance_of_insert t' v u _ w Hw), (ledger_sum_snoc t t' r v Htx), Hu.
    pose proof (ci_ledger t Hinv v) as Hv. unfold balance_of in Hv.
    destruct (decide (v = u)) as [->|Hne].
    + rewrite Z.eqb_refl. unfold balance_of in Hb. lia.
    + replace (u =? v) with false by lia. lia.
Qed.

Lemma gift_effect_inv ctx app_now now p g payload t :
  gift_enabled now p g t -> marshal_envelope (gift_envelope ctx app_now p g) = Ok payload ->
  commerce_inv t -> commerce_inv (gift_effect now p g payload t).
Proof.
  intros Hen _ Hinv. pose proof (ge_funds _ _ _ _ Hen) as Hf. rewrite wallet_or_new_balance in Hf.
  pose proof (ge_count _ _ _ _ Hen). pose proof (ge_price _ _ _ _ Hen). pose proof (ge_total _ _ _ _ Hen).
  assert (0 <= gift_total p g) by (unfold gift_total; nia).
  pose proof (ci_range t Hinv (p_UserID p)) as Hr.
  destruct (wallet_change_inv t (gift_effect now p g payload t) (p_UserID p)
    (mkWallet (wallet_balance (wallet_or_new now t (p_UserID p)) - gift_total p g)
       (wallet_version (wallet_or_new now t (p_UserID p)) + 1) now)
    (new_ledger_line now p g (wallet_balance (wallet_or_new now t (p_UserID p))))) as [Hrange Hledger];
    [done..|simpl; rewrite wallet_or_new_balance; lia|simpl; rewrite wallet_or_new_balance; lia|].
  split; [done|done| | | | | | | |].
  - intros r [Hin| ->]%elem_of_snoc; [by apply (ci_lines t Hinv)|]. simpl. rewrite wallet_or_new_balance.
    rewrite wrap64_id by (unfold in_int64, int64_min, int64_max in *; lia). lia.
  - intros o [Hin| ->]%elem_of_snoc; [by apply (ci_orders t Hinv)|]. simpl. unfold gift_total in *. lia.
  - apply NoDup_map_snoc; [apply (ci_order_nos t Hinv)|]. intros o Ho.
    apply str_eq_false, (ge_order_new _ _ _ _ Hen o Ho).
  - apply NoDup_map_snoc; [apply (ci_request_ids t Hinv)|]. intros o Ho.
    apply str_eq_false, (ge_request_new _ _ _ _ Hen o Ho).
  - pose proof (ci_gift_lines t Hinv) as Hl. unfold gift_lines in *. simpl.
    rewrite List.filter_app, !map_app, Hl. simpl. do 3 f_equal. lia.
  - simpl. by rewrite !map_app, (ci_events t Hinv).
  - simpl. intros r [Hin| ->]%elem_of_snoc; [pose proof (ci_outbox_ids t Hinv r Hin); lia|simpl; lia].
  - unfold ids_unique. simpl. apply NoDup_map_snoc; [apply (ci_outbox_unique t Hinv)|]. intros r Hin.
    pose proof (ci_outbox_ids t Hinv r Hin). simpl. lia.
Qed.

Lemma credit_effect_inv now u amount no biz t :
  0 < amount -> credit_enabled now u amount no t -> commerce_inv t ->
  commerce_inv (credit_effect now u amount no biz t).
Proof.
  intros Ha Hen Hinv. pose proof (ce_range _ _ _ _ _ Hen) as Hr. rewrite wallet_or_new_balance in Hr.
  pose proof (ci_range t Hinv u) as Hb.
  set (w := wallet_or_new now t u).
  destruct (wallet_change_inv t (credit_effect now u amount no biz t) u
    (mkWallet (wallet_balance w + amount) (wallet_version w + 1) now)
    (mkWalletTx no u "DEV_CREDIT" biz amount (wrap64 (wallet_balance w + amount - amount)) (wallet_balance w + amount) now))
    as [Hrange Hledger]; [done..|unfold w; simpl; rewrite wallet_or_new_balance; lia|unfold w; simpl; rewrite wallet_or_new_balance; lia|].
  destruct Hinv. split; try done.
  - intros r [Hin| ->]%elem_of_snoc; [by auto|]. simpl. rewrite wallet_or_new_balance.
    rewrite wrap64_id by (unfold in_int64, int64_min, int64_max in *; lia). lia.
  - unfold gift_lines in *. simpl. rewrite List.filter_app. simpl. by rewrite app_nil_r.
Qed.

Lemma open_wallet_inv now u t : commerce_inv t -> commerce_inv (open_wallet now u t).
Proof.
  intros Hinv. assert (Hb : forall v, balance_of (open_wallet now u t) v = balance_of t v).
  { intros v. rewrite (balance_of_insert (open_wallet now u t) v u (wallets t) (wallet_or_new now t u) eq_refl).
    destruct (decide (v = u)) as [->|]; [apply wallet_or_new_balance|done]. }
  destruct Hinv. split; try done; intros v; rewrite Hb; auto.
Qed.

Lemma outbox_change_inv rows t : (ids_unique t -> Forall2 row_evolves (outbox t) rows) -> commerce_inv t -> commerce_inv (set_outbox rows t).
Proof.
  intros Hev Hinv. specialize (Hev (ci_outbox_unique t Hinv)).
  pose proof (outbox_evolves_ids t (set_outbox rows t) Hev) as Hids. simpl in Hids.
  destruct Hinv as [? ? ? ? ? ? ? Hevs Hlt Hun]. split; try done.
  - simpl. rewrite <- Hevs. clear - Hev. induction Hev as [|r r' l l' [(? & ? & ? & Hk & ? & Ha) _] _ IH]; [done|]. simpl.
    by rewrite IH, Hk, Ha.
  - intros r Hr. simpl in *. assert (Hid : ob_id r ∈ map ob_id rows) by (apply list_elem_of_In, in_map; by apply list_elem_of_In).
    rewrite Hids in Hid. apply list_elem_of_In, in_map_iff in Hid as (r' & <- & Hr'). apply Hlt. by apply list_elem_of_In.
  - unfold ids_unique in *. simpl. by rewrite Hids.
Qed.
End system.
