(* ===== verification/GiftProperties.v ===== *)
(** Properties of the gift transaction and of the commerce database. *)
From S2P Require Import Prelude GoStrings Mysql Json Message Commerce Wallet GiftRepository GiftSpec Kafka Outbox Instances OutboxSpec WalletSpec CommerceInvariants.
From Stdlib Require Import Relation_Operators.

Section facts.
Context `{UnicodeTables} `{MySQLServer} `{TimeText}.

Lemma change_inv t t' : commerce_change t t' -> commerce_inv t -> commerce_inv t'.
Proof.
  destruct 1 as [|ctx app_now now p g payload t Hen Hp|now u amount no biz t Ha Hen|now u t|rows t Hr]; intros Hinv.
  - done.
  - by eapply gift_effect_inv.
  - by apply credit_effect_inv.
  - by apply open_wallet_inv.
  - by apply outbox_change_inv.
Qed.

Lemma init_inv catalogue ws :
  map_Forall (fun _ w => wallet_balance w = 0) ws -> commerce_inv (commerce_init catalogue ws).
Proof.
  intros Hz. assert (Hb : forall u, balance_of (commerce_init catalogue ws) u = 0).
  { intros u. unfold balance_of. simpl. destruct (ws !! u) as [w|] eqn:E; [|done]. by apply (Hz u). }
  split; simpl; try done; try (intros x Hx; by apply not_elem_of_nil in Hx); try apply NoDup_nil_2.
  intros u. rewrite Hb. unfold int64_max. lia.
Qed.

Lemma reachable_inv catalogue t : commerce_reachable catalogue t -> commerce_inv t.
Proof.
  induction 1 as [ws Hz|t t' _ IH Hs]; [by apply init_inv|]. eapply change_inv; [|done]. by apply commerce_step_change.
Qed.

(** The catalogue never changes and orders are append-only. *)
Lemma change_orders t t' : commerce_change t t' -> gifts t' = gifts t /\ exists l, orders t' = orders t ++ l.
Proof.
  destruct 1; simpl; (split; [done|]); [exists []|eexists; done|exists []|exists []|exists []]; by rewrite app_nil_r.
Qed.

Lemma steps_orders t t' : clos_refl_trans_1n _ commerce_step t t' ->
  gifts t' = gifts t /\ exists l, orders t' = orders t ++ l.
Proof.
  induction 1 as [|t t1 t2 Hs _ [IHg [l IHl]]]; [split; [done|exists []; by rewrite app_nil_r]|].
  apply commerce_step_change, change_orders in Hs as [Hg [l' Hl]].
  split; [congruence|]. exists (l' ++ l). by rewrite IHl, Hl, app_assoc.
Qed.

Lemma steps_reachable catalogue t t' :
  commerce_reachable catalogue t -> clos_refl_trans_1n _ commerce_step t t' -> commerce_reachable catalogue t'.
Proof. intros Hr. induction 1; [done|]. eauto using reachable_step. Qed.

(** *** Order lookup *)
Lemma orderSelect_ok f t v : orderSelect f t = Ok v -> exists r, r ∈ orders t /\ f r = true /\ scan_order t r = Some v.
Proof.
  unfold orderSelect. destruct (head _) as [v'|] eqn:E; [|done]. intros [= <-].
  assert (Hv : v' ∈ omap (fun o => if f o then scan_order t o else None) (orders t)).
  { destruct (omap _ _); [done|]. simplify_eq/=. left. }
  apply list_elem_of_omap in Hv as (r & Hr & Hf). exists r. destruct (f r); done.
Qed.

Lemma orderSelect_unique f t r v :
  r ∈ orders t -> f r = true -> scan_order t r = Some v ->
  (forall r', r' ∈ orders t -> f r' = true -> r' = r) ->
  orderSelect f t = Ok v.
Proof.
  intros Hr Hf Hs Hun. unfold orderSelect.
  assert (Hv : v ∈ omap (fun o => if f o then scan_order t o else None) (orders t)).
  { apply list_elem_of_omap. exists r. by rewrite Hf. }
  destruct (omap _ _) as [|v' l] eqn:E; [by apply not_elem_of_nil in Hv|]. simpl.
  assert (Hv' : v' ∈ omap (fun o => if f o then scan_order t o else None) (orders t)) by (rewrite E; left).
  apply list_elem_of_omap in Hv' as (r' & Hr' & Hf'). destruct (f r') eqn:E'; [|done].
  rewrite (Hun r' Hr' E') in Hf'. congruence.
Qed.

Lemma NoDup_map_inj {A B} (f : A -> B) l x y : NoDup (map f l) -> x ∈ l -> y ∈ l -> f x = f y -> x = y.
Proof.
  intros Hn Hx Hy Hf. apply list_elem_of_lookup in Hx as [i Hi], Hy as [j Hj].
  assert (i = j); [|congruence].
  eapply NoDup_lookup; [done| |]; rewrite list_lookup_fmap; [by rewrite Hi|by rewrite Hj, Hf].
Qed.

Lemma same_request_row t r r' :
  commerce_inv t -> r ∈ orders t -> r' ∈ orders t -> collate (o_request_id r) = collate (o_request_id r') -> r' = r.
Proof. intros Hinv ???. by apply (NoDup_map_inj _ _ _ _ (ci_request_ids t Hinv)). Qed.

(** *** Running without faults *)
Lemma payload_marshals ctx app_now p g : exists payload, marshal_envelope (gift_envelope ctx app_now p g) = Ok payload.
Proof. eexists. reflexivity. Qed.

(** The order as [ByOrderNo] shows it. *)
Definition order_view (r : order_row) (g : gift_row) : Order :=
  mkOrderV (o_order_no r) (o_request_id r) (o_user_id r) (o_anchor_id r) (o_room_id r) (o_gift_id r) (gift_name g)
    (o_gift_count r) (o_unit_price r) (o_total_amount r) (if o_status r =? 1 then "SUCCESS" else "PENDING") (o_created_at r).

Lemma select_gift_nofault t p g n :
  gifts t !! p_GiftID p = Some g ->
  select_gift (p_GiftID p) n t = Ok (mkGiftV (p_GiftID p) (gift_name g) (gift_price g) (gift_status g), t).
Proof. unfold select_gift, reads. by intros ->. Qed.

Lemma new_order_view now p g payload c :
  gift_enabled now p g c ->
  orderSelect (fun r => str_eq (o_order_no r) (p_OrderNo p)) (gift_effect now p g payload c)
  = Ok (order_view (new_order now p g) g).
Proof.
  intros Hen. eapply orderSelect_unique with (r := new_order now p g).
  - simpl. apply elem_of_app. right. by apply list_elem_of_singleton.
  - apply str_eq_refl.
  - unfold scan_order. simpl. by rewrite (ge_gift _ _ _ _ Hen).
  - simpl. intros r' [Hr| ->]%elem_of_snoc Hf; [|done].
    by rewrite (ge_order_new _ _ _ _ Hen r' Hr) in Hf.
Qed.

(** Without faults a body that only uses [wp_tx_exec] succeeds when its
    statements do: the run of the enabled gift. *)
Lemma charge_nofault ctx app_now p g c n x :
  gift_enabled (NOW3 n) p g c ->
  exists payload, marshal_envelope (gift_envelope ctx app_now p g) = Ok payload /\
  charge_and_enqueue ctx app_now p (mkGiftV (p_GiftID p) (gift_name g) (gift_price g) (gift_status g)) (gift_total p g)
    (mkMysql x (Some (set_orders (orders c ++ [mkOrder (p_OrderNo p) (p_RequestID p) (p_UserID p) (p_AnchorID p)
              (p_RoomID p) (p_GiftID p) (p_Count p) (gift_price g) (gift_total p g) 0 (NOW3 n) (NOW3 n)]) c)) n [])
  = (Ok tt, mkMysql x (Some (gift_effect (NOW3 n) p g payload c)) n []).
Proof.
  intros Hen. destruct (payload_marshals ctx app_now p g) as [payload Hpay]. exists payload. split; [done|].
  destruct (ge_event _ _ _ _ Hen) as [He Ht].
  pose proof (ge_funds _ _ _ _ Hen) as Hf.
  unfold charge_and_enqueue.
  erewrite bind_ok by (apply tx_exec_nofault, insert_wallet_eq).
  erewrite bind_ok.
  2: { apply tx_exec_nofault. unfold debit_wallet. rewrite open_wallet_lookup.
       replace (wallet_or_new _ (set_orders _ c) _) with (wallet_or_new (NOW3 n) c (p_UserID p)) by done.
       destruct (Z.leb_spec (gift_total p g) (wallet_balance (wallet_or_new (NOW3 n) c (p_UserID p)))); [|lia].
       unfold open_wallet. cbn [wallets set_wallets set_orders]. rewrite insert_insert_eq. reflexivity. }
  cbn [Z.eqb negb Pos.eqb].
  erewrite bind_ok.
  2: { apply tx_exec_nofault. unfold select_balance, reads. cbn [wallets set_wallets]. rewrite lookup_insert_eq. reflexivity. }
  cbn [wallet_balance].
  erewrite bind_ok.
  2: { apply tx_exec_nofault. unfold insert_wallet_tx. cbn [wallet_txs set_wallets set_orders].
       rewrite (proj2 (existsb_false _ _)) by apply (ge_tx_new _ _ _ _ Hen). reflexivity. }
  erewrite bind_ok by (apply tx_exec_nofault; reflexivity).
  rewrite !bool_decide_false by done. cbn [orb].
  erewrite bind_ok by reflexivity.
  match goal with |- context [marshal_envelope ?e] =>
    change (marshal_envelope e) with (marshal_envelope (gift_envelope ctx app_now p g)) end.
  rewrite Hpay. erewrite bind_ok by reflexivity.
  erewrite tx_exec_nofault.
  2: { unfold insert_outbox. cbn [outbox set_wallet_txs set_wallets set_orders].
       rewrite (proj2 (existsb_false _ _)) by apply (ge_event_new _ _ _ _ Hen). reflexivity. }
  do 3 f_equal. unfold gift_effect, set_orders, set_wallet_txs, set_wallets. simpl.
  rewrite complete_new_order; [|apply (ge_order_new _ _ _ _ Hen)|done].
  unfold new_ledger_line, new_order, complete_order. simpl.
  rewrite (wrap64_id (- gift_total p g)); [done|].
  pose proof (ge_total _ _ _ _ Hen). pose proof (ge_count _ _ _ _ Hen). pose proof (ge_price _ _ _ _ Hen).
  unfold gift_total in *. unfold in_int64, int64_min, int64_max in *. nia.
Qed.
End facts.

(** ** The gift transaction without faults *)
Section reference.
Context `{UnicodeTables} `{MySQLServer} `{!MySQLServerOk} `{TimeText}.

(** What the statements after the order refuse, in their order: the balance, a
    transaction number in use, an event that is not configured, an event id in
    use. *)
Definition charge_refusal (p : CreateParams) (g : gift_row) (c : CommerceDB) : option error :=
  if balance_of c (p_UserID p) <? gift_total p g then Some ErrInsufficientBalance
  else if existsb (fun r => str_eq (wt_transaction_no r) (p_TransactionNo p)) (wallet_txs c)
  then Some (dup_entry (p_TransactionNo p) "wallet_transactions.uk_wallet_transactions_no")
  else if bool_decide (p_EventID p = "") || bool_decide (p_GiftTopic p = "")
  then Some (Fresh "gift outbox event configuration is required")
  else if existsb (fun r => str_eq (ob_event_id r) (p_EventID p)) (outbox c)
  then Some (dup_entry (p_EventID p) "outbox_events.uk_outbox_event_id")
  else None.

(** The answer to a request id that is in use. *)
Definition replay_reference (p : CreateParams) (c : CommerceDB) : res (Order * bool) :=
  match orderSelect (fun o => str_eq (o_request_id o) (p_RequestID p)) c with
  | Ok o => if same_params o p then Ok (o, true) else Err ErrIdempotencyConflict
  | Err e => Err e
  end.

(** The decision and effect of a gift, on the committed tables, as one
    function. *)
Definition create_reference (ctx : trace_map) (app_now now : Z) (p : CreateParams) (c : CommerceDB)
  : res (Order * bool) * CommerceDB :=
  match gifts c !! p_GiftID p with
  | None => (Err ErrGiftNotFound, c)
  | Some g =>
    if negb (gift_status g =? 1) then (Err ErrGiftOffline, c)
    else if negb ((0 <? p_Count p) && (0 <=? gift_price g) && (gift_total p g <=? int64_max))
    then (Err (Fresh "gift amount overflow"), c)
    else if existsb (fun o => str_eq (o_order_no o) (p_OrderNo p)) (orders c) then
      let e := dup_entry (p_OrderNo p) "gift_orders.uk_gift_orders_order_no" in
      (if isDuplicateRequest e then replay_reference p c else Err e, c)
    else if existsb (fun o => str_eq (o_request_id o) (p_RequestID p)) (orders c) then
      (replay_reference p c, c)
    else match charge_refusal p g c with
         | Some e => (Err e, c)
         | None =>
           match marshal_envelope (gift_envelope ctx app_now p g) with
           | Ok payload => (Ok (order_view (new_order now p g) g, false), gift_effect now p g payload c)
           | Err e => (Err e, c)
           end
         end
  end.

Lemma duplicate_request_recognised v :
  isDuplicateRequest (dup_entry v "gift_orders.uk_gift_orders_request_id") = true.
Proof.
  unfold isDuplicateRequest, dup_entry. cbn [errors_As_mysql].
  replace (ER_DUP_ENTRY =? 1062) with true by done. cbn [andb].
  pose proof (dup_entry_names_key v "gift_orders.uk_gift_orders_request_id") as Hk.
  apply orb_true_iff. left. eapply Contains_trans; [|exact Hk]. by vm_compute.
Qed.

Lemma debit_enough os total u now c :
  total <= balance_of c u ->
  debit_wallet total u now (open_wallet now u (set_orders os c)) =
  Ok (1, set_wallets (<[u := mkWallet (balance_of c u - total)
                               (wallet_version (wallet_or_new now (set_orders os c) u) + 1) now]>
           (wallets (open_wallet now u (set_orders os c)))) (open_wallet now u (set_orders os c))).
Proof.
  intros Hf. unfold debit_wallet. rewrite open_wallet_lookup, wallet_or_new_balance.
  change (balance_of (set_orders os c)) with (balance_of c).
  by destruct (Z.leb_spec total (balance_of c u)); [|lia].
Qed.

Lemma charge_refused ctx app_now p g c n x os e :
  charge_refusal p g c = Some e ->
  exists t, charge_and_enqueue ctx app_now p
    (mkGiftV (p_GiftID p) (gift_name g) (gift_price g) (gift_status g)) (gift_total p g)
    (mkMysql x (Some (set_orders os c)) n []) = (Err e, mkMysql x (Some t) n []).
Proof.
  unfold charge_refusal. intros He.
  destruct (Z.ltb_spec (balance_of c (p_UserID p)) (gift_total p g)) as [Hf|Hf].
  { injection He as <-. eexists. unfold charge_and_enqueue.
    erewrite bind_ok by (apply tx_exec_nofault, insert_wallet_eq).
    erewrite bind_ok.
    2: { apply tx_exec_nofault. unfold debit_wallet. rewrite open_wallet_lookup, wallet_or_new_balance.
         change (balance_of (set_orders os c)) with (balance_of c).
         destruct (Z.leb_spec (gift_total p g) (balance_of c (p_UserID p))); [lia|reflexivity]. }
    reflexivity. }
  destruct (existsb _ (wallet_txs c)) eqn:Htx; [|destruct (_ || _) eqn:Hcfg; [|destruct (existsb _ (outbox c)) eqn:Hev; [|done]]];
    injection He as <-; eexists; unfold charge_and_enqueue;
    erewrite bind_ok by (apply tx_exec_nofault, insert_wallet_eq);
    (erewrite bind_ok by (apply tx_exec_nofault, (debit_enough os); exact Hf)); cbn [Z.eqb negb Pos.eqb];
    (erewrite bind_ok by (apply tx_exec_nofault; unfold select_balance, reads; cbn [wallets set_wallets];
       rewrite lookup_insert_eq; reflexivity)).
  { erewrite bind_err by
      (apply tx_exec_nofault_err; unfold insert_wallet_tx; simpl; rewrite Htx; reflexivity). reflexivity. }
  all: erewrite bind_ok by (apply tx_exec_nofault; unfold insert_wallet_tx; simpl; rewrite Htx; reflexivity);
    erewrite bind_ok by (apply tx_exec_nofault; reflexivity); rewrite Hcfg.
  { reflexivity. }
  destruct (payload_marshals ctx app_now p g) as [payload Hpay].
  erewrite bind_ok by reflexivity.
  match goal with |- context [marshal_envelope ?e] =>
    change (marshal_envelope e) with (marshal_envelope (gift_envelope ctx app_now p g)) end.
  rewrite Hpay. erewrite bind_ok by reflexivity.
  erewrite tx_exec_nofault_err by (unfold insert_outbox; simpl; rewrite Hev; reflexivity). reflexivity.
Qed.

Lemma gift_enabled_intro now p g c :
  gifts c !! p_GiftID p = Some g -> gift_status g = 1 -> 0 < p_Count p -> 0 <= gift_price g ->
  gift_total p g <= int64_max ->
  existsb (fun o => str_eq (o_order_no o) (p_OrderNo p)) (orders c) = false ->
  existsb (fun o => str_eq (o_request_id o) (p_RequestID p)) (orders c) = false ->
  charge_refusal p g c = None -> gift_enabled now p g c.
Proof.
  unfold charge_refusal. intros Hg Hon Hc Hp Hmax Hno Hreq Hr.
  destruct (Z.ltb_spec (balance_of c (p_UserID p)) (gift_total p g)); [done|].
  destruct (existsb _ (wallet_txs c)) eqn:Htx; [done|].
  destruct (bool_decide_reflect (p_EventID p = "")); [done|].
  destruct (bool_decide_reflect (p_GiftTopic p = "")); [done|]. cbn [orb] in Hr.
  destruct (existsb _ (outbox c)) eqn:Hev; [done|].
  split; rewrite ?wallet_or_new_balance; auto; by apply existsb_false.
Qed.

(** The replay of a request id in use, whatever the refused insertion left. *)
Lemma replay_nofault p c t n :
  replay_duplicate p (mkMysql c (Some t) n []) = (replay_reference p c, mkMysql c None n []).
Proof.
  unfold replay_duplicate, replay_reference.
  erewrite bind_ok by reflexivity.
  cbn [committed txn db_now faults]. unfold ByRequestID.
  destruct (orderSelect _ c) as [o|e] eqn:Ho.
  - erewrite bind_ok by (apply db_exec_nofault; unfold reads; by rewrite Ho). by destruct (same_params o p).
  - erewrite bind_err by (apply db_exec_nofault_err; unfold reads; by rewrite Ho). done.
Qed.

(** C7 Equivalence: without database faults, [Create] decides and changes the
    tables exactly as the reference function says, on every branch and in its
    order: unknown gift, offline gift, amount outside 64 bits, order number in use
    (refused, or replayed when the server's message names the request id), request
    id in use (replay with the stored order, or conflict), insufficient balance,
    transaction number in use, event not configured, event id in use, and the gift
    itself - an order, a debit, a ledger line and an event together. *)
Theorem create_equals_reference ctx app_now p c n :
  Create ctx app_now p (mkMysql c None n []) =
  let (r, t) := create_reference ctx app_now (NOW3 n) p c in (r, mkMysql t None n []).
Proof.
  unfold Create, create_reference. rewrite with_tx_nofault.
  destruct (gifts c !! p_GiftID p) as [g|] eqn:Hg.
  2: { erewrite bind_ok by (apply try_run, tx_exec_nofault_err; unfold select_gift, reads; by rewrite Hg). done. }
  erewrite bind_ok by (by apply try_run, tx_exec_nofault, select_gift_nofault). cbv beta iota.
  cbn [gift_Status gift_Price].
  destruct (Z.eqb_spec (gift_status g) 1) as [Hon|]; [|done]. cbn [negb].
  destruct (amount_overflow (p_Count p) (gift_price g)) eqn:Ha.
  { replace (_ && _) with false; [done|]. symmetry. apply not_true_iff_false. rewrite !andb_true_iff.
    intros [[? ?] ?]. assert (amount_overflow (p_Count p) (gift_price g) = false); [|congruence].
    apply amount_overflow_spec. unfold gift_total in *. lia. }
  apply amount_overflow_spec in Ha as (Hc & Hp & Hmax).
  replace (_ && _) with true by (unfold gift_total; lia). cbn [negb].
  rewrite wrap64_id by (unfold in_int64, int64_min, int64_max in *; nia).
  fold (gift_total p g) in *.
  destruct (existsb (fun o => str_eq (o_order_no o) (p_OrderNo p)) (orders c)) eqn:Hno.
  { erewrite bind_ok by (apply try_run, tx_exec_nofault_err; unfold insert_order; rewrite Hno; reflexivity).
    cbv beta iota zeta. destruct (isDuplicateRequest _); [|done]. by rewrite replay_nofault. }
  destruct (existsb (fun o => str_eq (o_request_id o) (p_RequestID p)) (orders c)) eqn:Hd.
  { erewrite bind_ok by (apply try_run, tx_exec_nofault_err; unfold insert_order; rewrite Hno, Hd; reflexivity).
    cbv beta iota. rewrite duplicate_request_recognised. by rewrite replay_nofault. }
  erewrite bind_ok by (apply try_run, tx_exec_nofault; unfold insert_order; rewrite Hno, Hd; reflexivity). cbv beta iota.
  destruct (charge_refusal p g c) as [e|] eqn:Hr.
  { destruct (charge_refused ctx app_now p g c n c (orders c ++ [mkOrder (p_OrderNo p) (p_RequestID p) (p_UserID p)
      (p_AnchorID p) (p_RoomID p) (p_GiftID p) (p_Count p) (gift_price g) (gift_total p g) 0 (NOW3 n) (NOW3 n)]) e Hr)
      as [t Ht]. erewrite bind_err by exact Ht. done. }
  assert (Hen : gift_enabled (NOW3 n) p g c) by (by apply gift_enabled_intro).
  destruct (charge_nofault ctx app_now p g c n c Hen) as (payload & Hpay & Hrun).
  rewrite Hpay. erewrite bind_ok by exact Hrun. erewrite bind_ok by reflexivity.
  erewrite bind_ok by (apply db_exec_nofault; unfold reads; by rewrite new_order_view). done.
Qed.
End reference.

(** ** Properties *)
Section properties.
Context `{UnicodeTables} `{MySQLServer} `{TimeText}.

(** C1 Atomicity: from any committed tables and under any schedule of database
    failures (statements refused or executed without acknowledgement, a commit
    lost either way), [Create] leaves the tables unchanged, or applies the order,
    the debit, the ledger line and the event of an enabled gift all together; what
    it returns agrees with which of the two happened, and no transaction stays
    open. *)
Theorem gift_create_is_atomic ctx app_now p c n fl r s :
  Create ctx app_now p (mkMysql c None n fl) = (r, s) ->
  create_outcome ctx app_now (NOW3 n) p c r (committed s) /\ txn s = None.
Proof.
  intros Hrun. pose proof (create_spec ctx app_now p c n fl) as Hs. unfold wp in Hs.
  rewrite Hrun in Hs. tauto.
Qed.

(** C2 The books balance in every reachable state of the commerce database,
    whatever operations ran, in whatever order and with whatever faults: balances
    are non-negative 64-bit integers equal to the sum of the user's ledger lines,
    order numbers and request ids are unique, every order is complete and priced
    without overflow, and the gift ledger lines and the outbox events are the
    orders, one for one and in the same order. *)
Theorem commerce_books_balance catalogue t : commerce_reachable catalogue t -> commerce_inv t.
Proof. apply reachable_inv. Qed.

(** C3 Exactly once: when an order for a request id exists, no later attempt with
    that request id - whatever its parameters, after whatever other operations,
    under whatever faults - changes any table; if it succeeds it is a replay that
    returns the existing order. *)
Theorem request_is_charged_once catalogue t t' r ctx app_now p n fl res s :
  commerce_reachable catalogue t -> r ∈ orders t ->
  clos_refl_trans_1n _ commerce_step t t' ->
  collate (p_RequestID p) = collate (o_request_id r) ->
  Create ctx app_now p (mkMysql t' None n fl) = (res, s) ->
  committed s = t' /\
  match res with
  | Ok (o, replayed) => replayed = true /\ scan_order t r = Some o
  | Err _ => True
  end.
Proof.
  intros Hreach Hr Hsteps Hreq Hrun.
  pose proof (reachable_inv _ _ (steps_reachable _ _ _ Hreach Hsteps)) as Hinv.
  destruct (steps_orders _ _ Hsteps) as [Hgifts [l Hl]].
  assert (Hr' : r ∈ orders t') by (rewrite Hl; apply elem_of_app; by left).
  assert (Heq : str_eq (o_request_id r) (p_RequestID p) = true)
    by (unfold str_eq; rewrite Hreq; by apply bool_decide_true).
  pose proof (create_spec ctx app_now p t' n fl) as Hs. unfold wp in Hs. rewrite Hrun in Hs.
  destruct Hs as [Ho _]. simpl in Ho. inversion Ho as [e|o Hsel Hsame|g payload o Hen|g payload e Hen]; subst; [done| | |].
  - split; [done|]. split; [done|].
    apply orderSelect_ok in Hsel as (r' & Hin & Hf & Hscan).
    apply bool_decide_eq_true in Hf.
    assert (r' = r) as -> by (apply (same_request_row _ _ _ Hinv Hr' Hin); congruence).
    unfold scan_order in *. by rewrite <- Hgifts.
  - by rewrite (ge_request_new _ _ _ _ Hen r Hr') in Heq.
  - by rewrite (ge_request_new _ _ _ _ Hen r Hr') in Heq.
Qed.

(** Credits: under any faults a development credit leaves the tables alone or
    adds the amount to the balance together with its ledger line; it answers with
    the new balance only when it did, it is refused outside 1..100000000 or when
    disabled, and the sum it stores never leaves 0..2^63-1. *)
Theorem dev_credit_all_or_nothing enabled id userID amount c n fl r s :
  WalletService.DevCredit enabled id userID amount (mkMysql c None n fl) = (r, s) ->
  txn s = None /\
  match r with
  | Ok b => enabled = true /\ 1 <= amount <= 100000000
      /\ credit_enabled (NOW3 n) userID amount ("WT" +:+ id) c
      /\ committed s = credit_effect (NOW3 n) userID amount ("WT" +:+ id) ("DEV" +:+ id) c
      /\ b = mkBalance userID (balance_of c userID + amount)
      /\ balance_of (committed s) userID = balance_of c userID + amount
      /\ (forall v, v <> userID -> balance_of (committed s) v = balance_of c v)
  | Err e => (enabled = false -> e = ErrCreditDisabled /\ committed s = c)
      /\ (enabled = true -> ~ 1 <= amount <= 100000000 -> e = ErrInvalidCredit /\ committed s = c)
      /\ (committed s = c
          \/ committed s = credit_effect (NOW3 n) userID amount ("WT" +:+ id) ("DEV" +:+ id) c)
  end.
Proof.
  unfold WalletService.DevCredit. destruct enabled; cbn [negb]; [|intros [= <- <-]; split_and!; auto; done].
  destruct (Z.ltb_spec amount 1); [intros [= <- <-]; split_and!; auto; done|].
  destruct (Z.ltb_spec 100000000 amount); [intros [= <- <-]; split_and!; auto; done|].
  cbn [orb]. intros Hrun. pose proof (credit_spec userID amount ("WT" +:+ id) ("DEV" +:+ id) c n fl) as Hs.
  unfold wp in Hs. simpl in Hrun. rewrite Hrun in Hs. simpl in Hs. destruct Hs as (Htx & _ & Hr).
  split; [done|]. destruct r as [b|e].
  - destruct Hr as (Hen & Hc & ->). rewrite Hc. split_and!; [done|lia|lia|done|done| | |].
    + by rewrite wallet_or_new_balance.
    + unfold balance_of at 1. simpl. rewrite lookup_insert_eq. simpl. by rewrite wallet_or_new_balance.
    + intros v Hv. unfold balance_of. simpl. by rewrite lookup_insert_ne.
  - split_and!; [done|lia|tauto].
Qed.
End properties.

(** ** Examples *)
Module GiftExamples.
#[local] Existing Instances ascii_tables example_server nano_text example_server_ok.

Definition catalogue : gmap Z gift_row := {[ 1 := mkGift "Rose" 100 1; 2 := mkGift "Rocket" 10000 0 ]}.
Definition start : CommerceDB := commerce_init catalogue ∅.
Definition now : Z := 1700000000 * Second.
Definition params (n : string) (request : string) (count : Z) : CreateParams :=
  mkCreateParams ("G" +:+ n) request ("T" +:+ n) ("gift:G" +:+ n) "live.gift.v1" 7 8 9 1 count.
Definition after (op : commerce_op) (fl : list fault) (t : CommerceDB) : CommerceDB :=
  committed (run_op op (mkMysql t None now fl)).2.

(** User 7 gets 1000, then gives three roses. *)
Definition credited : CommerceDB := after (OpDevCredit true "a" 7 1000) [] start.
Definition gifted : CommerceDB := after (OpCreate [] now (params "1" "req-1" 3)) [] credited.

Lemma credited_reachable : commerce_reachable catalogue credited.
Proof. eapply reachable_step; [apply reachable_init, map_Forall_empty|apply step_op]. Qed.
Lemma gifted_reachable : commerce_reachable catalogue gifted.
Proof. eapply reachable_step; [apply credited_reachable|apply step_op]. Qed.

Lemma gift_create_is_atomic_witness :
  exists e s, Create [] now (params "1" "req-1" 3)
      (mkMysql credited None now (repeat NoFault 9 ++ [AckLost (Fresh "broken pipe")])) = (Err e, s)
    /\ length (orders (committed s)) = 1%nat /\ txn s = None.
Proof.
  eexists _, _. split; [vm_compute; reflexivity|]. split; [reflexivity|].
  eapply (gift_create_is_atomic [] now (params "1" "req-1" 3) credited now
    (repeat NoFault 9 ++ [AckLost (Fresh "broken pipe")])).
  vm_compute. reflexivity.
Defined.

Lemma commerce_books_balance_witness : commerce_inv gifted /\ balance_of gifted 7 = 700.
Proof. split; [apply (commerce_books_balance catalogue), gifted_reachable|by vm_compute]. Defined.

Lemma request_is_charged_once_witness :
  exists r s, Create [] now (params "2" "req-1" 5) (mkMysql gifted None now []) = (r, s) /\ committed s = gifted.
Proof.
  eexists _, _. split; [vm_compute; reflexivity|].
  eapply (request_is_charged_once catalogue gifted gifted
            (new_order (NOW3 now) (params "1" "req-1" 3) (mkGift "Rose" 100 1)) [] now (params "2" "req-1" 5) now []).
  - apply gifted_reachable.
  - apply (bool_decide_unpack _). by vm_compute.
  - constructor.
  - reflexivity.
  - vm_compute. reflexivity.
Defined.

(** The gift of three roses; and an order number that is already used. *)
Lemma create_equals_reference_witness :
  (exists o t, Create [] now (params "1" "req-1" 3) (mkMysql credited None now []) = (Ok (o, false), mkMysql t None now [])
    /\ balance_of t 7 = 700)
  /\ Create [] now (params "1" "req-2" 3) (mkMysql gifted None now []) =
     (Err (dup_entry "G1" "gift_orders.uk_gift_orders_order_no"), mkMysql gifted None now []).
Proof.
  split; [eexists _, _; split; [rewrite create_equals_reference; vm_compute; reflexivity|by vm_compute]|].
  rewrite create_equals_reference. vm_compute. reflexivity.
Defined.

Lemma dev_credit_all_or_nothing_witness :
  exists b s, WalletService.DevCredit true "b" 7 500 (mkMysql gifted None now []) = (Ok b, s)
    /\ bal_Balance b = 1200 /\ txn s = None.
Proof.
  eexists _, _. split; [vm_compute; reflexivity|]. split; [reflexivity|].
  eapply (dev_credit_all_or_nothing true "b" 7 500 gifted now []). vm_compute. reflexivity.
Defined.
End GiftExamples.
