(* ===== verification/Room.v ===== *)
(** Live rooms: [internal/room/model.go], [repository.go] and [service.go].

    A room goes from PREPARING to LIVING to CLOSED. The repository works on the
    tables of [migrations/002_m2.sql]; [live_sessions], [room_mutes] and
    [room_bans] are maps from (room, user). Rows with equal sort keys come in the
    order of the map's enumeration, which the server does not promise. *)
From S2P Require Import Prelude GoStrings Mysql.

Definition Status : Type := string.
Definition StatusPreparing : Status := "PREPARING".
Definition StatusLiving : Status := "LIVING".
Definition StatusClosed : Status := "CLOSED".

Record Room : Type := mkRoom {
  room_ID : Z;
  room_AnchorID : Z;
  room_AnchorNickname : string;
  room_Title : string;
  room_Status : Status;
  room_StartedAt : option Z;
  room_EndedAt : option Z;
  room_CreatedAt : Z }.

Record RoomAccess : Type := mkRoomAccess { ra_Room : Room; ra_Banned : bool; ra_Muted : bool }.
Record Mute : Type := mkMute {
  mute_UserID : Z; mute_Nickname : string; mute_MutedUntil : option Z; mute_Reason : string; mute_UpdatedAt : Z }.
Record Ban : Type := mkBan {
  ban_UserID : Z; ban_Nickname : string; ban_Reason : string; ban_CreatedAt : Z }.

Definition ErrNotFound := Sentinel "room.ErrNotFound" "room not found".
Definition ErrNotLiving := Sentinel "room.ErrNotLiving" "room is not living".
Definition ErrForbidden := Sentinel "room.ErrForbidden" "forbidden".
Definition ErrInvalidState := Sentinel "room.ErrInvalidState" "invalid room state".
Definition ErrBanned := Sentinel "room.ErrBanned" "user is banned from room".
Definition ErrSelfModeration := Sentinel "room.ErrSelfModeration" "anchor cannot moderate self".
Definition ErrInvalidInput := Sentinel "room.ErrInvalidInput" "invalid room input".
Definition ErrUserNotFound := Sentinel "room.ErrUserNotFound" "target user not found".

(** ** Tables *)
Record room_row : Type := mkRoomRow {
  rr_anchor_id : Z;
  rr_title : string;
  rr_status : string;
  rr_started_at : option Z;
  rr_ended_at : option Z;
  rr_created_at : Z;
  rr_updated_at : Z }.
#[export] Instance room_row_eq_dec : EqDecision room_row.
Proof. solve_decision. Defined.
Record session_row : Type := mkSession { ss_joined_at : Z; ss_last_seen_at : Z; ss_status : Z }.
Record mute_row : Type := mkMuteRow {
  mr_muted_until : option Z; mr_created_by : Z; mr_reason : string; mr_created_at : Z; mr_updated_at : Z }.
Record ban_row : Type := mkBanRow { br_created_by : Z; br_reason : string; br_created_at : Z }.

Record RoomDB : Type := mkRoomDB {
  live_rooms : gmap Z room_row;
  live_rooms_next : Z;
  live_sessions : gmap (Z * Z) session_row;
  room_mutes : gmap (Z * Z) mute_row;
  room_bans : gmap (Z * Z) ban_row }.

Definition set_rooms (m : gmap Z room_row) (t : RoomDB) : RoomDB :=
  mkRoomDB m (live_rooms_next t) (live_sessions t) (room_mutes t) (room_bans t).
Definition set_sessions (m : gmap (Z * Z) session_row) (t : RoomDB) : RoomDB :=
  mkRoomDB (live_rooms t) (live_rooms_next t) m (room_mutes t) (room_bans t).
Definition set_mutes (m : gmap (Z * Z) mute_row) (t : RoomDB) : RoomDB :=
  mkRoomDB (live_rooms t) (live_rooms_next t) (live_sessions t) m (room_bans t).
Definition set_bans (m : gmap (Z * Z) ban_row) (t : RoomDB) : RoomDB :=
  mkRoomDB (live_rooms t) (live_rooms_next t) (live_sessions t) (room_mutes t) m.

(** ** Repository *)
Module RoomRepository.
Section repository.
Context `{MySQLServer}.

Definition scan_room (id : Z) (r : room_row) : Room :=
  mkRoom id (rr_anchor_id r) "" (rr_title r) (rr_status r) (rr_started_at r) (rr_ended_at r) (rr_created_at r).

Definition ByID (id : Z) : M (Mysql RoomDB) Room :=
  db_exec (reads (fun t => match live_rooms t !! id with Some r => Ok (scan_room id r) | None => Err ErrNotFound end)).

(** The [INSERT], whose result is [LastInsertId()]. *)
Definition insert_room (anchorID : Z) (title : string) : stmt RoomDB Z := fun now t =>
  let id := live_rooms_next t in
  Ok (id, mkRoomDB (<[id := mkRoomRow anchorID title StatusPreparing None None now now]> (live_rooms t)) (id + 1)
            (live_sessions t) (room_mutes t) (room_bans t)).

Definition Create (anchorID : Z) (title : string) : M (Mysql RoomDB) Room :=
  id ← db_exec (insert_room anchorID title); ByID id.

(** [ORDER BY COALESCE(started_at, created_at) DESC, id DESC] *)
Definition list_key (v : Room) : Z := default (room_CreatedAt v) (room_StartedAt v).
Definition list_le (a b : Room) : Prop :=
  list_key b < list_key a \/ (list_key a = list_key b /\ room_ID b <= room_ID a).
#[export] Instance list_le_dec a b : Decision (list_le a b).
Proof. unfold list_le. apply _. Defined.

Definition select_rooms (status : Status) (limit : Z) (t : RoomDB) : list Room :=
  take (Z.to_nat limit) (merge_sort list_le
    (List.filter (fun v => bool_decide (status = "") || str_eq (room_Status v) status)
       (map (fun kv => scan_room kv.1 kv.2) (map_to_list (live_rooms t))))).

Definition List_ (status : Status) (limit : Z) : M (Mysql RoomDB) (list Room) :=
  let limit := if (limit <=? 0) || (100 <? limit) then 24 else limit in
  db_exec (reads (fun t => Ok (select_rooms status limit t))).

Definition with_status (now : Z) (to : Status) (r : room_row) : room_row :=
  mkRoomRow (rr_anchor_id r) (rr_title r) to
    (if bool_decide (to = StatusLiving) then Some now else rr_started_at r)
    (if bool_decide (to = StatusClosed) then Some now
     else if bool_decide (to = StatusLiving) then None else rr_ended_at r)
    (rr_created_at r) now.
(** The [UPDATE ... WHERE id=? AND anchor_id=? AND status=?] and its changed-row count. *)
Definition update_status (id anchorID : Z) (from to : Status) : stmt RoomDB Z := fun now t =>
  match live_rooms t !! id with
  | Some r =>
    if (rr_anchor_id r =? anchorID) && str_eq (rr_status r) from then
      let r' := with_status now to r in
      Ok (if bool_decide (r' = r) then 0 else 1, set_rooms (<[id := r']> (live_rooms t)) t)
    else Ok (0, t)
  | None => Ok (0, t)
  end.

Definition ChangeStatus (id anchorID : Z) (from to : Status) : M (Mysql RoomDB) unit :=
  n ← db_exec (update_status id anchorID from to);
  if n =? 0 then throw ErrInvalidState else mret tt.

Definition Join (roomID userID : Z) : M (Mysql RoomDB) unit :=
  db_exec (fun now t => Ok (tt, set_sessions (<[(roomID, userID) :=
    match live_sessions t !! (roomID, userID) with
    | Some s => mkSession (ss_joined_at s) now 1
    | None => mkSession now now 1
    end]> (live_sessions t)) t)).

Definition is_some {A} (o : option A) : bool := match o with Some _ => true | None => false end.
Definition IsBanned (roomID userID : Z) : M (Mysql RoomDB) bool :=
  db_exec (reads (fun t => Ok (is_some (room_bans t !! (roomID, userID))))).

Definition Ban_ (roomID userID createdBy : Z) (reason : string) : M (Mysql RoomDB) unit :=
  db_exec (fun now t => Ok (tt, set_bans (<[(roomID, userID) := mkBanRow createdBy reason now]> (room_bans t)) t)).
Definition Unban (roomID userID : Z) : M (Mysql RoomDB) unit :=
  db_exec (fun _ t => Ok (tt, set_bans (delete (roomID, userID) (room_bans t)) t)).

(** [ORDER BY created_at DESC] and [ORDER BY updated_at DESC] *)
Definition ban_le (a b : Ban) : Prop := ban_CreatedAt b <= ban_CreatedAt a.
#[export] Instance ban_le_dec a b : Decision (ban_le a b).
Proof. unfold ban_le. apply _. Defined.
Definition mute_le (a b : Mute) : Prop := mute_UpdatedAt b <= mute_UpdatedAt a.
#[export] Instance mute_le_dec a b : Decision (mute_le a b).
Proof. unfold mute_le. apply _. Defined.

Definition ListBans (roomID : Z) : M (Mysql RoomDB) (list Ban) :=
  db_exec (reads (fun t => Ok (merge_sort ban_le
    (omap (fun kv : Z * Z * ban_row => if kv.1.1 =? roomID then Some (mkBan kv.1.2 "" (br_reason kv.2) (br_created_at kv.2)) else None)
       (map_to_list (room_bans t)))))).

(** [muted_until IS NULL OR muted_until > NOW(3)] *)
Definition mute_active (now : Z) (r : mute_row) : bool :=
  match mr_muted_until r with None => true | Some u => now <? u end.
Definition IsMuted (roomID userID : Z) : M (Mysql RoomDB) bool :=
  db_exec (fun now t => Ok (match room_mutes t !! (roomID, userID) with Some r => mute_active now r | None => false end, t)).

Definition Mute_ (roomID userID createdBy : Z) (until : option Z) (reason : string) : M (Mysql RoomDB) unit :=
  db_exec (fun now t => Ok (tt, set_mutes (<[(roomID, userID) :=
    mkMuteRow (datetime3 <$> until) createdBy reason
      (match room_mutes t !! (roomID, userID) with Some r => mr_created_at r | None => now end) now]> (room_mutes t)) t)).
Definition Unmute (roomID userID : Z) : M (Mysql RoomDB) unit :=
  db_exec (fun _ t => Ok (tt, set_mutes (delete (roomID, userID) (room_mutes t)) t)).

Definition ListMutes (roomID : Z) : M (Mysql RoomDB) (list Mute) :=
  db_exec (fun now t => Ok (merge_sort mute_le
    (omap (fun kv : Z * Z * mute_row =>
             if (kv.1.1 =? roomID) && mute_active now kv.2
             then Some (mkMute kv.1.2 "" (mr_muted_until kv.2) (mr_reason kv.2) (mr_updated_at kv.2)) else None)
       (map_to_list (room_mutes t))), t)).
End repository.
End RoomRepository.

(** ** Service *)
(** The interface [room.RoomRepository]. *)
Class RoomStore (W : Type) := {
  rs_Create : Z -> string -> M W Room;
  rs_ByID : Z -> M W Room;
  rs_List : Status -> Z -> M W (list Room);
  rs_ChangeStatus : Z -> Z -> Status -> Status -> M W unit;
  rs_Join : Z -> Z -> M W unit;
  rs_IsMuted : Z -> Z -> M W bool;
  rs_IsBanned : Z -> Z -> M W bool;
  rs_ListMutes : Z -> M W (list Mute);
  rs_ListBans : Z -> M W (list Ban);
  rs_Ban : Z -> Z -> Z -> string -> M W unit;
  rs_Unban : Z -> Z -> M W unit;
  rs_Mute : Z -> Z -> Z -> option Z -> string -> M W unit;
  rs_Unmute : Z -> Z -> M W unit }.

(** [mapM] in index order, stopping at the first error. *)
Fixpoint mapM_res {W A B} (f : A -> M W B) (l : list A) : M W (list B) :=
  match l with
  | [] => mret []
  | x :: l => y ← f x; ys ← mapM_res f l; mret (y :: ys)
  end.

Module RoomService.
Section service.
Context {W : Type} `{RoomStore W}.
(** [NewService(repo, users...)]: the user directory, when one is given. *)
Variable users : option (Z -> M W (string * bool)).

Definition nickname (userID : Z) : M W (string * bool) :=
  match users with
  | None => throw (Fresh "room user directory is not configured")
  | Some u => u userID
  end.

Definition set_nickname (v : Room) (name : string) : Room :=
  mkRoom (room_ID v) (room_AnchorID v) name (room_Title v) (room_Status v) (room_StartedAt v) (room_EndedAt v)
    (room_CreatedAt v).
(** [withAnchor(ctx, v, err)] after a call that returned no error. *)
Definition withAnchor (v : Room) : M W Room :=
  match users with
  | None => mret v
  | Some _ => nb ← nickname (room_AnchorID v); mret (set_nickname v nb.1)
  end.

Definition Create (anchorID : Z) (title : string) : M W Room :=
  let title := TrimSpace title in
  if bool_decide (title = "") || (100 <? rune_count title)
  then throw (Wrapped "" ErrInvalidInput ": title must be 1-100 characters")
  else v ← rs_Create anchorID title; withAnchor v.

Definition Get (id : Z) : M W Room := v ← rs_ByID id; withAnchor v.

Definition IsMuted (roomID userID : Z) : M W bool := rs_IsMuted roomID userID.
Definition IsBanned (roomID userID : Z) : M W bool := rs_IsBanned roomID userID.

Definition GetRoomAccess (roomID userID : Z) : M W RoomAccess :=
  v ← Get roomID;
  banned ← rs_IsBanned roomID userID;
  muted ← rs_IsMuted roomID userID;
  mret (mkRoomAccess v banned muted).

Definition List_ (status : Status) (limit : Z) : M W (list Room) :=
  if negb (bool_decide (status = "")) && negb (bool_decide (status = StatusPreparing))
     && negb (bool_decide (status = StatusLiving)) && negb (bool_decide (status = StatusClosed))
  then throw (Wrapped "" ErrInvalidInput ": unsupported room status")
  else items ← rs_List status limit; mapM_res withAnchor items.

Definition Start (id actorID : Z) : M W Room :=
  v ← rs_ByID id;
  if negb (room_AnchorID v =? actorID) then throw ErrForbidden
  else _ ← rs_ChangeStatus id actorID StatusPreparing StatusLiving; Get id.

Definition Stop (id actorID : Z) : M W Room :=
  v ← rs_ByID id;
  if negb (room_AnchorID v =? actorID) then throw ErrForbidden
  else _ ← rs_ChangeStatus id actorID StatusLiving StatusClosed; Get id.

Definition Join (id userID : Z) : M W Room :=
  v ← Get id;
  if negb (bool_decide (room_Status v = StatusLiving)) then throw ErrNotLiving else
  banned ← rs_IsBanned id userID;
  if (banned : bool) then throw ErrBanned else
  _ ← rs_Join id userID;
  mret v.

Definition requireAnchor (roomID actorID : Z) : M W unit :=
  v ← rs_ByID roomID;
  if negb (room_AnchorID v =? actorID) then throw ErrForbidden else mret tt.

Definition validateModerationTarget (targetID : Z) (reason : string) : M W string :=
  ne ← nickname targetID;
  if negb ne.2 then throw ErrUserNotFound else
  let reason := TrimSpace reason in
  if 255 <? rune_count reason then throw (Wrapped "" ErrInvalidInput ": reason must not exceed 255 characters")
  else mret reason.

(** [now] is [time.Now().UTC()]. *)
Definition Mute_ (now roomID actorID targetID duration : Z) (reason : string) : M W unit :=
  _ ← requireAnchor roomID actorID;
  if targetID =? actorID then throw ErrSelfModeration else
  reason ← validateModerationTarget targetID reason;
  let until := if 0 <? duration then Some (now + duration) else None in
  rs_Mute roomID targetID actorID until reason.

Definition Unmute (roomID actorID targetID : Z) : M W unit :=
  _ ← requireAnchor roomID actorID; rs_Unmute roomID targetID.

Definition Ban_ (roomID actorID targetID : Z) (reason : string) : M W unit :=
  _ ← requireAnchor roomID actorID;
  if targetID =? actorID then throw ErrSelfModeration else
  reason ← validateModerationTarget targetID reason;
  rs_Ban roomID targetID actorID reason.

Definition Unban (roomID actorID targetID : Z) : M W unit :=
  _ ← requireAnchor roomID actorID; rs_Unban roomID targetID.

Definition ListMutes (roomID actorID : Z) : M W (list Mute) :=
  _ ← requireAnchor roomID actorID;
  items ← rs_ListMutes roomID;
  mapM_res (fun m => ne ← nickname (mute_UserID m);
    mret (mkMute (mute_UserID m) ne.1 (mute_MutedUntil m) (mute_Reason m) (mute_UpdatedAt m))) items.

Definition ListBans (roomID actorID : Z) : M W (list Ban) :=
  _ ← requireAnchor roomID actorID;
  items ← rs_ListBans roomID;
  mapM_res (fun b => ne ← nickname (ban_UserID b);
    mret (mkBan (ban_UserID b) ne.1 (ban_Reason b) (ban_CreatedAt b))) items.
End service.
End RoomService.

(** The repository on the connection to the room database. *)
#[export] Instance room_repository `{MySQLServer} {W} `{Lens (Mysql RoomDB) W} : RoomStore W := {|
  rs_Create := fun anchorID title => zoom (RoomRepository.Create anchorID title);
  rs_ByID := fun id => zoom (RoomRepository.ByID id);
  rs_List := fun status limit => zoom (RoomRepository.List_ status limit);
  rs_ChangeStatus := fun id anchorID from to => zoom (RoomRepository.ChangeStatus id anchorID from to);
  rs_Join := fun roomID userID => zoom (RoomRepository.Join roomID userID);
  rs_IsMuted := fun roomID userID => zoom (RoomRepository.IsMuted roomID userID);
  rs_IsBanned := fun roomID userID => zoom (RoomRepository.IsBanned roomID userID);
  rs_ListMutes := fun roomID => zoom (RoomRepository.ListMutes roomID);
  rs_ListBans := fun roomID => zoom (RoomRepository.ListBans roomID);
  rs_Ban := fun roomID userID createdBy reason => zoom (RoomRepository.Ban_ roomID userID createdBy reason);
  rs_Unban := fun roomID userID => zoom (RoomRepository.Unban roomID userID);
  rs_Mute := fun roomID userID createdBy until reason => zoom (RoomRepository.Mute_ roomID userID createdBy until reason);
  rs_Unmute := fun roomID userID => zoom (RoomRepository.Unmute roomID userID) |}.
