(* ===== verification/RoomSpec.v ===== *)
(** What the room service promises: every operation, under any faults, makes one
    of the changes of [room_change]; and the invariant of the reachable tables. *)
From S2P Require Import Prelude GoStrings Mysql Json Message Kafka Outbox Instances Room.
From Stdlib Require Import Relation_Operators.

Section system.
Context `{UnicodeTables} `{MySQLServer} `{!MySQLServerOk}.
(** The connection to the room database is a part of the process state [W]. The user
    directory is another service: it does not touch the room tables. *)
Context {W : Type} `{!Lens (Mysql RoomDB) W}.
Variable users : option (Z -> M W (string * bool)).
Hypothesis users_pure : forall u id w, users = Some u -> lget (u id w).2 = lget w.

Inductive room_op : Type :=
| OpCreateRoom (anchorID : Z) (title : string)
| OpStart (id actorID : Z)
| OpStop (id actorID : Z)
| OpJoin (id userID : Z)
| OpMute (now roomID actorID targetID duration : Z) (reason : string)
| OpUnmute (roomID actorID targetID : Z)
| OpBan (roomID actorID targetID : Z) (reason : string)
| OpUnban (roomID actorID targetID : Z)
| OpGetAccess (roomID userID : Z)
| OpList (status : Status) (limit : Z)
| OpListMutes (roomID actorID : Z)
| OpListBans (roomID actorID : Z).

Definition run_room (op : room_op) : M W unit :=
  match op with
  | OpCreateRoom a t => ignore (RoomService.Create users a t)
  | OpStart id a => ignore (RoomService.Start users id a)
  | OpStop id a => ignore (RoomService.Stop users id a)
  | OpJoin id u => ignore (RoomService.Join users id u)
  | OpMute now r a u d why => ignore (RoomService.Mute_ users now r a u d why)
  | OpUnmute r a u => ignore (RoomService.Unmute r a u)
  | OpBan r a u why => ignore (RoomService.Ban_ users r a u why)
  | OpUnban r a u => ignore (RoomService.Unban r a u)
  | OpGetAccess r u => ignore (RoomService.GetRoomAccess users r u)
  | OpList st l => ignore (RoomService.List_ users st l)
  | OpListMutes r a => ignore (RoomService.ListMutes users r a)
  | OpListBans r a => ignore (RoomService.ListBans users r a)
  end.

(** The user is the anchor of the room. *)
Definition anchored (t : RoomDB) (id actor : Z) : Prop :=
  exists r, live_rooms t !! id = Some r /\ rr_anchor_id r = actor.
Definition next_status (from to : Status) : Prop :=
  (from = StatusPreparing /\ to = StatusLiving) \/ (from = StatusLiving /\ to = StatusClosed).

(** What an operation may do to the tables at server time [now]. *)
Inductive room_change (now : Z) (t : RoomDB) : RoomDB -> Prop :=
| rc_none : room_change now t t
| rc_create anchor title :
    room_change now t (mkRoomDB (<[live_rooms_next t := mkRoomRow anchor title StatusPreparing None None now now]> (live_rooms t))
      (live_rooms_next t + 1) (live_sessions t) (room_mutes t) (room_bans t))
| rc_status id r from to :
    live_rooms t !! id = Some r -> str_eq (rr_status r) from = true -> next_status from to ->
    room_change now t (set_rooms (<[id := RoomRepository.with_status now to r]> (live_rooms t)) t)
| rc_join id user r s :
    live_rooms t !! id = Some r -> rr_status r = StatusLiving -> room_bans t !! (id, user) = None ->
    ss_last_seen_at s = now ->
    room_change now t (set_sessions (<[(id, user) := s]> (live_sessions t)) t)
| rc_mute id actor user m :
    anchored t id actor -> user <> actor -> mr_created_by m = actor ->
    room_change now t (set_mutes (<[(id, user) := m]> (room_mutes t)) t)
| rc_unmute id actor user :
    anchored t id actor -> room_change now t (set_mutes (delete (id, user) (room_mutes t)) t)
| rc_ban id actor user b :
    anchored t id actor -> user <> actor -> br_created_by b = actor ->
    room_change now t (set_bans (<[(id, user) := b]> (room_bans t)) t)
| rc_unban id actor user :
    anchored t id actor -> room_change now t (set_bans (delete (id, user) (room_bans t)) t).

Section leads_rules.
Context (n : Z) (P : RoomDB -> Prop).

Lemma leads_ByID {B} id (k : Room -> M W B) c :
  P c -> (forall r, live_rooms c !! id = Some r -> leads n P (k (RoomRepository.scan_room id r)) c) ->
  leads n P (rs_ByID id ≫= k) c.
Proof.
  intros Hc Hk. apply leads_exec; [done|]. unfold reads. intros a t'.
  destruct (live_rooms c !! id) eqn:E; [|done]. intros [= <- <-]. auto.
Qed.
Lemma leads_nickname {B} u (k : string * bool -> M W B) c :
  P c -> (forall nb, leads n P (k nb) c) -> leads n P (RoomService.nickname users u ≫= k) c.
Proof.
  intros Hc Hk. apply leads_pure; [|done|done]. intros w. unfold RoomService.nickname, idle.
  case_eq users; [|done]. intros f Hf. by rewrite users_pure.
Qed.
Lemma leads_withAnchor {B} v (k : Room -> M W B) c :
  P c -> (forall name, leads n P (k (RoomService.set_nickname v name)) c) -> leads n P (k v) c ->
  leads n P (RoomService.withAnchor users v ≫= k) c.
Proof.
  intros Hc Hk Hv. pose proof (fun k => leads_nickname (B := B) (room_AnchorID v) k c Hc) as Hn. revert Hn.
  unfold RoomService.withAnchor. case_eq users; [|done]. intros f _ Hn.
  apply leads_bind_assoc, Hn. intros nb. apply leads_ret_bind, Hk.
Qed.
Lemma leads_nop {A} (m : M W A) c : leads n P (m ≫= mret) c -> leads n P m c.
Proof.
  apply leads_ext. intros w. unfold mbind, M_bind, mret, M_ret. by destruct (m w) as [[a|e] w'].
Qed.
Lemma leads_Get {B} id (k : Room -> M W B) c :
  P c -> (forall r name, live_rooms c !! id = Some r ->
    leads n P (k (RoomService.set_nickname (RoomRepository.scan_room id r) name)) c) ->
  leads n P (RoomService.Get users id ≫= k) c.
Proof.
  intros Hc Hk. unfold RoomService.Get. apply leads_bind_assoc, leads_ByID; [done|]. intros r Hr.
  apply leads_withAnchor; [done|by auto|]. by apply (Hk r "" Hr).
Qed.
Lemma leads_requireAnchor {B} id actor (k : unit -> M W B) c :
  P c -> (anchored c id actor -> leads n P (k tt) c) -> leads n P (RoomService.requireAnchor id actor ≫= k) c.
Proof.
  intros Hc Hk. unfold RoomService.requireAnchor. apply leads_bind_assoc, leads_ByID; [done|]. intros r Hr.
  simpl. destruct (Z.eqb_spec (rr_anchor_id r) actor); simpl; [|by apply leads_throw_bind].
  apply leads_ret_bind, Hk. by exists r.
Qed.
Lemma leads_validate {B} u why (k : string -> M W B) c :
  P c -> (forall why, leads n P (k why) c) -> leads n P (RoomService.validateModerationTarget users u why ≫= k) c.
Proof.
  intros Hc Hk. unfold RoomService.validateModerationTarget. apply leads_bind_assoc, leads_nickname; [done|].
  intros nb. destruct (negb nb.2); [by apply leads_throw_bind|].
  destruct (255 <? _); [by apply leads_throw_bind|]. by apply leads_ret_bind.
Qed.
Lemma leads_mapM {A B C} (f : A -> M W B) l (k : list B -> M W C) c :
  P c -> (forall a C' (k' : B -> M W C'), (forall b, leads n P (k' b) c) -> leads n P (f a ≫= k') c) ->
  (forall bs, leads n P (k bs) c) -> leads n P (mapM_res f l ≫= k) c.
Proof.
  intros Hc Hf. revert k. induction l as [|a l IH]; intros k Hk; simpl; [by apply leads_ret_bind|].
  apply leads_bind_assoc, Hf. intros b. apply leads_bind_assoc, IH. intros bs. by apply leads_ret_bind.
Qed.
End leads_rules.

Lemma leads_change_status n c id actor from to {B} (k : unit -> M W B) :
  next_status from to ->
  (forall t', room_change (NOW3 n) c t' -> leads n (room_change (NOW3 n) c) (k tt) t') ->
  leads n (room_change (NOW3 n) c) (rs_ChangeStatus id actor from to ≫= k) c.
Proof.
  intros Hnext Hk. cbn [rs_ChangeStatus room_repository]. unfold RoomRepository.ChangeStatus. apply leads_zoom_bind, leads_exec; [apply rc_none|].
  unfold RoomRepository.update_status. intros a t' Hf.
  assert (Hch : room_change (NOW3 n) c t').
  { destruct (live_rooms c !! id) as [r|] eqn:Hr; [|simplify_eq; apply rc_none].
    destruct (_ && _) eqn:Ht; simplify_eq; [|apply rc_none]. apply andb_prop in Ht as [_ Ht].
    by eapply rc_status. }
  split; [done|]. destruct (a =? 0); [by apply leads_zoom_throw|]. by apply leads_zoom_ret, Hk.
Qed.

Ltac solve_change := first [apply rc_none | eassumption].
(** Walk an operation down to its last statement. *)
Ltac room_leads :=
  repeat first
    [ apply leads_Get; [solve_change|intros ? ? ?]
    | apply leads_ByID; [solve_change|intros ? ?]
    | apply leads_requireAnchor; [solve_change|intros ?]
    | apply leads_validate; [solve_change|intros ?]
    | apply leads_nickname; [solve_change|intros ?]
    | apply leads_change_status; [first [by left|by right]|intros ? ?]
    | apply leads_bind_assoc
    | apply leads_throw_bind; [solve_change]
    | progress apply leads_ret_bind
    | fail
    | apply leads_throw; [solve_change]
    | apply leads_ret; [solve_change]
    | match goal with |- context [if ?b then _ else _] => destruct b eqn:? end ].
(** The last statement has made the change that [tac] proves. *)
Ltac room_last tac :=
  match goal with |- ?P /\ _ => assert (Hlast : P) by tac; split; [exact Hlast|room_leads] end.
Ltac room_read := apply leads_exec; [solve_change|intros ? ? [= <- <-]; split; [solve_change|]].

Lemma leads_mapM_nickname n P {A B C} (f : A -> Z) (g : A -> string * bool -> B) l
    (k : list B -> M W C) c :
  P c -> (forall bs, leads n P (k bs) c) ->
  leads n P (mapM_res (fun a => ne ← RoomService.nickname users (f a); mret (g a ne)) l ≫= k) c.
Proof.
  intros Hc Hk. apply leads_mapM; [done| |done]. intros a C' k' Hk'.
  apply leads_bind_assoc, leads_nickname; [done|]. intros nb. by apply leads_ret_bind.
Qed.

(** Every operation makes one of the changes, whatever fails. *)
Lemma run_room_change op n c : leads n (room_change (NOW3 n) c) (run_room op) c.
Proof.
  destruct op as [a t|id a|id a|id u|now r a u d why|r a u|r a u why|r a u|r u|st l|r a|r a]; cbn [run_room];
    apply leads_ignore, leads_nop.
  - unfold RoomService.Create. destruct (_ || _); [apply leads_throw_bind, rc_none|].
    apply leads_bind_assoc. simpl. unfold RoomRepository.Create. apply leads_zoom_bind.
    apply leads_exec; [apply rc_none|]. unfold RoomRepository.insert_room. intros i t' [= <- <-].
    split; [constructor|]. apply leads_ByID; [constructor|]. intros r Hr.
    apply leads_withAnchor; [constructor| |]; intros; apply leads_ret; constructor.
  - unfold RoomService.Start. simpl. room_leads.
  - unfold RoomService.Stop. simpl. room_leads.
  - unfold RoomService.Join. room_leads. simpl. unfold RoomRepository.IsBanned.
    unfold reads. room_read. room_leads. unfold RoomRepository.Join.
    apply negb_false_iff, bool_decide_eq_true in Heqb. simpl in Heqb.
    apply leads_exec; [apply rc_none|]. intros [] t' [= <-]. 
    assert (Hch : room_change (NOW3 n) c (set_sessions (<[(id, u) :=
      match live_sessions c !! (id, u) with
      | Some s => mkSession (ss_joined_at s) (NOW3 n) 1
      | None => mkSession (NOW3 n) (NOW3 n) 1
      end]> (live_sessions c)) c)).
    { eapply rc_join; [done|done| |by destruct (live_sessions c !! (id, u))].
      by destruct (room_bans c !! (id, u)). }
    split; [done|]. room_leads.
  - unfold RoomService.Mute_. room_leads; simpl; (apply leads_exec; [apply rc_none|]); intros [] t' [= <-];
    room_last ltac:(eapply rc_mute; [done|by apply Z.eqb_neq|done]).
  - unfold RoomService.Unmute. room_leads. simpl. apply leads_exec; [apply rc_none|]. intros [] t' [= <-].
    room_last ltac:(by eapply rc_unmute).
  - unfold RoomService.Ban_. room_leads. simpl. apply leads_exec; [apply rc_none|]. intros [] t' [= <-].
    room_last ltac:(eapply rc_ban; [done|by apply Z.eqb_neq|done]).
  - unfold RoomService.Unban. room_leads. simpl. apply leads_exec; [apply rc_none|]. intros [] t' [= <-].
    room_last ltac:(by eapply rc_unban).
  - unfold RoomService.GetRoomAccess. room_leads. simpl. unfold RoomRepository.IsBanned, reads. room_read.
    unfold RoomRepository.IsMuted. room_leads. room_read. room_leads.
  - unfold RoomService.List_. destruct (_ && _); [apply leads_throw_bind, rc_none|].
    apply leads_bind_assoc. simpl. unfold RoomRepository.List_, reads. room_read.
    apply leads_mapM; [apply rc_none| |intros bs; apply leads_ret, rc_none].
    intros v C' k' Hk'. apply leads_withAnchor; [apply rc_none|auto|auto].
  - unfold RoomService.ListMutes. room_leads. simpl. unfold RoomRepository.ListMutes. room_read.
    apply leads_mapM_nickname; [apply rc_none|]. intros bs. apply leads_ret, rc_none.
  - unfold RoomService.ListBans. room_leads. simpl. unfold RoomRepository.ListBans, reads. room_read.
    apply leads_mapM_nickname; [apply rc_none|]. intros bs. apply leads_ret, rc_none.
Qed.

(** *** Reachable tables *)
Inductive room_reachable : Z -> RoomDB -> Prop :=
| room_reach_init now next : room_reachable now (mkRoomDB ∅ next ∅ ∅ ∅)
| room_reach_step n op w :
    room_reachable n (committed (lget w)) -> txn (lget w) = None -> n <= db_now (lget w) ->
    room_reachable (db_now (lget w)) (committed (lget (run_room op w).2)).

(** A room's life: when it may have started and ended. *)
Definition room_row_ok (now : Z) (r : room_row) : Prop :=
  (rr_status r = StatusPreparing /\ rr_started_at r = None /\ rr_ended_at r = None /\ rr_created_at r <= now)
  \/ (rr_status r = StatusLiving /\ rr_ended_at r = None /\
      exists s, rr_started_at r = Some s /\ rr_created_at r <= s <= now)
  \/ (rr_status r = StatusClosed /\
      exists s e, rr_started_at r = Some s /\ rr_ended_at r = Some e /\ rr_created_at r <= s <= e /\ e <= now).
Record room_inv (now : Z) (t : RoomDB) : Prop := {
  ri_ids : forall id r, live_rooms t !! id = Some r -> id < live_rooms_next t;
  ri_rooms : forall id r, live_rooms t !! id = Some r -> room_row_ok now r;
  ri_mutes : forall id u m, room_mutes t !! (id, u) = Some m -> anchored t id (mr_created_by m) /\ u <> mr_created_by m;
  ri_bans : forall id u b, room_bans t !! (id, u) = Some b -> anchored t id (br_created_by b) /\ u <> br_created_by b;
  ri_sessions : forall id u s, live_sessions t !! (id, u) = Some s -> exists r, live_rooms t !! id = Some r
      /\ rr_status r <> StatusPreparing }.

Lemma NOW3_le a b : a <= b -> NOW3 a <= NOW3 b.
Proof. unfold NOW3. intros. apply Z.mul_le_mono_nonneg_r; [lia|]. apply Z.div_le_mono; lia. Qed.

Lemma room_row_ok_le a b r : a <= b -> room_row_ok a r -> room_row_ok b r.
Proof.
  unfold room_row_ok. intros Hab [?|[(?&?&s&?&?)|(?&s&e&?&?&?&?)]].
  - left. intuition lia.
  - right; left. split_and!; [done|done|]. exists s. split; [done|lia].
  - right; right. split; [done|]. exists s, e. split_and!; (done || lia).
Qed.

(** The stored status is the one the collation says it equals. *)
Lemma status_collate now r from : room_row_ok now r -> str_eq (rr_status r) from = true ->
  from = StatusPreparing \/ from = StatusLiving -> rr_status r = from.
Proof.
  intros Hok Heq%bool_decide_eq_true Hf.
  assert (Hw : ascii_word (rr_status r) = true /\ ascii_word from = true /\
    (ToLower (rr_status r) = ToLower from -> rr_status r = from)).
  { destruct Hok as [(-> & _)|[(-> & _)|(-> & _)]], Hf as [-> | ->]; (split; [by vm_compute|split; [by vm_compute|by vm_compute]]). }
  destruct Hw as (? & ? & Hlow). by apply Hlow, collate_words.
Qed.

(** How one room row may change. *)
Definition row_advances (r r' : room_row) : Prop :=
  rr_anchor_id r' = rr_anchor_id r /\ rr_title r' = rr_title r /\ rr_created_at r' = rr_created_at r
  /\ (r' = r \/ next_status (rr_status r) (rr_status r')).

Lemma room_change_rows now t t' id r :
  room_inv now t -> room_change now t t' -> live_rooms t !! id = Some r ->
  exists r', live_rooms t' !! id = Some r' /\ row_advances r r'.
Proof.
  intros Hinv Hch Hr. assert (Hrefl : row_advances r r) by (split_and!; auto).
  destruct Hch as [|anchor title|id' r0 from to Hr0 Heq Hnext|id' user r0 s Hr0|id' actor user m|id' actor user|id' actor user b|id' actor user];
    simpl; eauto.
  - exists r. split; [|done]. rewrite lookup_insert_ne; [done|]. pose proof (ri_ids _ _ Hinv _ _ Hr). lia.
  - destruct (decide (id = id')) as [->|Hne]; [|exists r; split; [by rewrite lookup_insert_ne|done]].
    assert (r0 = r) as -> by congruence. exists (RoomRepository.with_status now to r). rewrite lookup_insert_eq. split; [done|].
    assert (Hs : rr_status r = from) by
      (eapply status_collate; [by eapply ri_rooms|done|destruct Hnext as [[-> _]|[-> _]]; auto]).
    unfold row_advances. simpl. split_and!; auto. right. by rewrite Hs.
Qed.

Lemma anchored_change now t t' id a : room_inv now t -> room_change now t t' -> anchored t id a -> anchored t' id a.
Proof.
  intros Hinv Hch (r & Hr & Ha). destruct (room_change_rows _ _ _ _ _ Hinv Hch Hr) as (r' & Hr' & Hadv & _).
  exists r'. split; [done|congruence].
Qed.

Lemma with_status_ok now r to : room_row_ok now r -> next_status (rr_status r) to -> room_row_ok now (RoomRepository.with_status now to r).
Proof.
  intros Hok Hnext. destruct Hok as [(Hs & Hst & He & Hc)|[(Hs & He & s & Hst & Hc)|(Hs & _)]];
    destruct Hnext as [[Hf ->]|[Hf ->]]; rewrite Hs in Hf; try discriminate.
  - right; left. split_and!; [done|done|]. exists now. split; [done|simpl; lia].
  - right; right. split; [done|]. exists s, now. split_and!; (done || simpl; lia).
Qed.

Lemma room_change_inv now t t' : room_inv now t -> room_change now t t' -> room_inv now t'.
Proof.
  intros Hinv Hch.
  assert (Hanch : forall id a, anchored t id a -> anchored t' id a) by (intros; by eapply anchored_change).
  assert (Hsess : forall id r, live_rooms t !! id = Some r -> rr_status r <> StatusPreparing ->
    exists r', live_rooms t' !! id = Some r' /\ rr_status r' <> StatusPreparing).
  { intros id r Hr Hs. destruct (room_change_rows _ _ _ _ _ Hinv Hch Hr) as (r' & Hr' & _ & _ & _ & Hadv).
    exists r'. split; [done|]. destruct Hadv as [->|[[? _]|[_ ->]]]; done. }
  destruct Hinv as [Hids Hrooms Hmutes Hbans Hsessions].
  assert (Hm' : forall id u m, room_mutes t !! (id, u) = Some m -> anchored t' id (mr_created_by m) /\ u <> mr_created_by m).
  { intros id u m Hm. destruct (Hmutes _ _ _ Hm). auto. }
  assert (Hb' : forall id u b, room_bans t !! (id, u) = Some b -> anchored t' id (br_created_by b) /\ u <> br_created_by b).
  { intros id u b Hb. destruct (Hbans _ _ _ Hb). auto. }
  assert (Hs' : forall id u s, live_sessions t !! (id, u) = Some s -> exists r, live_rooms t' !! id = Some r /\ rr_status r <> StatusPreparing).
  { intros id u s Hs. destruct (Hsessions _ _ _ Hs) as (r & Hr & Hst). eauto. }
  destruct Hch as [|anchor title|id' r0 from to Hr0 Heq Hnext|id' user r0 s Hr0|id' actor user m Ha Hu Hby|id' actor user|id' actor user b Ha Hu Hby|id' actor user];
    [done|..]; (split; [try exact Hids|try exact Hrooms|try exact Hm'|try exact Hb'|try exact Hs']); simpl in *.
  - intros id r [[<- <-]|[_ Hr]]%lookup_insert_Some; [lia|]. specialize (Hids _ _ Hr). lia.
  - intros id r [[<- <-]|[_ Hr]]%lookup_insert_Some; [|by eauto]. left. simpl. split_and!; (done || lia).
  - intros id r [[<- <-]|[_ Hr]]%lookup_insert_Some; eauto.
  - intros id r [[<- <-]|[_ Hr]]%lookup_insert_Some; [|by eauto]. apply with_status_ok; [by eauto|].
    assert (Hst : rr_status r0 = from) by
      (eapply status_collate; [by eapply Hrooms|done|destruct Hnext as [[-> _]|[-> _]]; auto]).
    by rewrite Hst.
  - intros id u s' [[[= <- <-] <-]|[_ Hs]]%lookup_insert_Some; [|by eauto]. exists r0. split; [done|].
    match goal with Hst : rr_status r0 = _ |- _ => by rewrite Hst end.
  - intros id u m' [[[= <- <-] <-]|[_ Hm]]%lookup_insert_Some; [|by eauto]. by rewrite Hby.
  - intros id u m' [_ Hm]%lookup_delete_Some. eauto.
  - intros id u b' [[[= <- <-] <-]|[_ Hb]]%lookup_insert_Some; [|by eauto]. by rewrite Hby.
  - intros id u b' [_ Hb]%lookup_delete_Some. eauto.
Qed.

Lemma room_inv_le a b t : a <= b -> room_inv a t -> room_inv b t.
Proof.
  intros Hab [? Hrooms ? ? ?]. split; try done. intros id r Hr. eapply room_row_ok_le; [exact Hab|by eauto].
Qed.

Lemma step_change op w : txn (lget w) = None ->
  room_change (NOW3 (db_now (lget w))) (committed (lget w)) (committed (lget (run_room op w).2)).
Proof.
  intros Ht. pose proof (run_room_change op (db_now (lget w)) (committed (lget w)) w) as Hl. unfold wp, idle in Hl. by apply Hl.
Qed.

Lemma room_reachable_inv n t : room_reachable n t -> room_inv (NOW3 n) t.
Proof.
  induction 1 as [now next|n op w _ IH Ht Hn].
  - split; simpl; intros; by rewrite lookup_empty in *.
  - eapply room_change_inv; [|by apply step_change]. eapply room_inv_le; [by apply NOW3_le|done].
Qed.

(** ** Properties *)
(** C21 The life of a room: in every reachable state of the room tables (any
    operations by anyone, any faults, a server clock that does not run backwards)
    a room is PREPARING and never started, LIVING since some time after its
    creation, or CLOSED with an end no earlier than its start; bans and mutes are
    by the room's anchor and never on the anchor; and only rooms that went live
    have sessions. *)
Theorem reachable_rooms_are_well_formed n t : room_reachable n t -> room_inv (NOW3 n) t.
Proof. apply room_reachable_inv. Qed.

(** One operation moves a room at most one step, PREPARING to LIVING to
    CLOSED, and never changes its anchor, title or creation time; a closed room
    never changes again. *)
Theorem room_status_moves_forward n op w id r :
  room_reachable n (committed (lget w)) -> txn (lget w) = None -> n <= db_now (lget w) ->
  live_rooms (committed (lget w)) !! id = Some r ->
  exists r', live_rooms (committed (lget (run_room op w).2)) !! id = Some r'
    /\ row_advances r r' /\ (rr_status r = StatusClosed -> r' = r).
Proof.
  intros Hr Ht Hn Hid.
  destruct (room_change_rows (NOW3 (db_now (lget w))) (committed (lget w)) (committed (lget (run_room op w).2)) id r) as (r' & Hr' & Hadv).
  - eapply room_inv_le; [by apply NOW3_le|by apply room_reachable_inv].
  - by apply step_change.
  - done.
  - exists r'. split_and!; [done|done|]. intros Hc. destruct Hadv as (_ & _ & _ & [?|Hnx]); [done|].
    rewrite Hc in Hnx. by destruct Hnx as [[? _]|[? _]].
Qed.

(** The room operations that only its anchor may do, and who asks. *)
Definition moderation_actor (op : room_op) : option (Z * Z) :=
  match op with
  | OpStart id a | OpStop id a => Some (id, a)
  | OpMute _ r a _ _ _ | OpUnmute r a _ | OpBan r a _ _ | OpUnban r a _ => Some (r, a)
  | OpListMutes r a | OpListBans r a => Some (r, a)
  | _ => None
  end.

(** Only the anchor starts, stops and moderates: asked by anyone else, or for
    a room that does not exist, these operations leave every table as it is,
    whatever faults occur. *)
Theorem only_the_anchor_moderates op id actor w :
  moderation_actor op = Some (id, actor) -> txn (lget w) = None -> ~ anchored (committed (lget w)) id actor ->
  committed (lget (run_room op w).2) = committed (lget w).
Proof.
  intros Hop Ht Hna. set (t := committed (lget w)) in *. enough (leads (db_now (lget w)) (fun t' => t' = t) (run_room op) t) as Hl.
  { specialize (Hl w). unfold wp, idle in Hl. by apply Hl. }
  destruct op; simplify_eq/=; apply leads_ignore, leads_nop.
  1-2: unfold RoomService.Start, RoomService.Stop; apply leads_bind_assoc; simpl;
    apply leads_ByID; [done|]; intros r Hr; simpl;
    destruct (Z.eqb_spec (rr_anchor_id r) actor); [by destruct Hna; exists r|by apply leads_throw_bind].
  all: unfold RoomService.Mute_, RoomService.Unmute, RoomService.Ban_, RoomService.Unban, RoomService.ListMutes,
    RoomService.ListBans; apply leads_bind_assoc, leads_requireAnchor; done.
Qed.

End system.

(** *** What successful calls did *)
Section calls.
Context `{UnicodeTables} `{MySQLServer} `{!MySQLServerOk}.
Variable users : option (Z -> M (Mysql RoomDB) (string * bool)).
Hypothesis users_pure : forall u id s, users = Some u -> lget (u id s).2 = lget s.
Lemma wp_ByID id (Q : res Room -> Mysql RoomDB -> Prop) c n fl :
  (forall r fl', live_rooms c !! id = Some r -> Q (Ok (RoomRepository.scan_room id r)) (mkMysql c None n fl')) ->
  (forall e fl', Q (Err e) (mkMysql c None n fl')) ->
  wp (rs_ByID id) Q (mkMysql c None n fl).
Proof.
  intros Hok Herr. apply wp_zoom, wp_db_read; [|done]. intros a fl'.
  destruct (live_rooms c !! id) eqn:E; [|done]. intros [= <-]. by apply Hok.
Qed.
Lemma wp_nickname u (Q : res (string * bool) -> Mysql RoomDB -> Prop) s :
  (forall r, Q r s) -> wp (RoomService.nickname users u) Q s.
Proof.
  intros HQ. unfold wp. assert (Hs : (RoomService.nickname users u s).2 = s).
  { unfold RoomService.nickname. case_eq users; [|done]. intros f Hf. by apply users_pure. }
  by rewrite Hs.
Qed.
Lemma wp_Get id (Q : res Room -> Mysql RoomDB -> Prop) c n fl :
  (forall r name fl', live_rooms c !! id = Some r ->
     Q (Ok (RoomService.set_nickname (RoomRepository.scan_room id r) name)) (mkMysql c None n fl')) ->
  (forall e fl', Q (Err e) (mkMysql c None n fl')) ->
  wp (RoomService.Get users id) Q (mkMysql c None n fl).
Proof.
  intros Hok Herr. unfold RoomService.Get. apply wp_bind, wp_ByID; [|done]. intros r fl' Hr.
  pose proof (wp_nickname (room_AnchorID (RoomRepository.scan_room id r))) as Hn. revert Hn.
  unfold RoomService.withAnchor. case_eq users.
  - intros f Hf Hn. apply wp_bind, Hn. intros [nb|e]; [|done]. by apply Hok.
  - intros _ _. by apply (Hok r "" fl' Hr).
Qed.

(** Admission: a join succeeds only for a room that is live and a user who is
    not banned from it, and then it leaves everything as it was except the user's
    session, seen at the server's time. *)
Theorem join_admits_only_live_and_unbanned id user c n fl v s :
  RoomService.Join users id user (mkMysql c None n fl) = (Ok v, s) ->
  exists r ses, live_rooms c !! id = Some r /\ rr_status r = StatusLiving /\ room_bans c !! (id, user) = None
    /\ room_ID v = id /\ room_AnchorID v = rr_anchor_id r
    /\ committed s = set_sessions (<[(id, user) := ses]> (live_sessions c)) c
    /\ ss_last_seen_at ses = NOW3 n /\ ss_status ses = 1.
Proof.
  intros Hrun. enough (Hwp : wp (RoomService.Join users id user) (fun res s => match res with
    | Ok v => exists r ses, live_rooms c !! id = Some r /\ rr_status r = StatusLiving /\ room_bans c !! (id, user) = None
      /\ room_ID v = id /\ room_AnchorID v = rr_anchor_id r
      /\ committed s = set_sessions (<[(id, user) := ses]> (live_sessions c)) c
      /\ ss_last_seen_at ses = NOW3 n /\ ss_status ses = 1
    | Err _ => True end) (mkMysql c None n fl)) by (unfold wp in Hwp; by rewrite Hrun in Hwp).
  unfold RoomService.Join. apply wp_bind, wp_Get; [|done]. intros r name fl1 Hr. simpl.
  case_bool_decide as Hst; [|done]. simpl.
  apply wp_bind, wp_zoom, wp_db_read; [|done]. intros banned fl2 [= <-].
  destruct (room_bans c !! (id, user)) as [b|] eqn:Hb; simpl; [done|].
  apply wp_bind, wp_zoom, wp_db_exec; [|done|done]. intros [] t' fl3 [= <-]. apply wp_ret.
  exists r. eexists. split_and!; [done|done|done|done|done|reflexivity|..]; by destruct (live_sessions c !! (id, user)).
Qed.

(** Mutes expire by themselves: after a successful mute of duration [d], at any
    server time [m] the user is muted exactly when [d] is not positive or [m] is
    before the stored end (the application's clock plus [d], in milliseconds); the
    user stays muted in no other room, and nobody else is affected. *)
Theorem mute_lasts_its_duration now roomID actorID targetID d reason c n fl s m :
  RoomService.Mute_ users now roomID actorID targetID d reason (mkMysql c None n fl) = (Ok tt, s) ->
  RoomService.IsMuted roomID targetID (mkMysql (committed s) None m [])
  = (Ok (if 0 <? d then NOW3 m <? datetime3 (now + d) else true), mkMysql (committed s) None m [])
  /\ forall r u, (r, u) <> (roomID, targetID) -> room_mutes (committed s) !! (r, u) = room_mutes c !! (r, u).
Proof.
  intros Hrun. enough (Hwp : wp (RoomService.Mute_ users now roomID actorID targetID d reason) (fun res s => match res with
    | Ok _ => exists row, room_mutes (committed s) = <[(roomID, targetID) := row]> (room_mutes c)
        /\ mr_muted_until row = datetime3 <$> (if 0 <? d then Some (now + d) else None)
    | Err _ => True end) (mkMysql c None n fl)).
  { unfold wp in Hwp. rewrite Hrun in Hwp. simpl in Hwp. destruct Hwp as (row & Hm & Hu). split.
    - unfold RoomService.IsMuted. simpl. unfold zoom, RoomRepository.IsMuted, db_exec. simpl. rewrite Hm, lookup_insert_eq.
      unfold RoomRepository.mute_active. rewrite Hu. by destruct (0 <? d).
    - intros r u Hne. rewrite Hm. by rewrite lookup_insert_ne. }
  unfold RoomService.Mute_, RoomService.requireAnchor, RoomService.validateModerationTarget.
  apply wp_bind, wp_bind, wp_ByID; [|done]. intros r fl1 Hr.
  destruct (negb _); [done|]. apply wp_ret. destruct (targetID =? actorID); [done|].
  apply wp_bind, wp_bind, wp_nickname. intros [nb|e]; [|done]. destruct (negb nb.2); [done|].
  destruct (255 <? _); [done|]. apply wp_ret. apply wp_zoom, wp_db_exec; [|done|done].
  intros [] t' fl2 [= <-]. by eexists.
Qed.
End calls.

(** ** Examples *)
Module RoomExamples.
#[local] Existing Instances ascii_tables example_server example_server_ok.

(** Users 7, 8 and 9 exist. *)
Definition directory : Z -> M (Mysql RoomDB) (string * bool) := fun u s =>
  (Ok ("user", bool_decide (7 <= u <= 9)), s).
Definition users : option (Z -> M (Mysql RoomDB) (string * bool)) := Some directory.
Lemma users_pure : forall u id s, users = Some u -> lget (u id s).2 = lget s.
Proof. by intros u id s [= <-]. Qed.
Definition empty : RoomDB := mkRoomDB ∅ 1 ∅ ∅ ∅.
Definition after (op : room_op) (n : Z) (t : RoomDB) : RoomDB :=
  committed (run_room users op (mkMysql t None n [])).2.
Definition opened : RoomDB := after (OpCreateRoom 7 " Music ") Minute empty.
Definition live : RoomDB := after (OpStart 1 7) (2 * Minute) opened.

Lemma live_reachable : room_reachable users (2 * Minute) live.
Proof.
  refine (room_reach_step users Minute (OpStart 1 7) (mkMysql opened None (2 * Minute) []) _ eq_refl _); [|done].
  refine (room_reach_step users 0 (OpCreateRoom 7 " Music ") (mkMysql empty None Minute []) _ eq_refl _); [|done]. apply room_reach_init.
Qed.

Lemma reachable_rooms_are_well_formed_witness : room_inv (NOW3 (2 * Minute)) live /\ live_rooms live !! 1 <> None.
Proof.
  split; [exact (reachable_rooms_are_well_formed users users_pure (2 * Minute) live live_reachable)|by vm_compute].
Defined.

Lemma room_status_moves_forward_witness :
  exists r r', live_rooms live !! 1 = Some r /\ rr_status r = StatusLiving
    /\ live_rooms (committed (run_room users (OpStop 1 7) (mkMysql live None (3 * Minute) [])).2) !! 1 = Some r'
    /\ row_advances r r'.
Proof.
  eexists. edestruct (room_status_moves_forward users users_pure (2 * Minute) (OpStop 1 7) (mkMysql live None (3 * Minute) []) 1)
    as (r' & Hr' & Hadv & _); [apply live_reachable|done|done|vm_compute; reflexivity|].
  exists r'. split; [vm_compute; reflexivity|]. split; [reflexivity|]. split; [exact Hr'|exact Hadv].
Defined.

Lemma only_the_anchor_moderates_witness :
  committed (run_room users (OpStop 1 8) (mkMysql live None (3 * Minute) [Fails (Fresh "timeout")])).2 = live.
Proof.
  refine (only_the_anchor_moderates users (OpStop 1 8) 1 8 (mkMysql live None (3 * Minute) [Fails (Fresh "timeout")]) eq_refl eq_refl _).
  intros (r & Hr & Ha). vm_compute in Hr. injection Hr as <-. done.
Defined.

Lemma join_admits_only_live_and_unbanned_witness :
  exists v s, RoomService.Join users 1 8 (mkMysql live None (3 * Minute) []) = (Ok v, s) /\ room_bans live !! (1, 8) = None.
Proof.
  eexists _, _. split; [vm_compute; reflexivity|].
  edestruct (join_admits_only_live_and_unbanned users users_pure 1 8 live (3 * Minute) [])
    as (r & ses & _ & _ & Hb & _); [vm_compute; reflexivity|exact Hb].
Defined.

Lemma mute_lasts_its_duration_witness :
  exists s, RoomService.Mute_ users (3 * Minute) 1 7 8 (5 * Minute) " spam " (mkMysql live None (3 * Minute) []) = (Ok tt, s)
    /\ (RoomService.IsMuted 1 8 (mkMysql (committed s) None (9 * Minute) [])).1 = Ok false.
Proof.
  pose (s := (RoomService.Mute_ users (3 * Minute) 1 7 8 (5 * Minute) " spam " (mkMysql live None (3 * Minute) [])).2).
  exists s. split; [vm_compute; reflexivity|].
  edestruct (mute_lasts_its_duration users users_pure (3 * Minute) 1 7 8 (5 * Minute) " spam " live (3 * Minute) [] s (9 * Minute))
    as [Hm _]; [vm_compute; reflexivity|]. rewrite Hm. reflexivity.
Defined.
End RoomExamples.
