(* ===== verification/GiftService.v ===== *)
(** The gift service: [internal/gift/service.go]. The store, the room service and
    the limiter are the interfaces the code declares; spans are not modelled. *)
From S2P Require Import Prelude GoStrings Mysql Json Message Commerce GiftRepository Room.

Definition ErrInvalidCount := Sentinel "gift.ErrInvalidCount" "gift count is outside the allowed range".
Definition ErrInvalidRequestID := Sentinel "gift.ErrInvalidRequestID" "invalid idempotency key".
Definition ErrOrderForbidden := Sentinel "gift.ErrOrderForbidden" "gift order does not belong to user".
Definition ErrRateLimited := Sentinel "gift.ErrRateLimited" "gift request rate limited".

(** The interfaces [gift.Store], [gift.RoomService] and [gift.Limiter]. *)
Class GiftStore (W : Type) := {
  gs_ListActive : M W (list Gift);
  gs_ByOrderNo : string -> M W Order;
  gs_ByRequestID : string -> M W Order;
  gs_Create : CreateParams -> M W (Order * bool) }.
Class GiftRooms (W : Type) := {
  gr_Get : Z -> M W Room;
  gr_IsBanned : Z -> Z -> M W bool }.
Definition Limiter (W : Type) : Type := string -> Z -> Z -> M W bool.

Record GiftConfig : Type := mkGiftConfig {
  gc_MaxCountPerRequest : Z; gc_UserRateLimit : Z; gc_UserRateWindow : Z }.

(** The defaults of [NewService]. *)
Definition with_defaults (cfg : GiftConfig) : GiftConfig :=
  mkGiftConfig
    (if gc_MaxCountPerRequest cfg <=? 0 then 100 else gc_MaxCountPerRequest cfg)
    (if gc_UserRateLimit cfg <=? 0 then 10 else gc_UserRateLimit cfg)
    (if gc_UserRateWindow cfg <=? 0 then Second else gc_UserRateWindow cfg).

Module GiftService.
Section service.
Context `{UnicodeTables} {W : Type} `{GiftStore W} `{GiftRooms W}.
Variables (limiter : option (Limiter W)) (cfg : GiftConfig) (giftTopic : string).

Definition List_ : M W (list Gift) := gs_ListActive.

Definition Order_ (orderNo : string) (userID : Z) : M W Order :=
  v ← gs_ByOrderNo (TrimSpace orderNo);
  if negb (UserID v =? userID) then throw ErrOrderForbidden else mret v.

Definition sameRequest (existing : Order) (roomID userID giftID count : Z) : bool :=
  (UserID existing =? userID) && (RoomID existing =? roomID) && (GiftID existing =? giftID)
  && (GiftCount existing =? count).

(** [for _, r := range s] over the decoded runes. *)
Definition validRequestID (s : string) : bool :=
  negb ((slen s <? 8) || (128 <? slen s))
  && forallb (fun r => IsLetter r || IsDigit r || (r =? 45) || (r =? 95) || (r =? 58) || (r =? 46)) (runes s).

Definition zero_order : Order := mkOrderV "" "" 0 0 0 0 "" 0 0 0 "" zero_time.

(** The result, and [ok]. *)
Definition replay (roomID userID giftID count : Z) (requestID : string) : M W (SendResult * bool) :=
  r ← try (gs_ByRequestID requestID);
  match r with
  | Err err => if errors_Is err ErrOrderNotFound then mret (mkSendResult zero_order false false, false) else throw err
  | Ok existing =>
    if negb (sameRequest existing roomID userID giftID count) then throw ErrIdempotencyConflict
    else mret (mkSendResult existing true false, true)
  end.

(** [if replay, ok, replayErr := s.replay(...); ok || replayErr != nil { return ... };
    return SendResult{}, err] *)
Definition replay_or (roomID userID giftID count : Z) (requestID : string) (err : error) : M W SendResult :=
  ro ← replay roomID userID giftID count requestID;
  if (ro.2 : bool) then mret ro.1 else throw err.

(** [id], [tx_id] and [event_id] are the three [idgen.New()]. *)
Definition Send (id tx_id event_id : string) (roomID userID giftID count : Z) (requestID : string) : M W SendResult :=
  if (count <? 1) || (gc_MaxCountPerRequest cfg <? count) then throw ErrInvalidCount else
  let requestID := TrimSpace requestID in
  if negb (validRequestID requestID) then throw ErrInvalidRequestID else
  let replay_or := replay_or roomID userID giftID count requestID in
  rv ← try (gr_Get roomID);
  match rv with
  | Err err => replay_or err
  | Ok v =>
    if negb (bool_decide (room_Status v = StatusLiving)) then replay_or ErrNotLiving else
    banned ← gr_IsBanned roomID userID;
    if (banned : bool) then replay_or ErrBanned else
    allowed ← match limiter with
              | None => mret true
              | Some allow => allow ("live:limit:gift:user:" +:+ FormatInt userID) (gc_UserRateLimit cfg) (gc_UserRateWindow cfg)
              end;
    if negb allowed then replay_or ErrRateLimited else
    c ← gs_Create (mkCreateParams ("G" +:+ id) requestID ("WT" +:+ tx_id) event_id giftTopic userID (room_AnchorID v)
                     roomID giftID count);
    let (order, replayed) := (c : Order * bool) in
    mret (mkSendResult order replayed (negb replayed))
  end.
End service.
End GiftService.

(** ** The service over its repository
    The commerce database is one component of the state, the other services are
    the other. [ctx] and [now] are the trace carrier and the application clock. *)
Definition gift_repository {R} `{UnicodeTables} `{MySQLServer} `{TimeText} (ctx : trace_map) (now : Z)
  : GiftStore (Mysql CommerceDB * R) := {|
  gs_ListActive := zoom ListActive;
  gs_ByOrderNo := fun o => zoom (ByOrderNo o);
  gs_ByRequestID := fun r => zoom (ByRequestID r);
  gs_Create := fun p => zoom (Create ctx now p) |}.
Definition remote_rooms {D R} `{GiftRooms R} : GiftRooms (D * R) := {|
  gr_Get := fun id => zoom (gr_Get id);
  gr_IsBanned := fun r u => zoom (gr_IsBanned r u) |}.
Definition remote_limiter {D R} (l : option (Limiter R)) : option (Limiter (D * R)) :=
  match l with Some f => Some (fun key limit window => zoom (f key limit window)) | None => None end.
