(* ===== verification/GiftServiceSpec.v ===== *)
(** What [Send] promises over the gift repository: admission before any charge,
    and replay of a finished request when it is no longer admitted. *)
From S2P Require Import Prelude GoStrings Mysql Json Message Kafka Outbox Instances Commerce GiftRepository GiftSpec.
From S2P Require Import Wallet WalletSpec OutboxSpec CommerceInvariants GiftProperties Room GiftService.

Section send.
Context `{UnicodeTables} `{MySQLServer} `{TimeText} {R : Type} `{GiftRooms R}.
Variables (limiter : option (Limiter R)) (cfg : GiftConfig) (giftTopic : string).
Variables (ctx : trace_map) (now : Z).

(** [Send] on the commerce connection and the other services' state. *)
Definition send (id tx_id event_id : string) (roomID userID giftID count : Z) (requestID : string)
  : M (Mysql CommerceDB * R) SendResult :=
  @GiftService.Send _ _ (gift_repository ctx now) remote_rooms (remote_limiter limiter) cfg giftTopic
    id tx_id event_id roomID userID giftID count requestID.

Definition send_params (id tx_id event_id : string) (v : Room) (roomID userID giftID count : Z) (requestID : string) : CreateParams :=
  mkCreateParams ("G" +:+ id) (TrimSpace requestID) ("WT" +:+ tx_id) event_id giftTopic userID (room_AnchorID v)
    roomID giftID count.

Definition limiter_key (userID : Z) : string := "live:limit:gift:user:" +:+ FormatInt userID.
Definition ask_limiter (userID : Z) : M R bool :=
  match limiter with
  | None => mret true
  | Some allow => allow (limiter_key userID) (gc_UserRateLimit cfg) (gc_UserRateWindow cfg)
  end.

(** The request passes every check: the room is live, the user is not banned, the
    limiter allows it. [rw] and [rw'] are the other services before and after. *)
Definition admitted (rw : R) (roomID userID : Z) (v : Room) (rw' : R) : Prop :=
  exists rw1 rw2, gr_Get roomID rw = (Ok v, rw1) /\ room_Status v = StatusLiving
    /\ gr_IsBanned roomID userID rw1 = (Ok false, rw2) /\ ask_limiter userID rw2 = (Ok true, rw').
(** The request is turned away by a check. *)
Definition refused (rw : R) (roomID userID : Z) (rw' : R) : Prop :=
  (exists e, gr_Get roomID rw = (Err e, rw'))
  \/ (exists v, gr_Get roomID rw = (Ok v, rw') /\ room_Status v <> StatusLiving)
  \/ (exists v rw1, gr_Get roomID rw = (Ok v, rw1) /\ room_Status v = StatusLiving
        /\ gr_IsBanned roomID userID rw1 = (Ok true, rw'))
  \/ (exists v rw1 rw2, gr_Get roomID rw = (Ok v, rw1) /\ room_Status v = StatusLiving
        /\ gr_IsBanned roomID userID rw1 = (Ok false, rw2) /\ ask_limiter userID rw2 = (Ok false, rw')).

Definition valid_send (count : Z) (requestID : string) : Prop :=
  1 <= count <= gc_MaxCountPerRequest cfg /\ GiftService.validRequestID (TrimSpace requestID) = true.

(** What [Send] may do. *)
Inductive send_outcome (id tx_id event_id : string) (roomID userID giftID count : Z) (requestID : string) (n : Z)
    (c : CommerceDB) (rw : R) : res SendResult -> CommerceDB -> Prop :=
| send_failed e : send_outcome id tx_id event_id roomID userID giftID count requestID n c rw (Err e) c
| send_replayed o :
    valid_send count requestID ->
    orderSelect (fun r => str_eq (o_request_id r) (TrimSpace requestID)) c = Ok o ->
    GiftService.sameRequest o roomID userID giftID count = true ->
    send_outcome id tx_id event_id roomID userID giftID count requestID n c rw (Ok (mkSendResult o true false)) c
| send_charged v rw' g payload res :
    valid_send count requestID -> admitted rw roomID userID v rw' ->
    let p := send_params id tx_id event_id v roomID userID giftID count requestID in
    gift_enabled (NOW3 n) p g c -> marshal_envelope (gift_envelope ctx now p g) = Ok payload ->
    match res with
    | Ok sr => exists o, sr = mkSendResult o false true
        /\ orderSelect (fun r => str_eq (o_order_no r) (p_OrderNo p)) (gift_effect (NOW3 n) p g payload c) = Ok o
    | Err _ => True
    end ->
    send_outcome id tx_id event_id roomID userID giftID count requestID n c rw res (gift_effect (NOW3 n) p g payload c).

Lemma wp_remote {A} (m : M R A) (Q : res A -> Mysql CommerceDB * R -> Prop) s rw :
  (forall r rw', m rw = (r, rw') -> Q r (s, rw')) -> wp (zoom m) Q (s, rw).
Proof. intros HQ. apply wp_zoom. unfold wp. simpl. destruct (m rw) as [r rw'] eqn:E. by apply HQ. Qed.

(** The replay query returns the stored order or an error, and changes nothing. *)
Lemma wp_replay_or roomID userID giftID count requestID err c n fl rw
    (Q : res SendResult -> Mysql CommerceDB * R -> Prop) :
  (forall o fl', orderSelect (fun r => str_eq (o_request_id r) requestID) c = Ok o ->
     GiftService.sameRequest o roomID userID giftID count = true ->
     Q (Ok (mkSendResult o true false)) (mkMysql c None n fl', rw)) ->
  (forall e fl', Q (Err e) (mkMysql c None n fl', rw)) ->
  wp (@GiftService.replay_or _ (gift_repository ctx now) roomID userID giftID count requestID err) Q (mkMysql c None n fl, rw).
Proof.
  intros Hok Herr. unfold GiftService.replay_or, GiftService.replay.
  apply wp_bind, wp_bind, wp_try, wp_zoom. simpl. apply wp_db_read.
  - intros o fl' Ho. destruct (GiftService.sameRequest o roomID userID giftID count) eqn:Hs; [by apply Hok|apply Herr].
  - intros e fl'. destruct (errors_Is_name _ _); apply Herr.
Qed.

Lemma send_spec id tx_id event_id roomID userID giftID count requestID c n fl rw :
  wp (send id tx_id event_id roomID userID giftID count requestID)
     (fun r s => txn s.1 = None /\
        send_outcome id tx_id event_id roomID userID giftID count requestID n c rw r (committed s.1))
     (mkMysql c None n fl, rw).
Proof.
  unfold send, GiftService.Send.
  set (Q := fun (r : res SendResult) (s : Mysql CommerceDB * R) => txn s.1 = None /\
    send_outcome id tx_id event_id roomID userID giftID count requestID n c rw r (committed s.1)).
  assert (Hfail : forall e fl' rw', Q (Err e) (mkMysql c None n fl', rw')) by (split; [done|apply send_failed]).
  destruct (Z.ltb_spec count 1); [apply wp_throw, Hfail|].
  destruct (Z.ltb_spec (gc_MaxCountPerRequest cfg) count); [apply wp_throw, Hfail|]. cbn [orb].
  destruct (GiftService.validRequestID (TrimSpace requestID)) eqn:Hid; [|apply wp_throw, Hfail]. cbn [negb].
  assert (Hvalid : valid_send count requestID) by (split; [lia|done]).
  assert (Hrep : forall err fl' rw', wp (@GiftService.replay_or _ (gift_repository ctx now) roomID userID giftID count (TrimSpace requestID) err) Q
    (mkMysql c None n fl', rw')).
  { intros err fl' rw'. apply wp_replay_or; [|intros; apply Hfail]. intros o fl'' Ho Hs. split; [done|]. by apply send_replayed. }
  apply wp_bind, wp_try, wp_remote. intros [v|e] rw1 Hget; [|apply Hrep].
  case_bool_decide as Hst; cbn [negb]; [|apply Hrep].
  apply wp_bind, wp_remote. intros [[|]|e] rw2 Hban; [apply Hrep| |apply Hfail].
  apply wp_bind. unfold remote_limiter.
  assert (Hlim : wp (match limiter with Some f => zoom (f (limiter_key userID) (gc_UserRateLimit cfg) (gc_UserRateWindow cfg)) | None => mret true end)
    (fun r s => s.1 = mkMysql c None n fl /\ ask_limiter userID rw2 = (r, s.2)) (mkMysql c None n fl, rw2)).
  { unfold ask_limiter. destruct limiter as [f|]; [|by apply wp_ret]. apply wp_remote. by intros r rw' ->. }
  eapply wp_mono; [destruct limiter; exact Hlim|]. intros [[|]|e] [s3 rw3]; simpl; intros [-> Hask]; [|apply Hrep|apply Hfail].
  cbn [negb]. apply wp_bind, wp_zoom. simpl. eapply wp_mono; [apply create_spec|].
  intros r [c' x n' fl'] [Ho [Htx Hn]]. simpl in Ho, Htx, Hn. subst x n'.
  assert (Hadm : admitted rw roomID userID v rw3) by (exists rw1, rw2; auto).
  destruct Ho as [e|o Hsel Hsame|g payload o Hen Hp Hsel|g payload e Hen Hp].
  - apply (Hfail e fl' rw3).
  - split; [done|]. by apply send_replayed.
  - split; [done|]. apply (send_charged _ _ _ _ _ _ _ _ _ _ _ v rw3 g payload (Ok _)); [done..|]. by exists o.
  - split; [done|]. by apply (send_charged _ _ _ _ _ _ _ _ _ _ _ v rw3 g payload (Err e)).
Qed.

(** ** Properties *)
(** C6 [Send] under any database faults and any answers of the other services: it
    changes the commerce tables only by charging one gift of this request, with
    the room's anchor as receiver, and only after the room was found live, the
    user not banned and the limiter willing, for a count within the configured
    maximum and a well-formed request id; it reports an event as queued exactly
    when it charged, and a replay returns the stored order of the request id with
    the same user, room, gift and count. *)
Theorem send_charges_only_admitted_requests id tx_id event_id roomID userID giftID count requestID c n fl rw r s :
  send id tx_id event_id roomID userID giftID count requestID (mkMysql c None n fl, rw) = (r, s) ->
  send_outcome id tx_id event_id roomID userID giftID count requestID n c rw r (committed s.1) /\ txn s.1 = None.
Proof.
  intros Hrun. pose proof (send_spec id tx_id event_id roomID userID giftID count requestID c n fl rw) as Hs.
  unfold wp in Hs. rewrite Hrun in Hs. tauto.
Qed.

Lemma replay_or_nofault roomID userID giftID count requestID err c n (rw : R) o :
  orderSelect (fun r => str_eq (o_request_id r) requestID) c = Ok o ->
  @GiftService.replay_or _ (gift_repository ctx now) roomID userID giftID count requestID err (mkMysql c None n [], rw)
  = (if GiftService.sameRequest o roomID userID giftID count then Ok (mkSendResult o true false) else Err ErrIdempotencyConflict,
     (mkMysql c None n [], rw)).
Proof.
  intros Ho. unfold GiftService.replay_or, GiftService.replay.
  assert (Hq : @gs_ByRequestID _ (gift_repository ctx now) requestID (mkMysql c None n [], rw) = (Ok o, (mkMysql c None n [], rw))).
  { simpl. apply zoom_fst_ok, db_exec_nofault. unfold reads. by rewrite Ho. }
  unfold mbind, M_bind, try. rewrite Hq. by destruct (GiftService.sameRequest o roomID userID giftID count).
Qed.

(** A finished request stays answerable: when the room has closed or vanished,
    or the user has been banned or rate limited since, repeating the request
    (database available) returns the stored order as a replay if user, room, gift
    and count are the same and a conflict otherwise, and changes nothing. *)
Theorem refused_retry_replays_stored_order id tx_id event_id roomID userID giftID count requestID c n rw rw' o :
  valid_send count requestID -> refused rw roomID userID rw' ->
  orderSelect (fun r => str_eq (o_request_id r) (TrimSpace requestID)) c = Ok o ->
  send id tx_id event_id roomID userID giftID count requestID (mkMysql c None n [], rw)
  = (if GiftService.sameRequest o roomID userID giftID count then Ok (mkSendResult o true false) else Err ErrIdempotencyConflict,
     (mkMysql c None n [], rw')).
Proof.
  intros [Hcount Hid] Href Ho. unfold send, GiftService.Send.
  replace ((count <? 1) || (gc_MaxCountPerRequest cfg <? count)) with false by lia.
  rewrite Hid. cbn [negb].
  destruct Href as [(e & Hget)|[(v & Hget & Hst)|[(v & rw1 & Hget & Hst & Hban)|(v & rw1 & rw2 & Hget & Hst & Hban & Hlim)]]];
    (erewrite bind_ok by (apply try_run, zoom_snd_ok, Hget)); cbv beta iota.
  - by apply replay_or_nofault.
  - rewrite bool_decide_false by done. by apply replay_or_nofault.
  - rewrite bool_decide_true by done. cbn [negb]. erewrite bind_ok by (apply zoom_snd_ok, Hban). cbv beta iota.
    by apply replay_or_nofault.
  - rewrite bool_decide_true by done. cbn [negb]. erewrite bind_ok by (apply zoom_snd_ok, Hban). cbv beta iota.
    erewrite bind_ok.
    2: { unfold ask_limiter in Hlim. unfold remote_limiter. destruct limiter as [f|]; [apply zoom_snd_ok, Hlim|done]. }
    by apply replay_or_nofault.
Qed.

(** An order is shown to its buyer only. *)
Theorem order_is_shown_to_its_buyer orderNo userID c n fl (rw : R) o s :
  @GiftService.Order_ _ (gift_repository ctx now) orderNo userID (mkMysql c None n fl, rw) = (Ok o, s) ->
  UserID o = userID /\ committed s.1 = c /\
  exists r, r ∈ orders c /\ str_eq (o_order_no r) (TrimSpace orderNo) = true /\ scan_order c r = Some o.
Proof.
  intros Hrun. enough (Hwp : wp (@GiftService.Order_ _ (gift_repository ctx now) orderNo userID) (fun res s => match res with
    | Ok o => UserID o = userID /\ committed s.1 = c /\
        exists r, r ∈ orders c /\ str_eq (o_order_no r) (TrimSpace orderNo) = true /\ scan_order c r = Some o
    | Err _ => True end) (mkMysql c None n fl, rw)) by (unfold wp in Hwp; by rewrite Hrun in Hwp).
  apply wp_bind, wp_zoom. simpl. apply wp_db_read; [|done]. intros v fl' Hv.
  destruct (Z.eqb_spec (UserID v) userID); [|done]. cbn [negb]. apply wp_ret. split_and!; [done|done|].
  by apply orderSelect_ok in Hv.
Qed.
End send.

(** ** Examples *)
Module SendExamples.
Import GiftExamples.
#[local] Existing Instances ascii_tables example_server nano_text.

(** The other services: the status of room 9 and whether user 7 is banned. *)
Definition services : Type := Status * bool.
#[local] Instance example_rooms : GiftRooms services := {|
  gr_Get := fun id s => if id =? 9 then (Ok (mkRoom 9 8 "" "Music" s.1 None None 0), s) else (Err ErrNotFound, s);
  gr_IsBanned := fun _ _ s => (Ok s.2, s) |}.
Definition limits : GiftConfig := with_defaults (mkGiftConfig 0 0 0).
Definition buy (requestID : string) : M (Mysql CommerceDB * services) SendResult :=
  send None limits "live.gift.v1" [] GiftExamples.now "1" "1" "e1" 9 7 1 3 requestID.

Lemma send_charges_only_admitted_requests_witness :
  exists r s, buy " request-1" (mkMysql credited None GiftExamples.now [], (StatusLiving, false)) = (Ok r, s)
    /\ sr_EventQueued r = true /\ length (orders (committed s.1)) = 1%nat /\ txn s.1 = None.
Proof.
  eexists _, _. split; [vm_compute; reflexivity|]. split; [reflexivity|]. split; [reflexivity|].
  eapply (send_charges_only_admitted_requests None limits "live.gift.v1" [] GiftExamples.now "1" "1" "e1" 9 7 1 3
    " request-1" credited GiftExamples.now [] (StatusLiving, false)). vm_compute. reflexivity.
Defined.

Definition bought : CommerceDB :=
  committed (buy "request-1" (mkMysql credited None GiftExamples.now [], (StatusLiving, false))).2.1.

Lemma refused_retry_replays_stored_order_witness :
  exists o, buy "request-1" (mkMysql bought None GiftExamples.now [], (StatusClosed, false))
    = (Ok (mkSendResult o true false), (mkMysql bought None GiftExamples.now [], (StatusClosed, false))).
Proof.
  eexists. unfold buy. rewrite (refused_retry_replays_stored_order None limits "live.gift.v1" [] GiftExamples.now
    "1" "1" "e1" 9 7 1 3 "request-1" bought GiftExamples.now (StatusClosed, false) (StatusClosed, false)
    (mkOrderV "G1" "request-1" 7 8 9 1 "Rose" 3 100 300 "SUCCESS" (NOW3 GiftExamples.now))).
  - reflexivity.
  - split; [done|by vm_compute].
  - right. left. eexists. split; [reflexivity|done].
  - vm_compute. reflexivity.
Defined.

Lemma order_is_shown_to_its_buyer_witness :
  exists o s, @GiftService.Order_ _ (gift_repository [] GiftExamples.now) " G1" 7
      (mkMysql bought None GiftExamples.now [], (StatusLiving, false)) = (Ok o, s) /\ UserID o = 7.
Proof.
  eexists _, _. split; [vm_compute; reflexivity|].
  eapply (order_is_shown_to_its_buyer [] GiftExamples.now " G1" 7 bought GiftExamples.now [] (StatusLiving, false)).
  vm_compute. reflexivity.
Defined.
End SendExamples.
