(* ===== verification/Dedup.v ===== *)
(** Consumer deduplication: [internal/eventdedup/store.go] over the table
    [processed_events] of [migrations/004_m5.sql]. *)
From S2P Require Import Prelude GoStrings Mysql.

Record processed_row : Type := mkProcessed {
  pe_status : Z;
  pe_locked_at : option Z;
  pe_processed_at : option Z;
  pe_last_error : option string;
  pe_created_at : Z }.
#[export] Instance processed_row_eq_dec : EqDecision processed_row.
Proof. solve_decision. Defined.

(** The table, by the collation keys of consumer group and event id. *)
Notation DedupDB := (gmap (string * string) processed_row).

Definition ErrBusy := Sentinel "eventdedup.ErrBusy" "event is being processed by another consumer".

Section store.
Context `{MySQLServer}.

Definition dedup_key (group eventID : string) : string * string := (collate group, collate eventID).

(** [SELECT status, locked_at ... FOR UPDATE] *)
Definition select_processed (group eventID : string) : stmt DedupDB (Z * option Z) := reads (fun t =>
  match t !! dedup_key group eventID with
  | Some r => Ok (pe_status r, pe_locked_at r)
  | None => Err sql_ErrNoRows
  end).
Definition insert_processed (group eventID : string) : stmt DedupDB unit := fun now t =>
  match t !! dedup_key group eventID with
  | Some _ => Err (dup_entry (group +:+ "-" +:+ eventID) "processed_events.PRIMARY")
  | None => Ok (tt, <[dedup_key group eventID := mkProcessed 0 (Some now) None None now]> t)
  end.
Definition relock (now : Z) (r : processed_row) : processed_row :=
  mkProcessed (pe_status r) (Some now) (pe_processed_at r) None (pe_created_at r).
Definition update_locked (group eventID : string) : stmt DedupDB unit := fun now t =>
  Ok (tt, match t !! dedup_key group eventID with
          | Some r => <[dedup_key group eventID := relock now r]> t
          | None => t
          end).

(** [now] is the application's [time.Now().UTC()]. *)
Definition Begin (now : Z) (group eventID : string) (lease : Z) : M (Mysql DedupDB) bool :=
  with_tx (
    r ← try (tx_exec (select_processed group eventID));
    match r with
    | Err err =>
      if errors_Is err sql_ErrNoRows then
        _ ← tx_exec (insert_processed group eventID);
        _ ← commit_tx;
        mret false
      else throw err
    | Ok (status, lockedAt) =>
      if status =? 1 then _ ← commit_tx; mret true
      else if match lockedAt with Some l => now - lease <? l | None => false end then throw ErrBusy
      else
        _ ← tx_exec (update_locked group eventID);
        _ ← commit_tx;
        mret false
    end).

(** An [UPDATE] of the row with a condition, and its changed-row count. *)
Definition update_processed (cond : processed_row -> bool) (f : processed_row -> processed_row) (group eventID : string)
  : DedupDB -> Z * DedupDB := fun t =>
  match t !! dedup_key group eventID with
  | Some r => if cond r then (if bool_decide (f r = r) then 0 else 1, <[dedup_key group eventID := f r]> t) else (0, t)
  | None => (0, t)
  end.

Definition done_row (now : Z) (r : processed_row) : processed_row := mkProcessed 1 None (Some now) None (pe_created_at r).
Definition update_done (group eventID : string) : stmt DedupDB Z := fun now t =>
  Ok (update_processed (fun _ => true) (done_row now) group eventID t).

Definition Done (group eventID : string) : M (Mysql DedupDB) unit :=
  with_tx (
    n ← tx_exec (update_done group eventID);
    if negb (n =? 1) then throw (Fresh "processed event lock lost") else commit_tx).

Definition fail_row (msg : string) (r : processed_row) : processed_row :=
  mkProcessed (pe_status r) None (pe_processed_at r) (Some msg) (pe_created_at r).
Definition pending_row (r : processed_row) : bool := pe_status r =? 0.
Definition update_failed (msg group eventID : string) : stmt DedupDB Z := fun _ t =>
  if match t !! dedup_key group eventID with Some r => pending_row r | None => false end && negb (text_ok msg)
  then Err incorrect_string
  else Ok (update_processed pending_row (fail_row msg) group eventID t).

Definition Fail_ (group eventID : string) (cause : option error) : M (Mysql DedupDB) unit :=
  let msg := match cause with
             | None => ""
             | Some c => let msg := error_text c in if 512 <? slen msg then str_take 512 msg else msg
             end in
  with_tx (
    n ← tx_exec (update_failed msg group eventID);
    if negb (n =? 1) then throw (Fresh "processed event lock lost") else commit_tx).
End store.

(** The interface [gift.DedupStore]. *)
Class DedupStore (W : Type) := {
  ds_Begin : string -> string -> Z -> M W bool;
  ds_Done : string -> string -> M W unit;
  ds_Fail : string -> string -> option error -> M W unit }.

(** The store next to another component; [now] is the application clock. *)
Definition dedup_store {R} `{MySQLServer} (now : Z) : DedupStore (Mysql DedupDB * R) := {|
  ds_Begin := fun g e lease => zoom (Begin now g e lease);
  ds_Done := fun g e => zoom (Done g e);
  ds_Fail := fun g e cause => zoom (Fail_ g e cause) |}.
