(* ===== verification/GiftConsumer.v ===== *)
(** Delivery of committed gifts to rooms: [internal/gift/consumer.go]. *)
From S2P Require Import Prelude GoStrings Base64 Json Message GiftRepository Realtime Kafka Dedup.

Record realtimeGiftPayload : Type := mkGiftPayload {
  gp_MessageID : string;
  gp_OrderNo : string;
  gp_UserID : Z;
  gp_AnchorID : Z;
  gp_GiftID : Z;
  gp_GiftName : string;
  gp_Count : Z;
  gp_UnitPrice : Z;
  gp_TotalAmount : Z }.

(** [json.Unmarshal(raw, &p)] *)
Definition unmarshal_gift_payload (r : raw) : option realtimeGiftPayload :=
  o ← decode_object r;
  mid ← decode_field "" dec_string "message_id" o;
  no ← decode_field "" dec_string "order_no" o;
  user ← decode_field 0 dec_int64 "user_id" o;
  anchor ← decode_field 0 dec_int64 "anchor_id" o;
  gift ← decode_field 0 dec_int64 "gift_id" o;
  name ← decode_field "" dec_string "gift_name" o;
  count ← decode_field 0 dec_int64 "count" o;
  price ← decode_field 0 dec_int64 "unit_price" o;
  total ← decode_field 0 dec_int64 "total_amount" o;
  Some (mkGiftPayload mid no user anchor gift name count price total).

Definition gift_payload_json (p : realtimeGiftPayload) : json := JObj
  [("message_id", JStr (gp_MessageID p)); ("order_no", JStr (gp_OrderNo p)); ("user_id", JNum (gp_UserID p));
   ("anchor_id", JNum (gp_AnchorID p)); ("gift_id", JNum (gp_GiftID p)); ("gift_name", JStr (gp_GiftName p));
   ("count", JNum (gp_Count p)); ("unit_price", JNum (gp_UnitPrice p)); ("total_amount", JNum (gp_TotalAmount p))].

(** [None] is the result [false]. *)
Definition decodeRealtimeGiftPayload (r : raw) : option realtimeGiftPayload :=
  match unmarshal_gift_payload r with
  | None => None
  | Some p =>
    let valid := negb (bool_decide (gp_OrderNo p = "")) && (0 <? gp_UserID p) && (0 <? gp_AnchorID p) && (0 <? gp_GiftID p)
                 && negb (bool_decide (gp_GiftName p = "")) && (0 <? gp_Count p) && (0 <=? gp_UnitPrice p)
                 && (0 <=? gp_TotalAmount p) in
    if negb valid then None
    else Some (mkGiftPayload (messageID (gp_OrderNo p)) (gp_OrderNo p) (gp_UserID p) (gp_AnchorID p) (gp_GiftID p)
                 (gp_GiftName p) (gp_Count p) (gp_UnitPrice p) (gp_TotalAmount p))
  end.

Module GiftConsumer.
Section handler.
Context {W : Type} `{DedupStore W} `{Publisher W} `{TimeText}.
Variables (group : string) (lease : Z).

(** A nil value is not JSON. *)
Definition record_raw (rec : Record_) : raw := default (Invalid "") (Value rec).

(** [invalid gift payload] found after [Begin]. *)
Definition reject_payload (eventID : string) : M W unit :=
  let err := Fresh "invalid gift payload" in
  f ← try (ds_Fail group eventID (Some err));
  match f with
  | Err failErr => throw (Wrapped "release invalid gift event: " failErr "")
  | Ok _ => throw (Permanent err)
  end.

(** The data of the event is the byte slice that [json.Marshal] returned. *)
Definition gift_event (envelope : Envelope) (payload : realtimeGiftPayload) : RtEvent :=
  mkRtEvent (env_EventID envelope) "gift" (env_RoomID envelope) "P1" (UnixMilli (env_CreatedAt envelope))
    (AnyBytes (Valid (gift_payload_json payload))).

Definition Handle (rec : Record_) : M W unit :=
  match unmarshal_envelope (record_raw rec) with
  | None => throw (Permanent (Wrapped "decode gift envelope: " (Fresh "invalid json") ""))
  | Some envelope =>
    match ValidateRoomEnvelope envelope with
    | Err err => throw (Permanent (Wrapped "invalid gift envelope: " err ""))
    | Ok _ =>
      if negb (bool_decide (env_EventType envelope = EventTypeGiftSent))
      then throw (Permanent (Fresh "invalid gift envelope")) else
      b ← try (ds_Begin group (env_EventID envelope) lease);
      match b with
      | Err err => if same_error err ErrBusy then throw err else throw (Wrapped "begin gift dedup: " err "")
      | Ok true => mret tt
      | Ok false =>
        match raw_empty (env_Payload envelope), decodeRealtimeGiftPayload (env_Payload envelope) with
        | false, Some payload =>
          p ← try (Publish (RoomStream (env_RoomID envelope)) (gift_event envelope payload));
          match p with
          | Err err =>
            _ ← ignore (ds_Fail group (env_EventID envelope) (Some err));
            throw (Wrapped "publish gift realtime: " err "")
          | Ok _ =>
            d ← try (ds_Done group (env_EventID envelope));
            match d with
            | Err err => throw (Wrapped "mark gift processed: " err "")
            | Ok _ => mret tt
            end
          end
        | _, _ => reject_payload (env_EventID envelope)
        end
      end
    end
  end.
End handler.
End GiftConsumer.
