(* ===== verification/DeliverySpec.v ===== *)
(** Delivery of events: the gift event from the outbox row to the room channel, and
    the deduplication lease that keeps two consumers off one event. *)
From S2P Require Import Prelude GoStrings Base64 Mysql Json Message Commerce GiftRepository GiftSpec Realtime Kafka.
From S2P Require Import Outbox Instances Dedup GiftConsumer.

(** ** The payload written by the gift transaction is the one the consumer reads *)
Definition order_event (p : CreateParams) (gv : Gift) (total : Z) : realtimeGiftPayload :=
  mkGiftPayload (messageID (p_OrderNo p)) (p_OrderNo p) (p_UserID p) (p_AnchorID p) (p_GiftID p) (gift_Name gv)
    (p_Count p) (gift_Price gv) total.

(** The fields of a charged gift that the consumer insists on. *)
Record deliverable (p : CreateParams) (gv : Gift) (total : Z) : Prop := {
  dv_order : p_OrderNo p <> "";
  dv_name : gift_Name gv <> "";
  dv_user : 0 < p_UserID p <= int64_max;
  dv_anchor : 0 < p_AnchorID p <= int64_max;
  dv_gift : 0 < p_GiftID p <= int64_max;
  dv_count : 0 < p_Count p <= int64_max;
  dv_price : 0 <= gift_Price gv <= int64_max;
  dv_total : 0 <= total <= int64_max }.

Lemma unmarshal_gift_payload_json g :
  in_int64 (gp_UserID g) -> in_int64 (gp_AnchorID g) -> in_int64 (gp_GiftID g) -> in_int64 (gp_Count g) ->
  in_int64 (gp_UnitPrice g) -> in_int64 (gp_TotalAmount g) ->
  unmarshal_gift_payload (Valid (gift_payload_json g)) = Some g.
Proof.
  intros. unfold unmarshal_gift_payload, gift_payload_json. cbn [decode_object mbind option_bind]. json_keys.
  cbn [dec_string mbind option_bind]. rewrite !dec_int64_num by done. by destruct g.
Qed.

Lemma decode_order_event p gv total :
  deliverable p gv total -> decodeRealtimeGiftPayload (Valid (gift_payload p gv total)) = Some (order_event p gv total).
Proof.
  intros [Ho Hn Hu Ha Hg Hc Hp Ht]. unfold decodeRealtimeGiftPayload.
  change (gift_payload p gv total) with (gift_payload_json (order_event p gv total)).
  rewrite unmarshal_gift_payload_json; [|unfold in_int64, int64_min, int64_max in *; simpl; lia..].
  cbn [gp_OrderNo gp_UserID gp_AnchorID gp_GiftID gp_GiftName gp_Count gp_UnitPrice gp_TotalAmount order_event].
  rewrite !bool_decide_false by done.
  by replace (0 <? p_UserID p) with true by lia; replace (0 <? p_AnchorID p) with true by lia;
    replace (0 <? p_GiftID p) with true by lia; replace (0 <? p_Count p) with true by lia;
    replace (0 <=? gift_Price gv) with true by lia; replace (0 <=? total) with true by lia.
Qed.

(** ** The handler *)
Section handler.
Context {W : Type} `{DedupStore W} `{Publisher W} `{TimeTextOk}.
Variables (group : string) (lease : Z).

(** A record that carries the event of the order. *)
Definition carries (rec : Record_) (e : Envelope) : Prop := exists r, Value rec = Some r /\ unmarshal_envelope r = Some e.

Lemma handle_publishes rec e payload w w1 w2 w3 :
  carries rec e -> ValidateRoomEnvelope e = Ok tt -> env_EventType e = EventTypeGiftSent ->
  decodeRealtimeGiftPayload (env_Payload e) = Some payload ->
  ds_Begin group (env_EventID e) lease w = (Ok false, w1) ->
  Publish (RoomStream (env_RoomID e)) (GiftConsumer.gift_event e payload) w1 = (Ok tt, w2) ->
  ds_Done group (env_EventID e) w2 = (Ok tt, w3) ->
  GiftConsumer.Handle group lease rec w = (Ok tt, w3).
Proof.
  intros (r & Hv & He) Hval Hty Hpay Hb Hp Hd. unfold GiftConsumer.Handle, GiftConsumer.record_raw.
  rewrite Hv. cbn [default]. unfold default, id. rewrite He, Hval, bool_decide_true by done. cbn [negb].
  destruct (validated_fields e Hval) as (_ & _ & _ & _ & j & Hj).
  erewrite bind_ok by (apply try_run, Hb). cbv beta iota. rewrite Hpay, Hj. cbn [raw_empty].
  erewrite bind_ok by (apply try_run, Hp). cbv beta iota.
  by erewrite bind_ok by (apply try_run, Hd).
Qed.
End handler.

(** ** The deduplication store *)
Section dedup.
Context `{MySQLServer}.
Implicit Types c : DedupDB.

Definition fresh_row (now : Z) : processed_row := mkProcessed 0 (Some now) None None now.

(** The tables [Begin] leaves when it takes the lease. *)
Definition leased (now n : Z) (g e : string) (lease : Z) c : option DedupDB :=
  match c !! dedup_key g e with
  | None => Some (<[dedup_key g e := fresh_row (NOW3 n)]> c)
  | Some row =>
    if pe_status row =? 1 then None
    else if match pe_locked_at row with Some l => now - lease <? l | None => false end then None
    else Some (<[dedup_key g e := relock (NOW3 n) row]> c)
  end.

(** [Begin] under every fault schedule: it takes the lease when it may, and
    says that the event is done only when it is. *)
Lemma begin_spec now g e lease c n fl :
  wp (Begin now g e lease)
     (fun r s => txn s = None /\ db_now s = n /\
        match r with
        | Ok true => committed s = c /\ exists row, c !! dedup_key g e = Some row /\ pe_status row = 1
        | Ok false => leased now n g e lease c = Some (committed s)
        | Err _ => committed s = c \/ leased now n g e lease c = Some (committed s)
        end)
     (mkMysql c None n fl).
Proof.
  unfold Begin. apply wp_with_tx; [intros; split_and!; auto|]. intros fl1.
  apply wp_bind, wp_try. unfold leased.
  assert (Hsel : forall (Q : res (Z * option Z) -> Mysql DedupDB -> Prop),
    (forall row fl', c !! dedup_key g e = Some row -> Q (Ok (pe_status row, pe_locked_at row)) (mkMysql c (Some c) n fl')) ->
    (forall fl', c !! dedup_key g e = None -> Q (Err sql_ErrNoRows) (mkMysql c (Some c) n fl')) ->
    (forall err fl', Q (Err err) (mkMysql c (Some c) n fl')) ->
    wp (tx_exec (select_processed g e)) Q (mkMysql c (Some c) n fl1)).
  { intros Q Hok Hnone Herr. unfold wp, tx_exec, select_processed, reads. simpl.
    destruct (next_fault fl1) as [[|err|err] fl']; simpl; [|apply Herr|];
      destruct (c !! dedup_key g e) as [row|] eqn:E; simpl; eauto. }
  apply Hsel.
  - intros row fl2 Hrow. rewrite Hrow. cbn beta iota. destruct (Z.eqb_spec (pe_status row) 1) as [Hs|Hs].
    { apply wp_bind, wp_commit; intros; [apply wp_ret| |]; simpl; split_and!; eauto. }
    destruct (match pe_locked_at row with Some l => now - lease <? l | None => false end); [apply wp_throw; simpl; auto|].
    apply wp_bind, wp_tx_exec; [|intros; split_and!; auto]. intros [] t fl3. unfold update_locked. rewrite Hrow. intros [= <-].
    apply wp_bind, wp_commit; intros; [apply wp_ret| |]; simpl; split_and!; auto.
  - intros fl2 Hrow. rewrite Hrow. cbn [errors_Is sql_ErrNoRows errors_Is_name]. rewrite bool_decide_true by done.
    apply wp_bind, wp_tx_exec; [|intros; split_and!; auto]. intros [] t fl3. unfold insert_processed. rewrite Hrow. intros [= <-].
    apply wp_bind, wp_commit; intros; [apply wp_ret| |]; simpl; split_and!; auto.
  - intros err fl2. destruct (errors_Is err sql_ErrNoRows); [|apply wp_throw; simpl; auto].
    apply wp_bind, wp_tx_exec; [|intros; split_and!; auto]. intros [] t fl3. unfold insert_processed.
    destruct (c !! dedup_key g e) eqn:Hrow; [done|]. intros [= <-].
    apply wp_bind, wp_commit; intros; [apply wp_ret| |]; simpl; split_and!; auto.
Qed.

Lemma done_spec g e c n fl :
  wp (Done g e)
     (fun r s => txn s = None /\ db_now s = n /\
        (committed s = c \/ exists row, c !! dedup_key g e = Some row /\ committed s = <[dedup_key g e := done_row (NOW3 n) row]> c)
        /\ match r with Ok _ => exists row, committed s !! dedup_key g e = Some row /\ pe_status row = 1 | Err _ => True end)
     (mkMysql c None n fl).
Proof.
  unfold Done. apply wp_with_tx; [intros; split_and!; auto|]. intros fl1.
  apply wp_bind, wp_tx_exec; [|intros; simpl; auto]. intros a t fl2. unfold update_done, update_processed.
  destruct (c !! dedup_key g e) as [row|] eqn:Hrow; intros [= <- <-]; [|apply wp_throw; simpl; auto].
  destruct (bool_decide _) eqn:Hb; [apply wp_throw; simpl; auto|]. cbn [Z.eqb Pos.eqb negb].
  apply wp_commit; intros; simpl; split_and!; eauto.
  exists (done_row (NOW3 n) row). by rewrite lookup_insert_eq.
Qed.

Lemma fail_spec g e cause c n fl :
  wp (Fail_ g e cause)
     (fun r s => txn s = None /\ db_now s = n /\
        (committed s = c \/ exists row msg, c !! dedup_key g e = Some row /\ pe_status row = 0
           /\ committed s = <[dedup_key g e := fail_row msg row]> c))
     (mkMysql c None n fl).
Proof.
  unfold Fail_. apply wp_with_tx; [intros; split_and!; auto|]. intros fl1.
  apply wp_bind, wp_tx_exec; [|intros; simpl; auto]. intros a t fl2. unfold update_failed, update_processed.
  destruct (c !! dedup_key g e) as [row|] eqn:Hrow; [|intros [= <- <-]; apply wp_throw; simpl; auto].
  destruct (pending_row row) eqn:Hp; [|intros [= <- <-]; apply wp_throw; simpl; auto].
  destruct (_ && _); [done|]. intros [= <- <-]. apply Z.eqb_eq in Hp.
  destruct (negb _); [apply wp_throw; simpl; auto|].
  apply wp_commit; intros; simpl; split_and!; eauto 7.
Qed.

(** What any call of the store may do. *)
Inductive dedup_op : Type :=
| OpBegin (now : Z) (g e : string) (lease : Z)
| OpDone (g e : string)
| OpFail (g e : string) (cause : option error).
Definition run_dedup (op : dedup_op) : M (Mysql DedupDB) unit :=
  match op with
  | OpBegin now g e lease => ignore (Begin now g e lease)
  | OpDone g e => Done g e
  | OpFail g e cause => Fail_ g e cause
  end.

Lemma run_dedup_keeps_done op c n fl k row :
  c !! k = Some row -> pe_status row = 1 ->
  exists row', committed (run_dedup op (mkMysql c None n fl)).2 !! k = Some row' /\ pe_status row' = 1.
Proof.
  intros Hk Hs. assert (Hins : forall k' row',
    (forall r, c !! k' = Some r -> pe_status r = 1 -> pe_status row' = 1) ->
    exists r, <[k' := row']> c !! k = Some r /\ pe_status r = 1).
  { intros k' row' Hr. destruct (decide (k = k')) as [<-|]; [|exists row; by rewrite lookup_insert_ne].
    exists row'. rewrite lookup_insert_eq. eauto. }
  destruct op as [now g e lease|g e|g e cause]; simpl.
  - pose proof (begin_spec now g e lease c n fl) as Hb. unfold wp, ignore in *. simpl in *. destruct Hb as (_ & _ & Hb).
    destruct (Begin now g e lease _) as [r s]. simpl in *.
    assert (Hc : committed s = c \/ leased now n g e lease c = Some (committed s)) by (destruct r as [[]|]; tauto).
    destruct Hc as [->|Hl]; [eauto|]. unfold leased in Hl. destruct (c !! dedup_key g e) as [r0|] eqn:Hr0.
    + destruct (Z.eqb_spec (pe_status r0) 1); [done|]. destruct (match pe_locked_at r0 with Some _ => _ | None => _ end); [done|].
      injection Hl as <-. apply Hins. intros r1 Hr1. congruence.
    + injection Hl as <-. apply Hins; intros; congruence.
  - pose proof (done_spec g e c n fl) as Hd. unfold wp in Hd. destruct Hd as (_ & _ & [->|(r0 & Hr0 & ->)] & _); [eauto|].
    by apply Hins.
  - pose proof (fail_spec g e cause c n fl) as Hd. unfold wp in Hd.
    destruct Hd as (_ & _ & [->|(r0 & msg & Hr0 & Hs0 & ->)]); [eauto|].
    apply Hins. intros r1 Hr1. simplify_eq. lia.
Qed.

(** C23 The lease is exclusive: when one consumer's [Begin] has answered "not
    done", another [Begin] for the same group and event on the tables it left -
    at any server time, with any faults - is not told to go ahead and changes
    nothing while its clock minus its lease has not reached the first one's
    server time. *)
Theorem dedup_lease_is_exclusive nowA nowB g e leaseA leaseB c n m flA flB sA rB sB :
  Begin nowA g e leaseA (mkMysql c None n flA) = (Ok false, sA) ->
  Begin nowB g e leaseB (mkMysql (committed sA) None m flB) = (rB, sB) ->
  nowB - leaseB < NOW3 n ->
  rB <> Ok false /\ committed sB = committed sA.
Proof.
  intros HA HB Hlt. pose proof (begin_spec nowA g e leaseA c n flA) as SA.
  pose proof (begin_spec nowB g e leaseB (committed sA) m flB) as SB.
  unfold wp in SA, SB. rewrite HA in SA. rewrite HB in SB. simpl in SA, SB.
  destruct SA as (_ & _ & Hl), SB as (_ & _ & Hr).
  assert (Hrow : exists row, committed sA !! dedup_key g e = Some row /\ pe_status row <> 1 /\ pe_locked_at row = Some (NOW3 n)).
  { unfold leased in Hl. destruct (c !! dedup_key g e) as [r0|].
    - destruct (Z.eqb_spec (pe_status r0) 1); [done|]. destruct (match pe_locked_at r0 with Some _ => _ | None => _ end); [done|].
      injection Hl as Hl. rewrite <- Hl, lookup_insert_eq. by exists (relock (NOW3 n) r0).
    - injection Hl as Hl. rewrite <- Hl, lookup_insert_eq. by exists (fresh_row (NOW3 n)). }
  destruct Hrow as (row & Hrow & Hs & Hlock).
  assert (Hno : leased nowB m g e leaseB (committed sA) = None).
  { unfold leased. rewrite Hrow, Hlock. destruct (Z.eqb_spec (pe_status row) 1); [done|].
    by replace (nowB - leaseB <? NOW3 n) with true by lia. }
  rewrite Hno in Hr. destruct rB as [[]|]; [|done|].
  - by destruct Hr as [-> _].
  - by destruct Hr as [->|].
Qed.

(** Done is final: once an event is marked processed, no sequence of further
    calls, by any consumer and with any faults, unmarks it, and [Begin] (database
    available) answers "done" without changing anything. *)
Theorem processed_event_stays_processed ops c row g e now lease n :
  c !! dedup_key g e = Some row -> pe_status row = 1 ->
  let c' := fold_left (fun t (o : dedup_op * Z * list fault) =>
              committed (run_dedup o.1.1 (mkMysql t None o.1.2 o.2)).2) ops c in
  Begin now g e lease (mkMysql c' None n []) = (Ok true, mkMysql c' None n []).
Proof.
  intros Hk Hs. cbv zeta. assert (Hend : exists row', fold_left (fun t (o : dedup_op * Z * list fault) =>
    committed (run_dedup o.1.1 (mkMysql t None o.1.2 o.2)).2) ops c !! dedup_key g e = Some row' /\ pe_status row' = 1).
  { revert c row Hk Hs. induction ops as [|[[op m] fl] ops IH]; intros c row Hk Hs; simpl; [eauto|].
    destruct (run_dedup_keeps_done op c m fl _ row Hk Hs) as (row' & Hk' & Hs'). eapply IH; eauto. }
  set (c' := fold_left _ ops c) in *. destruct Hend as (row' & Hk' & Hs').
  unfold Begin. rewrite with_tx_nofault.
  erewrite bind_ok.
  2: { apply try_run, tx_exec_nofault. unfold select_processed, reads. rewrite Hk'. reflexivity. }
  cbv beta iota. rewrite Hs'. reflexivity.
Qed.
End dedup.

(** ** From the outbox to the room *)
Section chain.
Context `{UnicodeTables} `{MySQLServer} {W : Type} `{DedupStore W} `{Publisher W} `{TimeTextOk} `{JsonText}.
Variables (group : string) (lease : Z).

(** The realtime event of a gift. *)
Definition gift_rt_event (app_now : Z) (p : CreateParams) (g : Commerce.gift_row) : RtEvent :=
  mkRtEvent (p_EventID p) "gift" (p_RoomID p) "P1" (UnixMilli app_now)
    (AnyBytes (Valid (gift_payload_json (order_event p (mkGiftV (p_GiftID p) (Commerce.gift_name g) (Commerce.gift_price g)
       (Commerce.gift_status g)) (gift_total p g))))).

Lemma handle_gift_event ctx ctx' app_now p g payload rec w w1 w2 w3 :
  marshal_envelope (gift_envelope ctx app_now p g) = Ok payload ->
  deliverable p (mkGiftV (p_GiftID p) (Commerce.gift_name g) (Commerce.gift_price g) (Commerce.gift_status g)) (gift_total p g) ->
  TrimSpace (p_EventID p) <> "" -> 0 < p_RoomID p <= int64_max -> 0 <= app_now <= int64_max ->
  Value rec = Some (InjectTrace payload ctx') ->
  ds_Begin group (p_EventID p) lease w = (Ok false, w1) ->
  Publish (RoomStream (p_RoomID p)) (gift_rt_event app_now p g) w1 = (Ok tt, w2) ->
  ds_Done group (p_EventID p) w2 = (Ok tt, w3) ->
  GiftConsumer.Handle group lease rec w = (Ok tt, w3).
Proof.
  intros Hm Hdel Hev Hroom Hnow Hval Hb Hp Hd.
  set (e := gift_envelope ctx app_now p g) in *.
  assert (Hok : ValidateRoomEnvelope e = Ok tt).
  { unfold ValidateRoomEnvelope, e, gift_envelope. simpl. rewrite bool_decide_false by done.
    replace (p_RoomID p <=? 0) with false by lia. unfold IsZero, zero_time.
    replace (app_now =? _) with false by (unfold Second in *; lia). done. }
  assert (Hwire : wire_ok e).
  { unfold wire_ok, e, gift_envelope, in_int64, int64_min, int64_max in *. simpl. split_and!; try lia; try done.
    by destruct ctx. }
  pose proof (InjectTrace_envelope e ctx' payload Hwire Hok Hm) as Hinj.
  eapply (handle_publishes group lease rec _ _ w w1 w2 w3).
  - by exists (InjectTrace payload ctx').
  - unfold ValidateRoomEnvelope in *. exact Hok.
  - done.
  - apply decode_order_event. exact Hdel.
  - exact Hb.
  - exact Hp.
  - exact Hd.
Qed.

(** C8 End to end: the outbox payload that a committed gift stores, with its trace
    rewritten by the producer, is accepted by the gift consumer and published to
    the stream channel of the gift's room with the order's own fields, the message
    id derived from the order number, and the event id of the outbox row; the
    event is then marked processed. *)
Theorem gift_event_reaches_the_room ctx ctx' app_now p g payload rec w w1 w2 w3 :
  marshal_envelope (gift_envelope ctx app_now p g) = Ok payload ->
  deliverable p (mkGiftV (p_GiftID p) (Commerce.gift_name g) (Commerce.gift_price g) (Commerce.gift_status g)) (gift_total p g) ->
  TrimSpace (p_EventID p) <> "" -> 0 < p_RoomID p <= int64_max -> 0 <= app_now <= int64_max ->
  Value rec = Some (InjectTrace payload ctx') ->
  ds_Begin group (p_EventID p) lease w = (Ok false, w1) ->
  Publish (RoomStream (p_RoomID p)) (gift_rt_event app_now p g) w1 = (Ok tt, w2) ->
  ds_Done group (p_EventID p) w2 = (Ok tt, w3) ->
  GiftConsumer.Handle group lease rec w = (Ok tt, w3).
Proof. apply handle_gift_event. Qed.

(** What the client receives: the [data] of every gift event is a JSON string
    (the base64 text of the payload's bytes), never the object that the realtime
    contract describes. *)
Theorem gift_event_data_is_a_string envelope payload :
  exists head text,
    event_json (GiftConsumer.gift_event envelope payload) = Ok (JObj (head ++ [("data", JStr text)]))
    /\ text = StdEncode (json_text (gift_payload_json payload)).
Proof.
  unfold event_json, GiftConsumer.gift_event. cbn [rt_Data rt_Priority marshal_any raw_text].
  rewrite bool_decide_false by done.
  eexists ([("event_id", _); ("type", _); ("room_id", _); ("priority", _); ("timestamp", _)]), _. split; reflexivity.
Qed.

(** The record is malformed: it will never be accepted. *)
Definition poison (rec : Record_) : Prop :=
  match unmarshal_envelope (GiftConsumer.record_raw rec) with
  | None => True
  | Some e => ValidateRoomEnvelope e <> Ok tt \/ env_EventType e <> EventTypeGiftSent
              \/ decodeRealtimeGiftPayload (env_Payload e) = None
  end.
(** The store and the publisher fail with retryable errors only. *)
Definition transient_services : Prop :=
  (forall g e l w err w', ds_Begin g e l w = (Err err, w') -> IsPermanent err = false)
  /\ (forall g e c w err w', ds_Fail g e c w = (Err err, w') -> IsPermanent err = false)
  /\ (forall g e w err w', ds_Done g e w = (Err err, w') -> IsPermanent err = false)
  /\ (forall c e w err w', Publish c e w = (Err err, w') -> IsPermanent err = false).

(** Errors are classified: when the database and the realtime service fail with
    retryable errors only, the handler's error is permanent only for a malformed
    record (which the loop dead-letters), and every well-formed record that fails
    is retried. *)
Theorem gift_handler_classifies_errors rec w err w' :
  transient_services -> GiftConsumer.Handle group lease rec w = (Err err, w') ->
  IsPermanent err = true -> poison rec.
Proof.
  intros (Tb & Tf & Td & Tp) Hrun Hperm. unfold GiftConsumer.Handle in Hrun. unfold poison.
  destruct (unmarshal_envelope _) as [e|]; [|done].
  destruct (ValidateRoomEnvelope e) as [[]|] eqn:Hv; [|by left].
  destruct (bool_decide_reflect (env_EventType e = EventTypeGiftSent)) as [Ht|]; [|auto]. cbn [negb] in Hrun.
  unfold mbind, M_bind in Hrun. unfold try at 1 in Hrun.
  destruct (ds_Begin group (env_EventID e) lease w) as [[[]|eb] w1] eqn:Hb; simpl in Hrun; [done| |].
  - right; right.
    destruct (decodeRealtimeGiftPayload (env_Payload e)) as [payload|] eqn:Hd; [|done]. exfalso.
    destruct (validated_fields e Hv) as (_ & _ & _ & _ & j & Hj). rewrite Hj in Hrun. cbn [raw_empty] in Hrun.
    unfold try at 1 in Hrun. destruct (Publish _ _ w1) as [[[]|ep] w2] eqn:Hp; simpl in Hrun.
    + unfold try in Hrun. destruct (ds_Done _ _ w2) as [[[]|ed] w3] eqn:Hdone; simpl in Hrun; [done|].
      injection Hrun as <- <-. simpl in Hperm. by rewrite (Td _ _ _ _ _ Hdone) in Hperm.
    + injection Hrun as <- <-. simpl in Hperm. by rewrite (Tp _ _ _ _ _ Hp) in Hperm.
  - exfalso. destruct (same_error eb ErrBusy); injection Hrun as <- <-; simpl in Hperm; by rewrite (Tb _ _ _ _ _ _ Hb) in Hperm.
Qed.
End chain.

(** ** Examples *)
Module DeliveryExamples.
#[local] Existing Instances ascii_tables example_server nano_text nano_text_ok.

Definition start : DedupDB := ∅.
Definition taken : Mysql DedupDB := (Begin Minute "g" "e1" (30 * Second) (mkMysql start None Minute [])).2.

Lemma dedup_lease_is_exclusive_witness :
  exists s, Begin (80 * Second) "g" "e1" (30 * Second) (mkMysql (committed taken) None (80 * Second) []) = (Err ErrBusy, s)
    /\ committed s = committed taken.
Proof.
  eexists. split; [vm_compute; reflexivity|].
  eapply (dedup_lease_is_exclusive Minute (80 * Second) "g" "e1" (30 * Second) (30 * Second) start Minute (80 * Second) [] []
    taken); [vm_compute; reflexivity|vm_compute; reflexivity|by vm_compute].
Defined.

Definition done : DedupDB := committed (Done "g" "e1" (mkMysql (committed taken) None (2 * Minute) [])).2.
Lemma processed_event_stays_processed_witness :
  exists s, Begin (3 * Minute) "g" "e1" (30 * Second) (mkMysql
    (committed (run_dedup (OpFail "g" "e1" None) (mkMysql done None Minute [])).2) None (3 * Minute) []) = (Ok true, s).
Proof.
  eexists. eapply (processed_event_stays_processed [(OpFail "g" "e1" None, Minute, [])] done
    (mkProcessed 1 None (Some (2 * Minute)) None Minute) "g" "e1"); vm_compute; reflexivity.
Defined.

(** A room service that keeps what was published. *)
Definition world : Type := Mysql DedupDB * list (string * RtEvent).
#[local] Instance example_dedup : DedupStore world := dedup_store Minute.
#[local] Instance example_publisher : Publisher world := {| Publish := fun ch e w => (Ok tt, (w.1, w.2 ++ [(ch, e)])) |}.

Definition params : CreateParams := mkCreateParams "G1" "request-1" "WT1" "e1" "live.gift.v1" 7 8 9 1 3.
Definition rose : Commerce.gift_row := Commerce.mkGift "Rose" 100 1.
Definition stored : raw :=
  match marshal_envelope (gift_envelope [("traceparent", "00-1")] Minute params rose) with Ok r => r | Err _ => Invalid "" end.
Definition record : Record_ := mkRecord "live.gift.v1" 0 1 "9" (Some (InjectTrace stored [("traceparent", "00-2")])).

Lemma gift_event_reaches_the_room_witness :
  exists s, GiftConsumer.Handle "g" (30 * Second) record (mkMysql start None Minute [], [])
    = (Ok tt, (s, [("room:9:stream", gift_rt_event Minute params rose)])).
Proof.
  eexists. eapply (gift_event_reaches_the_room "g" (30 * Second) [("traceparent", "00-1")] [("traceparent", "00-2")] Minute
    params rose stored record); [vm_compute; reflexivity| | | | |reflexivity|vm_compute; reflexivity|reflexivity|vm_compute; reflexivity].
  - split; unfold int64_max; simpl; (done || lia).
  - by vm_compute.
  - unfold int64_max; simpl; lia.
  - unfold int64_max, Minute, Second; lia.
Defined.

Lemma gift_handler_classifies_errors_witness :
  poison (mkRecord "live.gift.v1" 0 1 "9" (Some (Invalid "x"))).
Proof.
  eapply (@gift_handler_classifies_errors world (Build_DedupStore _ (fun _ _ _ w => (Ok false, w)) (fun _ _ w => (Ok tt, w))
    (fun _ _ _ w => (Ok tt, w))) example_publisher nano_text "g" (30 * Second)
    (mkRecord "live.gift.v1" 0 1 "9" (Some (Invalid "x"))) (mkMysql start None Minute [], [])); [|vm_compute; reflexivity|reflexivity].
  split_and!; by intros.
Defined.
End DeliveryExamples.
