(* ===== verification/ConsumerSpec.v ===== *)
(** What the Kafka consumer loop and the dead letter queue promise. *)
From S2P Require Import Prelude GoStrings Base64 Json Message Kafka Outbox Instances TaggedJson.

Section consumer.
Context {W : Type} `{ConsumerEnv W}.
Variable group : string.

(** The attempts on one record: handler calls that failed with a retryable
    error while the context was alive. *)
Inductive attempts (rec : Record_) : W -> W -> Prop :=
| no_attempt w : attempts rec w w
| one_attempt w w1 w2 w' e :
    handle rec w = (Err e, w1) -> IsPermanent e = false -> ctx_Done w1 = (Ok None, w2) ->
    attempts rec w2 w' -> attempts rec w w'.

(** The record has been dealt with: handled, or written to the dead letters. *)
Definition handled (rec : Record_) (w w' : W) : Prop := handle rec w = (Ok tt, w').
Definition dead_lettered (rec : Record_) (w w' : W) : Prop :=
  exists e w1, handle rec w = (Err e, w1) /\ IsPermanent e = true /\ writeDeadLetter group rec e w1 = (Ok tt, w').

Lemma handle_loop_left fuel rec : forall w result w',
  handle_loop group fuel rec w = (Ok (inl result), w') ->
  exists w1, attempts rec w w1 /\
    ((result = "success" /\ handled rec w1 w') \/ (result = "dead_lettered" /\ dead_lettered rec w1 w')).
Proof.
  induction fuel as [|fuel IH]; intros w result w' Hrun; [done|]. cbn [handle_loop] in Hrun.
  apply bind_ok_inv in Hrun as (r & w1 & Hr & Hrun). unfold try in Hr.
  destruct (handle rec w) as [r0 w0] eqn:Hh. simplify_eq.
  destruct r as [[]|e]; [injection Hrun as <- <-; exists w; split; [constructor|by left]|].
  destruct (IsPermanent e) eqn:Hp.
  - apply bind_ok_inv in Hrun as (d & w2 & Hd & Hrun). unfold try in Hd.
    destruct (writeDeadLetter group rec e w1) as [d0 w0] eqn:Hw. simplify_eq.
    destruct d as [[]|e']; [|done]. injection Hrun as <- <-. exists w. split; [constructor|]. right. split; [done|].
    by exists e, w1.
  - apply bind_ok_inv in Hrun as (d & w2 & Hd & Hrun). destruct d as [err|]; [done|].
    destruct (IH _ _ _ Hrun) as (w3 & Hatt & Hres). exists w3. split; [by eapply one_attempt|done].
Qed.

(** An offset is committed only for a record that was handled or written to
    the dead letter queue: when the loop reports a record as processed, then after
    some failed retryable attempts the handler accepted it, or refused it for good
    and the dead letter was written, and only then the commit succeeded. *)
Theorem committed_only_after_handling fuel rec w result w' :
  process_record group fuel rec w = (Ok (Processed result), w') ->
  exists w1 w2, attempts rec w w1
    /\ ((result = "success" /\ handled rec w1 w2) \/ (result = "dead_lettered" /\ dead_lettered rec w1 w2))
    /\ CommitRecords rec w2 = (Ok tt, w').
Proof.
  unfold process_record. intros Hrun. apply bind_ok_inv in Hrun as (l & w1 & Hl & Hrun).
  destruct l as [r|o]; [|injection Hrun as -> <-].
  - apply bind_ok_inv in Hrun as (c & w2 & Hc & Hrun). unfold try in Hc.
    destruct (CommitRecords rec w1) as [c0 w0] eqn:Hcc. simplify_eq. destruct c as [[]|e]; [|done].
    injection Hrun as <- <-. destruct (handle_loop_left _ _ _ _ _ Hl) as (w3 & Hatt & Hres). eauto 6.
  - exfalso. revert w Hl. induction fuel as [|fuel IH]; intros w Hl; [done|]. cbn [handle_loop] in Hl.
    apply bind_ok_inv in Hl as (r & w2 & _ & Hl). destruct r as [?|e]; [done|]. destruct (IsPermanent e).
    + apply bind_ok_inv in Hl as (d & w3 & _ & Hl). by destruct d.
    + apply bind_ok_inv in Hl as (d & w3 & _ & Hl). destruct d; [done|]. by apply IH in Hl.
Qed.

(** Progress: if the handler's retryable failures end - after [k] of them it
    accepts the record - and the commit succeeds, any fuel above [k] processes the
    record. *)
Theorem retries_end_in_commit k fuel rec w w1 w2 w' :
  nsteps (fun w w2 => exists e w1, handle rec w = (Err e, w1) /\ IsPermanent e = false /\ ctx_Done w1 = (Ok None, w2)) k w w1 ->
  handled rec w1 w2 -> CommitRecords rec w2 = (Ok tt, w') -> (k < fuel)%nat ->
  process_record group fuel rec w = (Ok (Processed "success"), w').
Proof.
  intros Hsteps Hh Hc Hf. unfold process_record.
  assert (Hl : handle_loop group fuel rec w = (Ok (inl "success"), w2)).
  { revert fuel Hf. induction Hsteps as [w1|k w wa wb (e & wx & Hhe & Hp & Hd) _ IH]; intros [|fuel] Hf; try lia; cbn [handle_loop].
    - erewrite bind_ok by (apply try_run, Hh). done.
    - erewrite bind_ok by (apply try_run, Hhe). cbv beta iota. rewrite Hp.
      erewrite bind_ok by exact Hd. cbv beta iota. apply IH; [done|lia]. }
  erewrite bind_ok by exact Hl. cbv beta iota. by erewrite bind_ok by (apply try_run, Hc).
Qed.

(** A poison record blocks the partition rather than being skipped: without a
    dead letter writer, or when the dead letter cannot be written, the loop stops
    with an error and the record's offset is not committed. *)
Theorem poison_record_is_never_skipped fuel rec w e w1 e' w2 :
  handle rec w = (Err e, w1) -> IsPermanent e = true -> writeDeadLetter group rec e w1 = (Err e', w2) ->
  process_record group (S fuel) rec w = (Ok (Stopped (record_error group "dead-letter" rec e')), AllowRebalance w2).
Proof.
  intros Hh Hp Hw. unfold process_record. cbn [handle_loop].
  erewrite bind_ok; [|erewrite bind_ok by (apply try_run, Hh); cbv beta iota; rewrite Hp;
    erewrite bind_ok by (apply try_run, Hw); reflexivity]. reflexivity.
Qed.
End consumer.

(** ** Dead letters *)
Section dead_letters.
Context {K : Type} `{KafkaClient K} `{!KafkaClientOk K} `{TimeTextOk} `{JsonText}.

Lemma validate_value d : Validate d = Ok tt -> exists v, dl_Value d = Some v.
Proof.
  unfold Validate. destruct (_ || _); [done|]. destruct (bool_decide _); [done|]. destruct (_ || _); [done|].
  destruct (dl_Value d); [eauto|done].
Qed.

Lemma validate_ranges d : Validate d = Ok tt -> 0 <= SourcePartition d /\ 0 <= SourceOffset d.
Proof.
  unfold Validate. destruct (_ || _); [done|]. destruct (bool_decide _); [done|].
  destruct (Z.ltb_spec (SourcePartition d) 0); [done|]. destruct (Z.ltb_spec (SourceOffset d) 0); [done|]. by intros _.
Qed.

Lemma ProduceRawSync_ok ctx topic key v k k' :
  ProduceRawSync ctx topic key v k = (Ok tt, k') -> client_ProduceSync topic key v k = (Ok tt, k').
Proof.
  unfold ProduceRawSync, produceSync, try, mbind, M_bind.
  destruct (client_ProduceSync topic key v k) as [[[]|e] k1]; unfold throw; by intros [= <-].
Qed.

(** What is read back of a dead letter: its strings coerced to valid UTF-8. *)
Definition dead_as_read (d : DeadLetter) : DeadLetter :=
  mkDeadLetter (valid_utf8 (SourceTopic d)) (SourcePartition d) (SourceOffset d) (valid_utf8 (ConsumerGroup d))
    (dl_Key d) (dl_Value d) (valid_utf8 (dl_Error d)) (FailedAt d).

Lemma decode_encode_dead d :
  0 <= SourcePartition d < 2 ^ 31 -> in_int64 (SourceOffset d) -> 0 <= FailedAt d <= int64_max ->
  (forall v, dl_Value d = Some v -> json_parse (raw_text v) = v) ->
  decode_dead (encode_dead d) = Some (dead_as_read d).
Proof.
  intros Hp Ho Hf Hv. unfold decode_dead, encode_dead, decode_bytes_field. cbn [decode_object mbind option_bind].
  assert (Hd : dec_bytes (match dl_Value d with Some v => JStr (StdEncode (raw_text v)) | None => JNull end)
    = Some (match dl_Value d with Some v => Some (raw_text v) | None => None end)).
  { destruct (dl_Value d); [|done]. cbn [dec_bytes]. by rewrite Std_roundtrip. }
  assert (Hval : json_parse <$> match dl_Value d with Some v => Some (raw_text v) | None => None end = dl_Value d).
  { destruct (dl_Value d) as [v|]; [|done]. cbn. by rewrite Hv. }
  assert (Hi : dec_int32 (JNum (SourcePartition d)) = Some (SourcePartition d)).
  { unfold dec_int32. by replace (_ && _) with true by lia. }
  destruct (bool_decide_reflect (dl_Key d = "")) as [Hk|Hk]; cbn [app]; json_keys;
    cbn [mbind option_bind dec_string]; rewrite Hi; cbn [mbind option_bind]; rewrite dec_int64_num by done;
    rewrite ?Hd; cbn [mbind option_bind dec_bytes]; rewrite ?Std_roundtrip; cbn [mbind option_bind dec_time];
    rewrite parse_time_text by done; cbn [mbind option_bind default]; rewrite Hval; [|done].
  unfold dead_as_read. by rewrite Hk.
Qed.

(** A dead letter is as valid as what is read back of it. *)
Lemma validate_as_read d : valid_utf8 (SourceTopic d) = SourceTopic d -> Validate (dead_as_read d) = Validate d.
Proof.
  intros Ht. unfold Validate, dead_as_read. cbn [SourceTopic SourcePartition SourceOffset ConsumerGroup dl_Key dl_Value dl_Error FailedAt].
  rewrite Ht. by rewrite (bool_decide_ext _ _ (TrimSpace_valid_utf8 (ConsumerGroup d))), (bool_decide_ext _ _ (TrimSpace_valid_utf8 (dl_Error d))).
Qed.

(** C32 Round trip: a record that the consumer dead-letters is in the [.dlq] topic
    afterwards, as the JSON text of its dead letter with key and value in base64,
    and replaying that line (the broker accepting it) puts the original key and
    value back into the original topic, counted once - whatever bytes the key has,
    and whatever the error's text, whose invalid UTF-8 does not survive. The topic's
    name is valid UTF-8 (topic names are ASCII), partition and offset fit their
    types, and the value is the one its bytes parse to. *)
Theorem dead_letter_replay_restores_record ctx now group rec cause actor k k1 :
  valid_utf8 (Topic rec) = Topic rec -> Partition rec < 2 ^ 31 -> Offset rec <= int64_max -> 0 <= now <= int64_max ->
  (forall v, Value rec = Some v -> json_parse (raw_text v) = v) ->
  WriteDeadLetter ctx (NewDeadLetter now group rec (Some cause)) k = (Ok tt, k1) ->
  TrimSpace actor <> "" ->
  exists v key raw, Value rec = Some v
    /\ (Topic rec +:+ DeadLetterTopicSuffix, key, raw) ∈ delivered k1
    /\ forall k2 k3, client_ProduceSync (Topic rec) (Key rec) v k2 = (Ok tt, k3) ->
       ReplayJSONLines None ctx [Blank; Text raw] actor None k2 = (Ok (1, None), k3)
       /\ (Topic rec, Key rec, v) ∈ delivered k3.
Proof.
  intros Htopic Hpart Hoff Hnow Hcanon.
  set (d := NewDeadLetter now group rec (Some cause)). unfold WriteDeadLetter. intros Hrun Hactor.
  destruct (Validate d) as [[]|e] eqn:Hval; [|done].
  destruct (validate_value d Hval) as [v Hv]. exists v.
  set (key := if bool_decide (dl_Key d = "") then _ else _) in *. exists key, (encode_dead d).
  split; [exact Hv|]. split.
  - apply bind_ok_inv in Hrun as (r & k' & Hr & Hrun). unfold try in Hr.
    destruct (ProduceRawSync _ _ _ _ k) as [r0 k0] eqn:Hp. simplify_eq. destruct r as [[]|]; [|done].
    injection Hrun as <-. apply ProduceRawSync_ok in Hp. by eapply produce_acked.
  - intros k2 k3 Hprod. split; [|by eapply produce_acked].
    unfold ReplayJSONLines. rewrite bool_decide_false by done.
    assert (Hlines : replay_lines None ctx [Blank; Text (encode_dead d)] 1 0 k2 = (Ok (1, None), k3)).
    { cbn [replay_lines]. destruct (validate_ranges d Hval) as [Hp0 Ho0].
      rewrite decode_encode_dead by (done || (unfold in_int64, int64_min; cbn in *; lia)).
      rewrite validate_as_read, Hval by done. cbn [dl_Value dead_as_read]. rewrite Hv.
      change (SourceTopic (dead_as_read d)) with (valid_utf8 (Topic rec)). rewrite Htopic.
      erewrite bind_ok; [|apply try_run; unfold ProduceRawSync, produceSync; erewrite bind_ok by (apply try_run, Hprod); reflexivity].
      reflexivity. }
    by erewrite bind_ok by exact Hlines.
Qed.

(** A tombstone (a record whose value is null) cannot be dead-lettered:
    validation refuses it, so the consumer stops on it each time. *)
Theorem tombstone_cannot_be_dead_lettered ctx now group rec cause k :
  Value rec = None -> exists e, WriteDeadLetter ctx (NewDeadLetter now group rec cause) k = (Err e, k).
Proof.
  intros Hv. unfold WriteDeadLetter, Validate. simpl. rewrite Hv.
  destruct (_ || _); [by eexists|]. destruct (bool_decide (TrimSpace group = "")); [by eexists|].
  destruct (_ || _); by eexists.
Qed.
End dead_letters.

(** ** Examples *)
Module ConsumerExamples.
(** A handler that fails [n] times on each record and refuses values that are
    not JSON; what was committed; and the topics written. *)
Definition world : Type := Z * list Record_ * list (string * string * raw).
#[local] Existing Instances nano_text nano_text_ok tagged_json.
#[local] Instance example_client : KafkaClient world := {|
  client_ProduceSync := fun t k v w => (Ok tt, (w.1, w.2 ++ [(t, k, v)]));
  delivered := fun w => w.2 |}.
#[local] Instance example_client_ok : KafkaClientOk world.
Proof. split; intros; simpl in *; simplify_eq/=; set_solver. Qed.
#[local] Instance example_env : ConsumerEnv world := {|
  PollRecords := fun _ w => (Ok [], w);
  AllowRebalance := fun w => w;
  handle := fun rec w =>
    match Value rec with
    | Some (Valid _) => if 0 <? w.1.1 then (Err (Fresh "busy"), (w.1.1 - 1, w.1.2, w.2)) else (Ok tt, w)
    | _ => (Err (Permanent (Fresh "bad record")), w)
    end;
  dead_letters := Some (WriteDeadLetter []);
  CommitRecords := fun rec w => (Ok tt, (w.1.1, w.1.2 ++ [rec], w.2));
  ctx_Done := fun w => (Ok None, w);
  consumer_now := fun w => (Ok (5 * Minute), w) |}.

Definition good : Record_ := mkRecord "live.gift.v1" 0 4 "9" (Some (Valid JNull)).
Definition bad : Record_ := mkRecord "live.gift.v1" 0 5 "9" (Some (Invalid "x")).
Definition tombstone : Record_ := mkRecord "live.gift.v1" 0 6 "9" None.
Definition start : world := (2, [], []).

Lemma committed_only_after_handling_witness :
  exists w' w1 w2, process_record "g" 5 good start = (Ok (Processed "success"), w') /\ attempts good start w1
    /\ CommitRecords good w2 = (Ok tt, w').
Proof.
  eexists. edestruct (committed_only_after_handling "g" 5 good start "success") as (w1 & w2 & Ha & _ & Hc);
    [vm_compute; reflexivity|].
  exists w1, w2. split; [vm_compute; reflexivity|]. split; [exact Ha|exact Hc].
Defined.

Lemma retries_end_in_commit_witness :
  process_record "g" 3 good start = (Ok (Processed "success"), (0, [good], [])).
Proof.
  eapply (retries_end_in_commit "g" 2 3 good start (0, [], [])); [|reflexivity|reflexivity|lia].
  eapply nsteps_l; [eexists _, _; split; [reflexivity|split; reflexivity]|].
  eapply nsteps_l; [eexists _, _; split; [reflexivity|split; reflexivity]|]. apply nsteps_O.
Defined.

(** An error text that was cut in the middle of a rune. *)
Definition cut_text : error := Fresh ("bad record " +:+ String (byte_of_Z 195) "").
Lemma dead_letter_replay_restores_record_witness :
  exists key raw k1, WriteDeadLetter [] (NewDeadLetter Minute "g" bad (Some cut_text)) start = (Ok tt, k1)
    /\ ("live.gift.v1.dlq", key, raw) ∈ delivered k1
    /\ ReplayJSONLines None [] [Blank; Text raw] "operator" None start = (Ok (1, None), (2, [], [("live.gift.v1", "9", Invalid "x")])).
Proof.
  edestruct (dead_letter_replay_restores_record [] Minute "g" bad cut_text "operator" start)
    as (v & key & raw & Hv & Hin & Hrep);
    [by vm_compute|by vm_compute|by vm_compute|by vm_compute|by intros v [= <-]; vm_compute|vm_compute; reflexivity|by vm_compute|].
  exists key, raw. eexists. split; [vm_compute; reflexivity|]. split; [exact Hin|].
  injection Hv as <-. apply (Hrep start). reflexivity.
Defined.

Lemma tombstone_cannot_be_dead_lettered_witness :
  exists e, WriteDeadLetter [] (NewDeadLetter Minute "g" tombstone None) start = (Err e, start).
Proof. apply tombstone_cannot_be_dead_lettered. reflexivity. Defined.
End ConsumerExamples.
