(* ===== verification/GroupSpec.v ===== *)
(** What a consumer group promises over its lifetime ([Consumer.Run] in
    [internal/mq/kafka.go]): across polls, rebalances and restarts every record below a
    committed offset was dealt with. *)
From S2P Require Import Prelude GoStrings Json Message Kafka Outbox Instances ConsumerSpec.

(** ** The client's contract
    The log of each partition, the committed offset and the fetch position; and
    [dealt], which records were dealt with. *)
Definition partition : Type := string * Z.
Definition partition_of (r : Record_) : partition := (Topic r, Partition r).
Definition of_partition (p : partition) (recs : list Record_) : list Record_ :=
  List.filter (fun r => bool_decide (partition_of r = p)) recs.

Class ConsumerGroupState (W : Type) : Type := {
  log : partition -> list Record_;
  committed_at : W -> partition -> Z;
  position_at : W -> partition -> Z;
  dealt : W -> Record_ -> Prop }.

Section contract.
Context {W : Type} `{ConsumerEnv W} `{ConsumerGroupState W}.
Variable group : string.

(** A step that neither commits nor fetches and forgets nothing. *)
Definition same_offsets (w w' : W) : Prop :=
  (forall p, committed_at w' p = committed_at w p) /\ (forall p, position_at w' p = position_at w p)
  /\ forall r, dealt w r -> dealt w' r.
(** Offsets of a partition increase along its log. Handling a record, or writing its
    dead letter, deals with it. A poll returns, for each partition, the records of the
    log from its fetch position - or from the committed offset, when the partition
    was assigned anew - up to its next position. A commit moves the committed offset
    of the record's partition behind the record, or fails with or without doing so. *)
Class ConsumerGroupOk : Prop := {
  log_partition : forall p r, r ∈ log p -> partition_of r = p;
  log_sorted : forall p, StronglySorted (fun a b => Offset a < Offset b) (log p);
  handle_deals : forall rec w r w', handle rec w = (r, w') -> same_offsets w w' /\ (r = Ok tt -> dealt w' rec);
  dead_letter_deals : forall rec err w r w', writeDeadLetter group rec err w = (r, w') -> same_offsets w w' /\ (r = Ok tt -> dealt w' rec);
  done_same : forall w r w', ctx_Done w = (r, w') -> same_offsets w w';
  allow_same : forall w, same_offsets w (AllowRebalance w);
  poll_fetches : forall max w r w', PollRecords max w = (r, w') ->
    exists recs, r = Ok recs /\ (forall x, dealt w x -> dealt w' x) /\ (forall p, committed_at w' p = committed_at w p)
    /\ (forall x, x ∈ recs -> x ∈ log (partition_of x))
    /\ forall p, exists from, (from = position_at w p \/ from = committed_at w p) /\ from <= position_at w' p
       /\ of_partition p recs = List.filter (fun x => (from <=? Offset x) && (Offset x <? position_at w' p)) (log p);
  commit_moves : forall rec w r w', CommitRecords rec w = (r, w') ->
    (forall x, dealt w x -> dealt w' x) /\ (forall p, position_at w' p = position_at w p)
    /\ (forall p, p <> partition_of rec -> committed_at w' p = committed_at w p)
    /\ (committed_at w' (partition_of rec) = Offset rec + 1
        \/ r <> Ok tt /\ committed_at w' (partition_of rec) = committed_at w (partition_of rec)) }.
Context `{!ConsumerGroupOk}.

(** ** The invariant *)
(** Nothing below a committed offset was skipped. *)
Definition nothing_skipped (w : W) : Prop := forall p r, r ∈ log p -> Offset r < committed_at w p -> dealt w r.
(** Everything fetched so far was dealt with, except [pending], the records of the
    current poll that are still to do, in the order of their partition. *)
Definition fetched_but (pending : list Record_) (w : W) : Prop :=
  (forall p r, r ∈ log p -> Offset r < position_at w p -> dealt w r \/ r ∈ pending)
  /\ (forall r, r ∈ pending -> r ∈ log (partition_of r) /\ Offset r < position_at w (partition_of r))
  /\ forall p, StronglySorted (fun a b => Offset a < Offset b) (of_partition p pending).

Lemma same_keeps pending w w' : same_offsets w w' -> nothing_skipped w /\ fetched_but pending w -> nothing_skipped w' /\ fetched_but pending w'.
Proof.
  intros (Hc & Hp & Hd) (Hs & Hf & Hpend & Hsort). split; [|split; [|split]].
  - intros p r Hr Ho. rewrite Hc in Ho. eauto.
  - intros p r Hr Ho. rewrite Hp in Ho. destruct (Hf p r Hr Ho); eauto.
  - intros r Hr. rewrite Hp. auto.
  - done.
Qed.
Lemma same_trans w w1 w2 : same_offsets w w1 -> same_offsets w1 w2 -> same_offsets w w2.
Proof. intros (Hc & Hp & Hd) (Hc' & Hp' & Hd'). split; [intros p; by rewrite Hc', Hc|]. split; [intros p; by rewrite Hp', Hp|auto]. Qed.
Lemma same_refl w : same_offsets w w.
Proof. by repeat split. Qed.

Lemma sorted_offset_inj l a b : StronglySorted (fun a b => Offset a < Offset b) l -> a ∈ l -> b ∈ l -> Offset a = Offset b -> a = b.
Proof.
  intros Hs Ha Hb E. induction Hs as [|x l Hs IH Hx]; [by apply elem_of_nil in Ha|]. rewrite List.Forall_forall in Hx.
  apply elem_of_cons in Ha as [->|Ha], Hb as [->|Hb]; [done|..|auto].
  - apply list_elem_of_In in Hb. specialize (Hx b Hb). lia.
  - apply list_elem_of_In in Ha. specialize (Hx a Ha). lia.
Qed.

(** The retry loop keeps the offsets; it deals with the record when it is left. *)
Lemma handle_loop_keeps fuel rec : forall w r w', handle_loop group fuel rec w = (r, w') ->
  same_offsets w w' /\ (forall result, r = Ok (inl result) -> dealt w' rec) /\ forall result, r <> Ok (inr (Processed result)).
Proof.
  induction fuel as [|fuel IH]; intros w r w' Hrun; cbn [handle_loop] in Hrun.
  { injection Hrun as <- <-. by split; [apply same_refl|]. }
  unfold try, modify, mbind, M_bind, mret, M_ret in Hrun. destruct (handle rec w) as [rh w1] eqn:Hh.
  apply handle_deals in Hh as [Hs1 Hd1]. destruct rh as [[]|e].
  { injection Hrun as <- <-. split; [done|]. split; [|done]. intros _ _. by apply Hd1. }
  destruct (IsPermanent e).
  - destruct (writeDeadLetter group rec e w1) as [rd w2] eqn:Hw. apply dead_letter_deals in Hw as [Hs2 Hd2].
    destruct rd as [[]|e'].
    + injection Hrun as <- <-. split; [by eapply same_trans|]. split; [|done]. intros _ _. by apply Hd2.
    + injection Hrun as <- <-. split; [|done]. eapply same_trans; [eapply same_trans; [done|done]|apply allow_same].
  - destruct (ctx_Done w1) as [rc w2] eqn:Hc. apply done_same in Hc. destruct rc as [[err|]|err].
    + injection Hrun as <- <-. split; [by eapply same_trans|done].
    + apply IH in Hrun as (Hs3 & Hd3 & Hn3). split; [|done]. eapply same_trans; [|exact Hs3]. by eapply same_trans.
    + injection Hrun as <- <-. split; [by eapply same_trans|done].
Qed.

Lemma in_of_partition p r recs : r ∈ of_partition p recs <-> r ∈ recs /\ partition_of r = p.
Proof. unfold of_partition. by rewrite !list_elem_of_In, List.filter_In, bool_decide_eq_true. Qed.
Lemma filter_sorted (f : Record_ -> bool) l :
  StronglySorted (fun a b => Offset a < Offset b) l -> StronglySorted (fun a b => Offset a < Offset b) (List.filter f l).
Proof.
  induction 1 as [|x l Hs IH Hx]; cbn; [constructor|]. destruct (f x); [|done]. constructor; [done|].
  rewrite List.Forall_forall in *. intros y Hy. apply List.filter_In in Hy as [Hy _]. auto.
Qed.

(** The offset is moved behind a record that was dealt with. *)
Lemma commit_keeps rec pending w r w' : CommitRecords rec w = (r, w') -> dealt w rec ->
  nothing_skipped w /\ fetched_but (rec :: pending) w -> nothing_skipped w' /\ fetched_but pending w'.
Proof.
  intros Hc Hrec (Hs & Hf & Hpend & Hsort). apply commit_moves in Hc as (Hd & Hp & Hother & Hown).
  assert (Hrest : forall x, x ∈ pending -> partition_of x = partition_of rec -> Offset rec < Offset x).
  { intros x Hx Hpx. specialize (Hsort (partition_of rec)). unfold of_partition in Hsort. cbn [List.filter] in Hsort.
    rewrite bool_decide_true in Hsort by done. apply StronglySorted_inv in Hsort as [_ Hall]. rewrite List.Forall_forall in Hall.
    by apply Hall, list_elem_of_In, in_of_partition. }
  split; [|split; [|split]].
  - intros p x Hx Ho. destruct (decide (p = partition_of rec)) as [->|Hne]; [|rewrite Hother in Ho by done; eauto].
    destruct Hown as [Hmoved|[_ Hsame]]; [|rewrite Hsame in Ho; eauto]. rewrite Hmoved in Ho. apply Hd.
    destruct (Hpend rec) as [Hlog Hpos]; [by left|]. destruct (Hf _ x Hx ltac:(lia)) as [?|[->|Hin]%elem_of_cons]; [done..|].
    pose proof (Hrest x Hin (log_partition _ _ Hx)). lia.
  - intros p x Hx Ho. rewrite Hp in Ho. destruct (Hf p x Hx Ho) as [?|[->|?]%elem_of_cons]; auto.
  - intros x Hx. rewrite Hp. apply Hpend. by right.
  - intros p. specialize (Hsort p). unfold of_partition in Hsort. cbn [List.filter] in Hsort.
    destruct (bool_decide _); [by apply StronglySorted_inv in Hsort as [? _]|done].
Qed.

Lemma record_keeps fuel rec pending w r w' : process_record group fuel rec w = (r, w') ->
  nothing_skipped w /\ fetched_but (rec :: pending) w ->
  nothing_skipped w' /\ forall result, r = Ok (Processed result) -> fetched_but pending w'.
Proof.
  unfold process_record, try, modify, mbind, M_bind, mret, M_ret. intros Hrun Hinv.
  destruct (handle_loop group fuel rec w) as [rl w1] eqn:Hl. apply handle_loop_keeps in Hl as (Hs & Hd & Hno).
  apply (same_keeps _ _ _ Hs) in Hinv. destruct rl as [[result|o]|e]; [|injection Hrun as <- <-..].
  - specialize (Hd result eq_refl). destruct (CommitRecords rec w1) as [rc w2] eqn:Hc.
    destruct (commit_keeps _ _ _ _ _ Hc Hd Hinv) as [Hns Hfb]. destruct rc as [[]|e]; injection Hrun as <- <-; [done|].
    split; [|done]. by apply (same_keeps pending _ _ (allow_same w2)).
  - split; [apply Hinv|]. intros result [= ->]. by destruct (Hno result).
  - by split; [apply Hinv|].
Qed.
Lemma records_keep fuel recs : forall w r w', process_records group fuel recs w = (r, w') ->
  nothing_skipped w /\ fetched_but recs w -> nothing_skipped w' /\ (r = Ok None -> fetched_but [] w').
Proof.
  induction recs as [|rec recs IH]; intros w r w' Hrun Hinv; cbn [process_records] in Hrun.
  { injection Hrun as <- <-. by destruct Hinv. }
  unfold mbind, M_bind, mret, M_ret in Hrun. destruct (process_record group fuel rec w) as [ro w1] eqn:Ho.
  destruct (record_keeps _ _ _ _ _ _ Ho Hinv) as [Hns Hfb]. destruct ro as [[result|err|]|e]; [|by injection Hrun as <- <-..].
  apply (IH w1 r w' Hrun). split; [done|by eapply Hfb].
Qed.

Lemma poll_keeps max w recs w' : PollRecords max w = (Ok recs, w') ->
  nothing_skipped w /\ fetched_but [] w -> nothing_skipped w' /\ fetched_but recs w'.
Proof.
  intros Hpoll (Hs & Hf & _). apply poll_fetches in Hpoll as (? & [= <-] & Hd & Hc & Hlog & Hparts). split; [|split; [|split]].
  - intros p x Hx Ho. rewrite Hc in Ho. eauto.
  - intros p x Hx Ho. destruct (Hparts p) as (from & Hfrom & Hle & Hrecs). destruct (Z.ltb_spec (Offset x) from) as [Hlt|Hge].
    + left. apply Hd. destruct Hfrom as [->| ->]; [|eauto]. by destruct (Hf p x Hx Hlt) as [?|?%elem_of_nil].
    + right. assert (Hin : x ∈ of_partition p recs); [|by apply in_of_partition in Hin as [? _]].
      rewrite Hrecs. apply list_elem_of_In, List.filter_In. split; [by apply list_elem_of_In|].
      apply andb_true_iff. split; [apply Z.leb_le|apply Z.ltb_lt]; lia.
  - intros x Hx. split; [auto|]. destruct (Hparts (partition_of x)) as (from & _ & _ & Hrecs).
    assert (Hin : x ∈ of_partition (partition_of x) recs) by (by apply in_of_partition).
    rewrite Hrecs in Hin. apply list_elem_of_In, List.filter_In in Hin as [_ Hin]. apply andb_true_iff in Hin as [_ Hin%Z.ltb_lt]. done.
  - intros p. destruct (Hparts p) as (from & _ & _ & ->). apply filter_sorted, log_sorted.
Qed.

Lemma run_keeps fuel polls : forall w r w', Run group fuel polls w = (r, w') ->
  nothing_skipped w /\ fetched_but [] w -> nothing_skipped w'.
Proof.
  induction polls as [|polls IH]; intros w r w' Hrun Hinv; cbn [Run] in Hrun; [injection Hrun as <- <-; apply Hinv|].
  unfold modify, mbind, M_bind, mret, M_ret in Hrun. destruct (PollRecords 100 w) as [rp w1] eqn:Hp.
  destruct (poll_fetches _ _ _ _ Hp) as (recs & -> & _). apply poll_keeps in Hp; [|done].
  destruct (ctx_Done w1) as [rc w2] eqn:Hc. apply done_same in Hc. apply (same_keeps _ _ _ Hc) in Hp.
  destruct rc as [[err|]|err]; [by injection Hrun as <- <-; apply Hp| |by injection Hrun as <- <-; apply Hp].
  destruct (process_records group fuel recs w2) as [ro w3] eqn:Ho. destruct (records_keep _ _ _ _ _ Ho Hp) as [Hns Hfb].
  destruct ro as [[o|]|e]; [by injection Hrun as <- <-| |by injection Hrun as <- <-].
  apply (IH _ _ _ Hrun). apply (same_keeps [] _ _ (allow_same w3)). split; [done|by apply Hfb].
Qed.

(** ** The life of a group *)
(** A consumer that starts, or starts again, fetches from the committed offsets. *)
Definition resumes (w w' : W) : Prop :=
  (forall p, committed_at w' p = committed_at w p) /\ (forall p, position_at w' p = committed_at w' p) /\ forall r, dealt w r -> dealt w' r.
(** Consumers of the group, one after the other; each may stop for any reason. *)
Inductive sessions : W -> W -> Prop :=
| no_session w : sessions w w
| one_session w w1 fuel polls r w2 w3 :
    resumes w w1 -> Run group fuel polls w1 = (r, w2) -> sessions w2 w3 -> sessions w w3.

(** C22 No record is skipped. Start a group whose committed offsets have nothing
    unhandled below them, and let any number of consumers run one after the other, for
    any number of polls, across rebalances that reassign partitions between polls,
    with retries, dead letters, failed and half-failed commits and stops at any point:
    at the end every record of a log that lies below the committed offset of its
    partition was handled, or its dead letter was written. *)
Theorem no_record_is_skipped w w' : nothing_skipped w -> sessions w w' -> nothing_skipped w'.
Proof.
  intros Hns Hses. induction Hses as [w|w w1 fuel polls r w2 w3 (Hc & Hp & Hd) Hrun _ IH]; [done|]. apply IH.
  assert (Hns1 : nothing_skipped w1) by (intros p x Hx Ho; rewrite Hc in Ho; eauto).
  apply (run_keeps _ _ _ _ _ Hrun). split; [done|]. split; [|split].
  - intros p x Hx Ho. left. rewrite Hp in Ho. eauto.
  - intros x Hx. by apply elem_of_nil in Hx.
  - intros p. constructor.
Qed.
End contract.

(** ** Examples *)
Module GroupExamples.
(** A partition with a good, a malformed and another good record; the first commit
    takes effect but is reported as failed. *)
Record broker : Type := mkBroker {
  b_committed : partition -> Z; b_position : partition -> Z; b_done : list (partition * Z); b_flaky : bool }.
Definition gifts : partition := ("live.gift.v1", 0).
Definition rec (o : Z) (v : raw) : Record_ := mkRecord "live.gift.v1" 0 o "9" (Some v).
Definition records : list Record_ := [rec 0 (Valid JNull); rec 1 (Invalid "x"); rec 2 (Valid JNull)].
Definition deal (p : partition) (o : Z) (w : broker) : broker := mkBroker (b_committed w) (b_position w) ((p, o) :: b_done w) (b_flaky w).
Definition move (p : partition) (v : Z) (f : partition -> Z) : partition -> Z := fun q => if decide (q = p) then v else f q.

Definition fetch (from : Z) : list Record_ := List.filter (fun r => from <=? Offset r) records.
#[local] Arguments fetch : simpl never.
Lemma in_records x : x ∈ records -> partition_of x = gifts /\ 0 <= Offset x < 3.
Proof. intros Hx. unfold records in Hx. rewrite !elem_of_cons in Hx. by destruct Hx as [->|[->|[->|?%elem_of_nil]]]. Qed.
Lemma in_fetch from x : x ∈ fetch from <-> x ∈ records /\ from <= Offset x.
Proof. unfold fetch. by rewrite !list_elem_of_In, List.filter_In, Z.leb_le. Qed.

#[local] Instance env : ConsumerEnv broker := {|
  PollRecords := fun _ w =>
    (Ok (fetch (b_position w gifts)),
     mkBroker (b_committed w) (move gifts (Z.max (b_position w gifts) 3) (b_position w)) (b_done w) (b_flaky w));
  AllowRebalance := fun w => w;
  handle := fun r w =>
    match Value r with
    | Some (Valid _) => (Ok tt, deal (partition_of r) (Offset r) w)
    | _ => (Err (Permanent (Fresh "bad record")), w)
    end;
  dead_letters := Some (fun d w => (Ok tt, deal (SourceTopic d, SourcePartition d) (SourceOffset d) w));
  CommitRecords := fun r w =>
    (if b_flaky w then Err (Fresh "connection lost") else Ok tt,
     mkBroker (move (partition_of r) (Offset r + 1) (b_committed w)) (b_position w) (b_done w) false);
  ctx_Done := fun w => (Ok None, w);
  consumer_now := fun w => (Ok 0, w) |}.
#[local] Instance state : ConsumerGroupState broker := {|
  log := fun p => if decide (p = gifts) then records else [];
  committed_at := b_committed;
  position_at := b_position;
  dealt := fun w r => (partition_of r, Offset r) ∈ b_done w |}.

Lemma deal_same p o w : same_offsets w (deal p o w).
Proof. split; [done|]. split; [done|]. intros r Hr. by right. Qed.
#[local] Instance state_ok : ConsumerGroupOk "g".
Proof.
  split.
  - intros p r Hr. cbn in Hr. destruct (decide (p = gifts)) as [->|]; [|by apply elem_of_nil in Hr].
    by apply in_records.
  - intros p. cbn. destruct (decide (p = gifts)); [|constructor]. repeat constructor.
  - intros r w res w' Hrun. cbn in Hrun. destruct (Value r) as [[v|t]|]; injection Hrun as <- <-;
      [split; [apply deal_same|intros _; by left]|by repeat split..].
  - intros r err w res w' Hrun. cbn in Hrun. injection Hrun as <- <-. split; [apply deal_same|]. intros _. by left.
  - intros w r w' [= <- <-]. by repeat split.
  - intros w. by repeat split.
  - intros max w r w' [= <- <-]. eexists. split; [reflexivity|]. split; [done|]. split; [done|]. split.
    + intros x [Hx _]%in_fetch. cbn. by rewrite decide_True by (by apply in_records).
    + intros p. exists (b_position w p). split; [by left|]. cbn [position_at state b_position log]. unfold move, of_partition.
      destruct (decide (p = gifts)) as [->|Hne]; (split; [lia|]).
      * rewrite (List.filter_ext_in _ (fun _ => true)), List.filter_true.
        { apply List.filter_ext_in. intros x Hx%list_elem_of_In%in_records. symmetry.
          destruct (Z.leb_spec (b_position w gifts) (Offset x)); [apply Z.ltb_lt; lia|done]. }
        intros x Hx%list_elem_of_In. apply in_fetch in Hx as [Hx _]. by apply bool_decide_eq_true, in_records.
      * rewrite (List.filter_ext_in _ (fun _ => false)), List.filter_false; [done|].
        intros x Hx%list_elem_of_In. apply in_fetch in Hx as [Hx _]. apply bool_decide_eq_false. intros E. apply Hne. rewrite <- E. by apply in_records.
  - intros r w res w' Hrun. cbn in Hrun. injection Hrun as <- <-. split; [done|]. split; [done|]. cbn. unfold move. split.
    + intros p Hne. by rewrite decide_False.
    + left. by rewrite decide_True.
Qed.

Definition fresh : broker := mkBroker (fun _ => 0) (fun _ => 0) [] true.
Definition restarted (w : broker) : broker := mkBroker (b_committed w) (b_committed w) (b_done w) (b_flaky w).
(** The first consumer stops after its first commit, the second one goes on. *)
Definition first_run : broker := (Run "g" 5 3 fresh).2.
Definition second_run : broker := (Run "g" 5 3 (restarted first_run)).2.

Lemma no_record_is_skipped_witness : nothing_skipped second_run /\ b_committed second_run gifts = 3.
Proof.
  split; [|vm_compute; reflexivity]. apply (no_record_is_skipped "g" fresh).
  - intros p r Hr Ho. exfalso. cbn in Hr, Ho. destruct (decide (p = gifts)); [|by apply elem_of_nil in Hr].
    apply in_records in Hr. lia.
  - apply (one_session "g" fresh fresh 5 3 (Run "g" 5 3 fresh).1 first_run); [by repeat split|by apply surjective_pairing|].
    apply (one_session "g" first_run (restarted first_run) 5 3 (Run "g" 5 3 (restarted first_run)).1 second_run);
      [by repeat split|by apply surjective_pairing|apply no_session].
Defined.

Example first_commit_was_lost : (b_committed first_run gifts, is_ok (Run "g" 5 3 fresh).1, b_done second_run)
  = (1, true, [(gifts, 2); (gifts, 1); (gifts, 0)]).
Proof. vm_compute. reflexivity. Qed.
End GroupExamples.
