(* ===== verification/Redis.v ===== *)
(** Redis as [internal/store/redisstore/redis.go] uses it: strings with expiry,
    sorted sets, and the Lua scripts and pipelines, each of which runs atomically.

    Times are milliseconds; [r_now] is the server's clock and a [now] argument the
    application's. Numbers are integers: scripts compute with doubles, which agree
    below 2^53 (all the counts and times here). String keys and sorted-set keys are
    kept apart, as the key names are. Every command consumes one entry of the fault
    schedule (see [Mysql]). *)
From S2P Require Import Prelude GoStrings Mysql.

Record RedisDB : Type := mkRedisDB {
  strs : gmap string (string * option Z);   (** value and expiry time *)
  zsets : gmap string (gmap string Z) }.    (** member to score *)
Record Redis : Type := mkRedis { r_db : RedisDB; r_now : Z; r_faults : list fault }.

Definition set_strs (m : gmap string (string * option Z)) (d : RedisDB) : RedisDB := mkRedisDB m (zsets d).
Definition set_zsets (m : gmap string (gmap string Z)) (d : RedisDB) : RedisDB := mkRedisDB (strs d) m.

Definition not_an_integer : error := Fresh "ERR value is not an integer or out of range".

(** ** Commands *)
(** A command (or script) at server time. A script that fails keeps what its
    earlier commands did. *)
Definition cmd (A : Type) : Type := Z -> M RedisDB A.

Definition run_cmd {A} (f : cmd A) : M Redis A := fun s =>
  let (fa, fl) := next_fault (r_faults s) in
  let keep := mkRedis (r_db s) (r_now s) fl in
  match fa with
  | Fails e => (Err e, keep)
  | NoFault => let (r, d) := f (r_now s) (r_db s) in (r, mkRedis d (r_now s) fl)
  | AckLost e => (Err e, mkRedis (f (r_now s) (r_db s)).2 (r_now s) fl)
  end.

(** The live value of a string key. *)
Definition live (now : Z) (d : RedisDB) (k : string) : option (string * option Z) :=
  match strs d !! k with
  | Some (v, Some e) => if e <=? now then None else Some (v, Some e)
  | o => o
  end.
Definition GET (now : Z) (d : RedisDB) (k : string) : option string := fst <$> live now d k.
Definition SET (k v : string) (expiry : option Z) (d : RedisDB) : RedisDB := set_strs (<[k := (v, expiry)]> (strs d)) d.
Definition DEL (k : string) (d : RedisDB) : RedisDB := set_strs (delete k (strs d)) d.
(** [tonumber(redis.call('GET', k) or '0')] *)
Definition get_number (now : Z) (d : RedisDB) (k : string) : option Z :=
  match GET now d k with Some v => ParseInt v | None => Some 0 end.
(** [INCRBY] keeps the key's expiry. *)
Definition INCRBY (now : Z) (k : string) (n : Z) : M RedisDB Z := fun d =>
  match get_number now d k with
  | Some v =>
    let v' := v + n in
    if (v' <? int64_min) || (int64_max <? v') then (Err (Fresh "ERR increment or decrement would overflow"), d)
    else (Ok v', SET k (FormatInt v') (match live now d k with Some (_, e) => e | None => None end) d)
  | None => (Err not_an_integer, d)
  end.
Definition PEXPIRE (now : Z) (k : string) (ms : Z) (d : RedisDB) : RedisDB :=
  match live now d k with
  | Some (v, _) => if ms <=? 0 then DEL k d else SET k v (Some (now + ms)) d
  | None => d
  end.
(** The expiry of [SET] with a [time.Duration]: none when it is not positive. *)
Definition ttl_expiry (now ttl : Z) : option Z :=
  if ttl <=? 0 then None else Some (now + Z.max 1 (ttl / Millisecond)).
(** [Duration.Milliseconds()] *)
Definition Milliseconds (d : Z) : Z := Z.quot d Millisecond.

Definition zset (d : RedisDB) (k : string) : gmap string Z := default ∅ (zsets d !! k).
Definition set_zset (k : string) (z : gmap string Z) (d : RedisDB) : RedisDB := set_zsets (<[k := z]> (zsets d)) d.
Definition ZADD (k member : string) (score : Z) (d : RedisDB) : RedisDB := set_zset k (<[member := score]> (zset d k)) d.
Definition ZADD_NX (k member : string) (score : Z) (d : RedisDB) : RedisDB :=
  match zset d k !! member with Some _ => d | None => ZADD k member score d end.
Definition ZREM (k member : string) (d : RedisDB) : RedisDB := set_zset k (delete member (zset d k)) d.
Definition ZCARD (k : string) (d : RedisDB) : Z := Z.of_nat (size (zset d k)).
(** [ZREMRANGEBYSCORE k -inf max] *)
Definition ZREMRANGEBYSCORE (k : string) (max : Z) (d : RedisDB) : RedisDB :=
  set_zset k (filter (fun kv => max < kv.2) (zset d k)) d.

(** Members in rank order: by score, then by the bytes of the member. *)
Definition rank_le (a b : string * Z) : Prop := a.2 < b.2 \/ (a.2 = b.2 /\ String.leb a.1 b.1 = true).
#[export] Instance rank_le_dec a b : Decision (rank_le a b).
Proof. unfold rank_le. apply _. Defined.
Definition ranked (z : gmap string Z) : list (string * Z) := merge_sort rank_le (map_to_list z).

(** ** Keys *)
Definition roomTag (roomID : Z) : string := "{" +:+ FormatInt roomID +:+ "}".
Definition roomLikeTotalKey (roomID : Z) : string := "live:room:" +:+ roomTag roomID +:+ ":like:total".
Definition roomLikeDeltaKey (roomID : Z) : string := "live:room:" +:+ roomTag roomID +:+ ":like:delta".
Definition roomViewersKey (roomID : Z) : string := "live:room:" +:+ roomTag roomID +:+ ":viewers".
Definition roomViewerJoinKey (roomID : Z) : string := "live:room:" +:+ roomTag roomID +:+ ":viewer-join".
Definition roomViewerGiftKey (roomID : Z) : string := "live:room:" +:+ roomTag roomID +:+ ":viewer-gift".
Definition roomLastViewerKey (roomID : Z) : string := "live:room:" +:+ roomTag roomID +:+ ":stats:last_viewer".
Definition activeStatsRoomsKey (shard : Z) : string := "live:stats:rooms:" +:+ FormatInt shard.
Definition roomDanmakuRateKey (roomID : Z) : string := "live:room:" +:+ roomTag roomID +:+ ":danmaku:rolling".
Definition likeRoomStatusKey (roomID : Z) : string := "live:room:" +:+ roomTag roomID +:+ ":like:status".
Definition likeBanKey (roomID userID : Z) : string := "live:room:" +:+ roomTag roomID +:+ ":like:ban:" +:+ FormatInt userID.
Definition LikeRateKey (roomID userID : Z) : string := "live:room:" +:+ roomTag roomID +:+ ":like:rate:" +:+ FormatInt userID.

(** ** Rate limiter *)
Definition fixedWindowScript (key : string) (limit window_ms requested : Z) : cmd Z := fun now =>
  v ← gets (fun d => get_number now d key);
  match v with
  | None => throw (Fresh "ERR attempt to perform arithmetic on a nil value")
  | Some current =>
    if limit <? current + requested then mret 0
    else
      next ← INCRBY now key requested;
      _ ← (if next =? requested then modify (PEXPIRE now key window_ms) else mret tt);
      mret 1
  end.

Definition AllowN (key : string) (limit n window : Z) : M Redis bool :=
  r ← run_cmd (fixedWindowScript key limit (Milliseconds window) n);
  mret (r =? 1).
Definition Allow (key : string) (limit window : Z) : M Redis bool := AllowN key limit 1 window.

(** ** Store *)
Definition pure_cmd {A} (f : Z -> RedisDB -> A * RedisDB) : cmd A := fun now d =>
  let (a, d) := f now d in (Ok a, d).
(** [Ping] *)
Definition redis_Ping : M Redis unit := run_cmd (pure_cmd (fun _ d => (tt, d))).
(** A [GET] whose reply is [redis.Nil] when the key is absent. *)
Definition get_cmd (k : string) : cmd string := fun now d =>
  match GET now d k with Some v => (Ok v, d) | None => (Err redis_Nil, d) end.
(** [.Int64()] on the reply. *)
Definition as_int64 (v : string) : res Z :=
  match ParseInt v with Some n => Ok n | None => Err (Fresh "strconv.ParseInt: parsing: invalid syntax") end.

Section store.
(** [Config.ActiveRoomShards], with the default of [Open]. *)
Variable activeRoomShards : Z.

Definition shards_or_default : Z := if activeRoomShards <=? 0 then 16 else activeRoomShards.
(** Go's [%] truncates towards zero. *)
Definition activeRoomShard (roomID : Z) : Z := Z.rem roomID shards_or_default.

Definition touch_active (now roomID : Z) : M Redis unit :=
  run_cmd (pure_cmd (fun _ d => (tt, ZADD (activeStatsRoomsKey (activeRoomShard roomID)) (FormatInt roomID) now d))).

Definition danmakuPressureScript (viewers rate messageID : string) (now cutoff ttl : Z) : cmd (Z * Z) := pure_cmd (fun rnow d =>
  let d := ZREMRANGEBYSCORE viewers now d in
  let n := ZCARD viewers d in
  let d := ZREMRANGEBYSCORE rate cutoff d in
  let d := ZADD rate messageID now d in
  ((n, ZCARD rate d), d)).
(** The expiry of the rate key only frees memory and is not kept. *)
Definition DanmakuPressure (now roomID : Z) (messageID : string) (window : Z) : M Redis (Z * Z) :=
  let windowMS := Milliseconds window in
  run_cmd (danmakuPressureScript (roomViewersKey roomID) (roomDanmakuRateKey roomID) messageID now (now - windowMS) (windowMS * 2)).

Definition addLikesScript (total delta : string) (n : Z) : cmd Z := fun now =>
  t ← INCRBY now total n;
  _ ← INCRBY now delta n;
  mret t.
Definition AddLikes (now roomID count : Z) : M Redis Z :=
  _ ← touch_active now roomID;
  run_cmd (addLikesScript (roomLikeTotalKey roomID) (roomLikeDeltaKey roomID) count).

Definition CachedLikeRoomStatus (roomID : Z) : M Redis (string * bool) :=
  r ← try (run_cmd (get_cmd (likeRoomStatusKey roomID)));
  match r with
  | Ok v => mret (v, true)
  | Err err => if same_error err redis_Nil then mret ("", false) else throw err
  end.
Definition CacheLikeRoomStatus (roomID : Z) (status : string) (ttl : Z) : M Redis unit :=
  run_cmd (pure_cmd (fun now d => (tt, SET (likeRoomStatusKey roomID) status (ttl_expiry now ttl) d))).

(** A [GET] read as an integer: a missing key is [None]. *)
Definition get_int (k : string) : M Redis (option Z) :=
  r ← try (v ← run_cmd (get_cmd k); of_res (as_int64 v));
  match r with
  | Ok v => mret (Some v)
  | Err err => if same_error err redis_Nil then mret None else throw err
  end.

Definition CachedLikeBan (roomID userID : Z) : M Redis (bool * bool) :=
  v ← get_int (likeBanKey roomID userID);
  match v with Some v => mret (v =? 1, true) | None => mret (false, false) end.
Definition CacheLikeBan (roomID userID : Z) (banned : bool) (ttl : Z) : M Redis unit :=
  run_cmd (pure_cmd (fun now d => (tt, SET (likeBanKey roomID userID) (if banned then "1" else "0") (ttl_expiry now ttl) d))).
Definition EnforceLikeBan (roomID userID : Z) (banned : bool) : M Redis unit :=
  let key := likeBanKey roomID userID in
  if negb banned then run_cmd (pure_cmd (fun _ d => (tt, DEL key d)))
  else run_cmd (pure_cmd (fun _ d => (tt, SET key "1" None d))).

(** *** Viewers *)
Definition touchViewerScript (viewers join user : string) (now expires : Z) : cmd Z := pure_cmd (fun _ d =>
  let d := ZADD viewers user expires d in
  let d := ZADD_NX join user now d in
  let expired := List.filter (fun kv => kv.2 <=? now) (ranked (zset d viewers)) in
  let d := fold_left (fun d kv => ZREM join kv.1 d) expired d in
  let d := ZREMRANGEBYSCORE viewers now d in
  (ZCARD viewers d, d)).
Definition TouchViewer (now roomID userID ttl : Z) : M Redis Z :=
  let expires := now + Milliseconds ttl in
  _ ← touch_active now roomID;
  run_cmd (touchViewerScript (roomViewersKey roomID) (roomViewerJoinKey roomID) (FormatInt userID) now expires).

Definition RemoveViewer (roomID userID : Z) : M Redis Z :=
  run_cmd (pure_cmd (fun _ d =>
    let d := ZREM (roomViewersKey roomID) (FormatInt userID) d in
    let d := ZREM (roomViewerJoinKey roomID) (FormatInt userID) d in
    (ZCARD (roomViewersKey roomID) d, d))).

Definition AddViewerGiftValue (roomID userID value : Z) : M Redis unit :=
  run_cmd (pure_cmd (fun _ d =>
    let k := roomViewerGiftKey roomID in
    (tt, ZADD k (FormatInt userID) (default 0 (zset d k !! FormatInt userID) + value) d))).

(** A row of [topViewersScript]: user, gift value, join time; ordered by value
    downwards, then by join time. [table.sort] leaves equal rows in any order. *)
Definition top_le (a b : string * Z * Z) : Prop := b.1.2 < a.1.2 \/ (a.1.2 = b.1.2 /\ a.2 <= b.2).
#[export] Instance top_le_dec a b : Decision (top_le a b).
Proof. unfold top_le. apply _. Defined.
Definition topViewersScript (viewers gift join : string) (now limit : Z) : cmd (list string) := pure_cmd (fun _ d =>
  let active := List.filter (fun kv => now <=? kv.2) (ranked (zset d viewers)) in
  let rows := map (fun kv => (kv.1, default 0 (zset d gift !! kv.1), default 0 (zset d join !! kv.1))) active in
  (map (fun r => r.1.1) (take (Z.to_nat limit) (merge_sort top_le rows)), d)).
Definition parse_ids (vals : list string) : res (list Z) :=
  match mapM ParseInt vals with Some l => Ok l | None => Err (Fresh "strconv.ParseInt: parsing: invalid syntax") end.
Definition TopViewers (now roomID limit : Z) : M Redis (list Z) :=
  vals ← run_cmd (topViewersScript (roomViewersKey roomID) (roomViewerGiftKey roomID) (roomViewerJoinKey roomID) now limit);
  of_res (parse_ids vals).
Definition OnlineViewers (now roomID limit : Z) : M Redis (list Z) :=
  TopViewers now roomID (if (limit <=? 0) || (100 <? limit) then 100 else limit).

(** *** Like counters *)
Definition TakeLikeDelta (roomID : Z) : M Redis Z :=
  let k := roomLikeDeltaKey roomID in
  r ← try (v ← run_cmd (fun now d => match GET now d k with Some v => (Ok v, DEL k d) | None => (Err redis_Nil, d) end);
           of_res (as_int64 v));
  match r with
  | Ok v => mret v
  | Err err => if same_error err redis_Nil then mret 0 else throw err
  end.
Definition RestoreLikeDelta (now roomID delta : Z) : M Redis unit :=
  if delta <=? 0 then mret tt else
  _ ← touch_active now roomID;
  _ ← run_cmd (fun now => INCRBY now (roomLikeDeltaKey roomID) delta);
  mret tt.

(** [likes] of the reply is the text of the key or 0. *)
Definition snapshotScript (viewers total : string) (now : Z) : cmd (Z * string) := pure_cmd (fun rnow d =>
  let d := ZREMRANGEBYSCORE viewers now d in
  ((ZCARD viewers d, default "0" (GET rnow d total)), d)).
Definition EngagementSnapshot (now roomID : Z) : M Redis (Z * Z) :=
  r ← run_cmd (snapshotScript (roomViewersKey roomID) (roomLikeTotalKey roomID) now);
  likes ← of_res (as_int64 r.2);
  mret (r.1, likes).

Definition LikeSnapshot (roomID : Z) : M Redis Z :=
  v ← get_int (roomLikeTotalKey roomID); mret (default 0 v).

Definition restoreLikeSnapshotScript (key : string) (checkpoint : Z) : cmd unit := fun now =>
  v ← gets (fun d => get_number now d key);
  match v with
  | None => throw (Fresh "ERR attempt to compare nil with number")
  | Some current => if current <? checkpoint then modify (SET key (FormatInt checkpoint) None) else mret tt
  end.
Definition RestoreLikeSnapshot (roomID count : Z) : M Redis unit :=
  run_cmd (restoreLikeSnapshotScript (roomLikeTotalKey roomID) count).

(** *** Active rooms *)
(** The members of one shard: [ZREMRANGEBYSCORE], then [ZREVRANGE 0 perShard-1]. *)
Definition shard_rooms (shard since perShard : Z) : M Redis (list string) :=
  run_cmd (pure_cmd (fun _ d =>
    let k := activeStatsRoomsKey shard in
    let d := ZREMRANGEBYSCORE k since d in
    (map fst (take (Z.to_nat perShard) (rev (ranked (zset d k)))), d))).
(** The inner loop: append the positive ids until the limit. *)
Fixpoint take_ids (limit : Z) (out : list Z) (raw : list string) : list Z :=
  match raw with
  | [] => out
  | v :: raw =>
    match ParseInt v with
    | Some id =>
      if 0 <? id then
        let out := out ++ [id] in
        if Z.of_nat (length out) =? limit then out else take_ids limit out raw
      else take_ids limit out raw
    | None => take_ids limit out raw
    end
  end.
Fixpoint active_loop (n : nat) (shard since limit perShard : Z) (out : list Z) : M Redis (list Z) :=
  match n with
  | O => mret out
  | S n =>
    if (shard <? shards_or_default) && (Z.of_nat (length out) <? limit) then
      raw ← shard_rooms shard since perShard;
      active_loop n (shard + 1) since limit perShard (take_ids limit out raw)
    else mret out
  end.
(** [since] is in milliseconds; there are [shards_or_default] iterations. *)
Definition ActiveRooms (since limit : Z) : M Redis (list Z) :=
  let limit := if limit <=? 0 then 1000 else limit in
  let perShard := (limit + shards_or_default - 1) / shards_or_default in
  active_loop (Z.to_nat shards_or_default) 0 since limit perShard [].

Definition LastPublishedViewer (roomID : Z) : M Redis (Z * bool) :=
  v ← get_int (roomLastViewerKey roomID);
  match v with Some v => mret (v, true) | None => mret (0, false) end.
Definition SetPublishedViewer (roomID viewerCount ttl : Z) : M Redis unit :=
  run_cmd (pure_cmd (fun now d => (tt, SET (roomLastViewerKey roomID) (FormatInt viewerCount) (ttl_expiry now ttl) d))).
End store.
