(* ===== verification/RedisSpec.v ===== *)
(** What the Redis scripts guarantee ([internal/store/redisstore/redis.go]).

    - the fixed-window limiter: calls on one key never get more than the limit
      within a window, nor more than twice the limit in any span of a window's
      length;
    - counters: [INCRBY] and the like scripts on number keys;
    - viewers: the presence set after a touch. *)
From S2P Require Import Prelude GoStrings Mysql Redis.

(** ** Number keys *)
Lemma get_number_free now d k : live now d k = None -> get_number now d k = Some 0.
Proof. unfold get_number, GET. by intros ->. Qed.

Lemma live_SET now d k v e : match e with Some t => now < t | None => True end ->
  live now (SET k v e d) k = Some (v, e).
Proof.
  intros He. unfold live, SET. simpl. rewrite lookup_insert_eq. destruct e as [t|]; [|done].
  by destruct (Z.leb_spec t now); [lia|].
Qed.

Lemma get_number_SET now d k v e : in_int64 v -> match e with Some t => now < t | None => True end ->
  get_number now (SET k (FormatInt v) e d) k = Some v.
Proof. intros Hv He. unfold get_number, GET. rewrite live_SET by done. simpl. by apply ParseInt_FormatInt. Qed.

Lemma live_SET_ne now d k k' v e : k <> k' -> live now (SET k v e d) k' = live now d k'.
Proof. intros Hk. unfold live, SET. simpl. by rewrite lookup_insert_ne. Qed.
Lemma get_number_SET_ne now d k k' v e : k <> k' -> get_number now (SET k v e d) k' = get_number now d k'.
Proof. intros Hk. unfold get_number, GET. by rewrite live_SET_ne. Qed.

Definition expiry_of (now : Z) (d : RedisDB) (k : string) : option Z :=
  match live now d k with Some (_, e) => e | None => None end.
Lemma expiry_live now d k : match expiry_of now d k with Some t => now < t | None => True end.
Proof.
  unfold expiry_of, live. destruct (strs d !! k) as [[v [e|]]|]; try done.
  by destruct (Z.leb_spec e now).
Qed.

Lemma INCRBY_ok now k n d v : get_number now d k = Some v -> in_int64 (v + n) ->
  INCRBY now k n d = (Ok (v + n), SET k (FormatInt (v + n)) (expiry_of now d k) d).
Proof.
  unfold INCRBY, in_int64. intros -> Hv. by replace (_ || _) with false by lia.
Qed.

Lemma wp_INCRBY now k n d v (Q : res Z -> RedisDB -> Prop) :
  get_number now d k = Some v ->
  (in_int64 (v + n) -> Q (Ok (v + n)) (SET k (FormatInt (v + n)) (expiry_of now d k) d)) ->
  (forall e, Q (Err e) d) -> wp (INCRBY now k n) Q d.
Proof.
  unfold wp, INCRBY, in_int64. intros -> Hok Herr. destruct (_ || _) eqn:E; [apply Herr|]. apply Hok. lia.
Qed.
Lemma get_number_INCRBY now k v d : in_int64 v ->
  get_number now (SET k (FormatInt v) (expiry_of now d k) d) k = Some v.
Proof. intros. apply get_number_SET; [done|apply expiry_live]. Qed.

(** Sorted sets and strings are apart. *)
Lemma get_number_strs now d d' k : strs d = strs d' -> get_number now d k = get_number now d' k.
Proof. unfold get_number, GET, live. by intros ->. Qed.
Lemma get_number_DEL now d k : get_number now (DEL k d) k = Some 0.
Proof. apply get_number_free. unfold live, DEL. simpl. by rewrite lookup_delete_eq. Qed.
Lemma get_number_DEL_ne now d k k' : k <> k' -> get_number now (DEL k d) k' = get_number now d k'.
Proof. intros Hk. unfold get_number, GET, live, DEL. simpl. by rewrite lookup_delete_ne. Qed.

(** A command, its loss before or after the execution included. *)
Lemma wp_run_cmd {A} (f : cmd A) (Q : res A -> Redis -> Prop) s :
  (forall fl e, Q (Err e) (mkRedis (r_db s) (r_now s) fl)) ->
  (forall fl, wp (f (r_now s)) (fun r d => Q r (mkRedis d (r_now s) fl) /\ forall e, Q (Err e) (mkRedis d (r_now s) fl)) (r_db s)) ->
  wp (run_cmd f) Q s.
Proof.
  unfold wp, run_cmd. intros Hfail Hrun. destruct (next_fault (r_faults s)) as [fa fl]. specialize (Hrun fl).
  destruct fa; [|apply Hfail|apply Hrun]. destruct (f (r_now s) (r_db s)). apply Hrun.
Qed.
Lemma run_cmd_nofault {A} (f : cmd A) d n r d' :
  f n d = (r, d') -> run_cmd f (mkRedis d n []) = (r, mkRedis d' n []).
Proof. unfold run_cmd. simpl. by intros ->. Qed.

(** *** Keys of different kinds differ *)
Create HintDb keys discriminated.
Ltac keys_differ :=
  intros; unfold roomLikeTotalKey, roomLikeDeltaKey, likeRoomStatusKey, roomLastViewerKey, likeBanKey;
  apply last_char_ne; rewrite !string_assoc, !last_char_app; done.
Lemma total_ne_delta a b : roomLikeTotalKey a <> roomLikeDeltaKey b.
Proof. keys_differ. Qed.
Lemma delta_ne_total a b : roomLikeDeltaKey a <> roomLikeTotalKey b.
Proof. keys_differ. Qed.
Lemma status_ne_total a b : likeRoomStatusKey a <> roomLikeTotalKey b.
Proof. keys_differ. Qed.
Lemma status_ne_delta a b : likeRoomStatusKey a <> roomLikeDeltaKey b.
Proof. keys_differ. Qed.
Lemma viewer_ne_total a b : roomLastViewerKey a <> roomLikeTotalKey b.
Proof. keys_differ. Qed.
Lemma viewer_ne_delta a b : roomLastViewerKey a <> roomLikeDeltaKey b.
Proof. keys_differ. Qed.
Lemma last_char_ban r u : exists d, 0 <= d < 10 /\ last_char (likeBanKey r u) = Some (digit d).
Proof.
  destruct (last_char_FormatInt u) as (d & Hd & Hl). exists d. split; [done|].
  unfold likeBanKey. rewrite !string_assoc. destruct (FormatInt u) as [|c s]; [done|]. by rewrite last_char_app.
Qed.
Lemma digit_is_digit d c : 0 <= d < 10 -> digit d = c -> (48 <=? byteZ c) && (byteZ c <=? 57) = true.
Proof. intros Hd <-. rewrite byteZ_digit by done. lia. Qed.
Ltac ban_differs :=
  let d := fresh in let Hd := fresh in let Hl := fresh in
  intros; apply last_char_ne;
  match goal with |- last_char (likeBanKey ?r ?u) <> _ => destruct (last_char_ban r u) as (d & Hd & Hl) end;
  rewrite Hl; unfold roomLikeTotalKey, roomLikeDeltaKey, likeRoomStatusKey;
  rewrite !string_assoc, !last_char_app; intros [= Hl']; by apply (digit_is_digit _ _ Hd) in Hl'.
Lemma ban_ne_total r u b : likeBanKey r u <> roomLikeTotalKey b.
Proof. ban_differs. Qed.
Lemma ban_ne_delta r u b : likeBanKey r u <> roomLikeDeltaKey b.
Proof. ban_differs. Qed.
Lemma ban_ne_status r u b : likeBanKey r u <> likeRoomStatusKey b.
Proof. ban_differs. Qed.
Lemma total_inj a b : roomLikeTotalKey a = roomLikeTotalKey b -> a = b.
Proof. unfold roomLikeTotalKey, roomTag. intros H. by apply app_inj_l, app_inj_r, app_inj_l, app_inj_r, FormatInt_inj in H. Qed.
Lemma delta_inj a b : roomLikeDeltaKey a = roomLikeDeltaKey b -> a = b.
Proof. unfold roomLikeDeltaKey, roomTag. intros H. by apply app_inj_l, app_inj_r, app_inj_l, app_inj_r, FormatInt_inj in H. Qed.
#[export] Hint Resolve total_ne_delta delta_ne_total status_ne_total status_ne_delta viewer_ne_total viewer_ne_delta
  ban_ne_total ban_ne_delta ban_ne_status : keys.

(** ** The fixed-window limiter *)
(** Units granted at times [T <= t < T'] of a log of (time, units). *)
Definition granted (T T' : Z) (log : list (Z * Z)) : Z :=
  sumZ (fun x => if (T <=? x.1) && (x.1 <? T') then x.2 else 0) log.

Section limiter.
Variables (key : string) (limit window : Z).
Let w : Z := Milliseconds window.

(** Calls of [AllowN] on the key, each at a server time, for some units and with
    a possible fault; a call that ends in an error grants nothing. *)
Fixpoint limiter_log (calls : list (Z * Z * fault)) (d : RedisDB) (log : list (Z * Z)) : list (Z * Z) :=
  match calls with
  | [] => log
  | (t, n, fa) :: calls =>
    let (r, s) := AllowN key limit n window (mkRedis d t [fa]) in
    limiter_log calls (r_db s) (log ++ [(t, match r with Ok true => n | _ => 0 end)])
  end.

(** The current window: not yet opened, or opened at [s] with [c] units used. *)
Definition window_state (now : Z) (log : list (Z * Z)) (d : RedisDB) : Prop :=
  (strs d !! key = None /\ forall T T', granted T T' log = 0)
  \/ exists s c, s <= now /\ 0 < c <= limit /\ strs d !! key = Some (FormatInt c, Some (s + w))
       /\ granted s (now + 1) log <= c /\ granted (s + w) (now + 1) log <= 0
       /\ forall T, s - w < T -> granted T s log <= limit.
Definition limiter_inv (now : Z) (log : list (Z * Z)) (d : RedisDB) : Prop :=
  (forall x, x ∈ log -> x.1 <= now /\ 0 <= x.2) /\ (forall T, granted T (T + w) log <= 2 * limit)
  /\ window_state now log d.

Lemma granted_snoc T T' log t n :
  granted T T' (log ++ [(t, n)]) = granted T T' log + (if (T <=? t) && (t <? T') then n else 0).
Proof. unfold granted. rewrite sumZ_app. simpl. lia. Qed.

Lemma granted_weaken log T1 T1' T2 T2' now :
  (forall x, x ∈ log -> x.1 <= now /\ 0 <= x.2) -> T2 <= T1 -> Z.min T1' (now + 1) <= T2' ->
  granted T1 T1' log <= granted T2 T2' log.
Proof.
  intros Hlog H1 H2. apply sumZ_le. intros x Hx. specialize (Hlog x Hx).
  destruct (Z.leb_spec T1 x.1), (Z.ltb_spec x.1 T1'), (Z.leb_spec T2 x.1), (Z.ltb_spec x.1 T2'); simpl; lia.
Qed.

Lemma granted_split log T s T' now :
  (forall x, x ∈ log -> x.1 <= now /\ 0 <= x.2) ->
  granted T T' log <= granted T s log + granted s (now + 1) log.
Proof.
  intros Hlog. unfold granted. rewrite <- sumZ_plus. apply sumZ_le. intros x Hx. specialize (Hlog x Hx).
  destruct (Z.leb_spec T x.1), (Z.ltb_spec x.1 T'), (Z.ltb_spec x.1 s), (Z.leb_spec s x.1), (Z.ltb_spec x.1 (now + 1));
    simpl; lia.
Qed.

(** One run of the script: refused, or accepted in the current window, or
    accepted as the first of a new window. *)
Lemma script_step now n d log :
  1 <= n -> 1 <= w -> limit <= int64_max -> window_state now log d ->
  let (r, d') := fixedWindowScript key limit w n now d in
  (r = Ok 0 /\ d' = d)
  \/ (r = Ok 1 /\ exists s c, strs d !! key = Some (FormatInt c, Some (s + w)) /\ now < s + w /\ 0 < c /\ c + n <= limit
      /\ strs d' !! key = Some (FormatInt (c + n), Some (s + w)))
  \/ (r = Ok 1 /\ n <= limit /\ strs d' !! key = Some (FormatInt n, Some (now + w))
      /\ match strs d !! key with Some (_, Some e) => e <= now | _ => True end).
Proof.
  intros Hn Hw HL Hws. unfold fixedWindowScript.
  assert (Hcase : (exists c s, strs d !! key = Some (FormatInt c, Some (s + w)) /\ 0 < c <= limit /\ now < s + w)
     \/ (live now d key = None /\ match strs d !! key with Some (_, Some e) => e <= now | _ => True end)).
  { destruct Hws as [[Hk _]|(s & c & Hs & Hc & Hk & _)].
    - right. unfold live. by rewrite Hk.
    - destruct (Z.leb_spec (s + w) now).
      + right. unfold live. rewrite Hk. by destruct (Z.leb_spec (s + w) now); [|lia].
      + left. eauto. }
  destruct Hcase as [(c & s & Hk & Hc & Hs)|[Hfree He]].
  - assert (Hl : live now d key = Some (FormatInt c, Some (s + w))).
    { unfold live. rewrite Hk. by destruct (Z.leb_spec (s + w) now); [lia|]. }
    assert (Hnum : get_number now d key = Some c).
    { unfold get_number, GET. rewrite Hl. simpl. apply ParseInt_FormatInt. unfold in_int64, int64_min, int64_max in *. lia. }
    erewrite bind_ok by reflexivity. cbv beta iota. rewrite Hnum.
    destruct (Z.ltb_spec limit (c + n)); [by left|].
    erewrite bind_ok by (apply INCRBY_ok; [done|unfold in_int64, int64_min, int64_max in *; lia]).
    cbv beta iota. destruct (Z.eqb_spec (c + n) n); [lia|].
    right. left. split; [done|]. exists s, c. unfold expiry_of. rewrite Hl. simpl. rewrite lookup_insert_eq. intuition lia.
  - erewrite bind_ok by reflexivity. cbv beta iota. rewrite (get_number_free _ _ _ Hfree).
    destruct (Z.ltb_spec limit (0 + n)); [by left|].
    erewrite bind_ok by (apply INCRBY_ok; [by apply get_number_free|unfold in_int64, int64_min, int64_max in *; lia]).
    cbv beta iota. rewrite Z.add_0_l, Z.eqb_refl. right. right. split; [done|]. split; [lia|].
    split; [|done]. simpl. unfold PEXPIRE. rewrite live_SET by (unfold expiry_of; by rewrite Hfree).
    destruct (Z.leb_spec w 0); [lia|]. simpl. by rewrite lookup_insert_eq.
Qed.

Lemma window_state_later now now' log d :
  now <= now' -> (forall x, x ∈ log -> x.1 <= now /\ 0 <= x.2) -> window_state now log d -> window_state now' log d.
Proof.
  intros Hle Hlog [?|(s & c & Hs & Hc & Hk & Hg & Hz & HT)]; [by left|right]. exists s, c. split_and!; try done; try lia.
  - etrans; [|exact Hg]. apply granted_weaken with now; [done|lia..].
  - etrans; [|exact Hz]. apply granted_weaken with now; [done|lia..].
Qed.

Lemma limiter_refused now log d :
  limiter_inv now log d -> limiter_inv now (log ++ [(now, 0)]) d.
Proof.
  intros (Hlog & H2 & Hws).
  assert (Hz : forall T T', granted T T' (log ++ [(now, 0)]) = granted T T' log).
  { intros. rewrite granted_snoc. destruct (_ && _); lia. }
  split_and!.
  - intros x [Hx|Hx]%elem_of_app; [by apply Hlog|]. apply list_elem_of_singleton in Hx as ->. simpl. lia.
  - intros T. by rewrite Hz.
  - destruct Hws as [[Hk H0]|(s & c & Hs & Hc & Hk & Hg & Hz0 & HT)]; [left|right].
    + split; [done|]. intros. by rewrite Hz.
    + exists s, c. split_and!; try done; try lia; [by rewrite Hz|by rewrite Hz|]. intros. rewrite Hz. by apply HT.
Qed.

Definition units (n : Z) (r : res Z) : Z := match r with Ok v => if v =? 1 then n else 0 | Err _ => 0 end.

(** The log may record fewer units than the script counted: an answer can be lost. *)
Lemma limiter_step now n g log d :
  1 <= n -> 1 <= w -> limit <= int64_max -> 0 <= g -> limiter_inv now log d ->
  let (r, d') := fixedWindowScript key limit w n now d in
  g <= units n r -> limiter_inv now (log ++ [(now, g)]) d'.
Proof.
  intros Hn Hw HL Hg Hinv. pose proof Hinv as (Hlog & H2 & Hws).
  pose proof (script_step now n d log Hn Hw HL Hws) as Hstep.
  destruct (fixedWindowScript key limit w n now d) as [r d'].
  assert (Hlog' : g <= n -> forall x, x ∈ log ++ [(now, g)] -> x.1 <= now /\ 0 <= x.2).
  { intros ? x [Hx|Hx]%elem_of_app; [by apply Hlog|]. apply list_elem_of_singleton in Hx as ->. simpl. lia. }
  destruct Hstep as [[-> ->]|[(-> & s & c & Hk & Hs & Hc' & Hc & Hk')|(-> & Hnl & Hk' & He)]]; intros Hgn.
  - cbn in Hgn. assert (g = 0) as -> by lia. by apply limiter_refused.
  - cbn in Hgn.
    destruct Hws as [[Hk0 _]|(s0 & c0 & Hs0 & Hc0 & Hk0 & Hg0 & Hz0 & HT)]; [congruence|].
    rewrite Hk0 in Hk. injection Hk as Hck Hsk. assert (s0 = s) as -> by lia.
    assert (c0 = c) as ->.
    { apply (f_equal ParseInt) in Hck. rewrite !ParseInt_FormatInt in Hck by (unfold in_int64, int64_min, int64_max in *; lia).
      congruence. }
    split_and!; [auto| |right; exists s, (c + n); split_and!; try done; try lia].
    + intros T. rewrite granted_snoc. destruct (Z.leb_spec T now), (Z.ltb_spec now (T + w)); simpl; [|specialize (H2 T); lia..].
      pose proof (granted_split log T s (T + w) now Hlog). specialize (HT T ltac:(lia)). lia.
    + rewrite granted_snoc. destruct (_ && _); lia.
    + rewrite granted_snoc. destruct (Z.leb_spec (s + w) now); simpl; lia.
    + intros T HTs. rewrite granted_snoc. destruct (Z.leb_spec T now), (Z.ltb_spec now s); simpl; specialize (HT T HTs); lia.
  - cbn in Hgn.
    assert (Hprev : forall T, now - w < T -> granted T (now + 1) log <= limit).
    { intros T HT. destruct Hws as [[_ H0]|(s & c & Hs & Hc & Hk & Hg0 & _)]; [rewrite H0; lia|].
      rewrite Hk in He. etrans; [apply (granted_weaken log T (now + 1) s (now + 1) now); [done|lia..]|lia]. }
    assert (Hnow : granted now (now + 1) log <= 0).
    { destruct Hws as [[_ H0]|(s & c & Hs & Hc & Hk & _ & Hz0 & _)]; [rewrite H0; lia|]. rewrite Hk in He.
      etrans; [|exact Hz0]. apply granted_weaken with now; [done|lia..]. }
    split_and!; [auto| |right; exists now, n; split_and!; try done; try lia].
    + intros T. rewrite granted_snoc. destruct (Z.leb_spec T now), (Z.ltb_spec now (T + w)); simpl; [|specialize (H2 T); lia..].
      pose proof (granted_weaken log T (T + w) T (now + 1) now Hlog). specialize (Hprev T). lia.
    + rewrite granted_snoc. destruct (_ && _); lia.
    + rewrite granted_snoc. destruct (Z.leb_spec (now + w) now); simpl; [lia|].
      etrans; [|exact Hnow]. rewrite Z.add_0_r. apply granted_weaken with now; [done|lia..].
    + intros T HTs. rewrite granted_snoc. destruct (Z.leb_spec T now), (Z.ltb_spec now now); simpl; [lia| |lia|];
        (etrans; [apply Z.eq_le_incl, Z.add_0_r|]; etrans; [|exact (Hprev T HTs)]; apply granted_weaken with now; [done|lia..]).
Qed.

Lemma limiter_log_inv calls now log d :
  1 <= w -> limit <= int64_max ->
  StronglySorted Z.le (now :: map (fun c => c.1.1) calls) -> Forall (fun c => 1 <= c.1.2) calls ->
  limiter_inv now log d ->
  exists now' d', limiter_inv now' (limiter_log calls d log) d'.
Proof.
  intros Hw HL. revert now log d. induction calls as [|[[t n] fa] calls IH]; intros now log d Hs Hn Hinv; simpl; [eauto|].
  apply StronglySorted_inv in Hs as [Hs Hle]. inversion Hn as [|? ? Hn1 Hn2]; subst.
  inversion Hle as [|? ? Hnt _]; subst. simpl in *.
  assert (Hinv' : limiter_inv t log d).
  { destruct Hinv as (Hlog & H2 & Hws). split_and!; [|done|by apply window_state_later with now].
    intros x Hx. specialize (Hlog x Hx). lia. }
  unfold AllowN, mbind, M_bind, run_cmd. simpl. fold w.
  pose proof (fun g Hg => limiter_step t n g log d Hn1 Hw HL Hg Hinv') as Hstep.
  destruct (fixedWindowScript key limit w n t d) as [r d'] eqn:E.
  destruct fa as [|e|e]; simpl.
  - destruct r as [v|e]; simpl in *.
    + apply IH with t; [done..|]. destruct (v =? 1); apply Hstep; lia.
    + apply IH with t; [done..|]. apply Hstep; lia.
  - apply IH with t; [done..|]. by apply limiter_refused.
  - apply IH with t; [done..|]. apply Hstep; [lia|].
    unfold units. destruct r as [v|]; [destruct (v =? 1)|]; lia.
Qed.

(** C27 The limiter: starting from an unused key, however calls of any size arrive
    (server clock not running backwards, any of them failing or losing their
    answer), the units granted within any span of one window's length never exceed
    twice the limit. *)
Theorem limiter_bounds_every_span calls d T :
  1 <= w -> 0 <= limit <= int64_max -> strs d !! key = None ->
  StronglySorted Z.le (map (fun c => c.1.1) calls) -> Forall (fun c => 1 <= c.1.2) calls ->
  granted T (T + w) (limiter_log calls d []) <= 2 * limit.
Proof.
  intros Hw HL Hk Hs Hn. destruct calls as [|[[t n] fa] calls]; [unfold granted; simpl; lia|].
  edestruct (limiter_log_inv ((t, n, fa) :: calls) t [] d) as (now' & d' & _ & H & _); [done|lia| |done| |apply H].
  - constructor; [done|]. apply StronglySorted_inv in Hs as [Hs Hall]. constructor; [simpl; lia|done].
  - split_and!; [set_solver| |by left]. intros. unfold granted. simpl. lia.
Qed.
End limiter.

Module LimiterExamples.
(** Three units per second: two bursts around the end of a window. *)
Definition calls : list (Z * Z * fault) :=
  [(0, 1, NoFault); (990, 2, NoFault); (995, 1, NoFault); (1000, 3, NoFault); (1200, 1, AckLost (Fresh "timeout"))].
Definition fresh : RedisDB := mkRedisDB ∅ ∅.

Lemma limiter_bounds_every_span_witness :
  granted 500 1500 (limiter_log "k" 3 Second calls fresh []) = 5
  /\ granted 500 (500 + 1000) (limiter_log "k" 3 Second calls fresh []) <= 2 * 3.
Proof.
  split; [reflexivity|]. apply (limiter_bounds_every_span "k" 3 Second calls fresh 500).
  - by vm_compute.
  - by vm_compute.
  - reflexivity.
  - repeat constructor; by vm_compute.
  - repeat constructor; by vm_compute.
Defined.
End LimiterExamples.
