(* ===== verification/Like.v ===== *)
(** Likes: [internal/like/service.go] (admission and counting) and
    [internal/like/snapshot.go] (the MySQL checkpoints of the Redis totals). *)
From S2P Require Import Prelude GoStrings Mysql Room Redis.

Definition ErrInvalidCount : error := Sentinel "like.ErrInvalidCount" "like count must be between 1 and 100".
Definition ErrRateLimited : error := Sentinel "like.ErrRateLimited" "like rate limit exceeded".

(** ** Interfaces *)
Class LikeRooms (W : Type) := {
  lr_Get : Z -> M W Room;
  lr_IsBanned : Z -> Z -> M W bool }.
Definition AllowNFunc (W : Type) : Type := string -> Z -> Z -> Z -> M W bool.
Record EligibilityCache (W : Type) : Type := mkCache {
  CachedStatus : Z -> M W (string * bool);
  CacheStatus : Z -> string -> Z -> M W unit;
  CachedBan : Z -> Z -> M W (bool * bool);
  CacheBan : Z -> Z -> bool -> Z -> M W unit }.
Arguments mkCache {W}.
Arguments CachedStatus {W}.
Arguments CacheStatus {W}.
Arguments CachedBan {W}.
Arguments CacheBan {W}.
(** The value passed as [Store]: its [AddLikes], and whether the type assertions
    of [NewService] to [Limiter] and [EligibilityCache] succeed on it. *)
Record LikeStore (W : Type) : Type := mkLikeStore {
  ls_AddLikes : Z -> Z -> M W Z;
  ls_Limiter : option (AllowNFunc W);
  ls_Cache : option (EligibilityCache W) }.
Arguments mkLikeStore {W}.
Arguments ls_AddLikes {W}.
Arguments ls_Limiter {W}.
Arguments ls_Cache {W}.

Record LikeConfig : Type := mkLikeConfig {
  lc_UserRateLimit : Z;
  lc_UserRateWindow : Z;
  lc_RoomCacheTTL : Z;
  lc_BanCacheTTL : Z }.

Record LikeResult : Type := mkLikeResult { lk_Accepted : Z; lk_Total : Z }.

Module LikeService.
Section service.
Context {W : Type} `{LikeRooms W}.
(** The fields of [Service], as [NewService] fills them. *)
Variables (store : LikeStore W) (config : LikeConfig).

Definition roomStatus (roomID : Z) : M W Status :=
  let ask :=
    v ← lr_Get roomID;
    _ ← match ls_Cache store with
        | Some c => if 0 <? lc_RoomCacheTTL config
                    then ignore (CacheStatus c roomID (room_Status v) (lc_RoomCacheTTL config)) else mret tt
        | None => mret tt
        end;
    mret (room_Status v) in
  match ls_Cache store with
  | Some c =>
    r ← CachedStatus c roomID;
    let '(raw, ok) := r : string * bool in
    if ok then mret raw else ask
  | None => ask
  end.

Definition isBanned (roomID userID : Z) : M W bool :=
  let ask :=
    banned ← lr_IsBanned roomID userID;
    _ ← match ls_Cache store with
        | Some c => if 0 <? lc_BanCacheTTL config
                    then ignore (CacheBan c roomID userID banned (lc_BanCacheTTL config)) else mret tt
        | None => mret tt
        end;
    mret banned in
  match ls_Cache store with
  | Some c =>
    r ← CachedBan c roomID userID;
    let '(banned, ok) := r : bool * bool in
    if ok then mret banned else ask
  | None => ask
  end.

Definition rate_key (roomID userID : Z) : string :=
  "live:room:{" +:+ FormatInt roomID +:+ "}:like:rate:" +:+ FormatInt userID.

Definition Add (roomID userID count : Z) : M W LikeResult :=
  if (count <? 1) || (100 <? count) then throw ErrInvalidCount else
  status ← roomStatus roomID;
  if negb (bool_decide (status = StatusLiving)) then throw ErrNotLiving else
  banned ← isBanned roomID userID;
  if (banned : bool) then throw ErrBanned else
  allowed ← match ls_Limiter store with
            | Some allowN =>
              if 0 <? lc_UserRateLimit config
              then allowN (rate_key roomID userID) (lc_UserRateLimit config) count (lc_UserRateWindow config)
              else mret true
            | None => mret true
            end;
  if negb allowed then throw ErrRateLimited else
  total ← ls_AddLikes store roomID count;
  mret (mkLikeResult count total).
End service.
End LikeService.

(** [*redisstore.Store] as the like store ([cmd/interaction/main.go]): it has the
    cache methods; [AllowN] is a method of [FixedWindowLimiter], not of [Store].
    [now] is the application's clock in milliseconds. *)
Definition redis_like_store {W} `{Lens Redis W} (shards now : Z) : LikeStore W := {|
  ls_AddLikes := fun roomID count => zoom (AddLikes shards now roomID count);
  ls_Limiter := None;
  ls_Cache := Some (mkCache
    (fun roomID => zoom (CachedLikeRoomStatus roomID))
    (fun roomID status ttl => zoom (CacheLikeRoomStatus roomID status ttl))
    (fun roomID userID => zoom (CachedLikeBan roomID userID))
    (fun roomID userID banned ttl => zoom (CacheLikeBan roomID userID banned ttl))) |}.
(** The rooms of the other half of the state. *)
Definition remote_like_rooms {D R} `{LikeRooms R} : LikeRooms (D * R) := {|
  lr_Get := fun id => zoom (lr_Get id);
  lr_IsBanned := fun id u => zoom (lr_IsBanned id u) |}.

(** ** Checkpoints *)
Record Checkpoint : Type := mkCheckpoint { cp_RoomID : Z; cp_LikeCount : Z }.

Class SnapshotSource (W : Type) := {
  src_ActiveRooms : Z -> Z -> M W (list Z);
  src_LikeSnapshot : Z -> M W Z;
  src_RestoreLikeSnapshot : Z -> Z -> M W unit }.
Class CheckpointStore (W : Type) := {
  cp_LoadAfter : Z -> Z -> M W (list Checkpoint);
  cp_Save : Z -> Z -> M W unit }.

(** The [room_like_snapshots] table: room id to count and update time. *)
Notation SnapshotDB := (gmap Z (Z * Z)).
Definition cp_le (a b : Checkpoint) : Prop := cp_RoomID a <= cp_RoomID b.
#[export] Instance cp_le_dec a b : Decision (cp_le a b).
Proof. unfold cp_le. apply _. Defined.

Module CheckpointRepository.
Section repository.
Context `{MySQLServer}.

Definition checkpoints_after (afterRoomID : Z) (t : SnapshotDB) : list Checkpoint :=
  List.filter (fun c => afterRoomID <? cp_RoomID c)
    (merge_sort cp_le (map (fun kv => mkCheckpoint kv.1 kv.2.1) (map_to_list t))).
Definition LoadAfter (afterRoomID limit : Z) : M (Mysql SnapshotDB) (list Checkpoint) :=
  db_exec (reads (fun t => Ok (take (Z.to_nat limit) (checkpoints_after afterRoomID t)))).

(** [INSERT ... ON DUPLICATE KEY UPDATE like_count=GREATEST(...)], with
    [CHECK (like_count >= 0)]. *)
Definition upsert_checkpoint (roomID count : Z) : stmt SnapshotDB unit := fun now t =>
  let count' := match t !! roomID with Some (old, _) => Z.max old count | None => count end in
  if count <? 0 then Err check_violated
  else Ok (tt, <[roomID := (count', now)]> t).
Definition Save (roomID count : Z) : M (Mysql SnapshotDB) unit := db_exec (upsert_checkpoint roomID count).
End repository.
End CheckpointRepository.

(** [MySQLCheckpointStore] beside the other state of the worker. *)
#[export] Instance mysql_checkpoint_store {R} `{MySQLServer} : CheckpointStore (R * Mysql SnapshotDB) := {|
  cp_LoadAfter := fun after limit => zoom (CheckpointRepository.LoadAfter after limit);
  cp_Save := fun roomID count => zoom (CheckpointRepository.Save roomID count) |}.

Module Snapshotter.
Section snapshotter.
Context {W : Type} `{SnapshotSource W} `{CheckpointStore W}.
Variables (activeWindow batch : Z).

Definition room_error (roomID : Z) (what : string) (err : error) : error :=
  Wrapped ("room " +:+ FormatInt roomID +:+ what +:+ ": ") err "".
Definition joined (errs : list error) : M W unit :=
  match errors_Join errs with Some e => throw e | None => mret tt end.

(** The inner loop of [Recover]: the errors so far and the last room id. *)
Fixpoint restore_all (cs : list Checkpoint) (errs : list error) (after : Z) : M W (list error * Z) :=
  match cs with
  | [] => mret (errs, after)
  | c :: cs =>
    r ← try (src_RestoreLikeSnapshot (cp_RoomID c) (cp_LikeCount c));
    restore_all cs (match r with Ok _ => errs | Err err => errs ++ [room_error (cp_RoomID c) "" err] end) (cp_RoomID c)
  end.

(** The page loop of [Recover]; [None] when the fuel runs out. *)
Fixpoint recover_loop (fuel : nat) (limit : Z) (errs : list error) (after : Z) : M W (option (list error)) :=
  match fuel with
  | O => mret None
  | S fuel =>
    r ← try (cp_LoadAfter after limit);
    match r with
    | Err err => mret (Some (errs ++ [err]))
    | Ok checkpoints =>
      s ← restore_all checkpoints errs after;
      let '(errs, after) := s : list error * Z in
      if Z.of_nat (length checkpoints) <? limit then mret (Some errs) else recover_loop fuel limit errs after
    end
  end.
Definition recover_batch : Z := if batch <=? 0 then 1000 else batch.
(** [Recover]: the joined errors, or nothing; the outer [option] is the fuel. *)
Definition Recover (fuel : nat) : M W (option (list error)) := recover_loop fuel recover_batch [] 0.

Fixpoint snapshot_rooms (rooms : list Z) (errs : list error) : M W (list error) :=
  match rooms with
  | [] => mret errs
  | roomID :: rooms =>
    r ← try (src_LikeSnapshot roomID);
    match r with
    | Err err => snapshot_rooms rooms (errs ++ [room_error roomID " read" err])
    | Ok count =>
      s ← try (cp_Save roomID count);
      snapshot_rooms rooms (match s with Ok _ => errs | Err err => errs ++ [room_error roomID " write" err] end)
    end
  end.
(** [now] is [time.Now()]. *)
Definition Tick (now : Z) : M W unit :=
  rooms ← src_ActiveRooms (now - activeWindow) batch;
  errs ← snapshot_rooms rooms [];
  joined errs.
End snapshotter.
End Snapshotter.
