(* ===== verification/Stats.v ===== *)
(** Room statistics ([internal/stats]) and viewer presence ([internal/viewer]). *)
From S2P Require Import Prelude GoStrings Mysql Json Realtime Redis Like.

Record Snapshot : Type := mkSnapshot { sn_ViewerCount : Z; sn_LikeCount : Z; sn_LikeDelta : Z }.
Definition snapshot_json (s : Snapshot) : json := JObj
  [("viewer_count", JNum (sn_ViewerCount s)); ("like_count", JNum (sn_LikeCount s)); ("like_delta", JNum (sn_LikeDelta s))].

Class StatsStore (W : Type) := {
  st_ActiveRooms : Z -> Z -> M W (list Z);
  st_TakeLikeDelta : Z -> M W Z;
  st_RestoreLikeDelta : Z -> Z -> M W unit;
  st_Snapshot : Z -> M W Snapshot;
  st_LastPublishedViewer : Z -> M W (Z * bool);
  st_SetPublishedViewer : Z -> Z -> Z -> M W unit }.

Module Aggregator.
Section aggregator.
Context {W : Type} `{StatsStore W} `{Publisher W}.
Variables (activeWindow batch : Z).

Definition restore_if (roomID delta : Z) : M W unit :=
  if 0 <? delta then ignore (st_RestoreLikeDelta roomID delta) else mret tt.

Definition stats_event (now roomID : Z) (id : string) (snap : Snapshot) : RtEvent :=
  NewPriorityEvent now id "stats" roomID "P4" (AnyValue (snapshot_json snap)).

(** The body of the loop: one room. [now] is the clock of the event, [id] the
    [idgen.New()]. Failures are logged and the room is skipped. *)
Definition tick_room (now : Z) (id : string) (roomID : Z) : M W unit :=
  d ← try (st_TakeLikeDelta roomID);
  match d with
  | Err _ => mret tt
  | Ok delta =>
    s ← try (st_Snapshot roomID);
    match s with
    | Err _ => restore_if roomID delta
    | Ok snap =>
      let snap := mkSnapshot (sn_ViewerCount snap) (sn_LikeCount snap) delta in
      l ← try (st_LastPublishedViewer roomID);
      match l with
      | Err _ => restore_if roomID delta
      | Ok (previous, seen) =>
        let viewerChanged := negb seen || negb (previous =? sn_ViewerCount snap) in
        if (delta =? 0) && negb viewerChanged then mret tt else
        p ← try (Publish (RoomStats roomID) (stats_event now roomID id snap));
        match p with
        | Err _ => restore_if roomID delta
        | Ok _ => ignore (st_SetPublishedViewer roomID (sn_ViewerCount snap) (2 * activeWindow))
        end
      end
    end
  end.

Fixpoint tick_rooms (now : Z) (ids : nat -> string) (rooms : list Z) : M W unit :=
  match rooms with
  | [] => mret tt
  | roomID :: rooms => _ ← tick_room now (ids (length rooms)) roomID; tick_rooms now ids rooms
  end.

Definition Tick (now : Z) (ids : nat -> string) : M W unit :=
  rooms ← st_ActiveRooms (now - activeWindow) batch;
  tick_rooms now ids rooms.
End aggregator.
End Aggregator.

(** [RedisStore]; [now] is the application's clock in nanoseconds. *)
Section redis_store.
Context {W : Type} `{Lens Redis W}.
Variables (shards now : Z).

Definition stats_Snapshot (roomID : Z) : M Redis Snapshot :=
  v ← EngagementSnapshot (UnixMilli now) roomID;
  mret (mkSnapshot v.1 v.2 0).
Definition redis_stats_store : StatsStore W := {|
  st_ActiveRooms := fun since limit => zoom (ActiveRooms shards (UnixMilli since) limit);
  st_TakeLikeDelta := fun roomID => zoom (TakeLikeDelta roomID);
  st_RestoreLikeDelta := fun roomID delta => zoom (RestoreLikeDelta shards (UnixMilli now) roomID delta);
  st_Snapshot := fun roomID => zoom (stats_Snapshot roomID);
  st_LastPublishedViewer := fun roomID => zoom (LastPublishedViewer roomID);
  st_SetPublishedViewer := fun roomID n ttl => zoom (SetPublishedViewer roomID n ttl) |}.

(** [redisstore.Store] as the source of the like snapshots. *)
Definition redis_snapshot_source : SnapshotSource W := {|
  src_ActiveRooms := fun since limit => zoom (ActiveRooms shards (UnixMilli since) limit);
  src_LikeSnapshot := fun roomID => zoom (LikeSnapshot roomID);
  src_RestoreLikeSnapshot := fun roomID count => zoom (RestoreLikeSnapshot roomID count) |}.
End redis_store.

(** ** Statistics service *)
Definition stats_Get {W} `{StatsStore W} (roomID : Z) : M W Snapshot := st_Snapshot roomID.

(** ** Viewers *)
Class ViewerStore (W : Type) := {
  vs_TouchViewer : Z -> Z -> Z -> M W Z;
  vs_TopViewers : Z -> Z -> M W (list Z);
  vs_AddViewerGiftValue : Z -> Z -> Z -> M W unit;
  vs_OnlineViewers : Z -> Z -> M W (list Z);
  vs_RemoveViewer : Z -> Z -> M W Z }.

Record ViewerResult : Type := mkViewerResult { vr_ViewerCount : Z; vr_ExpiresIn : Z }.

Module ViewerService.
Section service.
Context {W : Type} `{ViewerStore W}.
Variable ttl : Z.

Definition Top (roomID : Z) : M W (list Z) := vs_TopViewers roomID 3.
Definition AddGiftValue (roomID userID value : Z) : M W unit := vs_AddViewerGiftValue roomID userID value.
Definition Online (roomID : Z) : M W (list Z) := vs_OnlineViewers roomID 100.
Definition Leave (roomID userID : Z) : M W Z := vs_RemoveViewer roomID userID.
Definition Touch (roomID userID : Z) : M W ViewerResult :=
  count ← vs_TouchViewer roomID userID ttl;
  mret (mkViewerResult count (Z.quot ttl Second)).
End service.
End ViewerService.

(** [redisstore.Store] as the viewer store; [now] in milliseconds. *)
Definition redis_viewer_store (shards now : Z) : ViewerStore Redis := {|
  vs_TouchViewer := TouchViewer shards now;
  vs_TopViewers := TopViewers now;
  vs_AddViewerGiftValue := AddViewerGiftValue;
  vs_OnlineViewers := OnlineViewers now;
  vs_RemoveViewer := RemoveViewer |}.
