(* ===== verification/LikeSpec.v ===== *)
(** What the like service guarantees ([internal/like/service.go] over
    [internal/store/redisstore/redis.go]): a like is counted in the total and in
    the pending delta together and only for an admitted user; an enforced ban
    holds; the rate limit of the configuration has no effect in the deployment. *)
From S2P Require Import Prelude GoStrings Mysql Room Redis RedisSpec Like.

(** The like counters of a room: the total and the part not yet announced. *)
Definition counts (n : Z) (d : RedisDB) (room t dl : Z) : Prop :=
  get_number n d (roomLikeTotalKey room) = Some t /\ get_number n d (roomLikeDeltaKey room) = Some dl.
Definition counted (n room t dl : Z) (s : Redis) : Prop := r_now s = n /\ counts n (r_db s) room t dl.

Lemma counts_strs n d d' room t dl : strs d = strs d' -> counts n d room t dl -> counts n d' room t dl.
Proof. unfold counts. intros H. by rewrite !(get_number_strs n d d' _ H). Qed.
Lemma counts_SET n d room t dl k v e :
  k <> roomLikeTotalKey room -> k <> roomLikeDeltaKey room -> counts n d room t dl -> counts n (SET k v e d) room t dl.
Proof. unfold counts. intros. by rewrite !get_number_SET_ne by done. Qed.
Lemma counts_DEL n d room t dl k :
  k <> roomLikeTotalKey room -> k <> roomLikeDeltaKey room -> counts n d room t dl -> counts n (DEL k d) room t dl.
Proof. unfold counts. intros. by rewrite !get_number_DEL_ne by done. Qed.
#[export] Hint Resolve counts_SET counts_DEL : keys.

Lemma keeps_counted {A} (f : cmd A) n room t dl :
  (forall d, counts n d room t dl -> counts n (f n d).2 room t dl) -> keeps (counted n room t dl) (run_cmd f).
Proof.
  intros Hf s [Hn Hc]. apply (wp_run_cmd f (fun _ => counted n room t dl)); [done|].
  intros fl. rewrite Hn. split; [|intros _]; (split; [done|]; by apply Hf).
Qed.

Section caches.
Variables n room t dl : Z.
Implicit Types P : Redis -> Prop.

Lemma keeps_get_cmd k : keeps (counted n room t dl) (run_cmd (get_cmd k)).
Proof. apply keeps_counted. intros d Hd. unfold get_cmd. by destruct (GET n d k). Qed.
Lemma keeps_get_int k : keeps (counted n room t dl) (get_int k).
Proof. unfold get_int. pose proof (keeps_get_cmd k). keeps. Qed.
Lemma keeps_cached_status r : keeps (counted n room t dl) (CachedLikeRoomStatus r).
Proof. unfold CachedLikeRoomStatus. pose proof (keeps_get_cmd (likeRoomStatusKey r)). keeps. Qed.
Lemma keeps_cache_status r v ttl : keeps (counted n room t dl) (CacheLikeRoomStatus r v ttl).
Proof. apply keeps_counted. intros d Hd. simpl. eauto with keys. Qed.
Lemma keeps_cached_ban r u : keeps (counted n room t dl) (CachedLikeBan r u).
Proof. unfold CachedLikeBan. pose proof keeps_get_int. keeps. Qed.
Lemma keeps_cache_ban r u b ttl : keeps (counted n room t dl) (CacheLikeBan r u b ttl).
Proof. apply keeps_counted. intros d Hd. simpl. eauto with keys. Qed.
Lemma keeps_enforce_ban r u b : keeps (counted n room t dl) (EnforceLikeBan r u b).
Proof. unfold EnforceLikeBan. destruct b; apply keeps_counted; intros d Hd; simpl; eauto with keys. Qed.
Lemma keeps_touch_active shards now r : keeps (counted n room t dl) (touch_active shards now r).
Proof. apply keeps_counted. intros d Hd. simpl. by apply (counts_strs _ d). Qed.
End caches.
#[export] Hint Resolve keeps_get_int keeps_cached_status keeps_cache_status keeps_cached_ban keeps_cache_ban
  keeps_enforce_ban keeps_touch_active : keeps.

(** A counter of another room, or any other number key. *)
Lemma keeps_INCRBY n d room t dl k c :
  k <> roomLikeTotalKey room -> k <> roomLikeDeltaKey room -> counts n d room t dl -> counts n (INCRBY n k c d).2 room t dl.
Proof.
  intros. unfold INCRBY. destruct (get_number n d k); [|done]. destruct (_ || _); [done|]. simpl. auto with keys.
Qed.

(** Both counters move together, or neither does. *)
Lemma addLikesScript_spec n room count t dl d (Q : res Z -> RedisDB -> Prop) :
  counts n d room t dl -> 0 <= dl <= t -> in_int64 t -> 0 < count ->
  (forall d', counts n d' room (t + count) (dl + count) -> in_int64 (t + count) -> Q (Ok (t + count)) d') ->
  (forall e, Q (Err e) d) ->
  wp (addLikesScript (roomLikeTotalKey room) (roomLikeDeltaKey room) count n) Q d.
Proof.
  intros [Ht Hd] Hle Hin Hc Hok Herr. unfold addLikesScript.
  apply wp_bind. apply wp_INCRBY with t; [done| |done]. intros Ht'.
  assert (Hd' : in_int64 (dl + count)) by (unfold in_int64 in *; unfold int64_min in *; lia).
  apply wp_bind. unfold wp. rewrite (INCRBY_ok n _ _ _ dl).
  - simpl. apply Hok; [|done]. split.
    + rewrite get_number_SET_ne by auto with keys. by apply get_number_INCRBY.
    + by apply get_number_INCRBY.
  - by rewrite get_number_SET_ne by auto with keys.
  - done.
Qed.

Lemma keeps_AddLikes_other n room t dl shards now room' count :
  room' <> room -> keeps (counted n room t dl) (AddLikes shards now room' count).
Proof.
  intros Hne. unfold AddLikes. apply keeps_bind; [auto with keeps|]. intros _. apply keeps_counted. intros d Hd.
  apply (keeps_bind (fun d => counts n d room t dl)); [|intros ?; apply keeps_bind; [|intros ?; apply keeps_ret]|done];
    intros d' Hd'; apply keeps_INCRBY; auto with keys; intros H; [by apply total_inj in H|by apply delta_inj in H].
Qed.

(** The counters after one [AddLikes], and what it answered. *)
Definition moved (n room t dl count : Z) (r : res Z) (s : Redis) : Prop :=
  match r with
  | Ok v => v = t + count /\ counted n room (t + count) (dl + count) s
  | Err _ => counted n room t dl s \/ counted n room (t + count) (dl + count) s
  end.
Lemma AddLikes_spec n room t dl shards now count s :
  counted n room t dl s -> 0 <= dl <= t -> in_int64 t -> 0 < count ->
  wp (AddLikes shards now room count)
    (fun r s' => moved n room t dl count r s' /\ (counted n room (t + count) (dl + count) s' -> in_int64 (t + count))) s.
Proof.
  intros Hs Hle Hin Hc. unfold AddLikes. apply wp_bind.
  pose proof (keeps_touch_active n room t dl shards now room s Hs) as Hs1. unfold wp.
  destruct (touch_active shards now room s) as [[[]|e] s1]; simpl in *.
  2: { split; [by left|]. intros [_ [H _]]. destruct Hs1 as [Hn [H1 _]]. rewrite H1 in H. injection H. lia. }
  destruct Hs1 as [Hn Hc1]. apply wp_run_cmd.
  - intros fl e. split; [by left|]. intros [_ [H _]]. simpl in *. destruct Hc1 as [H1 _]. rewrite H1 in H. injection H. lia.
  - intros fl. rewrite Hn. apply addLikesScript_spec with t dl; try done.
    + intros d' Hd' Hin'. split; [split; [split; [done|by split]|done]|]. intros e. split; [unfold moved; right; by split|done].
    + assert (forall fl, counted n room (t + count) (dl + count) (mkRedis (r_db s1) n fl) -> in_int64 (t + count)).
      { intros fl' [_ [H _]]. simpl in *. destruct Hc1 as [H1 _]. rewrite H1 in H. injection H. lia. }
      assert (forall e fl, moved n room t dl count (Err e) (mkRedis (r_db s1) n fl)) by (intros; by left).
      intros e. split; [split|intros e'; split]; first [apply H0|apply H].
Qed.

(** ** The service on Redis, the rooms elsewhere *)
Section like_service.
Context {R : Type} `{LikeRooms R}.
Variables (shards now : Z) (cfg : LikeConfig).
Implicit Types w : Redis * R.

Definition redis_likes : LikeStore (Redis * R) := redis_like_store shards now.
Definition roomStatus_ (room : Z) : M (Redis * R) Status :=
  @LikeService.roomStatus _ remote_like_rooms redis_likes cfg room.
Definition isBanned_ (room user : Z) : M (Redis * R) bool :=
  @LikeService.isBanned _ remote_like_rooms redis_likes cfg room user.
Definition Add_ (room user count : Z) : M (Redis * R) LikeResult :=
  @LikeService.Add _ remote_like_rooms redis_likes cfg room user count.

Lemma keeps_remote {A} (P : Redis -> Prop) (m : M R A) : keeps (fun w => P w.1) (zoom m).
Proof. intros [s r] Hw. unfold zoom. simpl. by destruct (m r). Qed.
Lemma keeps_redis {A} (P : Redis -> Prop) (m : M Redis A) : keeps P m -> keeps (fun w => P w.1) (zoom (W := Redis * R) m).
Proof. exact (keeps_zoom (W := Redis * R) P m). Qed.

Lemma keeps_roomStatus (P : Redis -> Prop) r :
  keeps P (CachedLikeRoomStatus r) -> (forall v ttl, keeps P (CacheLikeRoomStatus r v ttl)) ->
  keeps (fun w => P w.1) (roomStatus_ r).
Proof.
  intros Hget Hset. unfold roomStatus_, LikeService.roomStatus. simpl. apply keeps_bind; [by apply keeps_redis|].
  intros [raw []]; [auto with keeps|]. apply keeps_bind; [apply keeps_remote|]. intros v.
  apply keeps_bind; [|auto with keeps]. destruct (0 <? _); [|auto with keeps].
  by apply keeps_ignore, keeps_redis.
Qed.
Lemma keeps_isBanned n room t dl r u : keeps (fun w => counted n room t dl w.1) (isBanned_ r u).
Proof.
  unfold isBanned_, LikeService.isBanned. simpl. apply keeps_bind; [apply keeps_redis; auto with keeps|].
  intros [b []]; [auto with keeps|]. apply keeps_bind; [apply keeps_remote|]. intros v.
  apply keeps_bind; [|auto with keeps]. destruct (0 <? _); [|auto with keeps].
  apply keeps_ignore, keeps_redis. auto with keeps.
Qed.

(** The checks that come before counting, and the state they leave. *)
Definition admitted_like (room user count : Z) w w2 : Prop :=
  1 <= count <= 100 /\ exists w1, roomStatus_ room w = (Ok StatusLiving, w1) /\ isBanned_ room user w1 = (Ok false, w2).

Lemma Add_spec n room user count t dl w r w' :
  counted n room t dl w.1 -> 0 <= dl <= t -> in_int64 t -> Add_ room user count w = (r, w') ->
  (counted n room t dl w'.1 /\ exists e, r = Err e)
  \/ exists w2 v, admitted_like room user count w w2 /\ moved n room t dl count v w'.1
       /\ r = match v with Ok total => Ok (mkLikeResult count total) | Err e => Err e end.
Proof.
  intros Hw Hle Hin Hrun. unfold Add_, LikeService.Add in Hrun. fold (roomStatus_ room) (isBanned_ room user) in Hrun.
  destruct ((count <? 1) || (100 <? count)) eqn:Hc; [unfold throw in Hrun; left; simplify_eq; eauto|].
  assert (Hcount : 1 <= count <= 100) by lia.
  pose proof (keeps_roomStatus (counted n room t dl) room ltac:(auto with keeps) ltac:(auto with keeps) w Hw) as Hw1.
  unfold mbind, M_bind in Hrun. destruct (roomStatus_ room w) as [[st|e] w1] eqn:Est; simpl in Hw1; [|left; simplify_eq; eauto].
  case_bool_decide; simpl in Hrun; [|unfold throw in Hrun; left; simplify_eq; eauto]. subst st.
  pose proof (keeps_isBanned n room t dl room user w1 Hw1) as Hw2.
  destruct (isBanned_ room user w1) as [[[]|e] w2] eqn:Eb; simpl in *;
    [unfold throw in Hrun; left; simplify_eq; eauto| |left; simplify_eq; eauto].
  destruct w2 as [s2 r2]. pose proof (AddLikes_spec n room t dl shards now count s2 Hw2 Hle Hin ltac:(lia)) as Ha.
  unfold wp, zoom in *. simpl in *.
  destruct (AddLikes shards now room count s2) as [v s3]. simpl in *. destruct Ha as [Ha _].
  right. exists (s2, r2), v. split; [split; [done|by exists w1]|]. by destruct v; injection Hrun as <- <-.
Qed.

(** A like is counted once and only for an admitted user: under any faults and
    whatever the room service answers, a successful [Add] had a count of 1 to 100, a
    room found living and a user found not banned, and moved the total and the
    pending delta by exactly the count; a failed one moved both or neither, and
    neither when the user was not admitted. *)
Theorem likes_move_both_counters n room user count t dl w r w' :
  counted n room t dl w.1 -> 0 <= dl <= t -> in_int64 t -> Add_ room user count w = (r, w') ->
  match r with
  | Ok v => v = mkLikeResult count (t + count) /\ (exists w2, admitted_like room user count w w2)
            /\ counted n room (t + count) (dl + count) w'.1
  | Err _ => counted n room t dl w'.1
             \/ ((exists w2, admitted_like room user count w w2) /\ counted n room (t + count) (dl + count) w'.1)
  end.
Proof.
  intros Hw Hle Hin Hrun. destruct (Add_spec _ _ _ _ _ _ _ _ _ Hw Hle Hin Hrun) as [[? [e ->]]|(w2 & v & Ha & Hm & ->)]; [by left|].
  destruct v as [v|e]; [destruct Hm as [-> ?]; eauto|]. destruct Hm; [by left|right; eauto].
Qed.

(** The flag that [EnforceLikeBan] sets, and faults that are not the reply
    [redis.Nil], which only a missing key gives. *)
Definition not_nil (f : fault) : Prop :=
  match f with NoFault => True | Fails e | AckLost e => same_error e redis_Nil = false end.
Definition banned_flag (room user : Z) (s : Redis) : Prop :=
  strs (r_db s) !! likeBanKey room user = Some ("1", None) /\ Forall not_nil (r_faults s).

Lemma not_nil_next fl : Forall not_nil fl -> not_nil (next_fault fl).1 /\ Forall not_nil (next_fault fl).2.
Proof. by destruct 1. Qed.
Lemma keeps_flag {A} (f : cmd A) room user :
  (forall n d, strs d !! likeBanKey room user = Some ("1", None) -> strs (f n d).2 !! likeBanKey room user = Some ("1", None)) ->
  keeps (banned_flag room user) (run_cmd f).
Proof.
  intros Hf s [Hs Hfl]. apply not_nil_next in Hfl as [_ Hfl]. unfold run_cmd.
  destruct (next_fault (r_faults s)) as [fa fl]. specialize (Hf (r_now s) (r_db s) Hs).
  destruct fa; [destruct (f (r_now s) (r_db s))| |]; by split.
Qed.
Lemma keeps_flag_cached room user r : keeps (banned_flag room user) (CachedLikeRoomStatus r).
Proof.
  unfold CachedLikeRoomStatus. assert (keeps (banned_flag room user) (run_cmd (get_cmd (likeRoomStatusKey r)))); [|keeps].
  apply keeps_flag. intros n d Hd. unfold get_cmd. by destruct (GET _ _ _).
Qed.
Lemma keeps_flag_status room user r v ttl : keeps (banned_flag room user) (CacheLikeRoomStatus r v ttl).
Proof.
  apply keeps_flag. intros n d Hd. simpl.
  by rewrite lookup_insert_ne by (intros E; symmetry in E; by apply ban_ne_status in E).
Qed.
Lemma isBanned_flagged room user w : banned_flag room user w.1 ->
  exists x, isBanned_ room user w = x /\ match x.1 with Ok b => b = true | Err _ => True end.
Proof.
  intros Hf. eexists. split; [done|]. destruct w as [s r]. unfold isBanned_, LikeService.isBanned. simpl.
  unfold CachedLikeBan, get_int, zoom, mbind, M_bind, try, run_cmd. simpl.
  destruct Hf as [Hf Hfl]. simpl in Hf, Hfl. apply not_nil_next in Hfl as [Hnil _].
  assert (Hg : get_cmd (likeBanKey room user) (r_now s) (r_db s) = (Ok "1", r_db s)).
  { unfold get_cmd, GET, live. by rewrite Hf. }
  destruct (next_fault (r_faults s)) as [[|e|e] fl]; [by rewrite Hg| |]; simpl in *; by rewrite Hnil.
Qed.

(** An enforced ban stops likes at once: while the ban flag that the moderation
    API writes is in Redis, no [Add] of that user succeeds, whatever the cached or
    actual room state and under any faults, and the counters stay as they are. *)
Theorem enforced_ban_stops_likes n room user count t dl w r w' :
  counted n room t dl w.1 -> banned_flag room user w.1 ->
  Add_ room user count w = (r, w') ->
  (exists e, r = Err e) /\ counted n room t dl w'.1.
Proof.
  intros Hw Hban Hrun. unfold Add_, LikeService.Add in Hrun. fold (roomStatus_ room) (isBanned_ room user) in Hrun.
  destruct ((count <? 1) || (100 <? count)); [unfold throw in Hrun; simplify_eq; eauto|].
  pose proof (keeps_roomStatus (fun s => counted n room t dl s /\ banned_flag room user s) room) as Hk.
  destruct (Hk (keeps_and _ _ _ (keeps_cached_status _ _ _ _ _) (keeps_flag_cached _ _ _))
               (fun v ttl => keeps_and _ _ _ (keeps_cache_status _ _ _ _ _ v ttl) (keeps_flag_status _ _ _ _ _)) w (conj Hw Hban))
    as [Hw1 Hb1].
  unfold mbind, M_bind in Hrun. destruct (roomStatus_ room w) as [[st|e] w1]; simpl in Hw1, Hb1; [|simplify_eq; eauto].
  destruct (negb _); [unfold throw in Hrun; simplify_eq; eauto|].
  pose proof (keeps_isBanned n room t dl room user w1 Hw1) as Hw2.
  destruct (isBanned_flagged room user w1 Hb1) as [[[b|e] w2] [Eb Hres]]; rewrite Eb in Hrun, Hw2; simpl in *.
  - subst b. unfold throw in Hrun. simplify_eq. eauto.
  - simplify_eq. eauto.
Qed.
End like_service.

(** ** The rate limit *)
Section rate_limit.
Context {R : Type} `{LikeRooms R}.
Variables (shards now : Z) (cfg : LikeConfig) (n room user : Z).

(** The caches say that the room is live and the user is not banned. *)
Definition cached_admission (d : RedisDB) : Prop :=
  live n d (likeRoomStatusKey room) = Some (StatusLiving, None) /\ live n d (likeBanKey room user) = Some ("0", None).
Lemma cached_admission_SET d k v e :
  k <> likeRoomStatusKey room -> k <> likeBanKey room user -> cached_admission d -> cached_admission (SET k v e d).
Proof. unfold cached_admission. intros. by rewrite !live_SET_ne. Qed.
Lemma cached_admission_strs d d' : strs d = strs d' -> cached_admission d -> cached_admission d'.
Proof. unfold cached_admission, live. by intros ->. Qed.

Lemma get_cmd_live d k v e : live n d k = Some (v, e) -> run_cmd (get_cmd k) (mkRedis d n []) = (Ok v, mkRedis d n []).
Proof. intros Hl. apply run_cmd_nofault. unfold get_cmd, GET. by rewrite Hl. Qed.
Lemma status_read d (r : R) : cached_admission d ->
  roomStatus_ shards now cfg room (mkRedis d n [], r) = (Ok StatusLiving, (mkRedis d n [], r)).
Proof.
  intros [Hs _]. unfold roomStatus_, LikeService.roomStatus. cbn [redis_likes redis_like_store ls_Cache CachedStatus].
  erewrite (bind_ok _ _ _ (StatusLiving, true)); [done|]. apply zoom_fst_ok. unfold CachedLikeRoomStatus.
  erewrite bind_ok by (eapply try_run, get_cmd_live, Hs). done.
Qed.
Lemma ban_read d (r : R) : cached_admission d ->
  isBanned_ shards now cfg room user (mkRedis d n [], r) = (Ok false, (mkRedis d n [], r)).
Proof.
  intros [_ Hb]. unfold isBanned_, LikeService.isBanned. cbn [redis_likes redis_like_store ls_Cache CachedBan].
  erewrite (bind_ok _ _ _ (false, true)); [done|]. apply zoom_fst_ok. unfold CachedLikeBan, get_int.
  erewrite (bind_ok _ _ _ (Some 0)); [done|]. erewrite (bind_ok _ _ _ (Ok 0)); [done|]. apply try_run.
  by erewrite bind_ok by (eapply get_cmd_live, Hb).
Qed.

Lemma AddLikes_nofault d count t dl :
  cached_admission d -> counts n d room t dl -> 0 < count -> in_int64 (t + count) -> in_int64 (dl + count) ->
  exists d', AddLikes shards now room count (mkRedis d n []) = (Ok (t + count), mkRedis d' n [])
    /\ cached_admission d' /\ counts n d' room (t + count) (dl + count).
Proof.
  intros Hc Hn Hcount Ht Hd. unfold AddLikes.
  set (d1 := ZADD (activeStatsRoomsKey (activeRoomShard shards room)) (FormatInt room) now d).
  assert (Hn1 : counts n d1 room t dl) by by apply (counts_strs n d).
  assert (Hc1 : cached_admission d1) by by apply (cached_admission_strs d).
  erewrite bind_ok by (by apply run_cmd_nofault). fold d1.
  set (d2 := SET (roomLikeTotalKey room) (FormatInt (t + count)) (expiry_of n d1 (roomLikeTotalKey room)) d1).
  set (d3 := SET (roomLikeDeltaKey room) (FormatInt (dl + count)) (expiry_of n d2 (roomLikeDeltaKey room)) d2).
  assert (Hd2 : get_number n d2 (roomLikeDeltaKey room) = Some dl).
  { unfold d2. rewrite get_number_SET_ne by auto with keys. apply Hn1. }
  exists d3. split_and!.
  - apply run_cmd_nofault. unfold addLikesScript.
    erewrite bind_ok by (apply INCRBY_ok; [apply Hn1|done]). fold d2.
    by erewrite bind_ok by (by apply INCRBY_ok).
  - unfold d3, d2. repeat apply cached_admission_SET; auto using not_eq_sym with keys.
  - split; unfold d3.
    + rewrite get_number_SET_ne by auto with keys. unfold d2. by apply get_number_INCRBY.
    + by apply get_number_INCRBY.
Qed.

Lemma Add_cached d (r : R) t dl count :
  cached_admission d -> counts n d room t dl -> 1 <= count <= 100 -> in_int64 (t + count) -> in_int64 (dl + count) ->
  exists d', Add_ shards now cfg room user count (mkRedis d n [], r) = (Ok (mkLikeResult count (t + count)), (mkRedis d' n [], r))
    /\ cached_admission d' /\ counts n d' room (t + count) (dl + count).
Proof.
  intros Hc Hn Hcount Ht Hd. destruct (AddLikes_nofault d count t dl) as (d' & Hrun & Hc' & Hn'); try done; [lia|].
  exists d'. split; [|done]. unfold Add_, LikeService.Add. fold (roomStatus_ shards now cfg room) (isBanned_ shards now cfg room user).
  replace (_ || _) with false by lia. erewrite bind_ok by (by apply status_read). cbv beta iota.
  rewrite bool_decide_true by done. cbn [negb]. erewrite bind_ok by (by apply ban_read). cbv beta iota.
  erewrite bind_ok by reflexivity. cbn [negb].
  erewrite bind_ok by (by apply zoom_fst_ok, Hrun). done.
Qed.

(** [k] batches of 100 likes at the same instant. *)
Fixpoint burst (k : nat) : M (Redis * R) unit :=
  match k with
  | O => mret tt
  | S k => _ ← Add_ shards now cfg room user 100; burst k
  end.

(** The configured like rate limit has no effect in the deployment: whatever
    [UserRateLimit] is, one user can add any number of batches of 100 likes at the
    same instant and each of them is counted. *)
Theorem like_rate_limit_is_never_applied k d (r : R) t dl :
  cached_admission d -> counts n d room t dl -> 0 <= dl <= t -> t + 100 * Z.of_nat k <= int64_max ->
  exists d', burst k (mkRedis d n [], r) = (Ok tt, (mkRedis d' n [], r))
    /\ counts n d' room (t + 100 * Z.of_nat k) (dl + 100 * Z.of_nat k).
Proof.
  revert d t dl. induction k as [|k IH]; intros d t dl Hc Hn Hle Hmax.
  { exists d. by rewrite Z.mul_0_r, !Z.add_0_r. }
  destruct (Add_cached d r t dl 100) as (d' & Hrun & Hc' & Hn'); try done; [unfold in_int64, int64_min in *; lia..|].
  destruct (IH d' (t + 100) (dl + 100)) as (d2 & Hrun2 & Hn2); [done|done|lia|lia|].
  exists d2. split; [cbn [burst]; by erewrite bind_ok|].
  replace (t + 100 * _) with (t + 100 + 100 * Z.of_nat k) by lia.
  by replace (dl + 100 * _) with (dl + 100 + 100 * Z.of_nat k) by lia.
Qed.
End rate_limit.

Module LikeExamples.
(** Room 7 is live, and banned users are known to the room service. *)
Definition rooms : LikeRooms (list Z) := {|
  lr_Get := fun id => mret (mkRoom id 1 "" "show" StatusLiving (Some 0) None 0);
  lr_IsBanned := fun _ u => gets (fun banned => bool_decide (u ∈ banned)) |}.
Definition cfg : LikeConfig := mkLikeConfig 1 Second Second Second.
Definition start (strs : gmap string (string * option Z)) (fl : list fault) : Redis * list Z := (mkRedis (mkRedisDB strs ∅) 1000 fl, [8]).

Lemma likes_move_both_counters_witness :
  let w := start {[ roomLikeTotalKey 7 := ("10", None); roomLikeDeltaKey 7 := ("3", None) ]} [] in
  exists w', @Add_ _ rooms 16 1000 cfg 7 9 5 w = (Ok (mkLikeResult 5 15), w') /\ counted 1000 7 15 8 w'.1.
Proof.
  eexists. split; [vm_compute; reflexivity|].
  refine (proj2 (proj2 (@likes_move_both_counters _ rooms 16 1000 cfg 1000 7 9 5 10 3
    (start {[ roomLikeTotalKey 7 := ("10", None); roomLikeDeltaKey 7 := ("3", None) ]} []) _ _ _ _ _ eq_refl))).
  - by vm_compute.
  - lia.
  - by vm_compute.
Defined.

Lemma enforced_ban_stops_likes_witness :
  let w := start {[ roomLikeTotalKey 7 := ("10", None); likeBanKey 7 9 := ("1", None) ]} [AckLost (Fresh "timeout")] in
  exists e w', @Add_ _ rooms 16 1000 cfg 7 9 5 w = (Err e, w') /\ counted 1000 7 10 0 w'.1.
Proof.
  eexists _, _. split; [vm_compute; reflexivity|].
  refine (proj2 (@enforced_ban_stops_likes _ rooms 16 1000 cfg 1000 7 9 5 10 0
    (start {[ roomLikeTotalKey 7 := ("10", None); likeBanKey 7 9 := ("1", None) ]} [AckLost (Fresh "timeout")]) _ _ _ _ eq_refl)).
  - by vm_compute.
  - split; [by vm_compute|]. by repeat constructor.
Defined.

Lemma like_rate_limit_is_never_applied_witness :
  let d := mkRedisDB {[ likeRoomStatusKey 7 := ("LIVING", None); likeBanKey 7 9 := ("0", None) ]} ∅ in
  exists d', @burst _ rooms 16 1000 cfg 7 9 50 (mkRedis d 1000 [], []) = (Ok tt, (mkRedis d' 1000 [], []))
    /\ counts 1000 d' 7 5000 5000.
Proof.
  apply (@like_rate_limit_is_never_applied _ rooms 16 1000 cfg 1000 7 9 50
    (mkRedisDB {[ likeRoomStatusKey 7 := ("LIVING", None); likeBanKey 7 9 := ("0", None) ]} ∅) [] 0 0).
  - by vm_compute.
  - by vm_compute.
  - lia.
  - by vm_compute.
Defined.
End LikeExamples.
