(* ===== verification/StatsSpec.v ===== *)
(** What the statistics aggregator guarantees ([internal/stats/aggregator.go]
    over Redis): likes are moved from the pending counter to the announcements
    without being invented, and a tick without failures announces what is pending. *)
From S2P Require Import Prelude GoStrings Mysql Json Realtime Redis RedisSpec Like Stats.

(** ** Counters that never expire *)
Definition num (d : RedisDB) (k : string) : option Z :=
  match strs d !! k with
  | None => Some 0
  | Some (v, None) => ParseInt v
  | Some (_, Some _) => None
  end.
Lemma num_get n d k v : num d k = Some v -> get_number n d k = Some v /\ expiry_of n d k = None.
Proof. unfold num, get_number, GET, expiry_of, live. destruct (strs d !! k) as [[x [e|]]|]; simpl; intros; done. Qed.
Lemma num_SET d k v : in_int64 v -> num (SET k (FormatInt v) None d) k = Some v.
Proof. intros. unfold num, SET. simpl. rewrite lookup_insert_eq. by apply ParseInt_FormatInt. Qed.
Lemma num_SET_ne d k k' v e : k <> k' -> num (SET k v e d) k' = num d k'.
Proof. intros. unfold num, SET. simpl. by rewrite lookup_insert_ne. Qed.
Lemma num_DEL d k : num (DEL k d) k = Some 0.
Proof. unfold num, DEL. simpl. by rewrite lookup_delete_eq. Qed.
Lemma num_DEL_ne d k k' : k <> k' -> num (DEL k d) k' = num d k'.
Proof. intros. unfold num, DEL. simpl. by rewrite lookup_delete_ne. Qed.
Lemma num_strs d d' k : strs d = strs d' -> num d k = num d' k.
Proof. unfold num. by intros ->. Qed.
Lemma INCRBY_num n k c d v : num d k = Some v ->
  INCRBY n k c d = if bool_decide (in_int64 (v + c)) then (Ok (v + c), SET k (FormatInt (v + c)) None d)
                   else (Err (Fresh "ERR increment or decrement would overflow"), d).
Proof.
  intros Hv. destruct (num_get n d k v Hv) as [Hg He]. unfold INCRBY. rewrite Hg. unfold expiry_of in He. rewrite He.
  unfold in_int64. case_bool_decide; [by replace (_ || _) with false by lia|by replace (_ || _) with true by lia].
Qed.

(** ** The realtime service as a log *)
(** Every accepted event with whether its sender was told so. *)
Record Hub : Type := mkHub { hub_log : list (string * RtEvent * bool); hub_faults : list fault }.
Definition hub_publish (channel : string) (e : RtEvent) : M Hub unit := fun h =>
  let (fa, fl) := next_fault (hub_faults h) in
  match fa with
  | NoFault => (Ok tt, mkHub (hub_log h ++ [(channel, e, true)]) fl)
  | Fails err => (Err err, mkHub (hub_log h) fl)
  | AckLost err => (Err err, mkHub (hub_log h ++ [(channel, e, false)]) fl)
  end.
Definition hub_publisher : Publisher (Redis * Hub) := {| Publish := fun channel e => zoom (hub_publish channel e) |}.

(** The [like_delta] of a stats event. *)
Definition event_likes (e : RtEvent) : Z :=
  match rt_Data e with
  | AnyValue (JObj [_; _; (_, JNum n)]) => n
  | _ => 0
  end.
(** The likes of a room whose announcement was acknowledged. *)
Definition announced (room : Z) (h : Hub) : Z :=
  sumZ (fun x => if x.2 && bool_decide (x.1.1 = RoomStats room) then event_likes x.1.2 else 0) (hub_log h).

Lemma RoomStats_inj a b : RoomStats a = RoomStats b -> a = b.
Proof. unfold RoomStats. intros H. by apply app_inj_l, app_inj_r, FormatInt_inj in H. Qed.

(** Pending, in flight ([f]) and announced likes never exceed the total. *)
Definition likes_bounded (room f : Z) (w : Redis * Hub) : Prop :=
  exists t dl, num (r_db w.1) (roomLikeTotalKey room) = Some t /\ num (r_db w.1) (roomLikeDeltaKey room) = Some dl
    /\ 0 <= dl /\ 0 <= f /\ 0 <= announced room w.2 /\ dl + f + announced room w.2 <= t <= int64_max.

Section conservation.
Variables (shards now room : Z).
Implicit Types w : Redis * Hub.
Notation P f := (likes_bounded room f).
#[local] Instance store : StatsStore (Redis * Hub) := redis_stats_store shards now.
#[local] Instance publisher : Publisher (Redis * Hub) := hub_publisher.

(** Commands that leave the counters alone. *)
Definition neutral {A} (c : cmd A) : Prop := forall n d k,
  k = roomLikeTotalKey room \/ k = roomLikeDeltaKey room -> num (c n d).2 k = num d k.

Lemma keeps_neutral {A} (c : cmd A) f : neutral c -> keeps (P f) (zoom (W := Redis * Hub) (run_cmd c)).
Proof.
  intros Hc [s h] (t & dl & Ht & Hd & Hrest). unfold zoom. simpl in *.
  assert (Hs : num (r_db (run_cmd c s).2) (roomLikeTotalKey room) = Some t
               /\ num (r_db (run_cmd c s).2) (roomLikeDeltaKey room) = Some dl).
  { rewrite <- Ht, <- Hd. unfold run_cmd. destruct (next_fault (r_faults s)) as [[|e|e] fl]; [|done|].
    - pose proof (Hc (r_now s) (r_db s)) as H. destruct (c (r_now s) (r_db s)). simpl in *. auto.
    - simpl. auto. }
  destruct (run_cmd c s). simpl in *. exists t, dl. tauto.
Qed.
Lemma neutral_zset {A} (g : Z -> RedisDB -> A * RedisDB) : (forall n d, strs (g n d).2 = strs d) -> neutral (pure_cmd g).
Proof. intros Hg n d k _. unfold pure_cmd. specialize (Hg n d). destruct (g n d). simpl in *. by apply num_strs. Qed.
Lemma neutral_SET k v (e : Z -> option Z) : k <> roomLikeTotalKey room -> k <> roomLikeDeltaKey room ->
  neutral (pure_cmd (fun n d => (tt, SET k v (e n) d))).
Proof. intros ?? n d k' [->| ->]; simpl; by apply num_SET_ne. Qed.
Lemma neutral_get k : neutral (get_cmd k).
Proof. intros n d k' _. unfold get_cmd. by destruct (GET n d k). Qed.

Lemma keeps_zoom_bind {A B} f (m : M Redis A) (k : A -> M Redis B) :
  keeps (P f) (zoom m) -> (forall a, keeps (P f) (zoom (k a))) -> keeps (P f) (zoom (W := Redis * Hub) (m ≫= k)).
Proof.
  intros Hm Hk w Hw. specialize (Hm w Hw). unfold zoom, mbind, M_bind in *. destruct w as [s h]. simpl in *.
  destruct (m s) as [[a|e] s1]; simpl in *; [|done]. exact (Hk a (s1, h) Hm).
Qed.
Lemma keeps_zoom_ret {A} f (r : res A) : keeps (P f) (zoom (W := Redis * Hub) (of_res r)).
Proof. by intros [s h] Hw. Qed.
Lemma keeps_zoom_try {A} f (m : M Redis A) : keeps (P f) (zoom m) -> keeps (P f) (zoom (W := Redis * Hub) (try m)).
Proof. intros Hm [s h] Hw. specialize (Hm (s, h) Hw). unfold zoom, try in *. simpl in *. by destruct (m s). Qed.

Lemma keeps_get_num k f : keeps (P f) (zoom (get_int k)).
Proof.
  unfold get_int. apply keeps_zoom_bind.
  - apply keeps_zoom_try, keeps_zoom_bind; [apply keeps_neutral, neutral_get|]. intros. apply keeps_zoom_ret.
  - intros [a|e]; [apply (keeps_zoom_ret f (Ok _))|]. destruct (same_error e redis_Nil); [apply (keeps_zoom_ret f (Ok _))|apply (keeps_zoom_ret f (Err _))].
Qed.
Lemma keeps_touch now' r f : keeps (P f) (zoom (touch_active shards now' r)).
Proof. apply keeps_neutral, neutral_zset. done. Qed.
Lemma keeps_snapshot r f : keeps (P f) (st_Snapshot r).
Proof.
  simpl. unfold stats_Snapshot, EngagementSnapshot. apply keeps_zoom_bind; [|intros; apply (keeps_zoom_ret f (Ok _))].
  apply keeps_zoom_bind; [apply keeps_neutral, neutral_zset; done|]. intros a.
  apply keeps_zoom_bind; [apply keeps_zoom_ret|]. intros. apply (keeps_zoom_ret f (Ok _)).
Qed.
Lemma keeps_last_viewer r f : keeps (P f) (st_LastPublishedViewer r).
Proof.
  simpl. unfold LastPublishedViewer. apply keeps_zoom_bind; [apply keeps_get_num|].
  intros [v|]; apply (keeps_zoom_ret f (Ok _)).
Qed.
Lemma keeps_set_viewer r v ttl f : keeps (P f) (st_SetPublishedViewer r v ttl).
Proof. simpl. apply keeps_neutral, (neutral_SET _ _ (fun n => ttl_expiry n ttl)); auto with keys. Qed.
Lemma keeps_active_loop n shard since limit perShard out f :
  keeps (P f) (zoom (active_loop shards n shard since limit perShard out)).
Proof.
  revert shard out. induction n as [|n IH]; intros shard out; cbn [active_loop]; [apply (keeps_zoom_ret f (Ok _))|].
  destruct (_ && _); [|apply (keeps_zoom_ret f (Ok _))].
  apply keeps_zoom_bind; [apply keeps_neutral, neutral_zset; done|]. intros. apply IH.
Qed.
Lemma keeps_active since limit f : keeps (P f) (st_ActiveRooms since limit).
Proof. apply keeps_active_loop. Qed.

(** Moves between pending, in flight and announced. *)
Lemma bounded_drop f w : P f w -> P 0 w.
Proof. intros (t & dl & ? & ? & ? & ? & ? & ?). exists t, dl. split_and!; try done; lia. Qed.

(** What an aggregation of room [r] holds of this room's likes. *)
Definition flight (r v : Z) : Z := if decide (r = room) then v else 0.

Definition take_cmd (r : Z) : cmd string := fun n d =>
  match GET n d (roomLikeDeltaKey r) with Some v => (Ok v, DEL (roomLikeDeltaKey r) d) | None => (Err redis_Nil, d) end.
Lemma take_cmd_other r : r <> room -> neutral (take_cmd r).
Proof.
  intros Hne n d k Hk. unfold take_cmd. destruct (GET n d (roomLikeDeltaKey r)); [|done]. simpl. apply num_DEL_ne.
  destruct Hk as [->| ->]; [auto with keys|]. by intros ?%delta_inj.
Qed.

Lemma take_delta r w : P 0 w ->
  wp (st_TakeLikeDelta r)
    (fun v w' => match v with
                 | Ok v => (r = room -> 0 <= v) /\ P (flight r v) w'
                 | Err _ => P 0 w'
                 end) w.
Proof.
  intros Hw. simpl. unfold TakeLikeDelta. fold (take_cmd r). unfold flight. destruct (decide (r = room)) as [->|Hne].
  - destruct w as [s h]. destruct Hw as (t & dl & Ht & Hd & Hdl & _ & Ha & Hle). simpl in *.
    assert (Hdel : P dl (mkRedis (DEL (roomLikeDeltaKey room) (r_db s)) (r_now s) (next_fault (r_faults s)).2, h)).
    { exists t, 0. simpl. rewrite num_DEL_ne, num_DEL by auto with keys. split_and!; try done; lia. }
    assert (Hsame : P 0 (mkRedis (r_db s) (r_now s) (next_fault (r_faults s)).2, h)) by (exists t, dl; simpl; split_and!; try done; lia).
    destruct (num_get (r_now s) _ _ _ Hd) as [Hg _]. unfold get_number in Hg.
    unfold wp, zoom, mbind, M_bind, try, of_res, run_cmd, take_cmd. simpl.
    destruct (next_fault (r_faults s)) as [fa fl]. simpl in *.
    destruct (GET (r_now s) (r_db s) (roomLikeDeltaKey room)) as [x|] eqn:Eg.
    + destruct fa as [|e|e]; simpl.
      * unfold as_int64. rewrite Hg. simpl. split; [lia|exact Hdel].
      * destruct (same_error e redis_Nil); simpl; [split; [lia|done]|done].
      * destruct (same_error e redis_Nil); simpl; [split; [lia|]|]; by apply bounded_drop in Hdel.
    + destruct fa as [|e|e]; simpl; [|destruct (same_error e redis_Nil)..]; simpl; try split; try lia; done.
  - assert (Hk : keeps (P 0) (zoom (W := Redis * Hub) (TakeLikeDelta r))).
    { unfold TakeLikeDelta. fold (take_cmd r). apply keeps_zoom_bind.
      - apply keeps_zoom_try, keeps_zoom_bind; [by apply keeps_neutral, take_cmd_other|]. intros. apply keeps_zoom_ret.
      - intros [a|e]; [apply (keeps_zoom_ret 0 (Ok _))|].
        destruct (same_error e redis_Nil); [apply (keeps_zoom_ret 0 (Ok _))|apply (keeps_zoom_ret 0 (Err _))]. }
    specialize (Hk w Hw). unfold wp. unfold TakeLikeDelta in Hk. fold (take_cmd r) in Hk.
    destruct (zoom _ w) as [[v|e] w']; simpl in *; [|done]. split; [by intros|done].
Qed.

Lemma restore_delta r v w : 0 < v -> P (flight r v) w ->
  P 0 (zoom (RestoreLikeDelta shards (UnixMilli now) r v) w).2.
Proof.
  intros Hv Hw. unfold RestoreLikeDelta. destruct (Z.leb_spec v 0); [lia|].
  pose proof (keeps_touch (UnixMilli now) r _ w Hw) as H1. unfold zoom, mbind, M_bind in *. destruct w as [s h]. simpl in *.
  destruct (touch_active _ _ _ s) as [[a|e] s1]; simpl in *; [|by apply bounded_drop in H1].
  unfold flight in H1. destruct (decide (r = room)) as [->|Hne].
  - destruct H1 as (t & dl & Ht & Hd & Hdl & Hf & Ha & Hle). simpl in *.
    assert (Hin : in_int64 (dl + v)) by (unfold in_int64, int64_min in *; lia).
    assert (Hsame : forall fl, P 0 (mkRedis (r_db s1) (r_now s1) fl, h)) by (intros; exists t, dl; simpl; split_and!; try done; lia).
    assert (Hmove : forall fl, P 0 (mkRedis (SET (roomLikeDeltaKey room) (FormatInt (dl + v)) None (r_db s1)) (r_now s1) fl, h)).
    { intros fl. exists t, (dl + v). simpl. rewrite num_SET_ne, num_SET by auto with keys. split_and!; try done; lia. }
    unfold run_cmd. rewrite (INCRBY_num _ _ _ _ dl) by done. rewrite bool_decide_true by done.
    destruct (next_fault (r_faults s1)) as [[|e|e] fl]; simpl; done.
  - assert (Hn : neutral (fun n => INCRBY n (roomLikeDeltaKey r) v)).
    { intros n d k Hk. unfold INCRBY. destruct (get_number _ _ _); [|done]. destruct (_ || _); [done|]. simpl.
      apply num_SET_ne. destruct Hk as [->| ->]; [auto with keys|]. by intros ?%delta_inj. }
    pose proof (keeps_neutral _ 0 Hn (s1, h) H1) as H2. unfold zoom in H2. simpl in H2.
    destruct (run_cmd _ s1) as [[?|?] s2]; simpl in *; done.
Qed.

Lemma restore_if_ok r v w : P (flight r v) w -> (r = room -> 0 <= v) -> P 0 (Aggregator.restore_if r v w).2.
Proof.
  intros Hw Hv. unfold Aggregator.restore_if. destruct (Z.ltb_spec 0 v); [|by apply bounded_drop in Hw].
  simpl. by apply restore_delta.
Qed.

Lemma announced_snoc h channel e b : announced room (mkHub (hub_log h ++ [(channel, e, b)]) (hub_faults h)) =
  announced room h + (if b && bool_decide (channel = RoomStats room) then event_likes e else 0).
Proof. unfold announced. simpl. rewrite sumZ_app. simpl. lia. Qed.

Lemma publish_stats r v id now' snap w : (r = room -> 0 <= v) -> P (flight r v) w -> sn_LikeDelta snap = v ->
  let (x, w') := Publish (RoomStats r) (Aggregator.stats_event now' r id snap) w in
  match x with Ok _ => P 0 w' | Err _ => P (flight r v) w' end.
Proof.
  intros Hv (t & dl & Ht & Hd & Hdl & Hf & Ha & Hle) Hs. destruct w as [s h]. simpl in *. unfold zoom, hub_publish. simpl.
  assert (Hann : forall b fl, announced room (mkHub (hub_log h ++ [(RoomStats r, Aggregator.stats_event now' r id snap, b)]) fl)
                 = announced room h + (if b then flight r v else 0)).
  { intros b fl. change (announced room (mkHub (hub_log h ++ [(RoomStats r, Aggregator.stats_event now' r id snap, b)]) (hub_faults h)) = announced room h + (if b then flight r v else 0)).
    rewrite announced_snoc. destruct b; simpl; [|done]. unfold flight. case_bool_decide as E.
    - apply RoomStats_inj in E. rewrite decide_True by done. unfold event_likes, Aggregator.stats_event. simpl. lia.
    - rewrite decide_False; [done|]. by intros ->. }
  destruct (next_fault (hub_faults h)) as [[|e|e] fl]; simpl; exists t, dl; simpl; rewrite ?Hann;
    try change (announced room (mkHub (hub_log h) fl)) with (announced room h); split_and!; try done; try lia.
Qed.

Lemma tick_room_bounded activeWindow now' id r : keeps (P 0) (Aggregator.tick_room activeWindow now' id r).
Proof.
  intros w Hw. unfold Aggregator.tick_room. pose proof (take_delta r w Hw) as H1. unfold wp in H1.
  unfold mbind, M_bind, try. destruct (st_TakeLikeDelta r w) as [[v|e] w1]; cbn [fst snd] in *; [|done].
  destruct H1 as [Hv H1]. pose proof (keeps_snapshot r _ w1 H1) as H2.
  destruct (st_Snapshot r w1) as [[snap|e] w2]; cbn [fst snd] in *; [|by apply restore_if_ok].
  pose proof (keeps_last_viewer r _ w2 H2) as H3.
  destruct (st_LastPublishedViewer r w2) as [[[previous seen]|e] w3]; cbn [fst snd] in *; [|by apply restore_if_ok].
  destruct (_ && _); [by apply bounded_drop in H3|].
  pose proof (publish_stats r v id now' (mkSnapshot (sn_ViewerCount snap) (sn_LikeCount snap) v) w3 Hv H3 eq_refl) as H4.
  destruct (Publish _ _ w3) as [[[]|e] w4]; cbn [fst snd] in *; [|by apply restore_if_ok].
  apply (keeps_ignore (P 0)); [apply keeps_set_viewer|done].
Qed.

Lemma tick_bounded activeWindow batch now' ids : keeps (P 0) (Aggregator.Tick activeWindow batch now' ids).
Proof.
  unfold Aggregator.Tick. apply keeps_bind; [apply keeps_active|]. intros rooms.
  induction rooms as [|r rooms IH]; cbn [Aggregator.tick_rooms]; [apply keeps_ret|].
  apply keeps_bind; [apply tick_room_bounded|done].
Qed.

Lemma add_likes_bounded now' r c : 0 < c -> keeps (P 0) (zoom (W := Redis * Hub) (AddLikes shards now' r c)).
Proof.
  intros Hc. unfold AddLikes. apply keeps_zoom_bind; [apply keeps_touch|]. intros _. destruct (decide (r = room)) as [->|Hne].
  - intros [s h] (t & dl & Ht & Hd & Hdl & _ & Ha & Hle). simpl in *. unfold zoom. simpl.
    assert (Hscript : exists x d, addLikesScript (roomLikeTotalKey room) (roomLikeDeltaKey room) c (r_now s) (r_db s) = (x, d)
      /\ forall fl, P 0 (mkRedis d (r_now s) fl, h)).
    { unfold addLikesScript, mbind, M_bind. rewrite (INCRBY_num _ _ _ _ t) by done. case_bool_decide as Hin.
      - rewrite (INCRBY_num _ _ _ _ dl) by (rewrite num_SET_ne; auto with keys).
        rewrite bool_decide_true by (unfold in_int64, int64_min in *; lia).
        eexists _, _. split; [reflexivity|]. intros fl. exists (t + c), (dl + c). simpl.
        rewrite num_SET_ne, num_SET, num_SET by (auto with keys; unfold in_int64, int64_min in *; lia).
        split_and!; try done; unfold in_int64 in *; lia.
      - eexists _, _. split; [reflexivity|]. intros fl. exists t, dl. simpl. split_and!; try done; lia. }
    assert (Hsame : forall fl, P 0 (mkRedis (r_db s) (r_now s) fl, h)) by (intros; exists t, dl; simpl; split_and!; try done; lia).
    destruct Hscript as (x & d & Hx & Hd'). unfold run_cmd. rewrite Hx.
    destruct (next_fault (r_faults s)) as [[|e|e] fl]; simpl; done.
  - apply keeps_neutral. intros n d k Hk. unfold addLikesScript.
    assert (Hincr : forall k', k' <> k -> keeps (fun d' => num d' k = num d k) (INCRBY n k' c)).
    { intros k' Hk' d' Hd'. unfold INCRBY. destruct (get_number _ _ _); [|done]. destruct (_ || _); [done|]. simpl.
      by rewrite num_SET_ne. }
    refine (keeps_bind (fun d' => num d' k = num d k) _ _ _ _ d eq_refl).
    + apply Hincr. destruct Hk as [->| ->]; [by intros ?%total_inj|auto with keys].
    + intros ?. apply keeps_bind; [|intros; apply keeps_ret]. apply Hincr.
      destruct Hk as [->| ->]; [auto with keys|by intros ?%delta_inj].
Qed.

Lemma restore_total_bounded r c : c <= int64_max -> keeps (P 0) (zoom (W := Redis * Hub) (RestoreLikeSnapshot r c)).
Proof.
  intros Hc. unfold RestoreLikeSnapshot. destruct (decide (r = room)) as [->|Hne].
  - intros [s h] (t & dl & Ht & Hd & Hdl & _ & Ha & Hle). simpl in *. unfold zoom. simpl.
    assert (Hsame : forall fl, P 0 (mkRedis (r_db s) (r_now s) fl, h)) by (intros; exists t, dl; simpl; split_and!; try done; lia).
    assert (Hscript : forall fl, P 0 (mkRedis (restoreLikeSnapshotScript (roomLikeTotalKey room) c (r_now s) (r_db s)).2 (r_now s) fl, h)).
    { intros fl. unfold restoreLikeSnapshotScript, mbind, M_bind, gets.
      destruct (num_get (r_now s) _ _ _ Ht) as [Hg _]. rewrite Hg. destruct (Z.ltb_spec t c); simpl; [|by apply Hsame].
      exists c, dl. simpl. rewrite num_SET, num_SET_ne by (auto with keys; unfold in_int64, int64_min in *; lia).
      split_and!; try done; lia. }
    unfold run_cmd. destruct (next_fault (r_faults s)) as [[|e|e] fl]; simpl; [|done|done].
    specialize (Hscript fl). by destruct (restoreLikeSnapshotScript _ _ _ _).
  - apply keeps_neutral. intros n d k Hk. unfold restoreLikeSnapshotScript, mbind, M_bind, gets.
    destruct (get_number _ _ _) as [v|]; [|done]. destruct (v <? c); [|done]. simpl. apply num_SET_ne.
    destruct Hk as [->| ->]; [by intros ?%total_inj|auto with keys].
Qed.
End conservation.

(** ** Any history of likes, ticks and recoveries *)
Inductive stats_op : Type :=
| OpLikes (now room count : Z)
| OpTick (now activeWindow batch : Z) (ids : nat -> string)
| OpRecover (room count : Z).

Section history.
Variable shards : Z.
Definition run_stats (op : stats_op) : M (Redis * Hub) unit :=
  match op with
  | OpLikes now room count => ignore (zoom (AddLikes shards now room count))
  | OpTick now activeWindow batch ids =>
    @Aggregator.Tick _ (redis_stats_store shards now) hub_publisher activeWindow batch now ids
  | OpRecover room count => ignore (zoom (RestoreLikeSnapshot room count))
  end.
(** [Add] counts at least one like; checkpoints are 64-bit integers. *)
Definition valid_op (op : stats_op) : Prop :=
  match op with
  | OpLikes _ _ count => 0 < count
  | OpTick _ _ _ _ => True
  | OpRecover _ count => count <= int64_max
  end.

(** Operations at any server times and with any failures of Redis and of the
    realtime service, from empty counters. *)
Inductive stats_reachable : RedisDB -> list (string * RtEvent * bool) -> Prop :=
| stats_init d :
    (forall room, num d (roomLikeTotalKey room) = Some 0 /\ num d (roomLikeDeltaKey room) = Some 0) -> stats_reachable d []
| stats_step d log op n fl hfl :
    stats_reachable d log -> valid_op op ->
    let w := (run_stats op (mkRedis d n fl, mkHub log hfl)).2 in stats_reachable (r_db w.1) (hub_log w.2).

(** C30 Acknowledged announcements never exceed the likes that were counted: in every
    reachable state, whatever failed, the announcements of a room that were
    acknowledged and the likes still pending add up to no more than the room's total,
    and none of the three is negative. (A publish whose acknowledgement was lost is
    repeated, so more may be sent than is acknowledged.) *)
Theorem acknowledged_likes_were_counted d log room :
  stats_reachable d log ->
  exists t dl, num d (roomLikeTotalKey room) = Some t /\ num d (roomLikeDeltaKey room) = Some dl
    /\ 0 <= dl /\ 0 <= announced room (mkHub log []) /\ dl + announced room (mkHub log []) <= t.
Proof.
  intros Hr. enough (forall n fl hfl, likes_bounded room 0 (mkRedis d n fl, mkHub log hfl)) as H.
  { destruct (H 0 [] []) as (t & dl & ? & ? & ? & ? & ? & ?). exists t, dl. simpl in *. split_and!; try done; lia. }
  induction Hr as [d Hd|d log op n fl hfl Hr IH Hop w].
  - intros. destruct (Hd room). exists 0, 0. unfold announced, int64_max. simpl. split_and!; try done; lia.
  - assert (Hk : keeps (likes_bounded room 0) (run_stats op)).
    { destruct op; simpl in *.
      - by apply keeps_ignore, add_likes_bounded.
      - apply tick_bounded.
      - by apply keeps_ignore, restore_total_bounded. }
    specialize (Hk _ (IH n fl hfl)). fold w in Hk. intros n' fl' hfl'. destruct Hk as (t & dl & Hk). by exists t, dl.
Qed.
End history.

(** ** Progress *)
Section progress.
Variables (shards now activeWindow batch n : Z).
#[local] Instance store_p : StatsStore (Redis * Hub) := redis_stats_store shards now.
#[local] Instance publisher_p : Publisher (Redis * Hub) := hub_publisher.
(** No failure ahead. *)
Notation calm d log := (mkRedis d n [], mkHub log []).

(** The keys of a room that the aggregator reads hold numbers. *)
Definition room_ready (d : RedisDB) (r t dl : Z) : Prop :=
  num d (roomLikeTotalKey r) = Some t /\ num d (roomLikeDeltaKey r) = Some dl
  /\ exists v, get_number n d (roomLastViewerKey r) = Some v.

Lemma viewer_inj a b : roomLastViewerKey a = roomLastViewerKey b -> a = b.
Proof. unfold roomLastViewerKey, roomTag. intros H. by apply app_inj_l, app_inj_r, app_inj_l, app_inj_r, FormatInt_inj in H. Qed.
Lemma room_ready_strs d d' r t dl : strs d = strs d' -> room_ready d r t dl -> room_ready d' r t dl.
Proof. unfold room_ready. intros H. by rewrite !(num_strs d d' _ H), (get_number_strs n d d' _ H). Qed.
(** Changes to another room's delta and published viewers. *)
Lemma room_ready_other d r r' t dl v e : r' <> r -> room_ready d r t dl ->
  room_ready (SET (roomLastViewerKey r') v e d) r t dl /\ room_ready (DEL (roomLikeDeltaKey r') d) r t dl.
Proof.
  unfold room_ready. intros Hne H.
  assert (roomLastViewerKey r' <> roomLastViewerKey r) by by intros ?%viewer_inj.
  assert (roomLikeDeltaKey r' <> roomLikeDeltaKey r) by by intros ?%delta_inj.
  rewrite !num_SET_ne, get_number_SET_ne, !num_DEL_ne, get_number_DEL_ne by auto using not_eq_sym with keys. done.
Qed.

Lemma take_nofault d log r t dl : room_ready d r t dl ->
  exists d', st_TakeLikeDelta r (calm d log) = (Ok dl, calm d' log) /\ room_ready d' r t 0 /\ num d' (roomLikeDeltaKey r) = Some 0
    /\ (d' = d \/ d' = DEL (roomLikeDeltaKey r) d).
Proof.
  intros (Ht & Hd & v & Hv). destruct (num_get n _ _ _ Hd) as [Hg _]. unfold get_number in Hg.
  cbn [st_TakeLikeDelta store_p redis_stats_store]. unfold TakeLikeDelta. fold (take_cmd r).
  destruct (GET n d (roomLikeDeltaKey r)) as [x|] eqn:Eg.
  - change (ParseInt x = Some dl) in Hg. exists (DEL (roomLikeDeltaKey r) d). split_and!; [|split_and!|by apply num_DEL|by right].
    + apply zoom_fst_ok. erewrite (bind_ok _ _ _ (Ok dl)); [done|]. apply try_run.
      erewrite bind_ok by (apply run_cmd_nofault; unfold take_cmd; by rewrite Eg). unfold of_res, as_int64. by rewrite Hg.
    + by rewrite num_DEL_ne by auto with keys.
    + apply num_DEL.
    + exists v. by rewrite get_number_DEL_ne by (apply not_eq_sym; auto with keys).
  - injection Hg as <-. exists d. split_and!; [|split_and!; eauto|done|by left].
    apply zoom_fst_ok. erewrite (bind_ok _ _ _ (Err redis_Nil)); [done|]. apply try_run.
    apply bind_err, run_cmd_nofault. unfold take_cmd. by rewrite Eg.
Qed.

Lemma get_int_nofault d k v : get_number n d k = Some v -> exists x, get_int k (mkRedis d n []) = (Ok x, mkRedis d n []).
Proof.
  unfold get_number, get_int. intros Hv. destruct (GET n d k) as [s|] eqn:Eg.
  - change (ParseInt s = Some v) in Hv. exists (Some v). erewrite (bind_ok _ _ _ (Ok v)); [done|]. apply try_run.
    erewrite bind_ok by (apply run_cmd_nofault; unfold get_cmd; by rewrite Eg). unfold of_res, as_int64. by rewrite Hv.
  - exists None. erewrite (bind_ok _ _ _ (Err redis_Nil)); [done|]. apply try_run, bind_err, run_cmd_nofault.
    unfold get_cmd. by rewrite Eg.
Qed.

Lemma snapshot_nofault d log r t dl : room_ready d r t dl ->
  exists d' snap, st_Snapshot r (calm d log) = (Ok snap, calm d' log) /\ strs d' = strs d.
Proof.
  intros (Ht & _ & _). destruct (num_get n _ _ _ Ht) as [Hg _]. unfold get_number in Hg.
  set (d' := ZREMRANGEBYSCORE (roomViewersKey r) (UnixMilli now) d). exists d'.
  exists (mkSnapshot (ZCARD (roomViewersKey r) d') t 0). split; [|done].
  apply zoom_fst_ok. unfold stats_Snapshot, EngagementSnapshot.
  erewrite (bind_ok _ _ _ (ZCARD (roomViewersKey r) d', t)); [done|].
  erewrite bind_ok by by apply run_cmd_nofault. cbv beta. fold d'.
  erewrite (bind_ok _ _ _ t); [done|]. unfold of_res, as_int64. cbn [snd].
  replace (GET n d' (roomLikeTotalKey r)) with (GET n d (roomLikeTotalKey r)) by done.
  destruct (GET n d (roomLikeTotalKey r)) as [x|]; cbn [from_option id]; [change (ParseInt x = Some t) in Hg; by rewrite Hg|by injection Hg as <-].
Qed.

(** One room: what was pending is announced; other rooms are untouched. *)
Lemma tick_room_nofault id r d log t dl : room_ready d r t dl ->
  exists d' log', Aggregator.tick_room activeWindow now id r (calm d log) = (Ok tt, calm d' log')
    /\ num d' (roomLikeDeltaKey r) = Some 0
    /\ (forall room, announced room (mkHub log' []) = announced room (mkHub log []) + flight room r dl)
    /\ (forall r', r' <> r -> num d' (roomLikeDeltaKey r') = num d (roomLikeDeltaKey r'))
    /\ forall r' t' dl', r' <> r -> room_ready d r' t' dl' -> room_ready d' r' t' dl'.
Proof.
  intros Hr. destruct (take_nofault d log r t dl Hr) as (d1 & E1 & Hr1 & Hz1 & Hd1).
  destruct (snapshot_nofault d1 log r t 0 Hr1) as (d2 & snap & E2 & Hs2).
  apply (room_ready_strs d1 d2) in Hr1; [|done]. pose proof Hr1 as (_ & _ & v & Hv).
  destruct (get_int_nofault d2 _ v Hv) as [x Ex].
  assert (E3 : exists p b, st_LastPublishedViewer r (calm d2 log) = (Ok (p, b), calm d2 log)).
  { destruct x as [x|]; [exists x, true|exists 0, false]; apply zoom_fst_ok; unfold LastPublishedViewer;
      [rewrite (bind_ok _ _ _ (Some x) _ Ex)|rewrite (bind_ok _ _ _ None _ Ex)]; done. }
  destruct E3 as (p & b & E3).
  assert (Hother : forall r' t' dl', r' <> r -> room_ready d r' t' dl' -> room_ready d2 r' t' dl').
  { intros r' t' dl' Hne H'. apply (room_ready_strs d1); [done|]. destruct Hd1 as [->| ->]; [done|].
    by apply (room_ready_other d r' r t' dl' "" None). }
  assert (Hnum : forall r', r' <> r -> num d2 (roomLikeDeltaKey r') = num d (roomLikeDeltaKey r')).
  { intros r' Hne. rewrite (num_strs d2 d1) by done. destruct Hd1 as [->| ->]; [done|].
    apply num_DEL_ne. by intros ?%delta_inj. }
  unfold Aggregator.tick_room. erewrite bind_ok by (by apply try_run). cbv beta iota.
  erewrite bind_ok by (by apply try_run). cbv beta iota zeta. erewrite bind_ok by (by apply try_run). cbv beta iota.
  cbn [sn_ViewerCount].
  destruct ((dl =? 0) && _) eqn:Eskip.
  - exists d2, log. split_and!; [done|by rewrite <- (num_strs d1 d2)| |done|done].
    intros room. apply andb_true_iff in Eskip as [Edl _]. unfold flight. destruct (decide _); lia.
  - erewrite bind_ok by by apply try_run. cbv beta iota.
    eexists _, _. split; [reflexivity|]. split_and!.
    + simpl. rewrite num_SET_ne by auto with keys. by rewrite <- (num_strs d1 d2).
    + intros room. change (announced room (mkHub (log ++ [(RoomStats r, Aggregator.stats_event now r id
         (mkSnapshot (sn_ViewerCount snap) (sn_LikeCount snap) dl), true)]) []) = announced room (mkHub log []) + flight room r dl).
      unfold announced. cbn [hub_log]. rewrite sumZ_app. cbn [sumZ foldr fst snd andb]. rewrite Z.add_0_r. f_equal.
      unfold flight. case_bool_decide as E.
      * apply RoomStats_inj in E. by rewrite decide_True.
      * rewrite decide_False; [done|]. by intros ->.
    + intros r' Hne. simpl. rewrite num_SET_ne by auto with keys. by apply Hnum.
    + intros r' t' dl' Hne H'. simpl. apply (room_ready_other d2 r' r); auto.
Qed.

Lemma active_nofault since limit d log :
  exists rooms d', st_ActiveRooms since limit (calm d log) = (Ok rooms, calm d' log) /\ strs d' = strs d.
Proof.
  cbn [st_ActiveRooms store_p redis_stats_store]. unfold ActiveRooms.
  generalize (Z.to_nat (shards_or_default shards)) as k. generalize (UnixMilli since) as u.
  set (l := if limit <=? 0 then _ else _). intros u k. generalize ((l + shards_or_default shards - 1) / shards_or_default shards) as per.
  intros per. generalize 0 as shard, (@nil Z) as out. revert d. induction k as [|k IH]; intros d shard out; cbn [active_loop].
  - by exists out, d.
  - destruct (_ && _); [|by exists out, d].
    set (d1 := ZREMRANGEBYSCORE (activeStatsRoomsKey shard) u d).
    destruct (IH d1 (shard + 1) (take_ids l out (map fst (take (Z.to_nat per) (rev (ranked (zset d1 (activeStatsRoomsKey shard))))))))
      as (rooms & d' & E & Hs).
    exists rooms, d'. split; [|by rewrite Hs]. revert E. unfold zoom. simpl.
    erewrite bind_ok by by apply run_cmd_nofault. fold d1. done.
Qed.

Lemma tick_rooms_nofault ids rooms pending d log :
  NoDup rooms -> (forall r, r ∈ rooms -> exists t, room_ready d r t (pending r)) ->
  exists d' log', Aggregator.tick_rooms activeWindow now ids rooms (calm d log) = (Ok tt, calm d' log')
    /\ (forall r, r ∉ rooms -> num d' (roomLikeDeltaKey r) = num d (roomLikeDeltaKey r))
    /\ forall r, if bool_decide (r ∈ rooms)
         then num d' (roomLikeDeltaKey r) = Some 0 /\ announced r (mkHub log' []) = announced r (mkHub log []) + pending r
         else announced r (mkHub log' []) = announced r (mkHub log []).
Proof.
  revert d log. induction rooms as [|r rooms IH]; intros d log Hnd Hready; cbn [Aggregator.tick_rooms].
  { exists d, log. split_and!; [done|done|]. intros r. by rewrite bool_decide_false by set_solver. }
  apply NoDup_cons in Hnd as [Hr Hnd]. destruct (Hready r) as [t Ht]; [by left|].
  destruct (tick_room_nofault (ids (length rooms)) r d log t (pending r) Ht) as (d1 & log1 & E1 & Hz & Ha & Hn & Hother).
  destruct (IH d1 log1 Hnd) as (d2 & log2 & E2 & Hn2 & Hall).
  { intros r' Hr'. destruct (Hready r') as [t' Ht']; [by right|]. exists t'. apply Hother; [|done]. by intros ->. }
  exists d2, log2. split_and!.
  - by erewrite bind_ok.
  - intros r' [Hne Hr']%not_elem_of_cons. by rewrite Hn2, Hn.
  - intros r'. specialize (Hall r'). rewrite Ha in Hall. unfold flight in Hall. destruct (decide (r' = r)) as [->|Hne].
    + rewrite bool_decide_false in Hall by done. rewrite bool_decide_true by by left. rewrite decide_True in Hall by done.
      split; [by rewrite Hn2|done].
    + rewrite decide_False, Z.add_0_r in Hall by done.
      destruct (decide (r' ∈ rooms)); [rewrite bool_decide_true in * by (done || by right)|rewrite bool_decide_false in * by set_solver]; exact Hall.
Qed.


(** Progress: without failures a tick announces everything that was pending in
    every active room, and nothing for the others. *)
Theorem tick_announces_pending_likes ids d log rooms d1 pending :
  st_ActiveRooms (now - activeWindow) batch (calm d log) = (Ok rooms, calm d1 log) -> NoDup rooms ->
  (forall r, r ∈ rooms -> exists t, room_ready d r t (pending r)) ->
  exists d' log', Aggregator.Tick activeWindow batch now ids (calm d log) = (Ok tt, calm d' log')
    /\ forall r, if bool_decide (r ∈ rooms)
         then num d' (roomLikeDeltaKey r) = Some 0 /\ announced r (mkHub log' []) = announced r (mkHub log []) + pending r
         else announced r (mkHub log' []) = announced r (mkHub log []).
Proof.
  intros Hact Hnd Hready. destruct (active_nofault (now - activeWindow) batch d log) as (rooms' & d1' & E & Hs).
  rewrite Hact in E. injection E as <- <-.
  destruct (tick_rooms_nofault ids rooms pending d1 log Hnd) as (d2 & log2 & E2 & _ & Hall).
  { intros r Hr. destruct (Hready r Hr) as [t Ht]. exists t. by apply (room_ready_strs d). }
  exists d2, log2. split; [|done]. unfold Aggregator.Tick. by erewrite bind_ok.
Qed.
End progress.

Module StatsExamples.
Definition empty : RedisDB := mkRedisDB ∅ ∅.
Definition hour : Z := 3600 * Second.
(** Likes, a tick whose announcement is delivered but not acknowledged, another tick. *)
Definition s1 : Redis * Hub := (run_stats 4 (OpLikes 1000 7 5) (mkRedis empty 0 [], mkHub [] [])).2.
Definition s2 : Redis * Hub :=
  (run_stats 4 (OpTick Second hour 100 (fun _ => "e1")) (mkRedis (r_db s1.1) 0 [], mkHub (hub_log s1.2) [AckLost (Fresh "timeout")])).2.
Definition s3 : Redis * Hub :=
  (run_stats 4 (OpTick (2 * Second) hour 100 (fun _ => "e2")) (mkRedis (r_db s2.1) 0 [], mkHub (hub_log s2.2) [])).2.

Lemma s3_reachable : stats_reachable 4 (r_db s3.1) (hub_log s3.2).
Proof. unfold s3, s2, s1. repeat (apply stats_step; [|by vm_compute]). by apply stats_init. Qed.

Lemma acknowledged_likes_were_counted_witness :
  length (hub_log s3.2) = 2%nat /\ announced 7 s3.2 = 5 /\
  exists t dl, num (r_db s3.1) (roomLikeTotalKey 7) = Some t /\ num (r_db s3.1) (roomLikeDeltaKey 7) = Some dl
    /\ 0 <= dl /\ 0 <= announced 7 (mkHub (hub_log s3.2) []) /\ dl + announced 7 (mkHub (hub_log s3.2) []) <= t.
Proof.
  split; [by vm_compute|]. split; [by vm_compute|].
  exact (acknowledged_likes_were_counted 4 (r_db s3.1) (hub_log s3.2) 7 s3_reachable).
Defined.

Definition scanned : RedisDB :=
  r_db (@st_ActiveRooms _ (redis_stats_store (W := Redis * Hub) 4 Second) (Second - hour) 100 (mkRedis (r_db s1.1) 0 [], mkHub [] [])).2.1.
Lemma tick_announces_pending_likes_witness :
  exists d' log', @Aggregator.Tick _ (redis_stats_store 4 Second) hub_publisher hour 100 Second (fun _ => "e1")
      (mkRedis (r_db s1.1) 0 [], mkHub [] []) = (Ok tt, (mkRedis d' 0 [], mkHub log' []))
    /\ announced 7 (mkHub log' []) = 5.
Proof.
  edestruct (tick_announces_pending_likes 4 Second hour 100 0 (fun _ => "e1") (r_db s1.1) [] [7] scanned (fun _ => 5))
    as (d' & log' & Hrun & Hall).
  - vm_compute. reflexivity.
  - apply NoDup_singleton.
  - intros r ->%list_elem_of_singleton. exists 5. split_and!; [by vm_compute|by vm_compute|]. exists 0. by vm_compute.
  - exists d', log'. split; [exact Hrun|]. exact (proj2 (Hall 7)).
Defined.
End StatsExamples.
