(* ===== verification/ViewerSpec.v ===== *)
(** Viewer presence ([internal/viewer/service.go] over the scripts of
    [internal/store/redisstore/redis.go]) against a map from each user to the time
    the last touch expires. *)
From S2P Require Import Prelude GoStrings Mysql Redis RedisSpec Like Stats.

(** ** Sorted sets by key *)
Lemma zset_set d k z : zset (set_zset k z d) k = z.
Proof. unfold zset, set_zset. simpl. by rewrite lookup_insert_eq. Qed.
Lemma zset_set_ne d k k' z : k <> k' -> zset (set_zset k z d) k' = zset d k'.
Proof. intros. unfold zset, set_zset. simpl. by rewrite lookup_insert_ne. Qed.
Lemma zset_ZADD_NX_ne d k k' m s : k <> k' -> zset (ZADD_NX k m s d) k' = zset d k'.
Proof. intros. unfold ZADD_NX. destruct (_ !! m); [done|]. by apply zset_set_ne. Qed.
Lemma zset_fold_ZREM_ne (l : list (string * Z)) k k' d : k <> k' ->
  zset (fold_left (fun d kv => ZREM k kv.1 d) l d) k' = zset d k'.
Proof. intros Hk. revert d. induction l as [|x l IH]; intros d; simpl; [done|]. rewrite IH. by apply zset_set_ne. Qed.

Lemma join_ne_viewers a b : roomViewerJoinKey a <> roomViewersKey b.
Proof.
  unfold roomViewerJoinKey, roomViewersKey. apply last_char_ne. rewrite !string_assoc, !last_char_app. done.
Qed.
Lemma active_ne_viewers s b : activeStatsRoomsKey s <> roomViewersKey b.
Proof.
  unfold activeStatsRoomsKey, roomViewersKey. apply last_char_ne. rewrite !string_assoc, !last_char_app.
  destruct (last_char_FormatInt s) as (d & Hd & Hl). destruct (FormatInt s) as [|c t]; [done|].
  rewrite last_char_app, Hl. intros [= H]. by apply (digit_is_digit _ _ Hd) in H.
Qed.

(** ** The abstract view *)
(** User to expiry time, in milliseconds. *)
Notation presence := (gmap Z Z).
Definition present_at (t : Z) (a : presence) : presence := filter (fun kv : Z * Z => t < kv.2) a.

Inductive viewer_op : Type :=
| VTouch (now user ttl : Z)
| VLeave (user : Z).

Section viewers.
Variables (shards room n : Z).

Definition run_viewer (op : viewer_op) : M Redis Z :=
  match op with
  | VTouch now user ttl => TouchViewer shards now room user ttl
  | VLeave user => RemoveViewer room user
  end.
Definition spec_viewer (op : viewer_op) (a : presence) : presence :=
  match op with
  | VTouch now user ttl => <[user := now + Milliseconds ttl]> a
  | VLeave user => delete user a
  end.
(** The latest touch time of a history that began at [t]. *)
Definition op_time (op : viewer_op) (t : Z) : Z := match op with VTouch now _ _ => now | VLeave _ => t end.

(** The sorted set holds the users whose touch had not expired at [t]. *)
Definition shows (t : Z) (a : presence) (d : RedisDB) : Prop :=
  zset d (roomViewersKey room) = kmap FormatInt (present_at t a).

#[local] Instance FormatInt_Inj : Inj eq eq FormatInt.
Proof. intros a b. apply FormatInt_inj. Qed.

Lemma filter_kmap t (m : presence) :
  filter (fun kv : string * Z => t < kv.2) (kmap FormatInt m : gmap string Z) = kmap FormatInt (present_at t m).
Proof.
  apply map_eq. intros k. apply option_eq. intros e. unfold present_at.
  rewrite map_lookup_filter_Some, !lookup_kmap_Some by apply _. simpl. setoid_rewrite map_lookup_filter_Some. simpl. split.
  - intros [(j & -> & Hj) Ht]. eauto.
  - intros (j & -> & Hj & Ht). eauto.
Qed.
Lemma size_kmap_FormatInt (m : presence) : size (kmap FormatInt m : gmap string Z) = size m.
Proof. rewrite <- !length_map_to_list, map_to_list_kmap by apply _. apply length_fmap. Qed.
Lemma present_insert t t' u e a : t <= t' -> present_at t' (<[u := e]> (present_at t a)) = present_at t' (<[u := e]> a).
Proof.
  intros Hle. apply map_eq. intros k. apply option_eq. intros x. unfold present_at.
  rewrite !map_lookup_filter_Some, !lookup_insert_Some, map_lookup_filter_Some. simpl. naive_solver lia.
Qed.
Lemma present_delete t u a : delete u (present_at t a) = present_at t (delete u a).
Proof.
  apply map_eq. intros k. apply option_eq. intros x. unfold present_at.
  rewrite !map_lookup_filter_Some, !lookup_delete_Some, map_lookup_filter_Some. simpl. naive_solver.
Qed.

(** One operation, without failures, refines its abstract step. *)
Lemma viewer_step op t a d :
  t <= op_time op t -> shows t a d ->
  exists r d', run_viewer op (mkRedis d n []) = (Ok r, mkRedis d' n [])
    /\ shows (op_time op t) (spec_viewer op a) d'
    /\ match op with VTouch now _ _ => r = Z.of_nat (size (present_at now (spec_viewer op a))) | VLeave _ => True end.
Proof.
  intros Ht Hs. destruct op as [now user ttl|user]; cbn [run_viewer op_time spec_viewer] in *.
  - unfold TouchViewer.
    set (d0 := ZADD (activeStatsRoomsKey (activeRoomShard shards room)) (FormatInt room) now d).
    assert (H0 : zset d0 (roomViewersKey room) = kmap FormatInt (present_at t a)).
    { unfold d0, ZADD. by rewrite zset_set_ne by apply active_ne_viewers. }
    erewrite bind_ok by by apply run_cmd_nofault. fold d0.
    eexists _, _. split; [apply run_cmd_nofault; reflexivity|].
    match goal with |- shows _ _ (ZREMRANGEBYSCORE _ _ ?x) /\ _ => set (d1 := x) end.
    assert (H1 : zset d1 (roomViewersKey room) = <[FormatInt user := now + Milliseconds ttl]> (zset d0 (roomViewersKey room))).
    { unfold d1. rewrite zset_fold_ZREM_ne, zset_ZADD_NX_ne by apply join_ne_viewers. unfold ZADD. by rewrite zset_set. }
    assert (H2 : zset (ZREMRANGEBYSCORE (roomViewersKey room) now d1) (roomViewersKey room)
                 = kmap FormatInt (present_at now (<[user := now + Milliseconds ttl]> a))).
    { unfold ZREMRANGEBYSCORE. rewrite zset_set, H1, H0, <- kmap_insert by apply _. by rewrite filter_kmap, present_insert. }
    split; [exact H2|]. unfold ZCARD. rewrite H2. by rewrite size_kmap_FormatInt.
  - unfold RemoveViewer. eexists _, _. split; [apply run_cmd_nofault; reflexivity|]. split; [|done].
    unfold shows, ZREM. rewrite zset_set_ne by apply join_ne_viewers. rewrite zset_set, Hs, <- kmap_delete by apply _.
    by rewrite present_delete.
Qed.

(** Histories with touches in time order. *)
Fixpoint ordered (t : Z) (ops : list viewer_op) : Prop :=
  match ops with [] => True | op :: ops => t <= op_time op t /\ ordered (op_time op t) ops end.
Fixpoint run_viewers (ops : list viewer_op) : M Redis unit :=
  match ops with [] => mret tt | op :: ops => _ ← run_viewer op; run_viewers ops end.
Fixpoint end_time (t : Z) (ops : list viewer_op) : Z :=
  match ops with [] => t | op :: ops => end_time (op_time op t) ops end.

Lemma viewers_run ops t a d : ordered t ops -> shows t a d ->
  exists d', run_viewers ops (mkRedis d n []) = (Ok tt, mkRedis d' n [])
    /\ shows (end_time t ops) (fold_left (fun a op => spec_viewer op a) ops a) d'.
Proof.
  revert t a d. induction ops as [|op ops IH]; intros t a d Ho Hs; cbn [ordered run_viewers end_time fold_left] in *.
  { by exists d. }
  destruct Ho as [Ht Ho]. destruct (viewer_step op t a d Ht Hs) as (r & d1 & E & Hs1 & _).
  destruct (IH _ _ d1 Ho Hs1) as (d2 & E2 & Hs2). exists d2. split; [by erewrite bind_ok|done].
Qed.

(** Presence: after any history of touches (in time order) and leaves of an
    empty room, a touch at [now] answers the number of users whose last operation
    was a touch that has not expired at [now], the toucher included when the
    time-to-live is at least a millisecond. *)
Theorem touch_counts_present_viewers ops d now user ttl :
  zset d (roomViewersKey room) = ∅ -> ordered 0 ops -> end_time 0 ops <= now ->
  let a := <[user := now + Milliseconds ttl]> (fold_left (fun a op => spec_viewer op a) ops ∅) in
  exists d', (_ ← run_viewers ops; TouchViewer shards now room user ttl) (mkRedis d n [])
    = (Ok (Z.of_nat (size (present_at now a))), mkRedis d' n []) /\ shows now a d'.
Proof.
  intros Hd Ho Hend a. destruct (viewers_run ops 0 ∅ d Ho) as (d1 & E1 & Hs1); [by unfold shows; rewrite Hd|].
  destruct (viewer_step (VTouch now user ttl) _ _ d1 Hend Hs1) as (r & d2 & E2 & Hs2 & Hr).
  exists d2. erewrite bind_ok by exact E1. cbn [run_viewer] in E2. rewrite E2. simpl in Hr. by subst r.
Qed.
End viewers.

Module ViewerExamples.
Definition ops : list viewer_op := [VTouch 1000 1 Minute; VTouch 2000 2 Second; VTouch 2500 3 Minute; VLeave 3].
Lemma touch_counts_present_viewers_witness :
  exists d', (_ ← run_viewers 16 7 ops; TouchViewer 16 3000 7 4 Minute) (mkRedis (mkRedisDB ∅ ∅) 0 [])
    = (Ok 2, mkRedis d' 0 []).
Proof.
  destruct (touch_counts_present_viewers 16 7 0 ops (mkRedisDB ∅ ∅) 3000 4 Minute) as (d' & E & _).
  - reflexivity.
  - vm_compute. intuition discriminate.
  - by vm_compute.
  - exists d'. rewrite E. reflexivity.
Defined.
End ViewerExamples.
