(* ===== verification/SnapshotSpec.v ===== *)
(** What the like snapshotter guarantees ([internal/like/snapshot.go]): at start
    every checkpoint in MySQL is restored into Redis, page by page, and no total is
    lowered. *)
From S2P Require Import Prelude GoStrings Mysql Redis RedisSpec Like Stats Instances.

(** ** Pages of a sorted table *)
Definition cp_lt (a b : Checkpoint) : Prop := cp_RoomID a < cp_RoomID b.
Definition after_id (x : Z) (l : list Checkpoint) : list Checkpoint := List.filter (fun c => x <? cp_RoomID c) l.

Lemma strictly_sorted l : StronglySorted cp_le l -> NoDup (map cp_RoomID l) -> StronglySorted cp_lt l.
Proof.
  induction 1 as [|c l Hs IH Hc]; intros Hnd; [constructor|]. apply NoDup_cons in Hnd as [Hn Hnd].
  constructor; [auto|]. rewrite List.Forall_forall in *. intros x Hx. specialize (Hc x Hx). unfold cp_le, cp_lt in *.
  assert (cp_RoomID c <> cp_RoomID x); [|lia]. intros E. apply Hn. rewrite E. apply list_elem_of_In, in_map, Hx.
Qed.
Lemma after_all x l : Forall (fun c => x < cp_RoomID c) l -> after_id x l = l.
Proof. induction 1 as [|c l Hc Hl IH]; simpl; [done|]. destruct (Z.ltb_spec x (cp_RoomID c)); [by rewrite IH|lia]. Qed.
Lemma after_none x l : Forall (fun c => cp_RoomID c <= x) l -> after_id x l = [].
Proof. induction 1 as [|c l Hc Hl IH]; simpl; [done|]. by destruct (Z.ltb_spec x (cp_RoomID c)); [lia|]. Qed.
Lemma after_after x y l : x <= y -> after_id y (after_id x l) = after_id y l.
Proof.
  intros Hle. induction l as [|c l IH]; simpl; [done|].
  destruct (Z.ltb_spec x (cp_RoomID c)); simpl; destruct (Z.ltb_spec y (cp_RoomID c)); try lia; by rewrite IH.
Qed.
Definition last_id (x : Z) (l : list Checkpoint) : Z := fold_left (fun _ c => cp_RoomID c) l x.
(** After a page, the rows beyond its last id are the rest. *)
Lemma after_page x p q : StronglySorted cp_lt (p ++ q) -> p <> [] -> after_id (last_id x p) (p ++ q) = q.
Proof.
  intros Hs Hp. destruct (exists_last Hp) as (p' & c & ->). unfold last_id. rewrite fold_left_app. simpl.
  rewrite <- app_assoc in *. simpl in *. unfold after_id. rewrite List.filter_app.
  assert (Hpre : forall l1 l2, StronglySorted cp_lt (l1 ++ c :: l2) -> Forall (fun a => cp_RoomID a <= cp_RoomID c) l1
                 /\ Forall (fun a => cp_RoomID c < cp_RoomID a) l2).
  { clear. induction l1 as [|a l1 IH]; intros l2 H; apply StronglySorted_inv in H as [H Ha].
    - split; [done|]. exact Ha.
    - destruct (IH l2 H) as [H1 H2]. split; [|done]. constructor; [|done].
      rewrite List.Forall_forall in Ha. assert (cp_lt a c) by (apply Ha, in_or_app; right; by left). unfold cp_lt in *. lia. }
  destruct (Hpre p' q Hs) as [H1 H2]. fold (after_id (cp_RoomID c) p'). rewrite (after_none _ _ H1). simpl.
  destruct (Z.ltb_spec (cp_RoomID c) (cp_RoomID c)); [lia|]. exact (after_all _ _ H2).
Qed.

Section recovery.
Context `{MySQLServer}.
Variables (shards n : Z) (table : SnapshotDB).
#[local] Instance source : SnapshotSource (Redis * Mysql SnapshotDB) := redis_snapshot_source shards.

Definition all_checkpoints : list Checkpoint :=
  merge_sort cp_le (map (fun kv => mkCheckpoint kv.1 kv.2.1) (map_to_list table)).
#[local] Instance cp_le_total : Total cp_le.
Proof. intros a b. unfold cp_le. lia. Qed.
#[local] Instance cp_le_trans : Transitive cp_le.
Proof. intros a b c. unfold cp_le. lia. Qed.

Lemma all_perm : Permutation all_checkpoints (map (fun kv => mkCheckpoint kv.1 kv.2.1) (map_to_list table)).
Proof. apply merge_sort_Permutation. Qed.
Lemma all_sorted : StronglySorted cp_lt all_checkpoints.
Proof.
  apply strictly_sorted; [apply Sorted_StronglySorted; [apply _|]; apply Sorted_merge_sort; apply _|].
  rewrite all_perm, map_map. simpl. apply NoDup_fst_map_to_list.
Qed.
Lemma elem_of_all c : c ∈ all_checkpoints <-> exists t, table !! cp_RoomID c = Some (cp_LikeCount c, t).
Proof.
  rewrite all_perm, list_elem_of_In, in_map_iff. split.
  - intros ([r [v t]] & <- & Hin). rewrite <- list_elem_of_In in Hin. apply elem_of_map_to_list in Hin. by exists t.
  - intros [t Ht]. exists (cp_RoomID c, (cp_LikeCount c, t)). split; [by destruct c|].
    rewrite <- list_elem_of_In. by apply elem_of_map_to_list.
Qed.

(** What restoring a list of checkpoints makes of a total. *)
Definition raised (l : list Checkpoint) (r v : Z) : Z :=
  fold_left (fun v c => if cp_RoomID c =? r then Z.max v (cp_LikeCount c) else v) l v.
Definition totals (d d' : RedisDB) (l : list Checkpoint) : Prop :=
  forall r v, get_number n d (roomLikeTotalKey r) = Some v -> get_number n d' (roomLikeTotalKey r) = Some (raised l r v).
Definition readable (d : RedisDB) (l : list Checkpoint) : Prop :=
  Forall (fun c => in_int64 (cp_LikeCount c) /\ exists v, get_number n d (roomLikeTotalKey (cp_RoomID c)) = Some v) l.

Lemma readable_totals d d' l l' : totals d d' l' -> readable d l -> readable d' l.
Proof. intros Ht Hr. eapply Forall_impl; [exact Hr|]. intros c [Hc [v Hv]]. split; [done|]. eauto. Qed.
Lemma raised_app l1 l2 r v : raised (l1 ++ l2) r v = raised l2 r (raised l1 r v).
Proof. apply fold_left_app. Qed.

Lemma restore_one d c : in_int64 (cp_LikeCount c) -> (exists v, get_number n d (roomLikeTotalKey (cp_RoomID c)) = Some v) ->
  exists d', RestoreLikeSnapshot (cp_RoomID c) (cp_LikeCount c) (mkRedis d n []) = (Ok tt, mkRedis d' n []) /\ totals d d' [c].
Proof.
  intros Hin [v Hv]. unfold RestoreLikeSnapshot.
  exists (if v <? cp_LikeCount c then SET (roomLikeTotalKey (cp_RoomID c)) (FormatInt (cp_LikeCount c)) None d else d). split.
  - apply run_cmd_nofault. unfold restoreLikeSnapshotScript, mbind, M_bind, gets. rewrite Hv. by destruct (v <? _).
  - intros r x Hx. unfold raised. simpl. destruct (Z.eqb_spec (cp_RoomID c) r) as [<-|Hne].
    + rewrite Hv in Hx. injection Hx as <-. destruct (Z.ltb_spec v (cp_LikeCount c)).
      * rewrite get_number_SET by done. f_equal. lia.
      * rewrite Hv. f_equal. lia.
    + destruct (v <? _); [|done]. rewrite get_number_SET_ne; [done|]. by intros ?%total_inj.
Qed.

Lemma restore_all_nofault l d m errs after : readable d l ->
  exists d', Snapshotter.restore_all l errs after (mkRedis d n [], m) = (Ok (errs, last_id after l), (mkRedis d' n [], m))
    /\ totals d d' l.
Proof.
  revert d after. induction l as [|c l IH]; intros d after Hr; cbn [Snapshotter.restore_all].
  { exists d. split; [done|]. by intros r v Hv. }
  apply Forall_cons in Hr as [[Hin Hv] Hr]. destruct (restore_one d c Hin Hv) as (d1 & E1 & T1).
  destruct (IH d1 (cp_RoomID c)) as (d2 & E2 & T2); [by apply (readable_totals d _ _ [c])|].
  exists d2. split.
  - erewrite bind_ok; [|apply try_run, zoom_fst_ok, E1]. exact E2.
  - intros r v Hrv. rewrite (T2 r _ (T1 r v Hrv)). done.
Qed.

(** The page loop: [fuel] pages are enough for fewer than [fuel] rows. *)
Lemma recover_loop_nofault fuel limit d nm errs after l :
  1 <= limit -> l = after_id after all_checkpoints -> (length l < fuel)%nat -> readable d l ->
  exists d', Snapshotter.recover_loop fuel limit errs after (mkRedis d n [], mkMysql table None nm [])
      = (Ok (Some errs), (mkRedis d' n [], mkMysql table None nm [])) /\ totals d d' l.
Proof.
  intros Hlim. revert d after l. induction fuel as [|fuel IH]; intros d after l Hl Hf Hr; [lia|]. cbn [Snapshotter.recover_loop].
  set (p := take (Z.to_nat limit) l). set (q := drop (Z.to_nat limit) l).
  assert (Hpq : l = p ++ q) by (symmetry; apply take_drop).
  assert (Hload : try (cp_LoadAfter after limit) (mkRedis d n [], mkMysql table None nm [])
                  = (Ok (Ok p), (mkRedis d n [], mkMysql table None nm []))).
  { apply try_run, zoom_snd_ok, db_exec_nofault. unfold reads, CheckpointRepository.checkpoints_after.
    fold all_checkpoints (after_id after all_checkpoints). by rewrite <- Hl. }
  erewrite bind_ok by exact Hload. cbv beta iota. rewrite Hpq in Hr. apply Forall_app in Hr as [Hrp Hrq].
  destruct (restore_all_nofault p d (mkMysql table None nm []) errs after Hrp) as (d1 & E1 & T1).
  erewrite bind_ok by exact E1. cbv beta iota.
  assert (Hlen : length p = Nat.min (Z.to_nat limit) (length l)) by apply length_take.
  destruct (Z.ltb_spec (Z.of_nat (length p)) limit).
  - exists d1. split; [done|]. replace l with p; [done|]. apply take_ge. lia.
  - assert (Hp : p <> []) by (intros E; rewrite E in *; simpl in *; lia).
    assert (Hs : StronglySorted cp_lt l) by (rewrite Hl; apply StronglySorted_filter, all_sorted).
    destruct (IH d1 (last_id after p) q) as (d2 & E2 & T2).
    + rewrite <- (after_page after p q); [|by rewrite <- Hpq|done]. rewrite <- Hpq, Hl. apply after_after.
      destruct (exists_last Hp) as (p' & c & Ep). unfold last_id. rewrite Ep, fold_left_app. simpl.
      assert (Hc : c ∈ l) by (rewrite Hpq, Ep; set_solver).
      rewrite Hl in Hc. apply list_elem_of_In, filter_In in Hc. lia.
    + unfold q. rewrite length_drop. lia.
    + by apply (readable_totals d _ _ p).
    + exists d2. split; [exact E2|]. intros r v Hv. rewrite Hpq, raised_app. by apply T2, T1.
Qed.

Lemma raised_absent l r v : (forall c, c ∈ l -> cp_RoomID c <> r) -> raised l r v = v.
Proof.
  revert v. induction l as [|c l IH]; intros v Hl; [done|]. unfold raised in *. simpl.
  destruct (Z.eqb_spec (cp_RoomID c) r) as [E|_]; [by apply Hl in E; [|left]|]. apply IH. intros x Hx. apply Hl. by right.
Qed.
Lemma raised_present l c v : StronglySorted cp_lt l -> c ∈ l -> raised l (cp_RoomID c) v = Z.max v (cp_LikeCount c).
Proof.
  intros Hs (l1 & l2 & ->)%list_elem_of_split. rewrite raised_app. unfold raised at 1. simpl. rewrite Z.eqb_refl.
  assert (H12 : (forall x, x ∈ l1 -> cp_RoomID x <> cp_RoomID c) /\ (forall x, x ∈ l2 -> cp_RoomID x <> cp_RoomID c)).
  { clear v. induction l1 as [|a l1 IH]; simpl in Hs; apply StronglySorted_inv in Hs as [Hs Ha]; rewrite List.Forall_forall in Ha.
    - split; [set_solver|]. intros x Hx. apply list_elem_of_In in Hx. specialize (Ha x Hx). unfold cp_lt in Ha. lia.
    - destruct (IH Hs) as [IH1 IH2]. split; [|done]. intros x [->|Hx]%elem_of_cons; [|by apply IH1].
      assert (cp_lt a c) by (apply Ha, in_or_app; right; by left). unfold cp_lt in *. lia. }
  fold (raised l2 (cp_RoomID c) (Z.max (raised l1 (cp_RoomID c) v) (cp_LikeCount c))).
  destruct H12. by rewrite !raised_absent.
Qed.

(** C31 Recovery: with Redis and MySQL available, [Recover] returns without error
    after at most one page more than there are rows, and then the total of every
    room that has a checkpoint is the larger of the two counts, and every other
    total is as it was. *)
Theorem recover_restores_every_checkpoint batch d nm fuel :
  map_Forall (fun r c => 0 < r /\ in_int64 c.1 /\ exists v, get_number n d (roomLikeTotalKey r) = Some v) table ->
  (size table < fuel)%nat ->
  exists d', Snapshotter.Recover batch fuel (mkRedis d n [], mkMysql table None nm [])
      = (Ok (Some []), (mkRedis d' n [], mkMysql table None nm []))
    /\ forall r v, get_number n d (roomLikeTotalKey r) = Some v ->
       get_number n d' (roomLikeTotalKey r) = Some (match table !! r with Some (c, _) => Z.max v c | None => v end).
Proof.
  intros Hall Hfuel.
  assert (Hafter : after_id 0 all_checkpoints = all_checkpoints).
  { apply after_all, List.Forall_forall. intros c Hc. apply list_elem_of_In, elem_of_all in Hc as [t Ht]. apply (Hall _ _ Ht). }
  destruct (recover_loop_nofault fuel (Snapshotter.recover_batch batch) d nm [] 0 all_checkpoints) as (d' & E & T).
  - unfold Snapshotter.recover_batch. destruct (Z.leb_spec batch 0); lia.
  - done.
  - rewrite all_perm, length_map, length_map_to_list. done.
  - apply List.Forall_forall. intros c Hc. apply list_elem_of_In, elem_of_all in Hc as [t Ht]. apply (Hall _ _ Ht).
  - exists d'. split; [exact E|]. intros r v Hv. rewrite (T r v Hv). f_equal.
    destruct (table !! r) as [[c t]|] eqn:Er.
    + apply (raised_present _ (mkCheckpoint r c)); [apply all_sorted|]. apply elem_of_all. by exists t.
    + apply raised_absent. intros c Hc <-. apply elem_of_all in Hc as [t Ht]. congruence.
Qed.
End recovery.

Module SnapshotExamples.
#[local] Existing Instances example_server.
Definition table : SnapshotDB := {[ 3 := (30, 0); 5 := (50, 0); 9 := (90, 0) ]}.
Definition d : RedisDB := mkRedisDB {[ roomLikeTotalKey 5 := ("70", None) ]} ∅.
Lemma recover_restores_every_checkpoint_witness :
  exists d', @Snapshotter.Recover _ (redis_snapshot_source 4) _ 2 4 (mkRedis d 0 [], mkMysql table None 0 [])
      = (Ok (Some []), (mkRedis d' 0 [], mkMysql table None 0 []))
    /\ get_number 0 d' (roomLikeTotalKey 3) = Some 30 /\ get_number 0 d' (roomLikeTotalKey 5) = Some 70.
Proof.
  destruct (recover_restores_every_checkpoint 4 0 table 2 d 0 4) as (d' & E & T).
  - intros r [c t] Hr. unfold table in Hr.
    repeat (apply lookup_insert_Some in Hr as [[<- [= <- <-]]|[_ Hr]];
            [split; [done|]; split; [by vm_compute|]; eexists; vm_compute; reflexivity|]).
    apply lookup_singleton_Some in Hr as [<- [= <- <-]]. split; [done|]. split; [by vm_compute|]. eexists. vm_compute. reflexivity.
  - vm_compute. lia.
  - exists d'. split; [exact E|]. split; [apply (T 3 0)|apply (T 5 70)]; reflexivity.
Defined.
End SnapshotExamples.
