(* ===== verification/Traffic.v ===== *)
(** The danmaku traffic policy ([internal/traffic/policy.go]): degradation mode,
    sample rate and deterministic sampling, with [float64] as IEEE 754 binary64
    ([SpecFloat]). *)
From S2P Require Import Prelude GoStrings Redis.
From Stdlib Require Import SpecFloat.

(** ** [float64] *)
Definition float64 : Type := spec_float.
Definition float_of_Z (z : Z) : float64 := binary_normalize 53 1024 z 0 false.
Definition fmul : float64 -> float64 -> float64 := SFmul 53 1024.
Definition fdiv : float64 -> float64 -> float64 := SFdiv 53 1024.
Definition fadd : float64 -> float64 -> float64 := SFadd 53 1024.
Definition flt : float64 -> float64 -> bool := SFltb.
Definition fle : float64 -> float64 -> bool := SFleb.
Definition is_nan (f : float64) : bool := match f with S754_nan => true | _ => false end.
Definition is_pos_inf (f : float64) : bool := match f with S754_infinity false => true | _ => false end.
Definition is_neg_inf (f : float64) : bool := match f with S754_infinity true => true | _ => false end.
Definition is_zero (f : float64) : bool := match f with S754_zero _ => true | _ => false end.
Definition signbit (f : float64) : bool :=
  match f with S754_zero s | S754_infinity s | S754_finite s _ _ => s | S754_nan => false end.
Definition zero : float64 := S754_zero false.
Definition one : float64 := float_of_Z 1.

(** [math.Max] and [math.Min] *)
Definition math_Max (x y : float64) : float64 :=
  if is_pos_inf x || is_pos_inf y then S754_infinity false
  else if is_nan x || is_nan y then S754_nan
  else if is_zero x && is_zero y then (if signbit x then y else x)
  else if flt y x then x else y.
Definition math_Min (x y : float64) : float64 :=
  if is_neg_inf x || is_neg_inf y then S754_infinity true
  else if is_nan x || is_nan y then S754_nan
  else if is_zero x && is_zero y then (if signbit x then x else y)
  else if flt x y then x else y.

(** [Duration.Seconds()] *)
Definition Seconds (d : Z) : float64 :=
  fadd (float_of_Z (Z.quot d Second)) (fdiv (float_of_Z (Z.rem d Second)) (float_of_Z 1000000000)).

(** ** [hash/fnv]: [New64a] *)
Definition fnv_offset64 : Z := 14695981039346656037.
Definition fnv_prime64 : Z := 1099511628211.
Fixpoint fnv64a (s : string) (h : Z) : Z :=
  match s with
  | EmptyString => h
  | String a s => fnv64a s (Z.lxor h (byteZ a) * fnv_prime64 mod 2 ^ 64)
  end.
Definition Sum64 (key : string) : Z := fnv64a key fnv_offset64.

(** ** The policy *)
Definition Mode : Type := string.
Definition ModeNormal : Mode := "NORMAL".
Definition ModeHot : Mode := "HOT".
Definition ModeProtect : Mode := "PROTECT".

Record TrafficConfig : Type := mkTraffic {
  HotViewers : Z;
  ProtectViewers : Z;
  HotDanmakuRate : Z;
  ProtectDanmakuRate : Z;
  HotSampleRate : float64;
  ProtectSampleRate : float64;
  RateWindow : Z;
  AdaptiveEnabled : bool;
  TargetFanoutRate : float64;
  HotFanoutRate : float64;
  ProtectFanoutRate : float64;
  MinSampleRate : float64 }.

Class Sampler (W : Type) := { sampler_DanmakuPressure : Z -> string -> Z -> M W (Z * Z) }.

Definition keep (key : string) (sample : float64) : bool :=
  if fle one sample then true
  else if fle sample zero then false
  else
    let bucket := Sum64 key mod 10000 in
    flt (float_of_Z bucket) (fmul sample (float_of_Z 10000)).

Section policy.
Context {W : Type} `{Sampler W}.
Variable cfg : TrafficConfig.

Definition rate_per_second (observed : Z) : float64 :=
  let r := if 0 <? RateWindow cfg then fdiv (float_of_Z observed) (Seconds (RateWindow cfg)) else float_of_Z observed in
  if flt r zero then zero else r.
Definition estimated_fanout (viewers observed : Z) : float64 := fmul (float_of_Z viewers) (rate_per_second observed).

Definition decide_mode (viewers observed : Z) (fanout : float64) : Mode :=
  if (ProtectViewers cfg <=? viewers) || (ProtectDanmakuRate cfg <=? observed) || fle (ProtectFanoutRate cfg) fanout then ModeProtect
  else if (HotViewers cfg <=? viewers) || (HotDanmakuRate cfg <=? observed) || fle (HotFanoutRate cfg) fanout then ModeHot
  else ModeNormal.

Definition sample_rate (mode : Mode) (fanout : float64) : float64 :=
  if bool_decide (mode = ModeNormal) then one
  else if AdaptiveEnabled cfg && flt zero fanout && flt zero (TargetFanoutRate cfg) then
    math_Min one (math_Max (MinSampleRate cfg) (fdiv (TargetFanoutRate cfg) fanout))
  else if bool_decide (mode = ModeProtect) then ProtectSampleRate cfg
  else HotSampleRate cfg.

(** Mode, whether to broadcast, sample rate and estimated fan-out. *)
Definition Decide (roomID : Z) (messageID : string) : M W (string * bool * float64 * float64) :=
  p ← sampler_DanmakuPressure roomID messageID (RateWindow cfg);
  let '(viewers, observed) := p : Z * Z in
  let fanout := estimated_fanout viewers observed in
  let mode := decide_mode viewers observed fanout in
  let sample := sample_rate mode fanout in
  mret (mode, keep messageID sample, sample, fanout).
End policy.

(** [redisstore.Store] as the sampler; [now] in milliseconds. *)
Definition redis_sampler (now : Z) : Sampler Redis := {|
  sampler_DanmakuPressure := fun roomID messageID window => DanmakuPressure now roomID messageID window |}.

Example fnv_a : Sum64 "a" = 12638187200555641996.
Proof. vm_compute. reflexivity. Qed.
Example keep_half : map (fun k => keep k (fdiv one (float_of_Z 2))) ["a"; "b"; "c"; "d"] = [true; false; false; false].
Proof. vm_compute. reflexivity. Qed.
