(* ===== verification/TrafficSpec.v ===== *)
(** What the traffic policy guarantees ([internal/traffic/policy.go]): the sample
    rate it decides is a number between the configured minimum and one. *)
From S2P Require Import Prelude GoStrings Traffic.
From Stdlib Require Import SpecFloat.

(** ** Floats *)
Lemma SFcompare_swap x y c : SFcompare x y = Some c -> SFcompare y x = Some (CompOpp c).
Proof.
  destruct x as [s1|s1| |s1 m1 e1], y as [s2|s2| |s2 m2 e2]; simpl; intros [= <-]; try done;
    try (destruct s1; done); try (destruct s1, s2; done); try (destruct s2; done).
  change (Pos.compare_cont Eq m2 m1) with (m2 ?= m1)%positive. change (Pos.compare_cont Eq m1 m2) with (m1 ?= m2)%positive.
  rewrite (Z.compare_antisym e1 e2), (Pos.compare_antisym m1 m2).
  destruct s1, s2; try done; destruct (e1 ?= e2); simpl; by rewrite ?CompOpp_involutive.
Qed.
Lemma SFcompare_number x y : is_nan x = false -> is_nan y = false -> exists c, SFcompare x y = Some c.
Proof. destruct x, y; simpl; try done; eauto. Qed.
Lemma fle_of_not_lt x y : is_nan x = false -> is_nan y = false -> flt x y = false -> fle y x = true.
Proof.
  intros Hx Hy. destruct (SFcompare_number x y Hx Hy) as [c E]. unfold flt, fle, SFltb, SFleb.
  rewrite E, (SFcompare_swap _ _ _ E). by destruct c.
Qed.
Lemma fle_of_lt x y : flt x y = true -> fle x y = true.
Proof. unfold flt, fle, SFltb, SFleb. by destruct (SFcompare x y) as [[]|]. Qed.
Lemma fle_refl x : is_nan x = false -> fle x x = true.
Proof.
  destruct x as [s|s| |s m e]; try done; intros _; unfold fle, SFleb; simpl; [by destruct s|].
  change (Pos.compare_cont Eq m m) with (m ?= m)%positive. rewrite Z.compare_refl, Pos.compare_refl. by destruct s.
Qed.
Lemma fle_number x y : fle x y = true -> is_nan x = false /\ is_nan y = false.
Proof. destruct x, y; done. Qed.

(** *** A quotient of positive floats is a number *)
Lemma shr_nonneg p mrs : 0 <= shr_m mrs -> 0 <= shr_m (iter_pos shr_1 p mrs).
Proof.
  assert (H1 : forall mrs, 0 <= shr_m mrs -> 0 <= shr_m (shr_1 mrs)) by (intros [[|[]|] r s]; simpl; lia).
  revert mrs. induction p as [p IH|p IH|]; intros mrs H; simpl; auto.
Qed.
Lemma shr_fexp_nonneg prec emax m e l : 0 <= m -> 0 <= shr_m (shr_fexp prec emax m e l).1.
Proof.
  intros Hm. unfold shr_fexp, shr. assert (0 <= shr_m (shr_record_of_loc m l)) by by destruct l as [|[]].
  destruct (_ - e); simpl; [done|by apply shr_nonneg|done].
Qed.
Lemma round_not_nan prec emax s m e l : 0 <= m -> is_nan (binary_round_aux prec emax s m e l) = false.
Proof.
  intros Hm. unfold binary_round_aux. pose proof (shr_fexp_nonneg prec emax m e l Hm) as H1.
  destruct (shr_fexp prec emax m e l) as [r1 e1]. simpl in H1.
  assert (H2 : 0 <= round_nearest_even (shr_m r1) (loc_of_shr_record r1)).
  { unfold round_nearest_even. destruct (loc_of_shr_record r1) as [|[]]; try lia. destruct (Z.even _); lia. }
  pose proof (shr_fexp_nonneg prec emax _ e1 loc_Exact H2) as H3.
  destruct (shr_fexp prec emax (round_nearest_even _ _) e1 loc_Exact) as [r2 e2]. simpl in H3.
  destruct (shr_m r2); [done| |lia]. by destruct (_ <=? _).
Qed.
Lemma quotient_is_number x y :
  flt zero x = true -> is_pos_inf x = false -> flt zero y = true -> is_nan (fdiv x y) = false.
Proof.
  unfold fdiv. destruct x as [|[]| |[] m1 e1]; try done. intros _ _. destruct y as [|[]| |[] m2 e2]; try done. intros _.
  unfold SFdiv, SFdiv_core_binary.
  match goal with |- context [Z.div_eucl ?a ?b] => set (m' := a) end.
  destruct (Z.div_eucl m' (Z.pos m2)) as [q r] eqn:E. cbv beta iota zeta. apply round_not_nan.
  assert (0 <= m').
  { unfold m'. match goal with |- context [match ?z with Z0 => _ | _ => _ end] => destruct z end; [lia| |lia].
    apply Z.shiftl_nonneg. lia. }
  replace q with (m' / Z.pos m2) by (unfold Z.div; by rewrite E).
  apply Z.div_pos; lia.
Qed.

(** ** [math.Min] and [math.Max] *)
Lemma min_bounds lo y : fle lo one = true -> fle lo y = true -> fle lo (math_Min one y) = true /\ fle (math_Min one y) one = true.
Proof.
  intros H1 Hy. destruct (fle_number _ _ Hy) as [_ Hn]. unfold math_Min.
  replace (is_neg_inf one) with false by reflexivity. replace (is_nan one) with false by reflexivity.
  replace (is_zero one) with false by reflexivity. cbn [orb andb]. rewrite Hn.
  destruct (is_neg_inf y) eqn:Ei.
  - destruct y as [|[]| |]; try done.
  - destruct (flt one y) eqn:E; [split; [done|by vm_compute]|]. split; [done|].
    apply fle_of_not_lt; [by vm_compute|done|done].
Qed.
Lemma max_lower lo q : is_nan lo = false -> is_nan q = false -> fle lo (math_Max lo q) = true.
Proof.
  intros Hl Hq. unfold math_Max. destruct (is_pos_inf lo || is_pos_inf q).
  { destruct lo as [|[]| |[]]; done. }
  rewrite Hl, Hq. cbn [orb]. destruct (is_zero lo && is_zero q) eqn:Ez.
  - apply andb_true_iff in Ez as [Ez1 Ez2]. destruct lo; try done. destruct q; try done. by destruct (signbit _).
  - destruct (flt q lo) eqn:E; [by apply fle_refl|]. by apply fle_of_not_lt.
Qed.

Section policy.
Variable cfg : TrafficConfig.

(** The sample rates of the configuration are in (0,1] and the target is finite. *)
Definition rates_ok : Prop :=
  Forall (fun r => flt zero r = true /\ fle r one = true) [MinSampleRate cfg; HotSampleRate cfg; ProtectSampleRate cfg]
  /\ is_pos_inf (TargetFanoutRate cfg) = false.
Definition adapts (fanout : float64) : bool := AdaptiveEnabled cfg && flt zero fanout && flt zero (TargetFanoutRate cfg).

Lemma above_positive x y : flt zero x = true -> fle x y = true -> flt zero y = true.
Proof. destruct x as [|[]| |[]]; try done; destruct y as [|[]| |[]]; done. Qed.

(** Bounds: whatever the pressure, the decided sample rate is a number above
    zero and at most one, and not below the configured minimum when the adaptive
    controller decides; in NORMAL mode it is one and every message is broadcast; a
    message is always broadcast at rate one and never at rate zero. *)
Theorem sample_rate_stays_in_bounds mode fanout key :
  rates_ok ->
  let s := sample_rate cfg mode fanout in
  flt zero s = true /\ fle s one = true
  /\ (mode <> ModeNormal -> adapts fanout = true -> fle (MinSampleRate cfg) s = true)
  /\ (mode = ModeNormal -> s = one /\ keep key s = true)
  /\ keep key one = true /\ keep key zero = false.
Proof.
  intros [Hr Ht] s. apply Forall_cons in Hr as [[Hm0 Hm] Hr]. apply Forall_cons in Hr as [Hh Hr].
  apply Forall_cons in Hr as [Hp _].
  assert (Had : adapts fanout = true -> let y := math_Max (MinSampleRate cfg) (fdiv (TargetFanoutRate cfg) fanout) in
    fle (MinSampleRate cfg) (math_Min one y) = true /\ fle (math_Min one y) one = true).
  { intros [[_ E1]%andb_true_iff E2]%andb_true_iff. apply min_bounds; [done|].
    apply max_lower; [by apply (fle_number _ one)|]. by apply quotient_is_number. }
  assert (Hs : flt zero s = true /\ fle s one = true /\ (mode <> ModeNormal -> adapts fanout = true -> fle (MinSampleRate cfg) s = true)).
  { unfold s, sample_rate. case_bool_decide; [by split_and!; [vm_compute|vm_compute|]|]. fold (adapts fanout).
    destruct (adapts fanout); [|case_bool_decide; split_and!; [tauto|tauto|done|tauto|tauto|done]].
    destruct (Had eq_refl) as [H1 H2]. split_and!; [|done|done]. by apply (above_positive (MinSampleRate cfg)). }
  destruct Hs as (H1 & H2 & H3). split; [exact H1|]. split; [exact H2|]. split; [exact H3|].
  assert (Hone : keep key one = true) by (unfold keep; by replace (fle one one) with true by (by vm_compute)).
  split; [|split; [exact Hone|reflexivity]]. intros ->.
  assert (Hs : s = one) by (unfold s, sample_rate; by rewrite bool_decide_true). by rewrite Hs.
Qed.
End policy.

Module TrafficExamples.
Definition rate (a b : Z) : float64 := fdiv (float_of_Z a) (float_of_Z b).
(** The defaults of [internal/config/config.go]. *)
Definition cfg : TrafficConfig :=
  mkTraffic 50000 100000 500 2000 (rate 1 2) (rate 1 5) Second true (float_of_Z 25000) (float_of_Z 30000) (float_of_Z 40000) (rate 1 20).
Lemma sample_rate_stays_in_bounds_witness :
  sample_rate cfg ModeProtect (float_of_Z 100000) = rate 1 4
  /\ fle (MinSampleRate cfg) (sample_rate cfg ModeProtect (float_of_Z 100000)) = true.
Proof.
  split; [by vm_compute|].
  refine (proj1 (proj2 (proj2 (sample_rate_stays_in_bounds cfg ModeProtect (float_of_Z 100000) "m1" _))) _ _).
  - split; [|done]. repeat constructor; by vm_compute.
  - done.
  - by vm_compute.
Defined.
End TrafficExamples.
