(* ===== verification/Auth.v ===== *)
(** Accounts and tokens: [internal/auth] (users, passwords, access tokens, the
    service) and [internal/token] (connection and subscription tokens). *)
From S2P Require Import Prelude GoStrings Base64 Mysql Json.
From Stdlib Require Import Ascii.

(** HMAC-SHA256 of a key and a message, and PBKDF2-HMAC-SHA256 of a password, a
    salt, an iteration count and a key length. *)
Class Crypto := {
  hmac_sha256 : string -> string -> string;
  pbkdf2_Key : string -> string -> Z -> Z -> res string }.

(** ** Users *)
Record User : Type := mkUser {
  us_ID : Z;
  us_Username : string;
  us_Nickname : string;
  us_Avatar : string;
  us_PasswordHash : string;
  us_Status : Z;
  us_CreatedAt : Z }.

Definition ErrUserNotFound : error := Sentinel "auth.ErrUserNotFound" "user not found".
Definition ErrUsernameTaken : error := Sentinel "auth.ErrUsernameTaken" "username already exists".
Definition ErrInvalidCredentials : error := Sentinel "auth.ErrInvalidCredentials" "invalid credentials".
Definition ErrUserDisabled : error := Sentinel "auth.ErrUserDisabled" "user disabled".
Definition ErrInvalidInput : error := Sentinel "auth.ErrInvalidInput" "invalid auth input".

(** The [users] table in insertion order and its next [AUTO_INCREMENT] value. A
    row is a [User] and its update time. *)
Record user_row : Type := mkUserRow { u_user : User; u_updated_at : Z }.
Record UserDB : Type := mkUserDB { users : list user_row; users_next : Z }.

Definition avatars : list string :=
  ["/front_con/ava/布偶.svg"; "/front_con/ava/暹罗猫.svg"; "/front_con/ava/波斯猫.svg"; "/front_con/ava/狸花猫.svg";
   "/front_con/ava/缅因猫.svg"; "/front_con/ava/female.png"; "/front_con/ava/male.png"].

Module UserRepository.
Section repository.
Context `{MySQLServer}.

Definition select_user (p : User -> bool) : stmt UserDB User :=
  reads (fun t => match List.find p (map u_user (users t)) with Some u => Ok u | None => Err ErrUserNotFound end).
Definition by_username (username : string) (u : User) : bool := str_eq (us_Username u) username.
Definition ByUsername (username : string) : M (Mysql UserDB) User := db_exec (select_user (by_username username)).
Definition ByID (id : Z) : M (Mysql UserDB) User := db_exec (select_user (fun u => us_ID u =? id)).

(** The [INSERT], whose result is [LastInsertId()]. [draw] is the value of
    [FLOOR(RAND() * 7)]; [uk_users_username] refuses a second row of a name. *)
Definition insert_user (draw : nat) (username nickname passwordHash : string) : stmt UserDB Z := fun now t =>
  if negb (text_ok username) || negb (text_ok nickname) then Err incorrect_string
  else if existsb (by_username username) (map u_user (users t)) then Err (dup_entry username "users.uk_users_username")
  else
    let id := users_next t in
    Ok (id, mkUserDB (users t ++ [mkUserRow (mkUser id username nickname (nth draw avatars "") passwordHash 1 now) now]) (id + 1)).

Definition Create (draw : nat) (username nickname passwordHash : string) : M (Mysql UserDB) User :=
  id ← db_exec (insert_user draw username nickname passwordHash);
  ByID id.
End repository.
End UserRepository.

(** The interface [auth.UserRepository]. *)
Class UserStore (W : Type) := {
  au_Create : string -> string -> string -> M W User;
  au_ByUsername : string -> M W User;
  au_ByID : Z -> M W User }.
Definition mysql_user_store `{MySQLServer} (draw : nat) : UserStore (Mysql UserDB) := {|
  au_Create := UserRepository.Create draw;
  au_ByUsername := UserRepository.ByUsername;
  au_ByID := UserRepository.ByID |}.

(** ** Passwords *)
Definition passwordScheme : string := "pbkdf2-sha256".
Definition passwordIterations : Z := 210000.
Definition passwordSaltBytes : Z := 16.
Definition passwordKeyBytes : Z := 32.

Section passwords.
Context `{Crypto}.

(** [salt] is what [rand.Read] gives. *)
Definition HashPassword (salt : res string) (password : string) : res string :=
  if (slen password <? 8) || (128 <? slen password) then Err (Fresh "password must be 8-128 characters") else
  match salt with
  | Err err => Err (Wrapped "generate password salt: " err "")
  | Ok salt =>
    match pbkdf2_Key password salt passwordIterations passwordKeyBytes with
    | Err err => Err (Wrapped "derive password key: " err "")
    | Ok key => Ok (passwordScheme +:+ "$" +:+ FormatInt passwordIterations +:+ "$" +:+ RawStdEncode salt
                     +:+ "$" +:+ RawStdEncode key)
    end
  end.

Definition VerifyPassword (encoded password : string) : bool :=
  match Split "$"%char encoded with
  | [scheme; iterations; salt; expected] =>
    if negb (bool_decide (scheme = passwordScheme)) then false else
    match Atoi iterations with
    | None => false
    | Some iterations =>
      if (iterations <? 100000) || (2000000 <? iterations) then false else
      match RawStdDecode salt with
      | None => false
      | Some salt =>
        if slen salt <? 8 then false else
        match RawStdDecode expected with
        | None => false
        | Some expected =>
          if slen expected <? 16 then false else
          match pbkdf2_Key password salt iterations (slen expected) with
          | Err _ => false
          | Ok actual => bool_decide (actual = expected)
          end
        end
      end
    end
  | _ => false
  end.
End passwords.

(** ** Tokens *)
(** [Unix()] of a time in nanoseconds, and [time.Unix(sec, 0)], whose seconds
    since year 1 are an [int64]. *)
Definition Unix (t : Z) : Z := t / Second.
Definition time_Unix (sec : Z) : Z := (wrap64 (sec + 62135596800) - 62135596800) * Second.

Section jwt.
Context `{Crypto} `{JsonText}.

Definition jwt_header : json := JObj [("alg", JStr "HS256"); ("typ", JStr "JWT")].
(** [header.payload] and the token. *)
Definition unsigned (payload : string) : string := RawURLEncode (json_text jwt_header) +:+ "." +:+ RawURLEncode payload.
Definition with_mac (secret u : string) : string := u +:+ "." +:+ RawURLEncode (hmac_sha256 secret u).

Definition signHS256 (secret : string) (claims : json) : res string :=
  match json_Marshal claims with
  | Err err => Err (Wrapped "marshal jwt claims: " err "")
  | Ok payload => Ok (with_mac secret (unsigned (raw_text payload)))
  end.
End jwt.

Record TokenManager : Type := mkTokenManager { tm_secret : string; tm_ttl : Z }.
Record Claims : Type := mkClaims { cl_UserID : Z; cl_Exp : Z }.
Record accessClaims : Type := mkAccessClaims { ac_Sub : string; ac_Exp : Z; ac_Iat : Z; ac_Typ : string }.

Definition access_claims_json (c : accessClaims) : json := JObj
  [("sub", JStr (ac_Sub c)); ("exp", JNum (ac_Exp c)); ("iat", JNum (ac_Iat c)); ("typ", JStr (ac_Typ c))].
Definition unmarshal_access_claims (r : raw) : option accessClaims :=
  o ← decode_object r;
  sub ← decode_field "" dec_string "sub" o;
  exp ← decode_field 0 dec_int64 "exp" o;
  iat ← decode_field 0 dec_int64 "iat" o;
  typ ← decode_field "" dec_string "typ" o;
  Some (mkAccessClaims sub exp iat typ).
(** The fields [alg] and [typ] of a [jwtHeader]. *)
Definition unmarshal_header (r : raw) : option (string * string) :=
  o ← decode_object r;
  alg ← decode_field "" dec_string "alg" o;
  typ ← decode_field "" dec_string "typ" o;
  Some (alg, typ).

Module Tokens.
Section manager.
Context `{Crypto} `{JsonText}.
Variable m : TokenManager.

(** The token and its expiry time; [now] is [time.Now()]. *)
Definition Issue (now userID : Z) : res (string * Z) :=
  if userID <=? 0 then Err (Fresh "user id is required") else
  let exp := now + tm_ttl m in
  let claims := mkAccessClaims (FormatInt userID) (Unix exp) (Unix now) "access" in
  match signHS256 (tm_secret m) (access_claims_json claims) with
  | Err err => Err err
  | Ok tok => Ok (tok, exp)
  end.

(** The part of [Verify] after the signature check. *)
Definition verify_claims (now : Z) (payload : string) : res Claims :=
  match unmarshal_access_claims (json_parse payload) with
  | None => Err (Fresh "invalid token claims")
  | Some c =>
    if negb (bool_decide (ac_Typ c = "access")) then Err (Fresh "invalid token claims") else
    match ParseInt (ac_Sub c) with
    | None => Err (Fresh "invalid token subject")
    | Some uid =>
      if uid <=? 0 then Err (Fresh "invalid token subject") else
      let exp := time_Unix (ac_Exp c) in
      if negb (now <? exp) then Err (Fresh "token expired") else Ok (mkClaims uid exp)
    end
  end.

Definition Verify (now : Z) (raw : string) : res Claims :=
  if (slen raw =? 0) || (4096 <? slen raw) then Err (Fresh "invalid token") else
  match Split "."%char raw with
  | [p0; p1; p2] =>
    match RawURLDecode p0 with
    | None => Err (Fresh "invalid token header")
    | Some headerRaw =>
      match unmarshal_header (json_parse headerRaw) with
      | None => Err (Fresh "invalid token header")
      | Some (alg, typ) =>
        if negb (bool_decide (alg = "HS256") && bool_decide (typ = "JWT")) then Err (Fresh "invalid token header") else
        match RawURLDecode p2 with
        | None => Err (Fresh "invalid token signature")
        | Some gotSig =>
          if negb (bool_decide (gotSig = hmac_sha256 (tm_secret m) (p0 +:+ "." +:+ p1)))
          then Err (Fresh "invalid token signature") else
          match RawURLDecode p1 with
          | None => Err (Fresh "invalid token payload")
          | Some payload => verify_claims now payload
          end
        end
      end
    end
  | _ => Err (Fresh "invalid token")
  end.
End manager.
End Tokens.

(** [token.Issuer]. *)
Record Issuer : Type := mkIssuer { is_secret : string; is_ttl : Z }.
Definition connection_claims (sub : string) (exp iat : Z) : json :=
  JObj [("sub", JStr sub); ("exp", JNum exp); ("iat", JNum iat)].
Definition subscription_claims (sub channel : string) (exp iat : Z) : json :=
  JObj [("sub", JStr sub); ("channel", JStr channel); ("exp", JNum exp); ("expire_at", JNum exp); ("iat", JNum iat)].

Section issuer.
Context `{Crypto} `{JsonText}.
Variable i : Issuer.

Definition ConnectionToken (now : Z) (userID : string) : res (string * Z) :=
  if bool_decide (TrimSpace userID = "") then Err (Fresh "user id is required") else
  let exp := now + is_ttl i in
  let c := connection_claims userID (Unix exp) (Unix now) in
  Ok (with_mac (is_secret i) (unsigned (json_text c)), exp).

Definition SubscriptionToken (now : Z) (userID channel : string) (ttl : Z) : res (string * Z) :=
  let userID := TrimSpace userID in
  let channel := TrimSpace channel in
  if bool_decide (userID = "") || bool_decide (channel = "") then Err (Fresh "user id and channel are required") else
  let ttl := if ttl <=? 0 then 5 * Minute else ttl in
  let exp := now + ttl in
  let c := subscription_claims userID channel (Unix exp) (Unix now) in
  Ok (with_mac (is_secret i) (unsigned (json_text c)), exp).
End issuer.

(** ** Service *)
Record AuthResult : Type := mkAuthResult { ar_User : User; ar_Token : string; ar_ExpiresAt : Z }.

Module AuthService.
Section service.
Context `{UnicodeTables} `{Crypto} `{JsonText} {W : Type} `{UserStore W}.
Variable tokens : TokenManager.

Definition validUsername (s : string) : bool :=
  negb ((slen s <? 3) || (32 <? slen s))
  && forallb (fun r => negb ((negb (IsLetter r) && negb (IsDigit r) && negb (r =? 95)) || (MaxASCII <? r))) (runes s).

Definition result (now : Z) (u : User) : res AuthResult :=
  match Tokens.Issue tokens now (us_ID u) with
  | Err err => Err err
  | Ok (tok, exp) => Ok (mkAuthResult u tok (Unix exp))
  end.

(** [now] is the time at which the token is issued. *)
Definition Register (now : Z) (salt : res string) (username nickname password : string) : M W AuthResult :=
  let username := ToLower (TrimSpace username) in
  let nickname := TrimSpace nickname in
  if negb (validUsername username)
  then throw (Wrapped "" ErrInvalidInput ": username must be 3-32 letters, digits or underscore")
  else if bool_decide (nickname = "") || (32 <? rune_count nickname)
  then throw (Wrapped "" ErrInvalidInput ": nickname must be 1-32 characters")
  else if (slen password <? 8) || (128 <? slen password)
  then throw (Wrapped "" ErrInvalidInput ": password must be 8-128 characters")
  else
    found ← try (au_ByUsername username);
    match found with
    | Ok _ => throw ErrUsernameTaken
    | Err err =>
      if negb (errors_Is err ErrUserNotFound) then throw err else
      hash ← of_res (HashPassword salt password);
      c ← try (au_Create username nickname hash);
      match c with
      | Err err => if Contains (ToLower (error_text err)) "duplicate" then throw ErrUsernameTaken else throw err
      | Ok u => of_res (result now u)
      end
    end.

Definition Login (now : Z) (username password : string) : M W AuthResult :=
  let username := ToLower (TrimSpace username) in
  r ← try (au_ByUsername username);
  match r with
  | Err err => if errors_Is err ErrUserNotFound then throw ErrInvalidCredentials else throw err
  | Ok u =>
    if negb (us_Status u =? 1) then throw ErrUserDisabled
    else if negb (VerifyPassword (us_PasswordHash u) password) then throw ErrInvalidCredentials
    else of_res (result now u)
  end.

Definition User_ (id : Z) : M W User := au_ByID id.

Definition Nickname (id : Z) : M W (string * bool) :=
  r ← try (au_ByID id);
  match r with
  | Ok u => mret (us_Nickname u, true)
  | Err err => if errors_Is err ErrUserNotFound then mret ("", false) else throw err
  end.
End service.
End AuthService.
