(* ===== verification/AuthSpec.v ===== *)
(** What accounts and tokens promise: an access token is accepted by its own
    manager until the second it names and by no one else, tokens of the realtime
    server are not access tokens, and a registered user can log in. *)
From S2P Require Import Prelude GoStrings Base64 Mysql Json Message Instances TaggedJson Auth.
From Stdlib Require Import Ascii.

(** Documented behaviour of [crypto/pbkdf2]: the key has the requested length. *)
Class CryptoOk `{Crypto} := {
  pbkdf2_length : forall p s n l k, pbkdf2_Key p s n l = Ok k -> slen k = l }.

(** ** Tokens *)
Section tokens.
Context `{Crypto} `{JsonTextOk}.

Lemma split_token secret payload :
  Split "."%char (with_mac secret (unsigned payload)) =
  [RawURLEncode (json_text jwt_header); RawURLEncode payload; RawURLEncode (hmac_sha256 secret (unsigned payload))].
Proof.
  unfold with_mac. unfold unsigned at 1. rewrite <- !string_assoc.
  change ("." +:+ ?x) with (String "." x). rewrite Split_app by apply RawURL_free.
  change ("." +:+ ?x) with (String "." x). rewrite Split_app by apply RawURL_free.
  by rewrite Split_free by apply RawURL_free.
Qed.

(** What [Verify] does with a token of the platform's shape. *)
Lemma Verify_token m now secret payload :
  let tok := with_mac secret (unsigned payload) in
  slen tok <= 4096 ->
  Tokens.Verify m now tok =
  if bool_decide (hmac_sha256 secret (unsigned payload) = hmac_sha256 (tm_secret m) (unsigned payload))
  then Tokens.verify_claims now payload else Err (Fresh "invalid token signature").
Proof.
  intros tok Hlen. unfold Tokens.Verify.
  assert (Hpos : slen tok <> 0).
  { unfold tok, with_mac, slen. rewrite !string_app_length. cbn. lia. }
  replace ((slen tok =? 0) || (4096 <? slen tok)) with false by lia.
  unfold tok. rewrite split_token, !RawURL_roundtrip, json_parse_text by done.
  replace (json_clean jwt_header) with jwt_header by (by vm_compute).
  change (unmarshal_header (Valid jwt_header)) with (Some ("HS256", "JWT")). cbn [mbind option_bind].
  change (RawURLEncode (json_text jwt_header) +:+ "." +:+ RawURLEncode payload) with (unsigned payload).
  rewrite !bool_decide_true by done. cbn [andb negb]. by case_bool_decide.
Qed.

Lemma verify_long m now tok : 4096 < slen tok -> Tokens.Verify m now tok = Err (Fresh "invalid token").
Proof. intros. unfold Tokens.Verify. by replace ((slen tok =? 0) || (4096 <? slen tok)) with true by lia. Qed.

Lemma access_claims_clean c : all_ascii (ac_Sub c) = true -> all_ascii (ac_Typ c) = true ->
  json_clean (access_claims_json c) = access_claims_json c.
Proof.
  intros Hs Ht. unfold access_claims_json. cbn [json_clean map fst snd].
  by rewrite (valid_utf8_ascii (ac_Sub c)), (valid_utf8_ascii (ac_Typ c)) by done.
Qed.
Lemma unmarshal_access_claims_json c : in_int64 (ac_Exp c) -> in_int64 (ac_Iat c) ->
  unmarshal_access_claims (Valid (access_claims_json c)) = Some c.
Proof.
  intros. unfold unmarshal_access_claims, access_claims_json. cbn [decode_object mbind option_bind]. json_keys.
  cbn [mbind option_bind dec_string]. rewrite !dec_int64_num by done. by destruct c.
Qed.

(** Times of the next centuries: their seconds are in range. *)
Lemma Unix_range t : 0 <= t <= int64_max -> in_int64 (Unix t) /\ time_Unix (Unix t) = Unix t * Second.
Proof.
  unfold Unix, time_Unix, in_int64, int64_max, int64_min, Second. intros Ht.
  assert (0 <= t / 1000000000 <= 2 ^ 63 / 1000000000) by (split; [apply Z.div_pos|apply Z.div_le_mono]; lia).
  change (2 ^ 63 / 1000000000) with 9223372036 in *.
  rewrite wrap64_id by (unfold in_int64, int64_min, int64_max; lia). lia.
Qed.

(** C26 [TokenManager.Issue] and [Verify]: an issued access token is accepted with
    its user by the manager exactly until the second of its expiry, and is
    reported as expired from then on; a manager with another secret accepts it
    only if the two secrets give the token the same HMAC. *)
Theorem access_token_lives_until_its_expiry m now uid tok exp :
  in_int64 uid -> 0 <= now <= int64_max -> 0 <= now + tm_ttl m <= int64_max ->
  Tokens.Issue m now uid = Ok (tok, exp) -> slen tok <= 4096 ->
  exp = now + tm_ttl m /\
  (forall now', Tokens.Verify m now' tok =
    if now' <? Unix exp * Second then Ok (mkClaims uid (Unix exp * Second)) else Err (Fresh "token expired")) /\
  (forall m' now' c, Tokens.Verify m' now' tok = Ok c ->
    exists u, tok = with_mac (tm_secret m) u /\ hmac_sha256 (tm_secret m') u = hmac_sha256 (tm_secret m) u).
Proof.
  intros Huid Hnow Hexp Hissue Hlen. unfold Tokens.Issue in Hissue.
  destruct (Z.leb_spec uid 0); [done|].
  set (c := mkAccessClaims _ _ _ _) in Hissue. change (signHS256 (tm_secret m) (access_claims_json c)) with
    (Ok (A := string) (with_mac (tm_secret m) (unsigned (json_text (access_claims_json c))))) in Hissue.
  injection Hissue as <- <-. destruct (Unix_range _ Hexp) as [He1 He2]. destruct (Unix_range _ Hnow) as [Hn _].
  split; [done|]. split.
  - intros now'. rewrite Verify_token by done. rewrite bool_decide_true by done.
    unfold Tokens.verify_claims. rewrite json_parse_text by done.
    rewrite access_claims_clean by (apply FormatInt_ascii || done). rewrite unmarshal_access_claims_json by done.
    unfold c. cbn [ac_Typ ac_Sub ac_Exp]. rewrite bool_decide_true by done. cbn [negb].
    rewrite ParseInt_FormatInt by done. destruct (Z.leb_spec uid 0); [lia|]. rewrite He2. by destruct (now' <? _).
  - intros m' now' cl. rewrite Verify_token by done. case_bool_decide; [|done]. eauto.
Qed.

Lemma connection_claims_refused now sub exp iat : in_int64 exp -> in_int64 iat ->
  Tokens.verify_claims now (json_text (connection_claims sub exp iat)) = Err (Fresh "invalid token claims").
Proof.
  intros. unfold Tokens.verify_claims. rewrite json_parse_text by done.
  unfold unmarshal_access_claims, connection_claims. cbn [json_clean map fst snd decode_object mbind option_bind]. json_keys.
  cbn [mbind option_bind dec_string]. rewrite !dec_int64_num by done. done.
Qed.
Lemma subscription_claims_refused now sub channel exp iat : in_int64 exp -> in_int64 iat ->
  Tokens.verify_claims now (json_text (subscription_claims sub channel exp iat)) = Err (Fresh "invalid token claims").
Proof.
  intros. unfold Tokens.verify_claims. rewrite json_parse_text by done.
  unfold unmarshal_access_claims, subscription_claims. cbn [json_clean map fst snd decode_object mbind option_bind]. json_keys.
  cbn [mbind option_bind dec_string]. rewrite !dec_int64_num by done. done.
Qed.

Lemma refused_payload m now secret payload :
  (forall now, Tokens.verify_claims now payload = Err (Fresh "invalid token claims")) ->
  is_ok (Tokens.Verify m now (with_mac secret (unsigned payload))) = false.
Proof.
  intros Hp. destruct (Z.ltb_spec 4096 (slen (with_mac secret (unsigned payload)))).
  - by rewrite verify_long.
  - rewrite Verify_token by done. rewrite Hp. by case_bool_decide.
Qed.

(** Tokens of the realtime server are never access tokens: whatever their
    secrets (equal ones included), [TokenManager.Verify] refuses every token that
    [Issuer.ConnectionToken] or [Issuer.SubscriptionToken] produced. *)
Theorem realtime_tokens_are_not_access_tokens (i : Issuer) m now now' :
  0 <= now <= int64_max -> 0 <= now + is_ttl i <= int64_max ->
  (forall userID tok exp, ConnectionToken i now userID = Ok (tok, exp) -> is_ok (Tokens.Verify m now' tok) = false) /\
  (forall userID channel ttl tok exp, 0 <= now + Z.max ttl (5 * Minute) <= int64_max ->
    SubscriptionToken i now userID channel ttl = Ok (tok, exp) -> is_ok (Tokens.Verify m now' tok) = false).
Proof.
  intros Hnow Hexp. destruct (Unix_range _ Hnow) as [Hn _]. split.
  - intros userID tok exp. unfold ConnectionToken. case_bool_decide; [done|]. intros [= <- _].
    apply refused_payload. intros. apply connection_claims_refused; [|done]. by apply Unix_range.
  - intros userID channel ttl tok exp Httl. unfold SubscriptionToken.
    destruct (bool_decide _ || bool_decide _); [done|]. intros [= <- _].
    apply refused_payload. intros. apply subscription_claims_refused; [|done].
    apply Unix_range. unfold Minute, Second in *. destruct (Z.leb_spec ttl 0); lia.
Qed.
End tokens.

(** ** Passwords *)
Section passwords.
Context `{CryptoOk}.

Lemma split_hash salt key :
  Split "$"%char (passwordScheme +:+ "$" +:+ FormatInt passwordIterations +:+ "$" +:+ RawStdEncode salt +:+ "$" +:+ RawStdEncode key)
  = [passwordScheme; FormatInt passwordIterations; RawStdEncode salt; RawStdEncode key].
Proof.
  change ("$" +:+ ?x) with (String "$" x). rewrite Split_app by done.
  change ("$" +:+ ?x) with (String "$" x). rewrite Split_app by (by vm_compute).
  change ("$" +:+ ?x) with (String "$" x). rewrite Split_app by apply RawStd_free.
  by rewrite Split_free by apply RawStd_free.
Qed.

(** Verification of a fresh hash compares derived keys. *)
Lemma VerifyPassword_hash salt password hash pw :
  8 <= slen salt -> HashPassword (Ok salt) password = Ok hash ->
  exists key, pbkdf2_Key password salt passwordIterations passwordKeyBytes = Ok key /\
    VerifyPassword hash pw =
    match pbkdf2_Key pw salt passwordIterations passwordKeyBytes with Ok k => bool_decide (k = key) | Err _ => false end.
Proof.
  intros Hsalt. unfold HashPassword. destruct (_ || _); [done|].
  destruct (pbkdf2_Key password salt _ _) as [key|e] eqn:Hk; [|done]. intros [= <-]. exists key. split; [done|].
  apply pbkdf2_length in Hk. unfold VerifyPassword. rewrite split_hash. rewrite bool_decide_true by done. cbn [negb].
  unfold Atoi. rewrite ParseInt_FormatInt by done. change ((passwordIterations <? 100000) || (2000000 <? passwordIterations)) with false.
  cbv iota. rewrite !RawStd_roundtrip. destruct (Z.ltb_spec (slen salt) 8); [lia|]. rewrite Hk. done.
Qed.
End passwords.

(** ** Accounts *)
Section accounts.
Context `{MySQLServer}.

(** Usernames are unique up to the collation, ids are unique and below the counter. *)
Definition users_ok (t : UserDB) : Prop :=
  NoDup (map (fun r => collate (us_Username (u_user r))) (users t))
  /\ NoDup (map (fun r => us_ID (u_user r)) (users t))
  /\ (forall r, r ∈ users t -> 0 < us_ID (u_user r) < users_next t) /\ 0 < users_next t.

Lemma users_ok_empty : users_ok (mkUserDB [] 1).
Proof. repeat split; try constructor; simpl in *; try set_solver; lia. Qed.

Definition new_user (draw : nat) (username nickname hash : string) (now : Z) (t : UserDB) : user_row :=
  mkUserRow (mkUser (users_next t) username nickname (nth draw avatars "") hash 1 now) now.

Lemma insert_user_ok draw username nickname hash now t id t' :
  UserRepository.insert_user draw username nickname hash now t = Ok (id, t') ->
  id = users_next t /\ t' = mkUserDB (users t ++ [new_user draw username nickname hash now t]) (users_next t + 1)
  /\ (forall r, r ∈ users t -> collate (us_Username (u_user r)) <> collate username).
Proof.
  unfold UserRepository.insert_user. destruct (negb _ || negb _); [done|].
  destruct (existsb _ _) eqn:E; [done|]. intros [= <- <-]. split_and!; [done..|].
  intros r Hr Heq. rewrite existsb_false in E. specialize (E (u_user r)).
  unfold UserRepository.by_username, str_eq in E. rewrite bool_decide_true in E by done.
  discriminate E. by apply list_elem_of_fmap_2.
Qed.

Lemma insert_user_keeps_ok draw username nickname hash now t id t' :
  users_ok t -> UserRepository.insert_user draw username nickname hash now t = Ok (id, t') -> users_ok t'.
Proof.
  intros (H1 & H2 & H3 & H4) (-> & -> & Hnew)%insert_user_ok. unfold users_ok. cbn [users users_next].
  rewrite !map_app. cbn [map u_user new_user us_Username us_ID]. split_and!; [..|lia].
  - apply NoDup_app. split_and!; [done| |apply NoDup_singleton].
    intros x (r & -> & Hr)%list_elem_of_fmap_1 Hx%list_elem_of_singleton. by eapply Hnew.
  - apply NoDup_app. split_and!; [done| |apply NoDup_singleton].
    intros x (r & -> & Hr)%list_elem_of_fmap_1 Hx%list_elem_of_singleton. specialize (H3 r Hr). simpl in *. lia.
  - intros r [Hr| ->%list_elem_of_singleton]%elem_of_app; [specialize (H3 r Hr); lia|]. simpl. lia.
Qed.

(** A key that tells the rows apart finds the row of its value. *)
Lemma find_user {K} `{EqDecision K} (key : User -> K) (p : User -> bool) rows r :
  NoDup (map (fun r => key (u_user r)) rows) -> r ∈ rows ->
  (forall u, p u = bool_decide (key u = key (u_user r))) -> List.find p (map u_user rows) = Some (u_user r).
Proof.
  intros Hnd Hr Hp. induction rows as [|x rows IH]; [set_solver|]. cbn [map List.find] in *.
  apply NoDup_cons in Hnd as [Hx Hnd]. rewrite Hp. case_bool_decide as Hk.
  - apply elem_of_cons in Hr as [->|Hr]; [done|]. destruct Hx. rewrite Hk. by apply (list_elem_of_fmap_2 (fun r => key (u_user r))).
  - apply elem_of_cons in Hr as [->|Hr]; [done|]. auto.
Qed.

Lemma find_by_username t r username :
  users_ok t -> r ∈ users t -> collate (us_Username (u_user r)) = collate username ->
  List.find (UserRepository.by_username username) (map u_user (users t)) = Some (u_user r).
Proof.
  intros (Hnd & _) Hr Hc. eapply (find_user (fun u => collate (us_Username u))); [done..|].
  intros u. unfold UserRepository.by_username, str_eq. by rewrite Hc.
Qed.
Lemma find_by_id t r id :
  users_ok t -> r ∈ users t -> us_ID (u_user r) = id -> List.find (fun u => us_ID u =? id) (map u_user (users t)) = Some (u_user r).
Proof.
  intros (_ & Hnd & _) Hr Hid. eapply (find_user us_ID); [done..|]. intros u. rewrite Hid.
  destruct (Z.eqb_spec (us_ID u) id); [by rewrite bool_decide_true|by rewrite bool_decide_false].
Qed.
End accounts.

(** ** Registration and login *)
Section service.
Context `{MySQLServerOk} `{CryptoOk} `{JsonText}.
Variables (tokens : TokenManager) (draw : nat).

#[local] Instance account_store : UserStore (Mysql UserDB) := mysql_user_store draw.

(** The name an account is stored under. *)
Definition account_name (username : string) : string := ToLower (TrimSpace username).

Lemma select_user_found p n t u :
  List.find p (map u_user (users t)) = Some u ->
  db_exec (UserRepository.select_user p) (mkMysql t None n []) = (Ok u, mkMysql t None n []).
Proof. intros Hf. apply db_exec_nofault. unfold UserRepository.select_user, reads. by rewrite Hf. Qed.

Lemma login_reads_account now n t r username pw :
  users_ok t -> r ∈ users t -> collate (us_Username (u_user r)) = collate (account_name username) ->
  AuthService.Login tokens now username pw (mkMysql t None n []) =
  ((if negb (us_Status (u_user r) =? 1) then Err ErrUserDisabled
    else if negb (VerifyPassword (us_PasswordHash (u_user r)) pw) then Err ErrInvalidCredentials
    else AuthService.result tokens now (u_user r)), mkMysql t None n []).
Proof.
  intros Hok Hr Hc. unfold AuthService.Login.
  erewrite bind_ok by (apply try_run, select_user_found; by eapply find_by_username). cbv beta iota.
  destruct (negb _); [done|]. by destruct (negb _).
Qed.

(** The account [Register] adds to [t]. *)
Definition registered (n : Z) (username nickname hash : string) (t t' : UserDB) : Prop :=
  UserRepository.insert_user draw (account_name username) (TrimSpace nickname) hash (NOW3 n) t = Ok (users_next t, t').

Lemma wp_Create username nickname hash n t fl (Q : res User -> Mysql UserDB -> Prop) :
  users_ok t ->
  (forall e fl', Q (Err e) (mkMysql t None n fl')) ->
  (forall t' fl', UserRepository.insert_user draw username nickname hash (NOW3 n) t = Ok (users_next t, t') ->
    Q (Ok (u_user (new_user draw username nickname hash (NOW3 n) t))) (mkMysql t' None n fl')
    /\ forall e, Q (Err e) (mkMysql t' None n fl')) ->
  wp (UserRepository.Create draw username nickname hash) Q (mkMysql t None n fl).
Proof.
  intros Hok Herr Hins. unfold UserRepository.Create. apply wp_bind, wp_db_exec; [| |].
  - intros id t' fl' Hi. pose proof (insert_user_keeps_ok _ _ _ _ _ _ _ _ Hok Hi) as Hok'.
    pose proof (insert_user_ok _ _ _ _ _ _ _ _ Hi) as (-> & -> & _).
    unfold UserRepository.ByID, UserRepository.select_user. apply wp_db_read.
    + intros u fl2. rewrite (find_by_id _ (new_user draw username nickname hash (NOW3 n) t) _ Hok'); [|cbn [users]; set_solver|done].
      intros [= <-]. by apply Hins.
    + intros e fl2. by apply Hins.
  - apply Herr.
  - intros e id t' fl' Hi. pose proof (insert_user_ok _ _ _ _ _ _ _ _ Hi) as (-> & -> & _). by apply Hins.
Qed.

(** What [Register] may do under faults: nothing, or add the account; it answers
    with the account only if it added it. *)
Lemma Register_run now salt username nickname password n t fl r s :
  users_ok t ->
  AuthService.Register tokens now salt username nickname password (mkMysql t None n fl) = (r, s) ->
  txn s = None /\
  match r with
  | Ok a => exists hash, HashPassword salt password = Ok hash /\ registered n username nickname hash t (committed s)
      /\ ar_User a = u_user (new_user draw (account_name username) (TrimSpace nickname) hash (NOW3 n) t)
  | Err _ => committed s = t \/ exists hash, HashPassword salt password = Ok hash /\ registered n username nickname hash t (committed s)
  end.
Proof.
  intros Hok Hrun.
  assert (wp (AuthService.Register tokens now salt username nickname password) (fun r s => txn s = None /\
    match r with
    | Ok a => exists hash, HashPassword salt password = Ok hash /\ registered n username nickname hash t (committed s)
        /\ ar_User a = u_user (new_user draw (account_name username) (TrimSpace nickname) hash (NOW3 n) t)
    | Err _ => committed s = t \/ exists hash, HashPassword salt password = Ok hash /\ registered n username nickname hash t (committed s)
    end) (mkMysql t None n fl)) as Hwp; [|unfold wp in Hwp; by rewrite Hrun in Hwp].
  clear Hrun. unfold AuthService.Register. do 3 (case_match; [split; [done|by left]|]).
  apply wp_bind, wp_try, wp_db_read; [intros u fl' _; by split; [|left]|]. intros e fl'. cbv beta iota.
  destruct (negb (errors_Is e ErrUserNotFound)); [apply wp_throw; split; [done|by left]|].
  apply wp_bind, wp_of_res. destruct (HashPassword salt password) as [hash|e'] eqn:Hh; [|split; [done|by left]].
  apply wp_bind, wp_try, wp_Create; [done|..].
  - intros e' fl2. case_match; split; try done; by left.
  - intros t' fl2 Hi. split.
    + apply wp_of_res. unfold AuthService.result. destruct (Tokens.Issue _ _ _) as [[tok exp]|e']; [|split; [done|right; eauto]].
      split; [done|]. exists hash. done.
    + intros e'. case_match; (split; [done|right; eauto]).
Qed.

Lemma result_user now u a : AuthService.result tokens now u = Ok a -> ar_User a = u.
Proof. unfold AuthService.result. destruct (Tokens.Issue _ _ _) as [[tok exp]|e]; [|done]. by intros [= <-]. Qed.

(** Registering a name that has an account. *)
Lemma register_taken now salt username nickname password n t r x s :
  users_ok t -> r ∈ users t -> collate (us_Username (u_user r)) = collate (account_name username) ->
  AuthService.Register tokens now salt username nickname password (mkMysql t None n []) = (x, s) ->
  is_ok x = false /\ s = mkMysql t None n [].
Proof.
  intros Hok Hr Hc. unfold AuthService.Register. do 3 (case_match; [by intros [= <- <-]|]).
  erewrite bind_ok by (apply try_run, select_user_found; by eapply find_by_username). cbv beta iota.
  by intros [= <- <-].
Qed.

(** C24 [Service.Register] then [Service.Login], over the [users] table and under
    every fault of the database: a registration adds one account with a name no
    other account has (up to the collation), or changes nothing, and only answers
    with an account it added. In every later table the name, in any case and with
    any spaces around it, logs in to that account with the password; another
    password is refused unless PBKDF2 derives the same key from it; a second
    registration of the name is refused and changes nothing. *)
Theorem registered_account_logs_in now salt username nickname password n t fl r s :
  users_ok t -> (forall bytes, salt = Ok bytes -> 8 <= slen bytes) ->
  AuthService.Register tokens now salt username nickname password (mkMysql t None n fl) = (r, s) ->
  txn s = None /\ users_ok (committed s)
  /\ (committed s = t \/ exists row, committed s = mkUserDB (users t ++ [row]) (users_next t + 1))
  /\ forall a, r = Ok a ->
    exists row, users (committed s) = users t ++ [row] /\ u_user row = ar_User a
    /\ us_Username (ar_User a) = account_name username /\ us_Nickname (ar_User a) = TrimSpace nickname
    /\ forall t' rows username' now' n', users_ok t' -> users t' = users (committed s) ++ rows ->
         account_name username' = account_name username ->
         AuthService.Login tokens now' username' password (mkMysql t' None n' [])
           = (AuthService.result tokens now' (ar_User a), mkMysql t' None n' [])
         /\ (forall pw b, (AuthService.Login tokens now' username' pw (mkMysql t' None n' [])).1 = Ok b ->
              exists bytes, salt = Ok bytes /\
              pbkdf2_Key pw bytes passwordIterations passwordKeyBytes = pbkdf2_Key password bytes passwordIterations passwordKeyBytes)
         /\ (forall salt' nickname' password' x s',
              AuthService.Register tokens now' salt' username' nickname' password' (mkMysql t' None n' []) = (x, s') ->
              is_ok x = false /\ s' = mkMysql t' None n' []).
Proof.
  intros Hok Hsalt Hrun. destruct (Register_run _ _ _ _ _ _ _ _ _ _ Hok Hrun) as [Htx Hr].
  assert (Hgrow : committed s = t \/ exists hash, HashPassword salt password = Ok hash /\ registered n username nickname hash t (committed s))
    by (destruct r; [right; destruct Hr as (hash & ? & ? & _); eauto|done]).
  split_and!; [done| | |].
  - destruct Hgrow as [->|(hash & _ & Hi)]; [done|]. by eapply insert_user_keeps_ok.
  - destruct Hgrow as [Heq|(hash & _ & Hi)]; [by left|]. right. apply insert_user_ok in Hi as (_ & Hi & _). eauto.
  - intros a ->. destruct Hr as (hash & Hh & Hi & Ha). apply insert_user_ok in Hi as (_ & Hi & _).
    set (row := new_user _ _ _ _ _ _) in *. exists row. rewrite Hi, Ha. split_and!; [done..|].
    intros t' rows username' now' n' Hok' Ht' Hname.
    assert (Hin : row ∈ users t') by (rewrite Ht'; cbn [users]; set_solver).
    assert (Hc : collate (us_Username (u_user row)) = collate (account_name username')) by (by rewrite Hname).
    destruct salt as [bytes|]; [|unfold HashPassword in Hh; by destruct (_ || _)].
    pose proof (fun pw => VerifyPassword_hash bytes password hash pw (Hsalt _ eq_refl) Hh) as Hv.
    split_and!.
    + rewrite (login_reads_account now' n' t' row) by done. cbn [us_Status us_PasswordHash u_user row new_user].
      destruct (Hv password) as (key & Hkey & ->). rewrite Hkey, bool_decide_true by done. done.
    + intros pw b. rewrite (login_reads_account now' n' t' row) by done. cbn [us_Status us_PasswordHash u_user row new_user].
      destruct (Hv pw) as (key & Hkey & ->). intros Hl. exists bytes. split; [done|]. rewrite Hkey.
      destruct (pbkdf2_Key pw bytes passwordIterations passwordKeyBytes) as [k|e]; [|done].
      case_bool_decide; [by subst|done].
    + intros salt' nickname' password' x s'. by apply (register_taken _ _ _ _ _ _ _ row).
Qed.
End service.

(** ** Examples *)
Module AuthExamples.
Lemma str_take_length n s : (n <= String.length s)%nat -> String.length (str_take n s) = n.
Proof.
  unfold str_take. revert s. induction n as [|n IH]; intros s Hn; [by destruct s|].
  destruct s as [|a s]; [cbn in Hn; lia|]. cbn [str_split]. specialize (IH s).
  destruct (str_split n s). cbn in *. rewrite IH; lia.
Qed.
(** A key of at most 32 bytes, padded. *)
Definition padded_crypto : Crypto := {|
  hmac_sha256 := fun secret message => secret +:+ "/" +:+ FormatInt (slen message);
  pbkdf2_Key := fun password salt _ n =>
    if n =? 32 then Ok (str_take 32 (password +:+ salt +:+ "00000000000000000000000000000000")) else Err (Fresh "key length") |}.
#[local] Existing Instances padded_crypto tagged_json ascii_tables example_server.
Lemma padded_crypto_ok : @CryptoOk padded_crypto.
Proof.
  constructor. intros p s n l k. cbn. destruct (Z.eqb_spec l 32) as [->|]; [|done]. intros [= <-].
  unfold slen. rewrite str_take_length; [done|]. rewrite !string_app_length. cbn. lia.
Qed.

Definition manager : TokenManager := mkTokenManager "secret" (3600 * Second).
Definition token_of (r : res (string * Z)) : string := match r with Ok (t, _) => t | Err _ => "" end.
Definition token42 : string := Eval vm_compute in token_of (Tokens.Issue manager (1000 * Second) 42).

Lemma access_token_lives_until_its_expiry_witness :
  Tokens.Verify manager (4599 * Second) token42 = Ok (mkClaims 42 (4600 * Second))
  /\ Tokens.Verify manager (4600 * Second) token42 = Err (Fresh "token expired").
Proof.
  pose proof (access_token_lives_until_its_expiry (H := padded_crypto) (H1 := tagged_json_ok) manager (1000 * Second) 42 token42 (4600 * Second)) as (_ & Hv & _);
    [split; vm_compute; discriminate|split; vm_compute; discriminate|split; vm_compute; discriminate|vm_compute; reflexivity|vm_compute; discriminate|].
  split; rewrite Hv; reflexivity.
Defined.

Definition issuer : Issuer := mkIssuer "secret" (60 * Second).
Lemma realtime_tokens_are_not_access_tokens_witness :
  is_ok (Tokens.Verify manager 0 (token_of (ConnectionToken issuer 0 "42"))) = false.
Proof.
  destruct (realtime_tokens_are_not_access_tokens (H := padded_crypto) (H1 := tagged_json_ok) issuer manager 0 0) as [Hc _];
    [split; vm_compute; discriminate|split; vm_compute; discriminate|].
  apply (Hc "42" _ (60 * Second)). vm_compute. reflexivity.
Defined.

Definition no_users : UserDB := mkUserDB [] 1.
Definition register_alice := AuthService.Register (H := ascii_tables) (H0 := padded_crypto) (H1 := tagged_json)
  (H2 := mysql_user_store 2) manager 0 (Ok "0123456789abcdef") " Alice_1 " "Alice" "password1" (mkMysql no_users None 0 []).
Definition alice_state : Mysql UserDB := Eval vm_compute in register_alice.2.
Definition alice_result : res AuthResult := Eval vm_compute in register_alice.1.

Lemma registered_account_logs_in_witness :
  is_ok alice_result = true /\
  (AuthService.Login (H := ascii_tables) (H0 := padded_crypto) (H1 := tagged_json)
    (H2 := mysql_user_store 2) manager 0 "ALICE_1" "password1" alice_state).1 = alice_result.
Proof.
  split; [reflexivity|].
  destruct (@registered_account_logs_in ascii_tables example_server example_server_ok padded_crypto padded_crypto_ok tagged_json
    manager 2 0 (Ok "0123456789abcdef") " Alice_1 " "Alice" "password1" 0 no_users [] alice_result alice_state)
    as (_ & Hok & _ & Hlogin).
  - apply users_ok_empty.
  - intros bytes [= <-]. vm_compute. discriminate.
  - vm_compute. reflexivity.
  - destruct alice_result as [a|e] eqn:Ha; [|discriminate Ha].
    destruct (Hlogin a eq_refl) as (row & _ & _ & _ & _ & Hall).
    destruct (Hall (committed alice_state) [] "ALICE_1" 0 0 Hok) as [Hin _];
      [symmetry; apply app_nil_r|vm_compute; reflexivity|].
    etransitivity; [apply (f_equal fst Hin)|]. injection Ha as <-. vm_compute. reflexivity.
Defined.
End AuthExamples.
