(* ===== verification/Danmaku.v ===== *)
(** Danmaku (room chat messages): [internal/danmaku]. The sensitive-word filter, the
    admission and broadcast of a message, its Kafka producer and its persistence.

    Random identifiers ([idgen.New]) and [time.Now] are arguments. *)
From S2P Require Import Prelude GoStrings Mysql Json Message Realtime Kafka Room Auth Traffic.
From Stdlib Require Import SpecFloat.

(** ** The sensitive-word filter ([filter.go]) *)
Inductive trieNode : Type := mkTrieNode (children : gmap Z trieNode) (terminal : bool).
Definition children (n : trieNode) : gmap Z trieNode := let (c, _) := n in c.
Definition terminal (n : trieNode) : bool := let (_, t) := n in t.
Definition new_node : trieNode := mkTrieNode ∅ false.

(** The loop over the runes of a word, from node [n]. *)
Fixpoint add_word (word : list Z) (n : trieNode) : trieNode :=
  match word with
  | [] => mkTrieNode (children n) true
  | r :: word => mkTrieNode (<[r := add_word word (default new_node (children n !! r))]> (children n)) (terminal n)
  end.

(** The loop over [j] from node [n]. *)
Fixpoint walk (n : trieNode) (rs : list Z) : bool :=
  match rs with
  | [] => false
  | r :: rs =>
    match children n !! r with
    | None => false
    | Some n => if terminal n then true else walk n rs
    end
  end.
(** The loop over [i]. *)
Fixpoint walk_from_each (root : trieNode) (rs : list Z) : bool :=
  match rs with
  | [] => false
  | _ :: rs' => walk root rs || walk_from_each root rs'
  end.

Module SensitiveFilter.
Section filter.
Context `{UnicodeTables}.

Definition word_runes (raw : string) : list Z := runes (ToLower (TrimSpace raw)).
Definition NewSensitiveFilter (words : list string) : trieNode :=
  fold_left (fun root raw => match word_runes raw with [] => root | word => add_word word root end) words new_node.

(** The filter may be nil. *)
Definition Contains (f : option trieNode) (text : string) : bool :=
  match f with
  | None => false
  | Some root => walk_from_each root (runes (ToLower text))
  end.
End filter.
End SensitiveFilter.

(** ** Messages *)
Definition ErrRateLimited : error := Sentinel "danmaku.ErrRateLimited" "danmaku rate limited".
Definition ErrMuted : error := Sentinel "danmaku.ErrMuted" "user is muted".
Definition ErrSensitive : error := Sentinel "danmaku.ErrSensitive" "danmaku contains sensitive content".
Definition ErrInvalidContent : error := Sentinel "danmaku.ErrInvalidContent" "invalid danmaku content".

Record DanmakuEvent : Type := mkDanmaku {
  dm_MessageID : string;
  dm_RoomID : Z;
  dm_UserID : Z;
  dm_Nickname : string;
  dm_Content : string;
  dm_CreatedAt : Z;
  dm_Broadcasted : bool;
  dm_TrafficMode : string;
  dm_SampleRate : float64;
  dm_EstimatedFanout : float64 }.

(** A JSON number read into a [float64]; out-of-range numbers are errors. *)
Definition dec_float (j : json) : option float64 :=
  match j with
  | JFloat f => Some f
  | JNum z => match float_of_Z z with S754_infinity _ => None | f => Some f end
  | _ => None
  end.

Section codec.
Context `{TimeText}.

Definition danmaku_json (e : DanmakuEvent) : json := JObj
  [("message_id", JStr (dm_MessageID e)); ("room_id", JNum (dm_RoomID e)); ("user_id", JNum (dm_UserID e));
   ("nickname", JStr (dm_Nickname e)); ("content", JStr (dm_Content e)); ("created_at", JStr (time_text (dm_CreatedAt e)));
   ("broadcasted", JBool (dm_Broadcasted e)); ("traffic_mode", JStr (dm_TrafficMode e));
   ("sample_rate", JFloat (dm_SampleRate e)); ("estimated_fanout_per_sec", JFloat (dm_EstimatedFanout e))].

Definition unmarshal_danmaku (r : raw) : option DanmakuEvent :=
  o ← decode_object r;
  id ← decode_field "" dec_string "message_id" o;
  room ← decode_field 0 dec_int64 "room_id" o;
  user ← decode_field 0 dec_int64 "user_id" o;
  nick ← decode_field "" dec_string "nickname" o;
  content ← decode_field "" dec_string "content" o;
  created ← decode_field zero_time dec_time "created_at" o;
  b ← decode_field false dec_bool "broadcasted" o;
  mode ← decode_field "" dec_string "traffic_mode" o;
  rate ← decode_field zero dec_float "sample_rate" o;
  fanout ← decode_field zero dec_float "estimated_fanout_per_sec" o;
  Some (mkDanmaku id room user nick content created b mode rate fanout).
End codec.

(** ** The interfaces of the service *)
Class DanmakuRooms (W : Type) := { dr_GetRoomAccess : Z -> Z -> M W RoomAccess }.
Class DanmakuUsers (W : Type) := { du_User : Z -> M W User }.
Definition DanmakuLimiter (W : Type) : Type := string -> Z -> Z -> M W bool.
Definition EventProducer (W : Type) : Type := DanmakuEvent -> M W unit.
(** Mode, whether to broadcast, sample rate and estimated fan-out. *)
Definition TrafficPolicy (W : Type) : Type := Z -> string -> M W (string * bool * float64 * float64).

(** [itoa]: no digits for a negative number. *)
Definition itoa (v : Z) : string := if v =? 0 then "0" else if 0 <? v then format_digits (digits_fuel v) v "" else "".

Record DanmakuConfig : Type := mkDanmakuConfig { dc_userRateLimit : Z; dc_userRateWindow : Z }.
(** The defaults of [NewService]. *)
Definition new_config (limit window : Z) : DanmakuConfig :=
  mkDanmakuConfig (if limit <=? 0 then 5 else limit) (if window <=? 0 then 10 * Second else window).

Module DanmakuService.
Section service.
Context `{UnicodeTables} `{TimeText} {W : Type} `{DanmakuRooms W} `{DanmakuUsers W} `{Publisher W}.
Variables (limiter : DanmakuLimiter W) (filter : option trieNode) (producer : option (EventProducer W))
  (traffic : option (TrafficPolicy W)) (cfg : DanmakuConfig).

Definition limiter_key (userID : Z) : string := "live:limit:danmaku:user:" +:+ itoa userID.

(** The event before the traffic policy. *)
Definition new_event (messageID : string) (now roomID userID : Z) (nickname content : string) : DanmakuEvent :=
  mkDanmaku messageID roomID userID nickname content now true "NORMAL" one zero.

Definition apply_traffic (e : DanmakuEvent) (d : string * bool * float64 * float64) : DanmakuEvent :=
  let '(mode, broadcast, sampleRate, estimatedFanout) := d in
  mkDanmaku (dm_MessageID e) (dm_RoomID e) (dm_UserID e) (dm_Nickname e) (dm_Content e) (dm_CreatedAt e) broadcast
    (if bool_decide (mode = "") then dm_TrafficMode e else mode) sampleRate estimatedFanout.

(** The realtime event of a message; [now] is the clock read by [NewPriorityEvent]. *)
Definition wire_event (now : Z) (eventID : string) (e : DanmakuEvent) : RtEvent :=
  NewPriorityEvent now eventID "danmaku" (dm_RoomID e) "P3" (AnyValue (danmaku_json e)).

(** [messageID] and [eventID] are the two [idgen.New()], [now] and [now'] the two
    clock reads. *)
Definition Send (messageID eventID : string) (now now' : Z) (roomID userID : Z) (content : string) : M W DanmakuEvent :=
  let content := TrimSpace content in
  if bool_decide (content = "") || (200 <? rune_count content) then throw ErrInvalidContent else
  access ← dr_GetRoomAccess roomID userID;
  if negb (bool_decide (room_Status (ra_Room access) = StatusLiving)) then throw ErrNotLiving else
  if ra_Banned access then throw ErrBanned else
  if ra_Muted access then throw ErrMuted else
  allowed ← limiter (limiter_key userID) (dc_userRateLimit cfg) (dc_userRateWindow cfg);
  if negb allowed then throw ErrRateLimited else
  if SensitiveFilter.Contains filter content then throw ErrSensitive else
  u ← du_User userID;
  let e := new_event messageID now roomID userID (us_Nickname u) content in
  e ← match traffic with
      | None => mret e
      | Some decide => d ← decide roomID (dm_MessageID e); mret (apply_traffic e d)
      end;
  _ ← (if dm_Broadcasted e then Publish (RoomStream roomID) (wire_event now' eventID e) else mret tt);
  _ ← match producer with
      | Some produce => ignore (produce e)
      | None => mret tt
      end;
  mret e.
End service.
End DanmakuService.

(** ** Kafka ([kafka.go]) *)
(** [KafkaProducer.ProduceDanmaku]; [NoopProducer] is [fun _ => mret tt]. [ctx] and
    [span] are the carriers of the request and of the producer span, [now] the
    clock of the envelope. *)
Definition ProduceDanmaku {K} `{AsyncClient K} `{TimeText} (ctx span : trace_map) (now : Z) (topic : string)
    (e : DanmakuEvent) : M K unit :=
  match NewEnvelopeContext ctx now (dm_MessageID e) EventTypeDanmakuSent (dm_RoomID e) (danmaku_json e) with
  | Err err => throw err
  | Ok envelope =>
    match marshal_envelope envelope with
    | Err err => throw err
    | Ok raw => ProduceAsync span topic (FormatInt (dm_RoomID e)) raw
    end
  end.
Definition NoopProducer {K} : EventProducer K := fun _ => mret tt.

(** The [danmaku_records] table in insertion order. *)
Record danmaku_row : Type := mkDanmakuRow {
  dr_message_id : string;
  dr_room_id : Z;
  dr_user_id : Z;
  dr_nickname : string;
  dr_content : string;
  dr_created_at : Z }.

Section persistence.
Context `{MySQLServer} `{TimeText}.
(** [strconv.Quote], for the [%q] of an error text. *)
Variable quote : string -> string.

Definition ER_DATA_TOO_LONG : Z := 1406.
Definition data_too_long : error :=
  MySQLError ER_DATA_TOO_LONG "Data too long for column" (error_string ER_DATA_TOO_LONG "Data too long for column").

(** [INSERT ... ON DUPLICATE KEY UPDATE message_id=message_id]; the result is the
    number of affected rows. *)
Definition insert_danmaku (e : DanmakuEvent) : stmt (list danmaku_row) Z := fun _ rows =>
  if negb (text_ok (dm_MessageID e)) || negb (text_ok (dm_Nickname e)) || negb (text_ok (dm_Content e)) then Err incorrect_string
  else if (64 <? rune_count (dm_MessageID e)) || (64 <? rune_count (dm_Nickname e)) || (512 <? rune_count (dm_Content e))
  then Err data_too_long
  else if existsb (fun r => str_eq (dr_message_id r) (dm_MessageID e)) rows then Ok (0, rows)
  else Ok (1, rows ++ [mkDanmakuRow (dm_MessageID e) (dm_RoomID e) (dm_UserID e) (dm_Nickname e) (dm_Content e)
                         (datetime3 (dm_CreatedAt e))]).

(** [PersistenceHandler.Handle]; a nil value is not JSON. *)
Definition HandleDanmaku (rec : Record_) : M (Mysql (list danmaku_row)) unit :=
  match unmarshal_envelope (default (Invalid "") (Value rec)) with
  | None => throw (Permanent (Wrapped "decode danmaku envelope: " (Fresh "invalid json") ""))
  | Some envelope =>
    match ValidateRoomEnvelope envelope with
    | Err err => throw (Permanent (Wrapped "invalid danmaku envelope: " err ""))
    | Ok _ =>
      if negb (bool_decide (env_EventType envelope = EventTypeDanmakuSent))
      then throw (Permanent (Fresh ("unexpected danmaku event type " +:+ quote (env_EventType envelope)))) else
      match unmarshal_danmaku (env_Payload envelope) with
      | None => throw (Permanent (Wrapped "decode danmaku payload: " (Fresh "invalid json") ""))
      | Some e =>
        if bool_decide (dm_MessageID e = "") || (dm_RoomID e <=? 0) || (dm_UserID e <=? 0) || bool_decide (dm_Content e = "")
        then throw (Permanent (Fresh "invalid danmaku payload")) else
        _ ← db_exec (insert_danmaku e);
        mret tt
      end
    end
  end.
End persistence.
