(* ===== verification/DanmakuSpec.v ===== *)
(** What danmaku promises: the filter finds exactly the configured words, only
    admitted messages reach a room or the log, and a message is archived once. *)
From S2P Require Import Prelude GoStrings Mysql Json Message Realtime Kafka Instances Room Auth Traffic Danmaku.

(** ** The filter *)
(** The words of a trie. *)
Fixpoint member (n : trieNode) (w : list Z) : bool :=
  match w with
  | [] => terminal n
  | r :: w => match children n !! r with Some n => member n w | None => false end
  end.

Lemma member_new w : member new_node w = false.
Proof. destruct w as [|r w]; [done|]. cbn. by rewrite lookup_empty. Qed.

Lemma member_add_word w n v : member (add_word w n) v = bool_decide (v = w) || member n v.
Proof.
  revert n v. induction w as [|r w IH]; intros n [|x v]; cbn [member add_word children terminal]; [done|done|done|].
  destruct (decide (x = r)) as [->|Hne].
  - rewrite lookup_insert_eq, IH. destruct (children n !! r) as [n'|] eqn:E; cbn [default].
    + f_equal. apply bool_decide_ext. naive_solver.
    + rewrite member_new. f_equal. apply bool_decide_ext. naive_solver.
  - rewrite lookup_insert_ne by done. rewrite bool_decide_false by congruence. done.
Qed.

Lemma walk_member n rs : walk n rs = true <-> exists w r v, rs = (r :: w) ++ v /\ member n (r :: w) = true.
Proof.
  revert n. induction rs as [|r rs IH]; intros n; cbn [walk].
  - split; [done|]. by intros (w & r & v & ? & _).
  - split.
    + destruct (children n !! r) as [n'|] eqn:E; [|done]. destruct (terminal n') eqn:Ht.
      * intros _. exists [], r, rs. split; [done|]. cbn. by rewrite E.
      * intros (w & r' & v & -> & Hm)%IH. exists (r' :: w), r, v. split; [done|]. cbn. cbn in Hm. by rewrite E.
    + intros (w & r' & v & Heq & Hm). injection Heq as <- Heq. cbn in Hm.
      destruct (children n !! r) as [n'|]; [|done]. destruct (terminal n') eqn:Ht; [done|].
      apply IH. destruct w as [|r' w]; [cbn in Hm; congruence|]. by exists w, r', v.
Qed.

Lemma walk_from_each_spec root rs :
  walk_from_each root rs = true <-> exists a w r v, rs = a ++ (r :: w) ++ v /\ member root (r :: w) = true.
Proof.
  induction rs as [|x rs IH]; cbn [walk_from_each].
  - split; [done|]. intros (a & w & r & v & Heq & _). by destruct a.
  - rewrite orb_true_iff, walk_member, IH. split.
    + intros [(w & r & v & Heq & Hm)|(a & w & r & v & Heq & Hm)].
      * by exists [], w, r, v.
      * exists (x :: a), w, r, v. by rewrite Heq.
    + intros (a & w & r & v & Heq & Hm). destruct a as [|y a].
      * left. by exists w, r, v.
      * right. injection Heq as <- Heq. by exists a, w, r, v.
Qed.

Section filter.
Context `{UnicodeTables}.

Lemma member_NewSensitiveFilter words v : v <> [] ->
  member (SensitiveFilter.NewSensitiveFilter words) v = true <->
  exists raw, raw ∈ words /\ SensitiveFilter.word_runes raw = v.
Proof.
  intros Hv. unfold SensitiveFilter.NewSensitiveFilter.
  assert (Hgen : forall root, member (fold_left (fun root raw =>
      match SensitiveFilter.word_runes raw with [] => root | word => add_word word root end) words root) v = true <->
    (exists raw, raw ∈ words /\ SensitiveFilter.word_runes raw = v) \/ member root v = true).
  { induction words as [|raw words IH]; intros root; cbn [fold_left].
    - split; [by right|]. intros [(raw & Hin & _)|?]; [|done]. by apply elem_of_nil in Hin.
    - rewrite IH. setoid_rewrite elem_of_cons. destruct (SensitiveFilter.word_runes raw) as [|r w] eqn:E.
      + naive_solver.
      + rewrite member_add_word, orb_true_iff, bool_decide_eq_true. naive_solver. }
  rewrite Hgen, member_new. naive_solver.
Qed.

(** C28 The trie of [NewSensitiveFilter] finds exactly the configured words: a text
    is rejected if and only if the lower-cased text has, as consecutive runes,
    some configured word that is not blank, trimmed and lower-cased. *)
Theorem filter_finds_exactly_the_words words text :
  SensitiveFilter.Contains (Some (SensitiveFilter.NewSensitiveFilter words)) text = true <->
  exists raw before after, raw ∈ words /\ SensitiveFilter.word_runes raw <> [] /\
    runes (ToLower text) = before ++ SensitiveFilter.word_runes raw ++ after.
Proof.
  unfold SensitiveFilter.Contains. rewrite walk_from_each_spec. split.
  - intros (a & w & r & v & Heq & Hm). apply member_NewSensitiveFilter in Hm as (raw & Hin & Hw); [|done].
    exists raw, a, v. by rewrite Hw.
  - intros (raw & a & v & Hin & Hne & Heq). destruct (SensitiveFilter.word_runes raw) as [|r w] eqn:E; [done|].
    exists a, w, r, v. split; [done|]. apply member_NewSensitiveFilter; [done|]. by exists raw.
Qed.
End filter.

(** ** Sending *)
(** What leaves the service. *)
Inductive attempt : Type :=
| Published (channel : string) (event : RtEvent)
| Produced (e : DanmakuEvent).

Section send.
Context `{UnicodeTables} `{TimeText} {R : Type} `{DanmakuRooms R} `{DanmakuUsers R}.
Variables (limiter : DanmakuLimiter R) (filter : option trieNode) (pub : string -> RtEvent -> M R unit)
  (prod : option (DanmakuEvent -> M R unit)) (traffic : option (TrafficPolicy R)) (cfg : DanmakuConfig).

(** The state of everything the service calls, and the record of what it sent. *)
Definition on_rest {A} (m : M R A) : M (R * list attempt) A := zoom m.
Definition recording {A} (x : attempt) (m : M R A) : M (R * list attempt) A :=
  fun w => let (r, rw) := m w.1 in (r, (rw, w.2 ++ [x])).
#[local] Instance rooms_rest : DanmakuRooms (R * list attempt) := {| dr_GetRoomAccess := fun id u => on_rest (dr_GetRoomAccess id u) |}.
#[local] Instance users_rest : DanmakuUsers (R * list attempt) := {| du_User := fun u => on_rest (du_User u) |}.
#[local] Instance recording_publisher : Publisher (R * list attempt) := {| Publish := fun ch ev => recording (Published ch ev) (pub ch ev) |}.
Definition recording_producer : option (EventProducer (R * list attempt)) :=
  (fun p e => recording (Produced e) (p e)) <$> prod.
Definition rest_traffic : option (TrafficPolicy (R * list attempt)) := (fun d id m => on_rest (d id m)) <$> traffic.

Definition send (messageID eventID : string) (now now' roomID userID : Z) (content : string) : M (R * list attempt) DanmakuEvent :=
  DanmakuService.Send (fun k l w => on_rest (limiter k l w)) filter recording_producer rest_traffic cfg
    messageID eventID now now' roomID userID content.

Lemma bind_rest {A B} (m : M R A) (k : A -> M (R * list attempt) B) rw log :
  (on_rest m ≫= k) (rw, log) = match m rw with (Ok a, rw') => k a (rw', log) | (Err e, rw') => (Err e, (rw', log)) end.
Proof. unfold mbind, M_bind, on_rest, zoom. cbn. by destruct (m rw) as [[a|e] rw']. Qed.

(** The message passes every check and the traffic policy answers: [e] is the
    event to send, [rw'] the state after the checks. *)
Definition accepted (messageID : string) (now roomID userID : Z) (content : string) (rw : R) (e : DanmakuEvent) (rw' : R) : Prop :=
  TrimSpace content <> "" /\ rune_count (TrimSpace content) <= 200 /\
  exists access rw1 rw2 u rw3,
    dr_GetRoomAccess roomID userID rw = (Ok access, rw1)
    /\ room_Status (ra_Room access) = StatusLiving /\ ra_Banned access = false /\ ra_Muted access = false
    /\ limiter (DanmakuService.limiter_key userID) (dc_userRateLimit cfg) (dc_userRateWindow cfg) rw1 = (Ok true, rw2)
    /\ SensitiveFilter.Contains filter (TrimSpace content) = false
    /\ du_User userID rw2 = (Ok u, rw3)
    /\ let e0 := DanmakuService.new_event messageID now roomID userID (us_Nickname u) (TrimSpace content) in
       match traffic with
       | None => e = e0 /\ rw' = rw3
       | Some decide => exists d, decide roomID messageID rw3 = (Ok d, rw') /\ e = DanmakuService.apply_traffic e0 d
       end.

Definition produced (e : DanmakuEvent) : list attempt := match prod with Some _ => [Produced e] | None => [] end.

(** What an accepted event does. *)
Definition delivered_as (eventID : string) (now' roomID : Z) (e : DanmakuEvent) (rw' : R) (log : list attempt)
    (r : res DanmakuEvent) (log' : list attempt) : Prop :=
  let wire := DanmakuService.wire_event now' eventID e in
  if dm_Broadcasted e then
    match (pub (RoomStream roomID) wire rw').1 with
    | Ok _ => r = Ok e /\ log' = log ++ [Published (RoomStream roomID) wire] ++ produced e
    | Err err => r = Err err /\ log' = log ++ [Published (RoomStream roomID) wire]
    end
  else r = Ok e /\ log' = log ++ produced e.

Lemma deliver_run eventID now' roomID e rw' log r rw2 log' :
  (_ ← (if dm_Broadcasted e then Publish (RoomStream roomID) (DanmakuService.wire_event now' eventID e) else mret tt);
   _ ← match recording_producer with Some produce => ignore (produce e) | None => mret tt end;
   mret e) (rw', log) = (r, (rw2, log')) ->
  delivered_as eventID now' roomID e rw' log r log'.
Proof.
  assert (Hprod : forall rw log, exists rw2,
    (_ ← match recording_producer with Some produce => ignore (produce e) | None => mret tt end; mret e) (rw, log)
    = (Ok e, (rw2, log ++ produced e))).
  { intros rw l. unfold recording_producer, produced. destruct prod as [p|]; cbn [fmap option_fmap option_map].
    - unfold mbind, M_bind, ignore, recording. cbn. destruct (p e rw) as [x rwp]. by exists rwp.
    - exists rw. cbn. by rewrite app_nil_r. }
  unfold delivered_as. destruct (dm_Broadcasted e).
  - cbn [Publish recording_publisher]. unfold recording. unfold mbind at 1, M_bind at 1. cbn [fst snd].
    destruct (pub _ _ rw') as [[?|err] rwp]; cbn [fst].
    + destruct (Hprod rwp (log ++ [Published (RoomStream roomID) (DanmakuService.wire_event now' eventID e)])) as (w & ->).
      intros [= <- <- <-]. by rewrite <- app_assoc.
    + by intros [= <- <- <-].
  - unfold mbind at 1, M_bind at 1. cbn [mret M_ret]. destruct (Hprod rw' log) as (w & ->). by intros [= <- <- <-].
Qed.

(** Refusals: some check of [accepted] is known to fail. *)
Ltac refuse := left; split_and!;
  [intros e' rw' (Hc & Hl & access' & w1 & w2 & u' & w3 & G1 & G2 & G3 & G4 & G5 & G6 & G7 & G8);
   try match goal with E : traffic = Some _ |- _ => rewrite E in G8; destruct G8 as (? & ? & _) end;
   rewrite ?G1 in *; simplify_eq; congruence|done|done].

(** C25 [Service.Send], whatever the room service, the users, the limiter, the
    traffic policy, the publisher and the producer answer: a message leaves the
    service only if it has 1 to 200 characters, the room is live, the sender is
    neither banned nor muted, the limiter allows it, the filter finds nothing and
    the policy answers. Then it is published to the room's channel, exactly once,
    if the policy says so; unless publishing fails, which is reported, it is handed
    to the producer, and the producer's failure never fails the call. *)
Theorem danmaku_leaves_only_when_admitted messageID eventID now now' roomID userID content rw log r rw2 log' :
  send messageID eventID now now' roomID userID content (rw, log) = (r, (rw2, log')) ->
  ((forall e rw', ~ accepted messageID now roomID userID content rw e rw') /\ log' = log /\ is_ok r = false)
  \/ exists e rw', accepted messageID now roomID userID content rw e rw' /\ delivered_as eventID now' roomID e rw' log r log'.
Proof.
  unfold send, DanmakuService.Send. case_bool_decide as Hempty; [intros [= <- <- <-]; refuse|].
  destruct (Z.ltb_spec 200 (rune_count (TrimSpace content))).
  { intros [= <- <- <-]. left. split_and!; [|done..]. intros e' rw' (_ & ? & _). lia. }
  cbn [orb dr_GetRoomAccess rooms_rest du_User users_rest]. rewrite bind_rest.
  destruct (dr_GetRoomAccess roomID userID rw) as [[access|err] rw1] eqn:Hget; [|intros [= <- <- <-]; refuse].
  case_bool_decide as Hst; cbn [negb]; [|intros [= <- <- <-]; refuse].
  destruct (ra_Banned access) eqn:Hban; [intros [= <- <- <-]; refuse|].
  destruct (ra_Muted access) eqn:Hmute; [intros [= <- <- <-]; refuse|]. rewrite bind_rest.
  destruct (limiter _ _ _ rw1) as [[[]|err] rw3] eqn:Hlim; [|intros [= <- <- <-]; refuse..]. cbn [negb].
  destruct (SensitiveFilter.Contains filter (TrimSpace content)) eqn:Hf; [intros [= <- <- <-]; refuse|]. rewrite bind_rest.
  destruct (du_User userID rw3) as [[u|err] rw4] eqn:Hu; [|intros [= <- <- <-]; refuse].
  assert (Hacc : forall e rw',
    (let e0 := DanmakuService.new_event messageID now roomID userID (us_Nickname u) (TrimSpace content) in
     match traffic with
     | None => e = e0 /\ rw' = rw4
     | Some decide => exists d, decide roomID messageID rw4 = (Ok d, rw') /\ e = DanmakuService.apply_traffic e0 d
     end) -> accepted messageID now roomID userID content rw e rw').
  { intros e rw' Hd. split; [done|]. split; [lia|]. by exists access, rw1, rw3, u, rw4. }
  cbv zeta. unfold rest_traffic. destruct traffic as [decide|] eqn:Ht; cbn [fmap option_fmap option_map].
  - unfold mbind at 1, M_bind at 1. rewrite bind_rest. cbn [dm_MessageID DanmakuService.new_event].
    destruct (decide roomID messageID rw4) as [[d|err] rw5] eqn:Hd; [|intros [= <- <- <-]; refuse].
    intros Hrun%deliver_run. right. eexists _, rw5. split; [apply Hacc; rewrite Ht; eauto|done].
  - intros Hrun%deliver_run. right. eexists _, rw4. split; [apply Hacc; by rewrite Ht|done].
Qed.
End send.

(** ** Archiving *)
Definition float_finite (f : float64) : bool := json_finite (JFloat f).
(** A message as [Send] makes it: its fields survive the wire. *)
Definition sendable (e : DanmakuEvent) : Prop :=
  TrimSpace (dm_MessageID e) <> "" /\ 0 < dm_RoomID e <= int64_max /\ 0 < dm_UserID e <= int64_max
  /\ dm_Content e <> "" /\ 0 <= dm_CreatedAt e <= int64_max
  /\ float_finite (dm_SampleRate e) = true /\ float_finite (dm_EstimatedFanout e) = true.
(** The columns can hold it. *)
Definition storable `{MySQLServer} (e : DanmakuEvent) : Prop :=
  text_ok (dm_MessageID e) = true /\ text_ok (dm_Nickname e) = true /\ text_ok (dm_Content e) = true
  /\ rune_count (dm_MessageID e) <= 64 /\ rune_count (dm_Nickname e) <= 64 /\ rune_count (dm_Content e) <= 512.

Section archive.
Context `{MySQLServer} `{TimeTextOk}.
Variable quote : string -> string.

Lemma unmarshal_danmaku_json e : sendable e -> unmarshal_danmaku (Valid (danmaku_json e)) = Some e.
Proof.
  intros (_ & Hroom & Huser & _ & Hcreated & _). unfold unmarshal_danmaku, danmaku_json.
  cbn [decode_object mbind option_bind]. json_keys. cbn [dec_string dec_bool dec_float].
  rewrite !dec_int64_num by (unfold in_int64, int64_min, int64_max in *; lia).
  rewrite dec_time_text by done. by destruct e.
Qed.

Definition row_of (e : DanmakuEvent) : danmaku_row :=
  mkDanmakuRow (dm_MessageID e) (dm_RoomID e) (dm_UserID e) (dm_Nickname e) (dm_Content e) (datetime3 (dm_CreatedAt e)).
Definition has_id (rows : list danmaku_row) (id : string) : bool := existsb (fun r => str_eq (dr_message_id r) id) rows.
Definition unique_ids (rows : list danmaku_row) : Prop := NoDup (map (fun r => collate (dr_message_id r)) rows).

(** The value of the record that [ProduceDanmaku] hands over. *)
Lemma produced_value ctx span now topic e {K} `{AsyncClient K} (k : K) :
  sendable e -> 0 <= now <= int64_max ->
  exists value envelope, ProduceDanmaku ctx span now topic e k = (Ok tt, TryProduce topic (FormatInt (dm_RoomID e)) value k)
    /\ unmarshal_envelope value = Some envelope /\ ValidateRoomEnvelope envelope = Ok tt
    /\ env_EventType envelope = EventTypeDanmakuSent /\ env_Payload envelope = Valid (danmaku_json e).
Proof.
  intros Hs Hnow. pose proof Hs as (Hid & Hroom & Huser & Hcontent & Hcreated & Hr & Hf).
  unfold ProduceDanmaku, NewEnvelopeContext, json_Marshal.
  assert (json_finite (danmaku_json e) = true) as Hfin.
  { unfold danmaku_json. unfold float_finite in *. cbn [json_finite forallb snd] in *. by rewrite Hr, Hf. }
  rewrite Hfin. set (env := mkEnvelope _ _ _ _ _ _).
  assert (Hw : wire_ok env).
  { unfold wire_ok, env. cbn. unfold in_int64, int64_min. split; [lia|]. split; [done|]. split; [by destruct ctx|done]. }
  assert (Hv : ValidateRoomEnvelope env = Ok tt).
  { unfold ValidateRoomEnvelope, env. cbn [env_EventID env_EventType env_RoomID env_CreatedAt env_Payload].
    rewrite bool_decide_false by done. change (bool_decide (TrimSpace EventTypeDanmakuSent = "")) with false. cbv iota.
    destruct (Z.leb_spec (dm_RoomID e) 0); [lia|]. unfold IsZero, zero_time, Second.
    destruct (Z.eqb_spec now (-62135596800 * 1000000000)); [lia|]. done. }
  destruct (marshal_unmarshal_envelope env Hw) as (raw & Hm & _). rewrite Hm.
  exists (InjectTrace raw span). eexists. split; [reflexivity|]. split; [by apply InjectTrace_envelope|].
  split; [|done]. exact Hv.
Qed.

Lemma insert_danmaku_ok e now rows x rows' : insert_danmaku e now rows = Ok (x, rows') ->
  rows' = if has_id rows (dm_MessageID e) then rows else rows ++ [row_of e].
Proof.
  unfold insert_danmaku, has_id. destruct (negb _ || _ || _); [done|]. destruct (_ || _ || _); [done|].
  destruct (existsb _ _); by intros [= _ <-].
Qed.

Lemma insert_keeps_unique e rows : unique_ids rows ->
  unique_ids (if has_id rows (dm_MessageID e) then rows else rows ++ [row_of e]).
Proof.
  intros Hu. unfold has_id. destruct (existsb _ _) eqn:E; [done|]. unfold unique_ids. rewrite map_app. cbn.
  apply NoDup_app. split_and!; [done| |apply NoDup_singleton].
  intros x (r & -> & Hr)%list_elem_of_fmap_1 Hx%list_elem_of_singleton.
  rewrite existsb_false in E. specialize (E r Hr). unfold str_eq in E. by rewrite bool_decide_true in E.
Qed.

(** The database error of a statement is passed on as it is. *)
Lemma HandleDanmaku_produced rec value envelope e c n fl :
  sendable e -> Value rec = Some value -> unmarshal_envelope value = Some envelope -> ValidateRoomEnvelope envelope = Ok tt ->
  env_EventType envelope = EventTypeDanmakuSent -> env_Payload envelope = Valid (danmaku_json e) ->
  HandleDanmaku quote rec (mkMysql c None n fl) = (_ ← db_exec (insert_danmaku e); mret tt) (mkMysql c None n fl).
Proof.
  intros Hs Hval Hun Hv Hty Hp. unfold HandleDanmaku. rewrite Hval. change (default (Invalid "") (Some value)) with value. rewrite Hun, Hv, Hty, Hp.
  rewrite bool_decide_true by done. cbn [negb]. rewrite unmarshal_danmaku_json by done.
  destruct Hs as (Hid & Hroom & Huser & Hcontent & _).
  rewrite (bool_decide_false (dm_MessageID e = "")) by (intros E; by rewrite E in Hid).
  rewrite (bool_decide_false (dm_Content e = "")) by done.
  destruct (Z.leb_spec (dm_RoomID e) 0); [lia|]. destruct (Z.leb_spec (dm_UserID e) 0); [lia|]. done.
Qed.

(** C29 A sent message is archived at most once, and every delivery that succeeds has
    archived it. The record that [ProduceDanmaku] hands to
    Kafka, delivered to [PersistenceHandler.Handle] any number of times and under
    any database faults: a delivery adds the message's row, as sent, or changes
    nothing; it changes nothing when the message id is already there; message ids
    stay unique; a delivery that succeeds, and so lets the offset be committed, has
    the row in the table; without faults a message the columns can hold succeeds. *)
Theorem danmaku_is_archived_at_most_once ctx span now topic e {K} `{AsyncClient K} (k : K) :
  sendable e -> 0 <= now <= int64_max ->
  exists value, ProduceDanmaku ctx span now topic e k = (Ok tt, TryProduce topic (FormatInt (dm_RoomID e)) value k) /\
  forall rec c n fl r s, Value rec = Some value -> unique_ids c ->
    HandleDanmaku quote rec (mkMysql c None n fl) = (r, s) ->
    txn s = None /\ unique_ids (committed s)
    /\ (committed s = c \/ has_id c (dm_MessageID e) = false /\ committed s = c ++ [row_of e])
    /\ (r = Ok tt -> has_id (committed s) (dm_MessageID e) = true)
    /\ (fl = [] -> storable e -> r = Ok tt).
Proof.
  intros Hs Hnow. destruct (produced_value ctx span now topic e k Hs Hnow) as (value & envelope & Hprod & Hun & Hv & Hty & Hp).
  exists value. split; [done|]. intros rec c n fl r s Hval Huniq. rewrite (HandleDanmaku_produced rec value envelope e) by done.
  intros Hrun.
  assert (Hhas : has_id (if has_id c (dm_MessageID e) then c else c ++ [row_of e]) (dm_MessageID e) = true).
  { destruct (has_id c (dm_MessageID e)) eqn:E; [done|]. unfold has_id. rewrite existsb_app. cbn. by rewrite str_eq_refl, orb_true_r. }
  assert (Hcases : (if has_id c (dm_MessageID e) then c else c ++ [row_of e]) = c
    \/ has_id c (dm_MessageID e) = false /\ (if has_id c (dm_MessageID e) then c else c ++ [row_of e]) = c ++ [row_of e])
    by (destruct (has_id c (dm_MessageID e)); auto).
  assert (Hwp : wp (_ ← db_exec (insert_danmaku e); mret tt) (fun r s => txn s = None
      /\ (committed s = c /\ r <> Ok tt \/ committed s = if has_id c (dm_MessageID e) then c else c ++ [row_of e])) (mkMysql c None n fl)).
  { apply wp_bind, wp_db_exec.
    - intros a t' fl' ->%insert_danmaku_ok. split; [done|by right].
    - intros err fl'. split; [done|by left].
    - intros err a t' fl' ->%insert_danmaku_ok. split; [done|by right]. }
  unfold wp in Hwp. rewrite Hrun in Hwp. cbn [fst snd] in Hwp. destruct Hwp as [Htx Hc]. split_and!.
  - done.
  - destruct Hc as [[-> _]| ->]; [done|by apply insert_keeps_unique].
  - destruct Hc as [[-> _]| ->]; [by left|done].
  - intros Hok. destruct Hc as [[_ ?]| ->]; done.
  - intros -> (H1' & H2' & H3' & H4' & H5' & H6'). revert Hrun. unfold mbind, M_bind, db_exec, insert_danmaku. cbn.
    rewrite H1', H2', H3'. cbn [negb orb].
    destruct (Z.ltb_spec 64 (rune_count (dm_MessageID e))); [lia|]. destruct (Z.ltb_spec 64 (rune_count (dm_Nickname e))); [lia|].
    destruct (Z.ltb_spec 512 (rune_count (dm_Content e))); [lia|]. cbn [orb].
    destruct (existsb _ c); by intros [= <- _].
Qed.
End archive.

(** ** Examples *)
Module DanmakuExamples.
#[local] Existing Instances ascii_tables nano_text example_server.

Example filter_example :
  map (SensitiveFilter.Contains (Some (SensitiveFilter.NewSensitiveFilter [" Spam "; ""; "bad word"])))
    ["no sPAM here"; "spa m"; "a bad  word"; "some BAD WORD"] = [true; false; false; true].
Proof. vm_compute. reflexivity. Qed.

(** A live room in which user 9 is muted; everyone is called "u". *)
Definition live_room : Room := mkRoom 1 5 "" "room" StatusLiving None None 0.
Definition open_rooms : DanmakuRooms unit := {|
  dr_GetRoomAccess := fun _ user => mret (mkRoomAccess live_room false (user =? 9)) |}.
Definition anyone : DanmakuUsers unit := {| du_User := fun id => mret (mkUser id "u" "u" "" "" 1 0) |}.
#[local] Existing Instances open_rooms anyone.

Definition send_example : string -> M (unit * list attempt) DanmakuEvent :=
  send (fun _ _ _ => mret true) (Some (SensitiveFilter.NewSensitiveFilter ["spam"])) (fun _ _ => mret tt)
    (Some (fun _ => throw (Fresh "broker down"))) None (new_config 0 0) "m1" "e1" 0 0 1 7.
Definition hello : DanmakuEvent := DanmakuService.new_event "m1" 0 1 7 "u" "hello".

Lemma danmaku_leaves_only_when_admitted_witness :
  exists rw', accepted (fun _ _ _ => mret true) (Some (SensitiveFilter.NewSensitiveFilter ["spam"])) None (new_config 0 0)
    "m1" 0 1 7 " hello " tt hello rw'.
Proof.
  pose proof (danmaku_leaves_only_when_admitted (fun _ _ _ => mret true) (Some (SensitiveFilter.NewSensitiveFilter ["spam"]))
    (fun _ _ => mret tt) (Some (fun _ => throw (Fresh "broker down"))) None (new_config 0 0) "m1" "e1" 0 0 1 7 " hello " tt []
    (Ok hello) tt [Published "room:1:stream" (DanmakuService.wire_event 0 "e1" hello); Produced hello]) as Hsent.
  destruct Hsent as [(_ & Hlog & _)|(e & rw' & Hacc & Hd)]; [vm_compute; reflexivity|discriminate Hlog|].
  exists rw'. unfold delivered_as in Hd.
  assert (e = hello) as <-; [|exact Hacc].
  destruct (dm_Broadcasted e); destruct Hd as [[= <-] _]; reflexivity.
Defined.

Definition log_client : AsyncClient (list (string * string * raw)) := {| TryProduce := fun t k v l => l ++ [(t, k, v)] |}.

Lemma danmaku_is_archived_at_most_once_witness :
  exists value, ProduceDanmaku (H := log_client) [] [] 1 "danmaku" hello [] = (Ok tt, [("danmaku", "1", value)])
  /\ forall r s, HandleDanmaku (fun s => s) (mkRecord "danmaku" 0 0 "1" (Some value)) (mkMysql [row_of hello] None 0 []) = (r, s) ->
     r = Ok tt /\ has_id (committed s) "m1" = true.
Proof.
  destruct (danmaku_is_archived_at_most_once (H0 := nano_text) (H1 := nano_text_ok) (fun s => s) [] [] 1 "danmaku" hello (H2 := log_client) [])
    as (value & Hp & Hall).
  - unfold sendable. split_and!; vm_compute; congruence.
  - split; vm_compute; discriminate.
  - exists value. split; [exact Hp|]. intros r s Hrun.
    assert (Hu : unique_ids [row_of hello]) by apply (NoDup_singleton "m1").
    destruct (Hall (mkRecord "danmaku" 0 0 "1" (Some value)) _ _ _ _ _ eq_refl Hu Hrun) as (_ & _ & _ & Hin & Hok).
    assert (r = Ok tt) as Hr; [apply Hok; [reflexivity|unfold storable; split_and!; vm_compute; congruence]|].
    split; [exact Hr|exact (Hin Hr)].
Defined.
End DanmakuExamples.
