(* ===== verification/Http.v ===== *)
(** The HTTP layer shared by the services: requests, responses, routing and the
    helpers at the end of [internal/httpapi/server.go].

    A path is its list of segments and [PathValue] the wildcards of the matched
    pattern. A handler leaves one response; what surrounds it (request ids, logs, metrics,
    spans, panics) is in Middleware.v. *)
From S2P Require Import Prelude GoStrings Json Room Auth.

(** ** Requests and responses *)
(** A body as the JSON decoder reads it: the text up to the end of the first value
    and its size, whether anything but white space follows, and the total size. *)
Record body : Type := mkBody { bd_first : raw; bd_first_size : Z; bd_more : bool; bd_size : Z }.

Record request : Type := mkRequest {
  q_Method : string;
  q_Path : list string;
  q_Header : string -> string;
  q_Query : string -> string;
  q_Body : body }.
Record response : Type := mkResponse { rs_status : Z; rs_body : raw }.

(** [writeJSON]: a value that cannot be encoded leaves the body empty. *)
Definition writeJSON (code : Z) (v : json) : response :=
  mkResponse code (match json_Marshal v with Ok r => r | Err _ => Invalid "" end).
Definition writeError (code : Z) (errCode msg : string) : response :=
  writeJSON code (JObj [("code", JStr errCode); ("message", JStr msg)]).

(** ** Decoding a body *)
(** [dec.Decode(dst)] with [DisallowUnknownFields] into a struct with these field
    names; [dec] reads the fields. *)
Definition decode_strict {A} (names : list string) (dec : list (string * json) -> option A) (r : raw) : option A :=
  o ← decode_object r;
  if forallb (fun kv => existsb (fun n => key_match n kv.1) names) o then dec o else None.

(** [http.MaxBytesReader] fails once more than [max] bytes are read. *)
Definition decodeJSON {A} (max : Z) (names : list string) (dec : list (string * json) -> option A) (b : body) : res A :=
  if max <? bd_first_size b then Err (Fresh "invalid json body") else
  match decode_strict names dec (bd_first b) with
  | None => Err (Fresh "invalid json body")
  | Some v =>
    if bd_more b || (max <? bd_size b) then Err (Fresh "json body must contain exactly one object") else Ok v
  end.

(** [r.URL.Path] of a path given by its segments. *)
Definition path_text (path : list string) : string := "/" +:+ String.concat "/" path.

(** ** Handlers *)
Definition PathValue : Type := string -> string.
Definition handler (W : Type) : Type := request -> PathValue -> M W response.
Definition authedHandler (W : Type) : Type := request -> PathValue -> Z -> M W response.

(** [pathInt64]: the value, or the response already written. *)
Definition pathInt64 (pv : PathValue) (name : string) : Z + response :=
  match ParseInt (pv name) with
  | Some v => if v <=? 0 then inr (writeError 400 "BAD_REQUEST" (name +:+ " must be a positive integer")) else inl v
  | None => inr (writeError 400 "BAD_REQUEST" (name +:+ " must be a positive integer"))
  end.
(** [v, ok := pathInt64(...); if !ok { return }] *)
Definition with_path {W} (pv : PathValue) (name : string) (k : Z -> M W response) : M W response :=
  match pathInt64 pv name with inl v => k v | inr resp => mret resp end.

(** [strings.TrimPrefix] *)
Definition TrimPrefix (s p : string) : string := if HasPrefix s p then (str_split (String.length p) s).2 else s.

(** [requireAuth]; [now] is the clock of [Verify]. *)
Definition requireAuth {W} `{Crypto} `{JsonText} (appTokens : TokenManager) (now : Z) (next : authedHandler W) : handler W :=
  fun r pv =>
    let h := TrimSpace (q_Header r "Authorization") in
    if negb (HasPrefix h "Bearer ") then mret (writeError 401 "UNAUTHORIZED" "missing bearer token") else
    match Tokens.Verify appTokens now (TrimSpace (TrimPrefix h "Bearer ")) with
    | Err err => mret (writeError 401 "UNAUTHORIZED" (error_text err))
    | Ok claims => next r pv (cl_UserID claims)
    end.

Definition handleRoomError (err : error) : response :=
  if errors_Is err ErrNotFound then writeError 404 "ROOM_NOT_FOUND" (error_text err)
  else if errors_Is err ErrNotLiving then writeError 409 "ROOM_NOT_LIVING" (error_text err)
  else if errors_Is err ErrBanned then writeError 403 "ROOM_BANNED" (error_text err)
  else if errors_Is err ErrForbidden then writeError 403 "FORBIDDEN" (error_text err)
  else if errors_Is err Room.ErrUserNotFound then writeError 404 "USER_NOT_FOUND" (error_text err)
  else if errors_Is err Room.ErrInvalidInput then writeError 400 "INVALID_ROOM_INPUT" (error_text err)
  else if errors_Is err ErrSelfModeration then writeError 400 "SELF_MODERATION_NOT_ALLOWED" (error_text err)
  else if errors_Is err ErrInvalidState then writeError 409 "INVALID_ROOM_STATE" (error_text err)
  else writeError 500 "INTERNAL_ERROR" "room operation failed".

(** A result, or the answer to its error. *)
Definition reply {W A} (m : M W A) (on_err : error -> M W response) (k : A -> M W response) : M W response :=
  r ← try m; match r with Ok a => k a | Err err => on_err err end.
Definition room_reply {W A} (m : M W A) (k : A -> M W response) : M W response :=
  reply m (fun err => mret (handleRoomError err)) k.

(** What [recoverer] answers to a panic of the handler. *)
Definition panicked {W} : M W response := mret (writeError 500 "INTERNAL_ERROR" "internal server error").

(** ** Routing ([http.ServeMux]) *)
Inductive segment : Type := Lit (s : string) | Wild (name : string).
Record route (W : Type) : Type := mkRoute { rt_method : string; rt_pattern : list segment; rt_handler : handler W }.
Arguments mkRoute {W}.
Arguments rt_method {W}.
Arguments rt_pattern {W}.
Arguments rt_handler {W}.

Fixpoint match_path (p : list segment) (path : list string) : option (list (string * string)) :=
  match p, path with
  | [], [] => Some []
  | Lit s :: p, x :: path => if bool_decide (s = x) then match_path p path else None
  | Wild n :: p, x :: path => if bool_decide (x = "") then None else b ← match_path p path; Some ((n, x) :: b)
  | _, _ => None
  end.
Fixpoint path_value (b : list (string * string)) (name : string) : string :=
  match b with
  | [] => ""
  | (n, x) :: b => if bool_decide (n = name) then x else path_value b name
  end.
(** A [GET] pattern also serves [HEAD]. *)
Definition method_match (pattern method : string) : bool :=
  bool_decide (pattern = method) || (bool_decide (pattern = "GET") && bool_decide (method = "HEAD")).

(** The handler of a request; the patterns of a server are disjoint. Requests
    without a route get the mux's own 404 or 405. *)
Fixpoint serve {W} (routes : list (route W)) (r : request) : option (M W response) :=
  match routes with
  | [] => None
  | rt :: routes =>
    match (if method_match (rt_method rt) (q_Method r) then match_path (rt_pattern rt) (q_Path r) else None) with
    | Some b => Some (rt_handler rt r (path_value b))
    | None => serve routes r
    end
  end.

(** ** JSON of the values in responses *)
Section codec.
Context `{TimeText}.

Definition opt_time_field (name : string) (t : option Z) : list (string * json) :=
  match t with Some t => [(name, JStr (time_text t))] | None => [] end.

Definition room_json (v : Room) : json := JObj
  ([("room_id", JNum (room_ID v)); ("anchor_id", JNum (room_AnchorID v))]
   ++ (if bool_decide (room_AnchorNickname v = "") then [] else [("anchor_nickname", JStr (room_AnchorNickname v))])
   ++ [("title", JStr (room_Title v)); ("status", JStr (room_Status v))]
   ++ opt_time_field "started_at" (room_StartedAt v) ++ opt_time_field "ended_at" (room_EndedAt v)
   ++ [("created_at", JStr (time_text (room_CreatedAt v)))]).
Definition access_json (a : RoomAccess) : json :=
  JObj [("room", room_json (ra_Room a)); ("banned", JBool (ra_Banned a)); ("muted", JBool (ra_Muted a))].
Definition user_json (u : User) : json := JObj
  [("id", JNum (us_ID u)); ("username", JStr (us_Username u)); ("nickname", JStr (us_Nickname u));
   ("avatar", JStr (us_Avatar u)); ("created_at", JStr (time_text (us_CreatedAt u)))].
Definition mute_json (m : Mute) : json := JObj
  ([("user_id", JNum (mute_UserID m)); ("nickname", JStr (mute_Nickname m))]
   ++ opt_time_field "muted_until" (mute_MutedUntil m)
   ++ [("reason", JStr (mute_Reason m)); ("updated_at", JStr (time_text (mute_UpdatedAt m)))]).
Definition ban_json (b : Ban) : json := JObj
  [("user_id", JNum (ban_UserID b)); ("nickname", JStr (ban_Nickname b)); ("reason", JStr (ban_Reason b));
   ("created_at", JStr (time_text (ban_CreatedAt b)))].
Definition auth_result_json (a : AuthResult) : json := JObj
  [("user", user_json (ar_User a)); ("access_token", JStr (ar_Token a)); ("expire_at", JNum (ar_ExpiresAt a))].

(** Reading them back. *)
Definition dec_room_fields (o : list (string * json)) : option Room :=
  id ← decode_field 0 dec_int64 "room_id" o;
  anchor ← decode_field 0 dec_int64 "anchor_id" o;
  nick ← decode_field "" dec_string "anchor_nickname" o;
  title ← decode_field "" dec_string "title" o;
  status ← decode_field "" dec_string "status" o;
  started ← decode_field None (fun j => Some <$> dec_time j) "started_at" o;
  ended ← decode_field None (fun j => Some <$> dec_time j) "ended_at" o;
  created ← decode_field zero_time dec_time "created_at" o;
  Some (mkRoom id anchor nick title status started ended created).
Definition zero_room : Room := mkRoom 0 0 "" "" "" None None zero_time.
Definition dec_room (j : json) : option Room :=
  match j with JObj o => dec_room_fields o | _ => None end.
Definition unmarshal_room (r : raw) : option Room := o ← decode_object r; dec_room_fields o.
Definition unmarshal_access (r : raw) : option RoomAccess :=
  o ← decode_object r;
  room ← decode_field zero_room dec_room "room" o;
  banned ← decode_field false dec_bool "banned" o;
  muted ← decode_field false dec_bool "muted" o;
  Some (mkRoomAccess room banned muted).
(** [PasswordHash] and [Status] have no field in the JSON. *)
Definition unmarshal_user (r : raw) : option User :=
  o ← decode_object r;
  id ← decode_field 0 dec_int64 "id" o;
  username ← decode_field "" dec_string "username" o;
  nick ← decode_field "" dec_string "nickname" o;
  avatar ← decode_field "" dec_string "avatar" o;
  created ← decode_field zero_time dec_time "created_at" o;
  Some (mkUser id username nick avatar "" 0 created).
End codec.
