(* ===== verification/Contract.v ===== *)
(** The published contract of the public API ([doc/contracts/public-api-v1.json]):
    one row per route with its owner, its statuses and its error codes, and what it
    means for a server to follow it. *)
From S2P Require Import Prelude GoStrings Json Room Auth Http.

(** ** Routing *)
Lemma serve_route {W} (routes : list (route W)) r m :
  serve routes r = Some m ->
  exists rt b, rt ∈ routes /\ method_match (rt_method rt) (q_Method r) = true
    /\ match_path (rt_pattern rt) (q_Path r) = Some b /\ m = rt_handler rt r (path_value b).
Proof.
  induction routes as [|rt routes IH]; [done|]. cbn [serve].
  destruct (method_match _ _) eqn:Hm; [destruct (match_path _ _) as [b|] eqn:Hp|].
  - intros [= <-]. exists rt, b. split; [by left|done].
  - intros (rt' & b & Hin & Hrest)%IH. exists rt', b. split; [by right|done].
  - intros (rt' & b & Hin & Hrest)%IH. exists rt', b. split; [by right|done].
Qed.

Lemma match_single x path b : match_path [Lit x] path = Some b -> path = [x].
Proof. destruct path as [|y [|? ?]]; cbn; [done|..]; case_bool_decide; try done. by subst. Qed.

(** ** Answers *)
(** [m] always answers, with a response in [P]. *)
Definition answers {W} (P : response -> Prop) (m : M W response) : Prop :=
  forall w, exists resp w', m w = (Ok resp, w') /\ P resp.

Section answers.
Context {W : Type} (P : response -> Prop).
Implicit Types (m : M W response).

Lemma answers_ret resp : P resp -> answers P (mret resp : M W response).
Proof. intros HP w. by exists resp, w. Qed.
Lemma answers_reply {A} (m : M W A) on_err k :
  (forall w e w', m w = (Err e, w') -> answers P (on_err e)) -> (forall w a w', m w = (Ok a, w') -> answers P (k a)) ->
  answers P (reply m on_err k).
Proof.
  intros He Hk w. unfold reply, mbind, M_bind, try. destruct (m w) as [[a|e] w'] eqn:E; [by eapply Hk|by eapply He].
Qed.
Lemma answers_path pv name k :
  P (writeError 400 "BAD_REQUEST" (name +:+ " must be a positive integer")) -> (forall v, answers P (k v)) ->
  answers P (with_path pv name k : M W response).
Proof.
  intros Hbad Hk. unfold with_path, pathInt64. destruct (ParseInt _) as [v|]; [|by apply answers_ret].
  destruct (v <=? 0); [by apply answers_ret|apply Hk].
Qed.
Lemma answers_bind {A} (m : M W A) k : (forall w, exists a w', m w = (Ok a, w')) -> (forall a, answers P (k a)) -> answers P (m ≫= k).
Proof. intros Hm Hk w. destruct (Hm w) as (a & w' & E). unfold mbind, M_bind. rewrite E. apply Hk. Qed.
End answers.

(** ** The catalogue *)
(** The owner of a route: one of the four services behind the gateway. *)
Inductive backend : Type := Identity | Interaction | CommerceBackend | QueryBackend.
#[export] Instance backend_eq_dec : EqDecision backend.
Proof. solve_decision. Defined.

Record contract_row : Type := mkContract {
  ct_owner : backend; ct_method : string; ct_pattern : list segment; ct_auth : bool;
  ct_success : list Z; ct_errors : list Z; ct_codes : list string }.

Definition register_row := mkContract Identity "POST" [Lit "api"; Lit "v1"; Lit "auth"; Lit "register"] false [201] [400; 409; 500; 502]
  ["BAD_REQUEST"; "INVALID_AUTH_INPUT"; "USERNAME_TAKEN"; "INTERNAL_ERROR"; "IDENTITY_ROOM_UNAVAILABLE"].
Definition login_row := mkContract Identity "POST" [Lit "api"; Lit "v1"; Lit "auth"; Lit "login"] false [200] [400; 401; 403; 500; 502]
  ["BAD_REQUEST"; "INVALID_CREDENTIALS"; "USER_DISABLED"; "INTERNAL_ERROR"; "IDENTITY_ROOM_UNAVAILABLE"].
Definition me_row := mkContract Identity "GET" [Lit "api"; Lit "v1"; Lit "me"] true [200] [401; 404; 502]
  ["UNAUTHORIZED"; "USER_NOT_FOUND"; "IDENTITY_ROOM_UNAVAILABLE"].
Definition token_row := mkContract Identity "POST" [Lit "api"; Lit "v1"; Lit "realtime"; Lit "token"] true [200] [401; 500; 502]
  ["UNAUTHORIZED"; "INTERNAL_ERROR"; "IDENTITY_ROOM_UNAVAILABLE"].
Definition create_room_row := mkContract Identity "POST" [Lit "api"; Lit "v1"; Lit "rooms"] true [201] [400; 401; 500; 502]
  ["UNAUTHORIZED"; "BAD_REQUEST"; "INVALID_ROOM_INPUT"; "INTERNAL_ERROR"; "IDENTITY_ROOM_UNAVAILABLE"].
Definition list_rooms_row := mkContract Identity "GET" [Lit "api"; Lit "v1"; Lit "rooms"] false [200] [400; 500; 502]
  ["INVALID_LIMIT"; "INVALID_ROOM_FILTER"; "INTERNAL_ERROR"; "IDENTITY_ROOM_UNAVAILABLE"].
Definition room_page_row := mkContract Identity "GET" [Lit "api"; Lit "v1"; Lit "rooms"; Wild "room_id"] false [200] [400; 404; 500; 502]
  ["BAD_REQUEST"; "ROOM_NOT_FOUND"; "INTERNAL_ERROR"; "IDENTITY_ROOM_UNAVAILABLE"].
Definition messages_row := mkContract QueryBackend "GET" [Lit "api"; Lit "v1"; Lit "rooms"; Wild "room_id"; Lit "messages"] false [200] [400; 500; 502; 503]
  ["BAD_REQUEST"; "INVALID_LIMIT"; "HISTORY_UNAVAILABLE"; "INTERNAL_ERROR"; "QUERY_UNAVAILABLE"].
Definition top_viewers_row := mkContract QueryBackend "GET" [Lit "api"; Lit "v1"; Lit "rooms"; Wild "room_id"; Lit "top-viewers"] false [200] [400; 502; 503]
  ["BAD_REQUEST"; "STATS_UNAVAILABLE"; "QUERY_UNAVAILABLE"].
Definition viewers_row := mkContract QueryBackend "GET" [Lit "api"; Lit "v1"; Lit "rooms"; Wild "room_id"; Lit "viewers"] false [200] [400; 502; 503]
  ["BAD_REQUEST"; "STATS_UNAVAILABLE"; "QUERY_UNAVAILABLE"].
Definition start_row := mkContract Identity "POST" [Lit "api"; Lit "v1"; Lit "rooms"; Wild "room_id"; Lit "start"] true [200] [400; 401; 403; 404; 409; 500; 502]
  ["UNAUTHORIZED"; "BAD_REQUEST"; "ROOM_NOT_FOUND"; "FORBIDDEN"; "INVALID_ROOM_STATE"; "INTERNAL_ERROR"; "IDENTITY_ROOM_UNAVAILABLE"].
Definition stop_row := mkContract Identity "POST" [Lit "api"; Lit "v1"; Lit "rooms"; Wild "room_id"; Lit "stop"] true [200] [400; 401; 403; 404; 409; 500; 502]
  ["UNAUTHORIZED"; "BAD_REQUEST"; "ROOM_NOT_FOUND"; "FORBIDDEN"; "INVALID_ROOM_STATE"; "INTERNAL_ERROR"; "IDENTITY_ROOM_UNAVAILABLE"].
Definition join_row := mkContract Interaction "POST" [Lit "api"; Lit "v1"; Lit "rooms"; Wild "room_id"; Lit "join"] true [200] [400; 401; 403; 404; 409; 500; 502; 503]
  ["UNAUTHORIZED"; "BAD_REQUEST"; "ROOM_NOT_FOUND"; "ROOM_NOT_LIVING"; "ROOM_BANNED"; "STATS_UNAVAILABLE"; "REALTIME_UNAVAILABLE"; "INTERNAL_ERROR"; "INTERACTION_UNAVAILABLE"].
Definition leave_row := mkContract Interaction "POST" [Lit "api"; Lit "v1"; Lit "rooms"; Wild "room_id"; Lit "leave"] true [200] [400; 401; 502; 503]
  ["UNAUTHORIZED"; "BAD_REQUEST"; "STATS_UNAVAILABLE"; "INTERACTION_UNAVAILABLE"].
Definition danmaku_contract := mkContract Interaction "POST" [Lit "api"; Lit "v1"; Lit "rooms"; Wild "room_id"; Lit "danmaku"] true [200] [400; 401; 403; 404; 409; 422; 429; 502]
  ["UNAUTHORIZED"; "BAD_REQUEST"; "INVALID_DANMAKU"; "ROOM_NOT_FOUND"; "ROOM_NOT_LIVING"; "ROOM_BANNED"; "USER_MUTED"; "SENSITIVE_CONTENT"; "RATE_LIMITED"; "DANMAKU_FAILED"; "INTERACTION_UNAVAILABLE"].
Definition like_row := mkContract Interaction "POST" [Lit "api"; Lit "v1"; Lit "rooms"; Wild "room_id"; Lit "like"] true [202] [400; 401; 403; 404; 409; 429; 502; 503]
  ["UNAUTHORIZED"; "BAD_REQUEST"; "INVALID_LIKE_COUNT"; "ROOM_NOT_FOUND"; "ROOM_NOT_LIVING"; "ROOM_BANNED"; "LIKE_RATE_LIMITED"; "LIKE_UNAVAILABLE"; "INTERACTION_UNAVAILABLE"].
Definition heartbeat_row := mkContract Interaction "POST" [Lit "api"; Lit "v1"; Lit "rooms"; Wild "room_id"; Lit "heartbeat"] true [200] [400; 401; 403; 404; 409; 500; 502; 503]
  ["UNAUTHORIZED"; "BAD_REQUEST"; "ROOM_NOT_FOUND"; "ROOM_NOT_LIVING"; "ROOM_BANNED"; "STATS_UNAVAILABLE"; "INTERNAL_ERROR"; "INTERACTION_UNAVAILABLE"].
Definition stats_row := mkContract QueryBackend "GET" [Lit "api"; Lit "v1"; Lit "rooms"; Wild "room_id"; Lit "stats"] false [200] [400; 403; 404; 409; 500; 502; 503]
  ["BAD_REQUEST"; "ROOM_NOT_FOUND"; "ROOM_NOT_LIVING"; "ROOM_BANNED"; "STATS_UNAVAILABLE"; "INTERNAL_ERROR"; "QUERY_UNAVAILABLE"].
Definition gifts_row := mkContract CommerceBackend "GET" [Lit "api"; Lit "v1"; Lit "gifts"] false [200] [500; 502]
  ["INTERNAL_ERROR"; "COMMERCE_UNAVAILABLE"].
Definition wallet_balance_row := mkContract CommerceBackend "GET" [Lit "api"; Lit "v1"; Lit "wallet"] true [200] [401; 500; 502]
  ["UNAUTHORIZED"; "INTERNAL_ERROR"; "COMMERCE_UNAVAILABLE"].
Definition wallet_history_row := mkContract CommerceBackend "GET" [Lit "api"; Lit "v1"; Lit "wallet"; Lit "transactions"] true [200] [401; 500; 502]
  ["UNAUTHORIZED"; "INTERNAL_ERROR"; "COMMERCE_UNAVAILABLE"].
Definition dev_credit_row := mkContract CommerceBackend "POST" [Lit "api"; Lit "v1"; Lit "wallet"; Lit "dev-credit"] true [200] [400; 401; 404; 500; 502]
  ["UNAUTHORIZED"; "BAD_REQUEST"; "INVALID_CREDIT_AMOUNT"; "NOT_FOUND"; "INTERNAL_ERROR"; "COMMERCE_UNAVAILABLE"].
Definition send_gift_row := mkContract CommerceBackend "POST" [Lit "api"; Lit "v1"; Lit "rooms"; Wild "room_id"; Lit "gifts"] true [200] [400; 401; 403; 404; 409; 429; 500; 502]
  ["UNAUTHORIZED"; "BAD_REQUEST"; "IDEMPOTENCY_KEY_REQUIRED"; "INVALID_GIFT_COUNT"; "INVALID_IDEMPOTENCY_KEY"; "GIFT_NOT_FOUND"; "GIFT_OFFLINE"; "INSUFFICIENT_BALANCE"; "IDEMPOTENCY_CONFLICT"; "GIFT_RATE_LIMITED"; "ROOM_NOT_FOUND"; "ROOM_NOT_LIVING"; "ROOM_BANNED"; "GIFT_FAILED"; "COMMERCE_UNAVAILABLE"].
Definition gift_order_row := mkContract CommerceBackend "GET" [Lit "api"; Lit "v1"; Lit "gift-orders"; Wild "order_no"] true [200] [400; 401; 403; 404; 500; 502]
  ["UNAUTHORIZED"; "BAD_REQUEST"; "GIFT_ORDER_NOT_FOUND"; "FORBIDDEN"; "INTERNAL_ERROR"; "COMMERCE_UNAVAILABLE"].
Definition add_mute_row := mkContract Identity "POST" [Lit "api"; Lit "v1"; Lit "rooms"; Wild "room_id"; Lit "mutes"] true [200] [400; 401; 403; 404; 500; 502]
  ["UNAUTHORIZED"; "BAD_REQUEST"; "ROOM_NOT_FOUND"; "USER_NOT_FOUND"; "FORBIDDEN"; "SELF_MODERATION_NOT_ALLOWED"; "INTERNAL_ERROR"; "IDENTITY_ROOM_UNAVAILABLE"].
Definition list_mutes_row := mkContract Identity "GET" [Lit "api"; Lit "v1"; Lit "rooms"; Wild "room_id"; Lit "mutes"] true [200] [400; 401; 403; 404; 500; 502]
  ["UNAUTHORIZED"; "BAD_REQUEST"; "ROOM_NOT_FOUND"; "FORBIDDEN"; "INTERNAL_ERROR"; "IDENTITY_ROOM_UNAVAILABLE"].
Definition remove_mute_row := mkContract Identity "DELETE" [Lit "api"; Lit "v1"; Lit "rooms"; Wild "room_id"; Lit "mutes"; Wild "user_id"] true [200] [400; 401; 403; 404; 500; 502]
  ["UNAUTHORIZED"; "BAD_REQUEST"; "ROOM_NOT_FOUND"; "FORBIDDEN"; "INTERNAL_ERROR"; "IDENTITY_ROOM_UNAVAILABLE"].
Definition add_ban_row := mkContract Identity "POST" [Lit "api"; Lit "v1"; Lit "rooms"; Wild "room_id"; Lit "bans"] true [200] [400; 401; 403; 404; 500; 502; 503]
  ["UNAUTHORIZED"; "BAD_REQUEST"; "ROOM_NOT_FOUND"; "USER_NOT_FOUND"; "FORBIDDEN"; "SELF_MODERATION_NOT_ALLOWED"; "BAN_ENFORCEMENT_FAILED"; "INTERNAL_ERROR"; "IDENTITY_ROOM_UNAVAILABLE"].
Definition list_bans_row := mkContract Identity "GET" [Lit "api"; Lit "v1"; Lit "rooms"; Wild "room_id"; Lit "bans"] true [200] [400; 401; 403; 404; 500; 502]
  ["UNAUTHORIZED"; "BAD_REQUEST"; "ROOM_NOT_FOUND"; "FORBIDDEN"; "INTERNAL_ERROR"; "IDENTITY_ROOM_UNAVAILABLE"].
Definition remove_ban_row := mkContract Identity "DELETE" [Lit "api"; Lit "v1"; Lit "rooms"; Wild "room_id"; Lit "bans"; Wild "user_id"] true [200] [400; 401; 403; 404; 500; 502]
  ["UNAUTHORIZED"; "BAD_REQUEST"; "ROOM_NOT_FOUND"; "FORBIDDEN"; "INTERNAL_ERROR"; "IDENTITY_ROOM_UNAVAILABLE"].
Definition catalogue : list contract_row :=
  [register_row; login_row; me_row; token_row; create_room_row; list_rooms_row; room_page_row; messages_row; top_viewers_row; viewers_row; start_row; stop_row; join_row; leave_row; danmaku_contract; like_row; heartbeat_row; stats_row; gifts_row; wallet_balance_row; wallet_history_row; dev_credit_row; send_gift_row; gift_order_row; add_mute_row; list_mutes_row; remove_mute_row; add_ban_row; list_bans_row; remove_ban_row].

(** A success of the row, or one of its errors with one of its codes. *)
Definition conforms (row : contract_row) (resp : response) : Prop :=
  rs_status resp ∈ ct_success row
  \/ rs_status resp ∈ ct_errors row /\ exists code msg, code ∈ ct_codes row
     /\ rs_body resp = Valid (JObj [("code", JStr code); ("message", JStr msg)]).

Lemma conforms_error row status code msg :
  existsb (Z.eqb status) (ct_errors row) = true -> existsb (String.eqb code) (ct_codes row) = true ->
  conforms row (writeError status code msg).
Proof.
  intros Hs Hc. apply existsb_exists in Hs as (x & Hx & <-%Z.eqb_eq). apply existsb_exists in Hc as (y & Hy & <-%String.eqb_eq).
  right. split; [by apply list_elem_of_In|]. exists code, msg. split; [by apply list_elem_of_In|done].
Qed.
Lemma conforms_success row status v :
  existsb (Z.eqb status) (ct_success row) = true -> conforms row (writeJSON status v).
Proof. intros Hs. apply existsb_exists in Hs as (x & Hx & <-%Z.eqb_eq). left. by apply list_elem_of_In. Qed.

(** ** Authentication *)
Section auth.
Context `{UnicodeTables} `{Crypto} `{JsonText} {W : Type}.
Variables (tokens : TokenManager) (now_auth : Z).

(** The request carries an access token that verifies. *)
Definition authenticated (r : request) : Prop :=
  HasPrefix (TrimSpace (q_Header r "Authorization")) "Bearer " = true /\
  exists c, Tokens.Verify tokens now_auth (TrimSpace (TrimPrefix (TrimSpace (q_Header r "Authorization")) "Bearer ")) = Ok c.

(** Without one the request is answered 401 and changes nothing. *)
Definition guarded (r : request) (m : M W response) : Prop :=
  ~ authenticated r -> forall w, exists resp, m w = (Ok resp, w) /\ rs_status resp = 401.

Lemma answers_authed row (next : authedHandler W) r pv :
  existsb (Z.eqb 401) (ct_errors row) = true -> existsb (String.eqb "UNAUTHORIZED") (ct_codes row) = true ->
  (forall userID, answers (conforms row) (next r pv userID)) ->
  answers (conforms row) (requireAuth tokens now_auth next r pv) /\ guarded r (requireAuth tokens now_auth next r pv).
Proof.
  intros H401 Hcode Hnext. unfold guarded, requireAuth, authenticated. destruct (HasPrefix _ _) eqn:Hp; cbn [negb].
  - destruct (Tokens.Verify _ _ _) as [c|e] eqn:Hv.
    + split; [apply Hnext|]. intros Hno. destruct Hno. split; [done|by exists c].
    + split; [apply answers_ret; by apply conforms_error|]. intros _ w. by eexists.
  - split; [apply answers_ret; by apply conforms_error|]. intros _ w. by eexists.
Qed.

(** ** Following the contract *)
(** A request to the API that a server accepts has a row of that owner, gets an
    answer that conforms to it, and is refused without a token if the row asks for
    one. *)
Definition follows (owner : backend) (routes : list (route W)) : Prop :=
  forall r m, hd "" (q_Path r) = "api" -> serve routes r = Some m ->
  exists row, row ∈ catalogue /\ ct_owner row = owner /\ method_match (ct_method row) (q_Method r) = true
    /\ is_Some (match_path (ct_pattern row) (q_Path r))
    /\ answers (conforms row) m /\ (ct_auth row = true -> guarded r m).

(** A route that implements a row, or that is outside the API. *)
Definition implements (owner : backend) (rt : route W) : Prop :=
  (exists x, rt_pattern rt = [Lit x] /\ x <> "api")
  \/ exists row, row ∈ catalogue /\ ct_owner row = owner /\ ct_method row = rt_method rt /\ ct_pattern row = rt_pattern rt
     /\ forall r pv, answers (conforms row) (rt_handler rt r pv) /\ (ct_auth row = true -> guarded r (rt_handler rt r pv)).

Lemma follows_routes owner routes : Forall (implements owner) routes -> follows owner routes.
Proof.
  intros Hall r m Hapi Hs. apply serve_route in Hs as (rt & b & Hin & Hmethod & Hpath & ->).
  rewrite Forall_forall in Hall. destruct (Hall rt Hin) as [(x & Hx & Hne)|(row & Hrow & Hown & Hm & Hp & Hans)].
  - rewrite Hx in Hpath. apply match_single in Hpath. rewrite Hpath in Hapi. by cbn in Hapi.
  - exists row. rewrite Hm, Hp. destruct (Hans r (path_value b)). split_and!; try done.
Qed.

Lemma implements_authed owner row (next : authedHandler W) :
  row ∈ catalogue -> ct_owner row = owner ->
  existsb (Z.eqb 401) (ct_errors row) = true -> existsb (String.eqb "UNAUTHORIZED") (ct_codes row) = true ->
  (forall r pv userID, answers (conforms row) (next r pv userID)) ->
  implements owner (mkRoute (ct_method row) (ct_pattern row) (requireAuth tokens now_auth next)).
Proof.
  intros Hrow Hown H401 Hcode Hnext. right. exists row. split; [done|]. split; [done|]. split; [done|]. split; [done|].
  intros r pv. destruct (answers_authed row next r pv H401 Hcode (Hnext r pv)). by split.
Qed.
Lemma implements_public owner row (h : handler W) :
  row ∈ catalogue -> ct_owner row = owner -> ct_auth row = false -> (forall r pv, answers (conforms row) (h r pv)) ->
  implements owner (mkRoute (ct_method row) (ct_pattern row) h).
Proof.
  intros Hrow Hown Hpub Hh. right. exists row. split; [done|]. split; [done|]. split; [done|]. split; [done|].
  intros r pv. split; [apply Hh|]. by rewrite Hpub.
Qed.
Lemma implements_outside owner method x (h : handler W) : x <> "api" -> implements owner (mkRoute method [Lit x] h).
Proof. intros Hx. left. by exists x. Qed.
End auth.

(** A literal row of the catalogue. *)
Ltac catalogued := apply list_elem_of_In; unfold catalogue; cbn [In]; repeat (first [left; reflexivity | right]).
