(* ===== verification/HttpApi.v ===== *)
(** The handlers of [internal/httpapi/server.go] and the three servers made of
    them: interaction, identity-room and query.

    A server holds its services as the operations it calls on them; which ones are
    nil is part of the value. Identifiers and clock reads are arguments ([id],
    [now]; [now_auth] is the clock of the token check). *)
From S2P Require Import Prelude GoStrings Json Realtime Room Redis Auth Like Stats Traffic Danmaku Http.

(** ** Dependencies *)
(** The interfaces [RoomAPI], [RealtimeController] and [GovernanceStore]; the clock
    of [Mute] is part of its operation. *)
Record RoomAPI (W : Type) : Type := mkRoomAPI {
  ra_Create : Z -> string -> M W Room;
  ra_Get : Z -> M W Room;
  ra_List : string -> Z -> M W (list Room);
  ra_Start : Z -> Z -> M W Room;
  ra_Stop : Z -> Z -> M W Room;
  ra_Join : Z -> Z -> M W Room;
  ra_GetRoomAccess : Z -> Z -> M W RoomAccess;
  ra_IsMuted : Z -> Z -> M W bool;
  ra_IsBanned : Z -> Z -> M W bool;
  ra_Mute : Z -> Z -> Z -> Z -> string -> M W unit;
  ra_Unmute : Z -> Z -> Z -> M W unit;
  ra_ListMutes : Z -> Z -> M W (list Mute);
  ra_Ban : Z -> Z -> Z -> string -> M W unit;
  ra_Unban : Z -> Z -> Z -> M W unit;
  ra_ListBans : Z -> Z -> M W (list Ban) }.
Arguments mkRoomAPI {W}.
Arguments ra_Create {W}. Arguments ra_Get {W}. Arguments ra_List {W}. Arguments ra_Start {W}. Arguments ra_Stop {W}.
Arguments ra_Join {W}. Arguments ra_GetRoomAccess {W}. Arguments ra_IsMuted {W}. Arguments ra_IsBanned {W}.
Arguments ra_Mute {W}. Arguments ra_Unmute {W}. Arguments ra_ListMutes {W}. Arguments ra_Ban {W}.
Arguments ra_Unban {W}. Arguments ra_ListBans {W}.
Record RealtimeController (W : Type) : Type := mkRealtime {
  rc_Ping : M W unit;
  rc_Publish : string -> RtEvent -> M W unit;
  rc_Unsubscribe : string -> string -> M W unit }.
Arguments mkRealtime {W}. Arguments rc_Ping {W}. Arguments rc_Publish {W}. Arguments rc_Unsubscribe {W}.
Record GovernanceStore (W : Type) : Type := mkGovernance {
  gv_RemoveViewer : Z -> Z -> M W Z;
  gv_EnforceLikeBan : Z -> Z -> bool -> M W unit }.
Arguments mkGovernance {W}. Arguments gv_RemoveViewer {W}. Arguments gv_EnforceLikeBan {W}.

Record historyMessage : Type := mkHistory {
  hm_Type : string; hm_MessageID : string; hm_RoomID : Z; hm_UserID : Z; hm_Nickname : string;
  hm_Content : string; hm_GiftName : string; hm_Count : Z; hm_CreatedAt : Z }.

(** [Server]: each service is the operations the handlers call on it. *)
Record Server (W : Type) : Type := mkServer {
  sv_mysql : option (M W unit);
  sv_redis : M W unit;
  sv_history : option (Z -> Z -> M W (list historyMessage));
  sv_centrifugo : option (RealtimeController W);
  sv_governance : option (GovernanceStore W);
  sv_Register : string -> string -> string -> M W AuthResult;
  sv_Login : string -> string -> M W AuthResult;
  sv_User : Z -> M W User;
  sv_profiles : Z -> M W User;
  sv_appTokens : TokenManager;
  sv_cfTokens : option Issuer;
  sv_cfSubTTL : Z;
  sv_rooms : option (RoomAPI W);
  sv_Danmaku : Z -> Z -> string -> M W DanmakuEvent;
  sv_AddLikes : Z -> Z -> Z -> M W LikeResult;
  sv_Touch : Z -> Z -> M W ViewerResult;
  sv_Leave : Z -> Z -> M W Z;
  sv_Top : Z -> M W (list Z);
  sv_Online : Z -> M W (list Z);
  sv_stats : option (Z -> M W Snapshot) }.
Arguments mkServer {W}.
Arguments sv_mysql {W}. Arguments sv_redis {W}. Arguments sv_history {W}. Arguments sv_centrifugo {W}.
Arguments sv_governance {W}. Arguments sv_Register {W}. Arguments sv_Login {W}. Arguments sv_User {W}.
Arguments sv_profiles {W}. Arguments sv_appTokens {W}. Arguments sv_cfTokens {W}. Arguments sv_cfSubTTL {W}.
Arguments sv_rooms {W}. Arguments sv_Danmaku {W}. Arguments sv_AddLikes {W}. Arguments sv_Touch {W}.
Arguments sv_Leave {W}. Arguments sv_Top {W}. Arguments sv_Online {W}. Arguments sv_stats {W}.

Module Api.
Section handlers.
Context `{UnicodeTables} `{Crypto} `{JsonText} `{TimeText} {W : Type}.
Variables (s : Server W) (now_auth now : Z) (id : string).

(** A method call on a nil interface panics. *)
Definition with_rooms (k : RoomAPI W -> M W response) : M W response :=
  match sv_rooms s with Some rooms => k rooms | None => panicked end.

(** *** Health *)
Definition health : handler W := fun _ _ =>
  mret (writeJSON 200 (JObj [("status", JStr "ok"); ("milestone", JStr "M8")])).
Definition string_list (l : list string) : json := match l with [] => JNull | _ => JArr (map JStr l) end.
(** [s.mysql] may be nil: its [Ping] panics then. *)
Definition ready : handler W := fun _ _ =>
  match sv_mysql s with
  | None => panicked
  | Some mysql =>
  m ← try mysql;
  r ← try (sv_redis s);
  let failed := (if is_ok m then [] else ["mysql"]) ++ (if is_ok r then [] else ["redis"]) in
  match failed with
  | _ :: _ => mret (writeJSON 503 (JObj [("status", JStr "not_ready"); ("failed", string_list failed)]))
  | [] =>
    degraded ← match sv_centrifugo s with
               | Some c => p ← try (rc_Ping c); mret (if is_ok p then [] else ["centrifugo"])
               | None => mret []
               end;
    mret (writeJSON 200 (JObj [("status", JStr "ready"); ("degraded", string_list degraded)]))
  end
  end.

(** *** Accounts *)
Definition register : handler W := fun r _ =>
  match decodeJSON 32768 ["username"; "nickname"; "password"]
          (fun o => u ← decode_field "" dec_string "username" o; n ← decode_field "" dec_string "nickname" o;
                    p ← decode_field "" dec_string "password" o; Some (u, n, p)) (q_Body r) with
  | Err err => mret (writeError 400 "BAD_REQUEST" (error_text err))
  | Ok (username, nickname, password) =>
    reply (sv_Register s username nickname password)
      (fun err => mret (
         if errors_Is err ErrUsernameTaken then writeError 409 "USERNAME_TAKEN" (error_text err)
         else if errors_Is err Auth.ErrInvalidInput then writeError 400 "INVALID_AUTH_INPUT" (error_text err)
         else writeError 500 "INTERNAL_ERROR" "register failed"))
      (fun out => mret (writeJSON 201 (auth_result_json out)))
  end.

Definition login : handler W := fun r _ =>
  match decodeJSON 16384 ["username"; "password"]
          (fun o => u ← decode_field "" dec_string "username" o; p ← decode_field "" dec_string "password" o; Some (u, p))
          (q_Body r) with
  | Err err => mret (writeError 400 "BAD_REQUEST" (error_text err))
  | Ok (username, password) =>
    reply (sv_Login s username password)
      (fun err => mret (
         if errors_Is err ErrInvalidCredentials then writeError 401 "INVALID_CREDENTIALS" (error_text err)
         else if errors_Is err ErrUserDisabled then writeError 403 "USER_DISABLED" (error_text err)
         else writeError 500 "INTERNAL_ERROR" "login failed"))
      (fun out => mret (writeJSON 200 (auth_result_json out)))
  end.

Definition me : authedHandler W := fun _ _ userID =>
  reply (sv_User s userID) (fun _ => mret (writeError 404 "USER_NOT_FOUND" "user not found"))
    (fun u => mret (writeJSON 200 (user_json u))).

Definition realtimeToken : authedHandler W := fun _ _ userID =>
  match sv_cfTokens s with
  | None => panicked
  | Some i =>
    match ConnectionToken i now (FormatInt userID) with
    | Err _ => mret (writeError 500 "INTERNAL_ERROR" "failed to issue realtime token")
    | Ok (jwt, exp) => mret (writeJSON 200 (JObj [("token", JStr jwt); ("expire_at", JNum (Unix exp))]))
    end
  end.

(** *** Rooms *)
(** The [limit] of a query, [None] when it is refused. *)
Definition query_limit (r : request) (def : Z) : option Z :=
  let raw := TrimSpace (q_Query r "limit") in
  if bool_decide (raw = "") then Some def else
  match Atoi raw with
  | Some v => if (v <? 1) || (100 <? v) then None else Some v
  | None => None
  end.
Definition limit_error : response := writeError 400 "INVALID_LIMIT" "limit must be between 1 and 100".

(** [roomListItem]: the fields of the room and two counts. *)
Definition list_item_json (v : Room) (snap : option Snapshot) : json :=
  match room_json v with
  | JObj o => JObj (o ++ [("viewer_count", JNum (match snap with Some n => sn_ViewerCount n | None => 0 end));
                          ("like_count", JNum (match snap with Some n => sn_LikeCount n | None => 0 end))])
  | j => j
  end.
Fixpoint list_items (items : list Room) : M W (list json) :=
  match items with
  | [] => mret []
  | v :: items =>
    snap ← match sv_stats s with
           | Some get => g ← try (get (room_ID v)); mret (match g with Ok snap => Some snap | Err _ => None end)
           | None => mret None
           end;
    rest ← list_items items;
    mret (list_item_json v snap :: rest)
  end.
Definition listRooms : handler W := fun r _ =>
  let status := ToUpper (TrimSpace (q_Query r "status")) in
  let status := if bool_decide (status = "") then StatusLiving else status in
  match query_limit r 24 with
  | None => mret limit_error
  | Some limit =>
    with_rooms (fun rooms =>
      reply (ra_List rooms status limit)
        (fun err => mret (if errors_Is err Room.ErrInvalidInput then writeError 400 "INVALID_ROOM_FILTER" (error_text err)
                          else writeError 500 "INTERNAL_ERROR" "failed to list rooms"))
        (fun items => out ← list_items items; mret (writeJSON 200 (JObj [("items", JArr out)]))))
  end.

Definition createRoom : authedHandler W := fun r _ userID =>
  match decodeJSON 16384 ["title"] (decode_field "" dec_string "title") (q_Body r) with
  | Err err => mret (writeError 400 "BAD_REQUEST" (error_text err))
  | Ok title =>
    with_rooms (fun rooms =>
      reply (ra_Create rooms userID title)
        (fun err => mret (if errors_Is err Room.ErrInvalidInput then writeError 400 "INVALID_ROOM_INPUT" (error_text err)
                          else writeError 500 "INTERNAL_ERROR" "create room failed"))
        (fun v => mret (writeJSON 201 (room_json v))))
  end.

Definition getRoom : handler W := fun _ pv =>
  with_path pv "room_id" (fun roomID =>
  with_rooms (fun rooms => room_reply (ra_Get rooms roomID) (fun v => mret (writeJSON 200 (room_json v))))).
Definition startRoom : authedHandler W := fun _ pv userID =>
  with_path pv "room_id" (fun roomID =>
  with_rooms (fun rooms => room_reply (ra_Start rooms roomID userID) (fun v => mret (writeJSON 200 (room_json v))))).
Definition stopRoom : authedHandler W := fun _ pv userID =>
  with_path pv "room_id" (fun roomID =>
  with_rooms (fun rooms => room_reply (ra_Stop rooms roomID userID) (fun v => mret (writeJSON 200 (room_json v))))).

Definition stats_unavailable (msg : string) : response := writeError 503 "STATS_UNAVAILABLE" msg.

(** The subscription tokens of the channels, or the answer that ends the request. *)
Fixpoint subscriptions (uid : string) (channels : list string) : list json + response :=
  match channels with
  | [] => inl []
  | ch :: channels =>
    match sv_cfTokens s with
    | None => inr (writeError 503 "REALTIME_UNAVAILABLE" "realtime token issuer unavailable")
    | Some i =>
      match SubscriptionToken i now uid ch (sv_cfSubTTL s) with
      | Err _ => inr (writeError 500 "INTERNAL_ERROR" "failed to authorize room subscription")
      | Ok (tok, _) =>
        match subscriptions uid channels with
        | inl subs => inl (JObj [("channel", JStr ch); ("token", JStr tok)] :: subs)
        | inr resp => inr resp
        end
      end
    end
  end.

Definition joinRoom : authedHandler W := fun _ pv userID =>
  with_path pv "room_id" (fun roomID =>
  with_rooms (fun rooms =>
  room_reply (ra_Join rooms roomID userID) (fun v =>
  reply (sv_Touch s roomID userID) (fun _ => mret (stats_unavailable "viewer tracking unavailable")) (fun viewerState =>
  reply (match sv_stats s with Some get => get roomID | None => mret (mkSnapshot 0 0 0) end)
    (fun _ => mret (stats_unavailable "room stats unavailable")) (fun snapshot =>
  let snapshot := mkSnapshot (vr_ViewerCount viewerState) (sn_LikeCount snapshot) (sn_LikeDelta snapshot) in
  match subscriptions (FormatInt userID) [RoomStream roomID; RoomStats roomID] with
  | inr resp => mret resp
  | inl subs =>
    mret (writeJSON 200 (JObj
      [("room", room_json v); ("subscriptions", JArr subs); ("personal_channel", JStr (Personal userID));
       ("stats", snapshot_json snapshot);
       ("heartbeat_interval_seconds", JNum (Z.max 5 (Z.quot (vr_ExpiresIn viewerState) 3)))]))
  end))))).

Definition leaveRoom : authedHandler W := fun _ pv userID =>
  with_path pv "room_id" (fun roomID =>
  reply (sv_Leave s roomID userID) (fun _ => mret (stats_unavailable "viewer tracking unavailable"))
    (fun count => mret (writeJSON 200 (JObj [("viewer_count", JNum count)])))).

Definition room_refusal (err : error) : bool :=
  errors_Is err ErrNotFound || errors_Is err ErrNotLiving || errors_Is err ErrBanned.

Definition sendDanmaku : authedHandler W := fun r pv userID =>
  with_path pv "room_id" (fun roomID =>
  match decodeJSON 8192 ["content"] (decode_field "" dec_string "content") (q_Body r) with
  | Err err => mret (writeError 400 "BAD_REQUEST" (error_text err))
  | Ok content =>
    reply (sv_Danmaku s roomID userID content)
      (fun err => mret (
         if errors_Is err Danmaku.ErrRateLimited then writeError 429 "RATE_LIMITED" (error_text err)
         else if errors_Is err ErrMuted then writeError 403 "USER_MUTED" (error_text err)
         else if errors_Is err ErrSensitive then writeError 422 "SENSITIVE_CONTENT" (error_text err)
         else if errors_Is err ErrInvalidContent then writeError 400 "INVALID_DANMAKU" (error_text err)
         else if room_refusal err then handleRoomError err
         else writeError 502 "DANMAKU_FAILED" "failed to send danmaku"))
      (fun e => mret (writeJSON 200 (danmaku_json e)))
  end).

Definition likeRoom : authedHandler W := fun r pv userID =>
  with_path pv "room_id" (fun roomID =>
  match decodeJSON 8192 ["count"] (decode_field 0 dec_int64 "count") (q_Body r) with
  | Err err => mret (writeError 400 "BAD_REQUEST" (error_text err))
  | Ok count =>
    reply (sv_AddLikes s roomID userID count)
      (fun err => mret (
         if errors_Is err Like.ErrInvalidCount then writeError 400 "INVALID_LIKE_COUNT" (error_text err)
         else if errors_Is err Like.ErrRateLimited then writeError 429 "LIKE_RATE_LIMITED" (error_text err)
         else if room_refusal err then handleRoomError err
         else writeError 503 "LIKE_UNAVAILABLE" "failed to record like"))
      (fun v => mret (writeJSON 202 (JObj [("accepted", JNum (lk_Accepted v)); ("total", JNum (lk_Total v))])))
  end).

Definition heartbeatRoom : authedHandler W := fun _ pv userID =>
  with_path pv "room_id" (fun roomID =>
  with_rooms (fun rooms =>
  room_reply (ra_Get rooms roomID) (fun v =>
  if negb (bool_decide (room_Status v = StatusLiving)) then mret (handleRoomError ErrNotLiving) else
  reply (ra_IsBanned rooms roomID userID)
    (fun _ => mret (writeError 500 "INTERNAL_ERROR" "failed to check room access")) (fun banned =>
  if (banned : bool) then mret (handleRoomError ErrBanned) else
  reply (sv_Touch s roomID userID) (fun _ => mret (stats_unavailable "viewer tracking unavailable")) (fun v =>
  mret (writeJSON 200 (JObj [("viewer_count", JNum (vr_ViewerCount v)); ("expires_in_seconds", JNum (vr_ExpiresIn v))]))))))).

(** *** Moderation *)
Definition maxMuteSeconds : Z := 30 * 24 * 60 * 60.
Definition muteUser : authedHandler W := fun r pv actorID =>
  with_path pv "room_id" (fun roomID =>
  let bad := mret (writeError 400 "BAD_REQUEST" "valid user_id and duration_seconds between 0 and 2592000 are required") in
  match decodeJSON 8192 ["user_id"; "duration_seconds"; "reason"]
          (fun o => u ← decode_field 0 dec_int64 "user_id" o; d ← decode_field 0 dec_int64 "duration_seconds" o;
                    t ← decode_field "" dec_string "reason" o; Some (u, d, t)) (q_Body r) with
  | Err _ => bad
  | Ok (target, seconds, reason) =>
    if (target <=? 0) || (seconds <? 0) || (maxMuteSeconds <? seconds) then bad else
    with_rooms (fun rooms =>
    room_reply (ra_Mute rooms roomID actorID target (seconds * Second) reason) (fun _ =>
    _ ← match sv_centrifugo s with
        | Some c =>
          ignore (rc_Publish c (Personal target) (NewPriorityEvent now id "room_muted" roomID "P0" (AnyValue (JObj
            [("user_id", JNum target); ("duration_seconds", JNum seconds); ("reason", JStr (TrimSpace reason))]))))
        | None => mret tt
        end;
    mret (writeJSON 200 (JObj [("status", JStr "muted"); ("user_id", JNum target)]))))
  end).

Definition listMutes : authedHandler W := fun _ pv actorID =>
  with_path pv "room_id" (fun roomID =>
  with_rooms (fun rooms =>
  room_reply (ra_ListMutes rooms roomID actorID) (fun items =>
  mret (writeJSON 200 (JObj [("items", JArr (map mute_json items))]))))).

Definition unmuteUser : authedHandler W := fun _ pv actorID =>
  with_path pv "room_id" (fun roomID =>
  with_path pv "user_id" (fun targetID =>
  with_rooms (fun rooms =>
  room_reply (ra_Unmute rooms roomID actorID targetID) (fun _ =>
  mret (writeJSON 200 (JObj [("status", JStr "unmuted"); ("user_id", JNum targetID)])))))).

(** One side effect of a ban and the error it adds. *)
Definition effect {A} (what : string) (m : M W A) (errs : list error) : M W (list error) :=
  r ← try m; mret (match r with Ok _ => errs | Err err => errs ++ [Wrapped (what +:+ ": ") err ""] end).

(** [enforceBan]: all side effects are attempted; the joined errors. *)
Definition enforceBan (roomID userID : Z) (reason : string) : M W (option error) :=
  errs ← match sv_governance s with
         | Some g =>
           errs ← effect "cache ban" (gv_EnforceLikeBan g roomID userID true) [];
           effect "remove viewer" (gv_RemoveViewer g roomID userID) errs
         | None => mret [Fresh "governance store unavailable"]
         end;
  errs ← match sv_centrifugo s with
         | Some c =>
           errs ← effect "publish ban notice" (rc_Publish c (Personal userID)
                    (NewPriorityEvent now id "room_banned" roomID "P0" (AnyValue (JObj
                      [("user_id", JNum userID); ("reason", JStr reason)])))) errs;
           let uid := FormatInt userID in
           errs ← effect ("unsubscribe " +:+ RoomStream roomID) (rc_Unsubscribe c uid (RoomStream roomID)) errs;
           effect ("unsubscribe " +:+ RoomStats roomID) (rc_Unsubscribe c uid (RoomStats roomID)) errs
         | None => mret (errs ++ [Fresh "centrifugo unavailable"])
         end;
  mret (errors_Join errs).

Definition banUser : authedHandler W := fun r pv actorID =>
  with_path pv "room_id" (fun roomID =>
  let bad := mret (writeError 400 "BAD_REQUEST" "valid user_id is required") in
  match decodeJSON 8192 ["user_id"; "reason"]
          (fun o => u ← decode_field 0 dec_int64 "user_id" o; t ← decode_field "" dec_string "reason" o; Some (u, t))
          (q_Body r) with
  | Err _ => bad
  | Ok (target, reason) =>
    if target <=? 0 then bad else
    with_rooms (fun rooms =>
    room_reply (ra_Ban rooms roomID actorID target reason) (fun _ =>
    e ← enforceBan roomID target (TrimSpace reason);
    mret (match e with
          | Some _ => writeError 503 "BAN_ENFORCEMENT_FAILED" "ban saved but immediate eviction failed; retry safely"
          | None => writeJSON 200 (JObj [("status", JStr "banned"); ("user_id", JNum target)])
          end)))
  end).

Definition listBans : authedHandler W := fun _ pv actorID =>
  with_path pv "room_id" (fun roomID =>
  with_rooms (fun rooms =>
  room_reply (ra_ListBans rooms roomID actorID) (fun items =>
  mret (writeJSON 200 (JObj [("items", JArr (map ban_json items))]))))).

Definition unbanUser : authedHandler W := fun _ pv actorID =>
  with_path pv "room_id" (fun roomID =>
  with_path pv "user_id" (fun targetID =>
  with_rooms (fun rooms =>
  room_reply (ra_Unban rooms roomID actorID targetID) (fun _ =>
  _ ← match sv_governance s with
      | Some g => ignore (gv_EnforceLikeBan g roomID targetID false)
      | None => mret tt
      end;
  mret (writeJSON 200 (JObj [("status", JStr "unbanned"); ("user_id", JNum targetID)])))))).

(** *** Queries *)
Definition profile_json (u : User) : json :=
  JObj [("user_id", JNum (us_ID u)); ("nickname", JStr (us_Nickname u)); ("avatar", JStr (us_Avatar u))].
(** Users whose profile cannot be read are left out. *)
Fixpoint profiles (ids : list Z) : M W (list json) :=
  match ids with
  | [] => mret []
  | uid :: ids =>
    u ← try (sv_profiles s uid);
    rest ← profiles ids;
    mret (match u with Ok u => profile_json u :: rest | Err _ => rest end)
  end.
Definition topViewers : handler W := fun _ pv =>
  with_path pv "room_id" (fun roomID =>
  reply (sv_Top s roomID) (fun _ => mret (stats_unavailable "viewer ranking unavailable")) (fun ids =>
  items ← profiles ids; mret (writeJSON 200 (JObj [("items", JArr items)])))).
Definition roomViewers : handler W := fun _ pv =>
  with_path pv "room_id" (fun roomID =>
  reply (sv_Online s roomID) (fun _ => mret (stats_unavailable "viewer list unavailable")) (fun ids =>
  items ← profiles ids; mret (writeJSON 200 (JObj [("items", JArr items)])))).

Definition history_json (m : historyMessage) : json := JObj
  ([("type", JStr (hm_Type m)); ("message_id", JStr (hm_MessageID m)); ("room_id", JNum (hm_RoomID m));
    ("user_id", JNum (hm_UserID m)); ("nickname", JStr (hm_Nickname m)); ("content", JStr (hm_Content m))]
   ++ (if bool_decide (hm_GiftName m = "") then [] else [("gift_name", JStr (hm_GiftName m))])
   ++ (if hm_Count m =? 0 then [] else [("count", JNum (hm_Count m))])
   ++ [("created_at", JStr (time_text (hm_CreatedAt m)))]).
(** The query gives the newest messages first; the answer has them last. *)
Definition roomMessages : handler W := fun r pv =>
  with_path pv "room_id" (fun roomID =>
  match sv_history s with
  | None => mret (writeError 503 "HISTORY_UNAVAILABLE" "message history unavailable")
  | Some query =>
    match query_limit r 50 with
    | None => mret limit_error
    | Some limit =>
      reply (query roomID limit) (fun _ => mret (writeError 500 "INTERNAL_ERROR" "failed to load message history"))
        (fun items => mret (writeJSON 200 (JObj [("items", JArr (map history_json (rev items)))])))
    end
  end).

Definition roomStats : handler W := fun _ pv =>
  with_path pv "room_id" (fun roomID =>
  with_rooms (fun rooms =>
  room_reply (ra_Get rooms roomID) (fun _ =>
  match sv_stats s with
  | None => panicked
  | Some get =>
    reply (get roomID) (fun _ => mret (stats_unavailable "room stats unavailable"))
      (fun v => mret (writeJSON 200 (snapshot_json v)))
  end))).

(** *** The internal contract *)
Definition internalAccess : handler W := fun _ pv =>
  with_path pv "room_id" (fun roomID =>
  with_path pv "user_id" (fun userID =>
  with_rooms (fun rooms =>
  room_reply (ra_GetRoomAccess rooms roomID userID) (fun a => mret (writeJSON 200 (access_json a)))))).
Definition internalUser : handler W := fun _ pv =>
  with_path pv "user_id" (fun userID =>
  reply (sv_User s userID) (fun _ => mret (writeError 404 "USER_NOT_FOUND" "user not found"))
    (fun u => mret (writeJSON 200 (user_json u)))).
Definition internalJoin : handler W := fun _ pv =>
  with_path pv "room_id" (fun roomID =>
  with_path pv "user_id" (fun userID =>
  with_rooms (fun rooms =>
  room_reply (ra_Join rooms roomID userID) (fun v => mret (writeJSON 200 (room_json v)))))).

(** *** The servers ([GET /metrics] aside) *)
Definition authed (next : authedHandler W) : handler W := requireAuth (sv_appTokens s) now_auth next.
Definition api (l : list segment) : list segment := [Lit "api"; Lit "v1"] ++ l.
Definition room_path (l : list segment) : list segment := api ([Lit "rooms"; Wild "room_id"] ++ l).
Definition internal (l : list segment) : list segment := [Lit "internal"; Lit "v1"] ++ l.

Definition common_routes : list (route W) :=
  [mkRoute "GET" [Lit "health"] health; mkRoute "GET" [Lit "ready"] ready].

Definition interaction_routes : list (route W) := common_routes ++
  [mkRoute "POST" (room_path [Lit "join"]) (authed joinRoom);
   mkRoute "POST" (room_path [Lit "leave"]) (authed leaveRoom);
   mkRoute "POST" (room_path [Lit "danmaku"]) (authed sendDanmaku);
   mkRoute "POST" (room_path [Lit "like"]) (authed likeRoom);
   mkRoute "POST" (room_path [Lit "heartbeat"]) (authed heartbeatRoom)].

Definition identity_routes : list (route W) := common_routes ++
  [mkRoute "POST" (api [Lit "auth"; Lit "register"]) register;
   mkRoute "POST" (api [Lit "auth"; Lit "login"]) login;
   mkRoute "GET" (api [Lit "me"]) (authed me);
   mkRoute "POST" (api [Lit "realtime"; Lit "token"]) (authed realtimeToken);
   mkRoute "POST" (api [Lit "rooms"]) (authed createRoom);
   mkRoute "GET" (api [Lit "rooms"]) listRooms;
   mkRoute "GET" (room_path []) getRoom;
   mkRoute "POST" (room_path [Lit "start"]) (authed startRoom);
   mkRoute "POST" (room_path [Lit "stop"]) (authed stopRoom);
   mkRoute "POST" (room_path [Lit "mutes"]) (authed muteUser);
   mkRoute "GET" (room_path [Lit "mutes"]) (authed listMutes);
   mkRoute "DELETE" (room_path [Lit "mutes"; Wild "user_id"]) (authed unmuteUser);
   mkRoute "POST" (room_path [Lit "bans"]) (authed banUser);
   mkRoute "GET" (room_path [Lit "bans"]) (authed listBans);
   mkRoute "DELETE" (room_path [Lit "bans"; Wild "user_id"]) (authed unbanUser);
   mkRoute "GET" (internal [Lit "rooms"; Wild "room_id"; Lit "access"; Wild "user_id"]) internalAccess;
   mkRoute "GET" (internal [Lit "rooms"; Wild "room_id"]) getRoom;
   mkRoute "GET" (internal [Lit "users"; Wild "user_id"]) internalUser;
   mkRoute "POST" (internal [Lit "rooms"; Wild "room_id"; Lit "join"; Wild "user_id"]) internalJoin].

Definition query_routes : list (route W) := common_routes ++
  [mkRoute "GET" (room_path [Lit "messages"]) roomMessages;
   mkRoute "GET" (room_path [Lit "top-viewers"]) topViewers;
   mkRoute "GET" (room_path [Lit "viewers"]) roomViewers;
   mkRoute "GET" (room_path [Lit "stats"]) roomStats].
End handlers.

(** *** The constructors: the fields each server takes from the dependencies *)
Section servers.
Context `{UnicodeTables} `{Crypto} `{JsonText} `{TimeText} {W : Type}.
Variables (d : Server W) (now_auth now : Z) (id : string).

Definition interaction_server : Server W :=
  mkServer (sv_mysql d) (sv_redis d) None (sv_centrifugo d) None (sv_Register d) (sv_Login d) (sv_User d) (sv_profiles d)
    (sv_appTokens d) (sv_cfTokens d) (sv_cfSubTTL d) (sv_rooms d) (sv_Danmaku d) (sv_AddLikes d) (sv_Touch d) (sv_Leave d)
    (sv_Top d) (sv_Online d) (sv_stats d).
Definition NewInteraction : list (route W) := interaction_routes interaction_server now_auth now.

(** [redis_governance] is the Redis dependency when it is a [GovernanceStore]. *)
Definition identity_server (redis_governance : option (GovernanceStore W)) : Server W :=
  mkServer (sv_mysql d) (sv_redis d) None (sv_centrifugo d)
    (match sv_governance d with Some g => Some g | None => redis_governance end)
    (sv_Register d) (sv_Login d) (sv_User d) (sv_profiles d)
    (sv_appTokens d) (sv_cfTokens d) (sv_cfSubTTL d) (sv_rooms d) (sv_Danmaku d) (sv_AddLikes d) (sv_Touch d) (sv_Leave d)
    (sv_Top d) (sv_Online d) (sv_stats d).
Definition NewIdentityRoom (redis_governance : option (GovernanceStore W)) : list (route W) :=
  identity_routes (identity_server redis_governance) now_auth now id.

Definition query_server : Server W :=
  mkServer (sv_mysql d) (sv_redis d) (sv_history d) None None (sv_Register d) (sv_Login d) (sv_User d) (sv_profiles d)
    (sv_appTokens d) None 0 None (sv_Danmaku d) (sv_AddLikes d) (sv_Touch d) (sv_Leave d)
    (sv_Top d) (sv_Online d) (sv_stats d).
Definition NewQuery : list (route W) := query_routes query_server.
End servers.
End Api.

(** ** The services behind the interfaces *)
(** [*room.Service]; [mute_now] is the clock of [Mute]. *)
Definition room_service_api {W} `{RoomStore W} (users : option (Z -> M W (string * bool))) (mute_now : Z) : RoomAPI W := {|
  ra_Create := RoomService.Create users;
  ra_Get := RoomService.Get users;
  ra_List := RoomService.List_ users;
  ra_Start := RoomService.Start users;
  ra_Stop := RoomService.Stop users;
  ra_Join := RoomService.Join users;
  ra_GetRoomAccess := RoomService.GetRoomAccess users;
  ra_IsMuted := RoomService.IsMuted;
  ra_IsBanned := RoomService.IsBanned;
  ra_Mute := RoomService.Mute_ users mute_now;
  ra_Unmute := RoomService.Unmute;
  ra_ListMutes := RoomService.ListMutes users;
  ra_Ban := RoomService.Ban_ users;
  ra_Unban := RoomService.Unban;
  ra_ListBans := RoomService.ListBans users |}.

(** The same operations on a larger state. *)
Definition lift_rooms {S W} `{Lens S W} (a : RoomAPI S) : RoomAPI W := {|
  ra_Create := fun x y => zoom (ra_Create a x y);
  ra_Get := fun x => zoom (ra_Get a x);
  ra_List := fun x y => zoom (ra_List a x y);
  ra_Start := fun x y => zoom (ra_Start a x y);
  ra_Stop := fun x y => zoom (ra_Stop a x y);
  ra_Join := fun x y => zoom (ra_Join a x y);
  ra_GetRoomAccess := fun x y => zoom (ra_GetRoomAccess a x y);
  ra_IsMuted := fun x y => zoom (ra_IsMuted a x y);
  ra_IsBanned := fun x y => zoom (ra_IsBanned a x y);
  ra_Mute := fun x y z u v => zoom (ra_Mute a x y z u v);
  ra_Unmute := fun x y z => zoom (ra_Unmute a x y z);
  ra_ListMutes := fun x y => zoom (ra_ListMutes a x y);
  ra_Ban := fun x y z u => zoom (ra_Ban a x y z u);
  ra_Unban := fun x y z => zoom (ra_Unban a x y z);
  ra_ListBans := fun x y => zoom (ra_ListBans a x y) |}.

(** [*redisstore.Store] as the [GovernanceStore]. *)
Definition redis_governance : GovernanceStore Redis := {|
  gv_RemoveViewer := RemoveViewer;
  gv_EnforceLikeBan := EnforceLikeBan |}.
Definition lift_governance {S W} `{Lens S W} (g : GovernanceStore S) : GovernanceStore W := {|
  gv_RemoveViewer := fun x y => zoom (gv_RemoveViewer g x y);
  gv_EnforceLikeBan := fun x y b => zoom (gv_EnforceLikeBan g x y b) |}.
