(* ===== verification/HttpSpec.v ===== *)
(** The interaction and query servers of [HttpApi] follow the published contract. *)
From S2P Require Import Prelude GoStrings Json Realtime Room Auth Like Stats Danmaku Http Contract HttpApi Instances TaggedJson AuthSpec.

(** Errors of looking up a room or joining it: none of the moderation errors. *)
Definition lookup_error (e : error) : Prop :=
  errors_Is e ErrForbidden = false /\ errors_Is e Room.ErrUserNotFound = false /\ errors_Is e Room.ErrInvalidInput = false
  /\ errors_Is e ErrSelfModeration = false /\ errors_Is e ErrInvalidState = false.
Definition lookup_errors {W} (rooms : RoomAPI W) : Prop :=
  (forall id w e w', ra_Get rooms id w = (Err e, w') -> lookup_error e)
  /\ (forall id u w e w', ra_Join rooms id u w = (Err e, w') -> lookup_error e).

Definition has_room_errors (row : contract_row) : bool :=
  forallb (fun s => existsb (Z.eqb s) (ct_errors row)) [403; 404; 409]
  && forallb (fun c => existsb (String.eqb c) (ct_codes row)) ["ROOM_NOT_FOUND"; "ROOM_NOT_LIVING"; "ROOM_BANNED"].

Lemma conforms_refusal row e : has_room_errors row = true -> Api.room_refusal e = true -> conforms row (handleRoomError e).
Proof.
  intros Hrow. unfold has_room_errors in Hrow. cbn [forallb] in Hrow. rewrite !andb_true_r, !andb_true_iff in Hrow.
  destruct Hrow as [(H403 & H404 & H409) (Hnf & Hnl & Hb)].
  unfold Api.room_refusal, handleRoomError. destruct (errors_Is e ErrNotFound); [intros _; by apply conforms_error|].
  destruct (errors_Is e ErrNotLiving); [intros _; by apply conforms_error|].
  destruct (errors_Is e ErrBanned); [intros _; by apply conforms_error|done].
Qed.
Lemma conforms_lookup row e :
  has_room_errors row = true -> existsb (Z.eqb 500) (ct_errors row) = true -> existsb (String.eqb "INTERNAL_ERROR") (ct_codes row) = true ->
  lookup_error e -> conforms row (handleRoomError e).
Proof.
  intros Hrow H500 Hint (G1 & G2 & G3 & G4 & G5). destruct (Api.room_refusal e) eqn:E; [by apply conforms_refusal|].
  unfold Api.room_refusal in E. rewrite !orb_false_iff in E. destruct E as [[E1 E2] E3].
  unfold handleRoomError. rewrite E1, E2, E3, G1, G2, G3, G4, G5. by apply conforms_error.
Qed.

Ltac answer_step :=
  match goal with
  | |- answers _ (mret _) => apply answers_ret
  | |- answers _ (with_path _ _ _) => apply answers_path; [|intros ?]
  | |- answers _ (Api.with_rooms _ _) => unfold Api.with_rooms
  | |- answers _ (room_reply _ _) => unfold room_reply
  | |- answers _ (reply _ _ _) => apply answers_reply; [intros ? ? ? ?|intros ? ? ? ?]
  | |- answers _ panicked => unfold panicked
  | |- answers _ (match ?x with _ => _ end) => destruct x eqn:?
  | |- answers _ (if ?x then _ else _) => destruct x eqn:?
  | |- conforms _ (if ?x then _ else _) => destruct x eqn:?
  | |- conforms _ (Api.stats_unavailable _) => unfold Api.stats_unavailable
  | |- conforms _ (writeError _ _ _) => by apply conforms_error
  | |- conforms _ (writeJSON _ _) => by apply conforms_success
  | |- conforms _ (handleRoomError ErrNotLiving) => by apply conforms_refusal
  | |- conforms _ (handleRoomError ErrBanned) => by apply conforms_refusal
  | |- conforms _ (handleRoomError _) => first [by apply conforms_refusal | apply conforms_lookup; [done|done|done|by eauto]]
  end.
Ltac answer := repeat answer_step.

Section interaction.
Context `{UnicodeTables} `{Crypto} `{JsonText} `{TimeText} {W : Type}.
Variables (d : Server W) (now_auth now : Z).

Lemma subscriptions_refusal (s : Server W) uid channels resp :
  Api.subscriptions s now uid channels = inr resp -> conforms join_row resp.
Proof.
  induction channels as [|ch channels IH]; [done|]. cbn [Api.subscriptions].
  destruct (sv_cfTokens s) as [i|]; [|intros [= <-]; by apply conforms_error].
  destruct (SubscriptionToken i now uid ch (sv_cfSubTTL s)) as [[tok exp]|e]; [|intros [= <-]; by apply conforms_error].
  destruct (Api.subscriptions s now uid channels); [done|]. intros [= <-]. by apply IH.
Qed.

Definition rooms_lookup (s : Server W) : Prop := forall rooms, sv_rooms s = Some rooms -> lookup_errors rooms.

Lemma join_answers (s : Server W) pv r userID : rooms_lookup s -> answers (conforms join_row) (Api.joinRoom s now r pv userID).
Proof.
  intros Hrooms. unfold Api.joinRoom. answer.
  - apply conforms_lookup; [done..|]. destruct (Hrooms _ Heqo) as [_ Hj]. by eapply Hj.
  - by eapply subscriptions_refusal.
Qed.
Lemma leave_answers (s : Server W) pv r userID : answers (conforms leave_row) (Api.leaveRoom s r pv userID).
Proof. unfold Api.leaveRoom. answer. Qed.
Lemma danmaku_answers (s : Server W) pv r userID : answers (conforms danmaku_contract) (Api.sendDanmaku s r pv userID).
Proof. unfold Api.sendDanmaku. answer. Qed.
Lemma like_answers (s : Server W) pv r userID : answers (conforms like_row) (Api.likeRoom s r pv userID).
Proof. unfold Api.likeRoom. answer. Qed.
Lemma heartbeat_answers (s : Server W) pv r userID : rooms_lookup s -> answers (conforms heartbeat_row) (Api.heartbeatRoom s r pv userID).
Proof.
  intros Hrooms. unfold Api.heartbeatRoom. answer.
  apply conforms_lookup; [done..|]. destruct (Hrooms _ Heqo) as [Hg _]. by eapply Hg.
Qed.


(** *** Queries *)
Lemma answers_profiles row (s : Server W) ids k :
  (forall items, answers (conforms row) (k items)) -> answers (conforms row) (items ← Api.profiles s ids; k items).
Proof.
  intros Hk. apply answers_bind; [|done]. induction ids as [|uid ids IH]; intros w; [by eexists _, _|].
  cbn [Api.profiles]. unfold mbind, M_bind, try. destruct (sv_profiles s uid w) as [u w1].
  destruct (IH w1) as (items & w2 & E). rewrite E. by eexists _, _.
Qed.
Lemma messages_answers (s : Server W) r pv : answers (conforms messages_row) (Api.roomMessages s r pv).
Proof. unfold Api.roomMessages, Api.limit_error. answer. Qed.
Lemma top_viewers_answers (s : Server W) r pv : answers (conforms top_viewers_row) (Api.topViewers s r pv).
Proof. unfold Api.topViewers. answer. apply answers_profiles. intros items. answer. Qed.
Lemma viewers_answers (s : Server W) r pv : answers (conforms viewers_row) (Api.roomViewers s r pv).
Proof. unfold Api.roomViewers. answer. apply answers_profiles. intros items. answer. Qed.
Lemma stats_answers (s : Server W) r pv : sv_rooms s = None -> answers (conforms stats_row) (Api.roomStats s r pv).
Proof. intros Hs. unfold Api.roomStats, Api.with_rooms. rewrite Hs. answer. Qed.

Lemma public_servers_follow :
  (forall rooms, sv_rooms d = Some rooms -> lookup_errors rooms) ->
  follows (sv_appTokens d) now_auth Interaction (Api.NewInteraction d now_auth now)
  /\ follows (sv_appTokens d) now_auth QueryBackend (Api.NewQuery d).
Proof.
  intros Hrooms. assert (Hr : rooms_lookup (Api.interaction_server d)) by exact Hrooms.
  split; apply follows_routes; repeat (apply Forall_cons; split); try (by apply implements_outside); try apply Forall_nil; try done.
  - apply (implements_authed _ _ _ join_row); try done; [catalogued|]. intros. by apply join_answers.
  - apply (implements_authed _ _ _ leave_row); try done; [catalogued|]. intros. by apply leave_answers.
  - apply (implements_authed _ _ _ danmaku_contract); try done; [catalogued|]. intros. by apply danmaku_answers.
  - apply (implements_authed _ _ _ like_row); try done; [catalogued|]. intros. by apply like_answers.
  - apply (implements_authed _ _ _ heartbeat_row); try done; [catalogued|]. intros. by apply heartbeat_answers.
  - apply (implements_public _ _ _ messages_row); try done; [catalogued|]. intros. by apply messages_answers.
  - apply (implements_public _ _ _ top_viewers_row); try done; [catalogued|]. intros. by apply top_viewers_answers.
  - apply (implements_public _ _ _ viewers_row); try done; [catalogued|]. intros. by apply viewers_answers.
  - apply (implements_public _ _ _ stats_row); try done; [catalogued|]. intros. by apply stats_answers.
Qed.

(** C13 The interaction server ([NewInteraction]) and the query server ([NewQuery])
    follow the published contract: for any services whose room lookups report no
    moderation errors, a request to the API that has a route always gets an answer,
    whose status is the success status of the contract's row for that method and
    path, or one of its error statuses with one of its error codes; and where the row
    asks for authentication, a request without an access token that verifies is
    answered 401 and changes nothing. *)
Theorem public_servers_follow_the_contract :
  (forall rooms, sv_rooms d = Some rooms -> lookup_errors rooms) ->
  follows (sv_appTokens d) now_auth Interaction (Api.NewInteraction d now_auth now)
  /\ follows (sv_appTokens d) now_auth QueryBackend (Api.NewQuery d).
Proof. apply public_servers_follow. Qed.
End interaction.

(** ** Examples *)
(** A server whose services all fail, apart from the given ones. *)
Definition bare_server {W} (tokens : TokenManager) (rooms : option (RoomAPI W)) (governance : option (GovernanceStore W))
    (centrifugo : option (RealtimeController W)) : Server W :=
  mkServer (Some (throw (Fresh "down"))) (throw (Fresh "down")) None centrifugo governance
    (fun _ _ _ => throw (Fresh "down")) (fun _ _ => throw (Fresh "down")) (fun _ => throw (Fresh "down"))
    (fun _ => throw (Fresh "down")) tokens None 0 rooms (fun _ _ _ => throw (Fresh "down")) (fun _ _ _ => throw (Fresh "down"))
    (fun _ _ => throw (Fresh "down")) (fun _ _ => throw (Fresh "down")) (fun _ => throw (Fresh "down"))
    (fun _ => throw (Fresh "down")) None.

Module HttpExamples.
#[local] Existing Instances ascii_tables nano_text tagged_json AuthExamples.padded_crypto.

Definition empty_body : body := mkBody (Invalid "") 0 false 0.
Definition leave_request (authorization : string) : request :=
  mkRequest "POST" ["api"; "v1"; "rooms"; "7"; "leave"] (fun h => if bool_decide (h = "Authorization") then authorization else "") (fun _ => "") empty_body.
Definition server : Server unit := bare_server AuthExamples.manager None None None.

Lemma public_servers_follow_the_contract_witness :
  exists m resp, serve (Api.NewInteraction server (2000 * Second) 0) (leave_request ("Bearer " +:+ AuthExamples.token42)) = Some m
    /\ m tt = (Ok resp, tt) /\ resp = writeError 503 "STATS_UNAVAILABLE" "viewer tracking unavailable" /\ conforms leave_row resp.
Proof.
  eexists _, _. split; [vm_compute; reflexivity|]. split; [reflexivity|]. split; [reflexivity|].
  destruct (public_servers_follow_the_contract server (2000 * Second) 0) as [Hi _]; [discriminate|].
  edestruct (Hi (leave_request ("Bearer " +:+ AuthExamples.token42)))
    as (row & Hrow & Hown & Hmethod & Hpath & Hans & _); [reflexivity|vm_compute; reflexivity|].
  destruct (Hans tt) as (resp & w' & Hrun & Hconf). injection Hrun as <- _.
  apply list_elem_of_In in Hrow. unfold catalogue in Hrow. cbn [In] in Hrow.
  repeat (destruct Hrow as [<-|Hrow]; [first [discriminate Hown | discriminate Hmethod | (destruct Hpath as [b Hb]; discriminate Hb) | exact Hconf]|]).
  destruct Hrow.
Defined.

(** Without the header the same request is answered 401. *)
Example unauthorized_example :
  serve (Api.NewInteraction server (2000 * Second) 0) (leave_request "Basic x") =
  Some (mret (writeError 401 "UNAUTHORIZED" "missing bearer token")).
Proof. vm_compute. reflexivity. Qed.
End HttpExamples.
