(* ===== verification/BanSpec.v ===== *)
(** What the moderation API promises about a ban ([banUser] and [enforceBan] of
    [internal/httpapi/server.go]) over the room service, Redis and the realtime
    controller together. *)
From S2P Require Import Prelude GoStrings Mysql Json Realtime Room RoomSpec Redis RedisSpec ViewerSpec Instances TaggedJson.
From S2P Require Import Auth Like Stats Danmaku Http Contract HttpApi HttpSpec AuthSpec.

(** ** The room service saves the ban *)
Section save.
Context `{UnicodeTables} `{MySQLServer}.
Variable users : option (Z -> M (Mysql RoomDB) (string * bool)).
Hypothesis users_pure : forall u id s, users = Some u -> lget (u id s).2 = lget s.

(** The ban that [actor] made in a room of its own. *)
Definition ban_by (actor room target : Z) (c t : RoomDB) : Prop :=
  anchored c room actor /\ target <> actor /\
  exists b, br_created_by b = actor /\ t = set_bans (<[(room, target) := b]> (room_bans c)) c.

Lemma wp_Ban room actor target reason c n fl (Q : res unit -> Mysql RoomDB -> Prop) :
  (forall t fl', ban_by actor room target c t -> Q (Ok tt) (mkMysql t None n fl')) ->
  (forall e t fl', t = c \/ ban_by actor room target c t -> Q (Err e) (mkMysql t None n fl')) ->
  wp (RoomService.Ban_ users room actor target reason) Q (mkMysql c None n fl).
Proof.
  intros Hok Herr. assert (Hno : forall e fl', Q (Err e) (mkMysql c None n fl')) by (intros; apply Herr; by left).
  unfold RoomService.Ban_, RoomService.requireAnchor. apply wp_bind, wp_bind. apply wp_ByID; [|done]. intros r fl1 Hr.
  destruct (Z.eqb_spec (room_AnchorID (RoomRepository.scan_room room r)) actor) as [Ha|]; [|apply Hno].
  destruct (Z.eqb_spec target actor) as [|Hne]; [apply wp_throw, Hno|].
  apply wp_bind. unfold RoomService.validateModerationTarget. apply wp_bind, (wp_nickname users users_pure).
  intros [[nick found]|e]; [|apply Hno]. destruct found; cbn [negb snd]; [|apply wp_throw, Hno].
  destruct (255 <? _); [apply wp_throw, Hno|]. apply wp_ret.
  assert (Hban : forall t', ban_by actor room target c (set_bans (<[(room, target) := t']> (room_bans c)) c) \/ br_created_by t' <> actor).
  { intros b. destruct (decide (br_created_by b = actor)); [left|by right]. split; [by exists r|]. split; [done|]. by exists b. }
  cbn [rs_Ban room_repository]. unfold RoomRepository.Ban_. apply wp_zoom, wp_db_exec; [|intros; apply Hno|].
  - intros [] t fl2 [= <-]. apply Hok. by destruct (Hban (mkBanRow actor (TrimSpace reason) (NOW3 n))).
  - intros e [] t fl2 [= <-]. apply Herr. right. by destruct (Hban (mkBanRow actor (TrimSpace reason) (NOW3 n))).
Qed.
End save.

(** ** Redis *)
Lemma enforce_sets room user s s' : EnforceLikeBan room user true s = (Ok tt, s') ->
  strs (r_db s') !! likeBanKey room user = Some ("1", None).
Proof.
  unfold EnforceLikeBan, run_cmd. cbn [negb]. destruct (next_fault _) as [[|e|e] fl]; [|done..]. unfold pure_cmd.
  intros [= <-]. cbn. by rewrite lookup_insert_eq.
Qed.
Lemma remove_keeps_strs room user s r s' : RemoveViewer room user s = (r, s') -> strs (r_db s') = strs (r_db s).
Proof. unfold RemoveViewer, run_cmd. destruct (next_fault _) as [[|e|e] fl]; unfold pure_cmd; by intros [= <- <-]. Qed.
Lemma remove_absent room user s k s' : RemoveViewer room user s = (Ok k, s') ->
  zset (r_db s') (roomViewersKey room) !! FormatInt user = None.
Proof.
  unfold RemoveViewer, run_cmd. destruct (next_fault _) as [[|e|e] fl]; [|done..]. unfold pure_cmd.
  intros [= <- <-]. cbn [r_db]. unfold ZREM. rewrite zset_set_ne by apply join_ne_viewers. rewrite zset_set. apply lookup_delete_eq.
Qed.

(** ** The handler *)
Inductive rt_call : Type :=
| Notified (channel : string) (e : RtEvent)
| Unsubscribed (user channel : string).

Section ban.
Context `{UnicodeTables} `{MySQLServer} `{Crypto} `{JsonText} `{TimeText} {C : Type}.
Variables (users : option (Z -> M (Mysql RoomDB) (string * bool))) (mute_now : Z) (rt : RealtimeController C).
Hypothesis users_pure : forall u id s, users = Some u -> lget (u id s).2 = lget s.

(** Room tables, Redis, the realtime server and the calls it accepted. *)
Definition ban_world : Type := Mysql RoomDB * (Redis * (C * list rt_call)).
Definition noting {A} (x : rt_call) (m : M C A) : M ban_world A := fun w =>
  let '(db, (red, (c, log))) := w in
  match m c with
  | (Ok a, c') => (Ok a, (db, (red, (c', log ++ [x]))))
  | (Err e, c') => (Err e, (db, (red, (c', log))))
  end.
Definition noting_controller : RealtimeController ban_world := {|
  rc_Ping := fun w => let '(db, (red, (c, log))) := w in let (r, c') := rc_Ping rt c in (r, (db, (red, (c', log))));
  rc_Publish := fun ch ev => noting (Notified ch ev) (rc_Publish rt ch ev);
  rc_Unsubscribe := fun u ch => noting (Unsubscribed u ch) (rc_Unsubscribe rt u ch) |}.
Definition world_governance : GovernanceStore ban_world :=
  lift_governance (H := lens_snd _ _) (lift_governance (H := lens_fst _ _) redis_governance).

(** The identity-room server as it is wired. *)
Definition wired (s : Server ban_world) : Prop :=
  sv_rooms s = Some (lift_rooms (H := lens_fst _ _) (room_service_api users mute_now))
  /\ sv_governance s = Some world_governance /\ sv_centrifugo s = Some noting_controller.

Lemma wp_effect {A} what (m : M ban_world A) errs (Q : res (list error) -> ban_world -> Prop) w :
  (forall a w', m w = (Ok a, w') -> Q (Ok errs) w') ->
  (forall e w', m w = (Err e, w') -> Q (Ok (errs ++ [Wrapped (what +:+ ": ") e ""])) w') ->
  wp (Api.effect what m errs) Q w.
Proof.
  intros Hok Herr. unfold Api.effect. apply wp_bind, wp_try. unfold wp. destruct (m w) as [[a|e] w'] eqn:E.
  - apply wp_ret. by eapply Hok.
  - apply wp_ret. by eapply Herr.
Qed.
Lemma wp_noting {A} x (m : M C A) (Q : res A -> ban_world -> Prop) db red c log :
  (forall a c', Q (Ok a) (db, (red, (c', log ++ [x])))) -> (forall e c', Q (Err e) (db, (red, (c', log)))) ->
  wp (noting x m) Q (db, (red, (c, log))).
Proof. intros Hok Herr. unfold wp, noting. destruct (m c) as [[a|e] c']; [apply Hok|apply Herr]. Qed.

Definition ban_notice (now : Z) (id : string) (room target : Z) (reason : string) : RtEvent :=
  NewPriorityEvent now id "room_banned" room "P0" (AnyValue (JObj [("user_id", JNum target); ("reason", JStr reason)])).
Definition ban_calls (now : Z) (id : string) (room target : Z) (reason : string) : list rt_call :=
  [Notified (Personal target) (ban_notice now id room target reason);
   Unsubscribed (FormatInt target) (RoomStream room); Unsubscribed (FormatInt target) (RoomStats room)].

(** All side effects of [enforceBan] took place. *)
Definition enforced (now : Z) (id : string) (room target : Z) (reason : string) (log : list rt_call) (w : ban_world) : Prop :=
  strs (r_db w.2.1) !! likeBanKey room target = Some ("1", None)
  /\ zset (r_db w.2.1) (roomViewersKey room) !! FormatInt target = None
  /\ w.2.2.2 = log ++ ban_calls now id room target reason.

Lemma errors_Join_None errs : errors_Join errs = None -> errs = [].
Proof. by destruct errs. Qed.

(** The two Redis commands: no error is returned only when both took effect. *)
Lemma wp_evict room target (Q : res (list error) -> ban_world -> Prop) db red rc :
  (forall red' errs, (errs = [] -> strs (r_db red') !! likeBanKey room target = Some ("1", None)
      /\ zset (r_db red') (roomViewersKey room) !! FormatInt target = None) -> Q (Ok errs) (db, (red', rc))) ->
  wp (errs ← Api.effect "cache ban" (gv_EnforceLikeBan world_governance room target true) [];
      Api.effect "remove viewer" (gv_RemoveViewer world_governance room target) errs) Q (db, (red, rc)).
Proof.
  intros HQ. apply wp_bind. cbn [gv_EnforceLikeBan gv_RemoveViewer world_governance lift_governance redis_governance].
  assert (Hremove : forall errs red1,
    (errs = [] -> strs (r_db red1) !! likeBanKey room target = Some ("1", None)) ->
    wp (Api.effect "remove viewer" (zoom (zoom (RemoveViewer room target))) errs) Q (db, (red1, rc))).
  { intros errs red1 Hset. unfold zoom. cbn [lget lset lens_fst lens_snd fst snd].
    destruct (RemoveViewer room target red1) as [r red2] eqn:E. pose proof (remove_keeps_strs _ _ _ _ _ E) as Hk.
    apply wp_effect; cbn [fst snd]; rewrite E; intros ? ? [= -> <-]; apply HQ.
    - intros ->. split; [rewrite Hk; by apply Hset|by eapply remove_absent].
    - intros Hnil. by apply app_nil in Hnil as [_ ?]. }
  apply wp_effect; unfold zoom; cbn [lget lset lens_fst lens_snd fst snd];
    destruct (EnforceLikeBan room target true red) as [r red1] eqn:E; intros ? ? [= -> <-]; apply Hremove; [|done].
  intros _. destruct a. by eapply enforce_sets.
Qed.

(** The notice and the two unsubscriptions: no error is added only when all were sent. *)
Lemma wp_announce now id room target reason errs (Q : res (list error) -> ban_world -> Prop) db red c log :
  (forall c' log' errs', (errs' = [] -> errs = [] /\ log' = log ++ ban_calls now id room target reason) ->
    Q (Ok errs') (db, (red, (c', log')))) ->
  wp (errs ← Api.effect "publish ban notice" (rc_Publish noting_controller (Personal target) (ban_notice now id room target reason)) errs;
      errs ← Api.effect ("unsubscribe " +:+ RoomStream room) (rc_Unsubscribe noting_controller (FormatInt target) (RoomStream room)) errs;
      Api.effect ("unsubscribe " +:+ RoomStats room) (rc_Unsubscribe noting_controller (FormatInt target) (RoomStats room)) errs)
    Q (db, (red, (c, log))).
Proof.
  intros HQ. cbn [rc_Publish rc_Unsubscribe noting_controller].
  assert (Hstep : forall A what x (m : M C A) errs c log (Q : res (list error) -> ban_world -> Prop),
    (forall c', Q (Ok errs) (db, (red, (c', log ++ [x])))) ->
    (forall e c', Q (Ok (errs ++ [e])) (db, (red, (c', log)))) ->
    wp (Api.effect what (noting x m) errs) Q (db, (red, (c, log)))).
  { clear. intros A what x m errs c log Q Hok Herr. unfold noting. apply wp_effect; destruct (m c) as [[a|e] c'];
      intros ? ? [= <- <-]; [apply Hok|apply Herr]. }
  assert (Hend : forall errs1 c1 log1 (l : list rt_call), (errs1 = [] -> errs = [] /\ log1 = log ++ l) ->
    l ++ [Unsubscribed (FormatInt target) (RoomStats room)] = ban_calls now id room target reason ->
    wp (Api.effect ("unsubscribe " +:+ RoomStats room) (noting (Unsubscribed (FormatInt target) (RoomStats room))
          (rc_Unsubscribe rt (FormatInt target) (RoomStats room))) errs1) Q (db, (red, (c1, log1)))).
  { intros errs1 c1 log1 l Hfirst Hl. apply Hstep; intros; apply HQ.
    - intros ->. destruct (Hfirst eq_refl) as [-> ->]. by rewrite <-app_assoc, Hl.
    - intros Hnil. by apply app_nil in Hnil as [_ ?]. }
  assert (Hno : forall (l : list error) e, l ++ [e] = [] -> False) by (intros l e Hnil; by apply app_nil in Hnil as [_ ?]).
  apply wp_bind, Hstep; intros; apply wp_bind, Hstep; intros;
    eapply (Hend _ _ _ [_; _]); try reflexivity; try (intros Hnil; exfalso; by eapply Hno).
  intros ->. split; [done|]. by rewrite <-app_assoc.
Qed.

Lemma wp_enforceBan s now id room target reason (Q : res (option error) -> ban_world -> Prop) db red c log :
  wired s ->
  (forall e w', w'.1 = db -> (e = None -> enforced now id room target reason log w') -> Q (Ok e) w') ->
  wp (Api.enforceBan s now id room target reason) Q (db, (red, (c, log))).
Proof.
  intros (_ & Hg & Hc) HQ. unfold Api.enforceBan. rewrite Hg, Hc. apply wp_bind, wp_evict. intros red' errs Hred.
  apply wp_bind, wp_announce. intros c' log' errs' Hlog. apply wp_ret, HQ; [done|].
  intros Hnone. apply errors_Join_None in Hnone as ->. destruct (Hlog eq_refl) as [-> ->]. destruct (Hred eq_refl) as [Hset Habs]. done.
Qed.

(** The body of a ban request. *)
Definition ban_body (r : request) : res (Z * string) :=
  decodeJSON 8192 ["user_id"; "reason"]
    (fun o => u ← decode_field 0 dec_int64 "user_id" o; t ← decode_field "" dec_string "reason" o; Some (u, t)) (q_Body r).

Definition no_ban_answer (resp : response) : Prop := rs_status resp <> 200 /\ rs_status resp <> 503.
Lemma room_error_is_no_ban e : no_ban_answer (handleRoomError e).
Proof. unfold handleRoomError. repeat (destruct (errors_Is _ _); [done|]). done. Qed.

Lemma path_is_no_ban pv name resp : pathInt64 pv name = inr resp -> no_ban_answer resp.
Proof. unfold pathInt64. destruct (ParseInt _) as [v|]; [destruct (v <=? 0)|]; by intros [= <-]. Qed.

Definition saved_ban (actor room target : Z) (db db' : Mysql RoomDB) : Prop :=
  ban_by actor room target (committed db) (committed db').

(** The three ways a ban request can end. *)
Definition ban_outcome (now : Z) (id : string) (r : request) (pv : PathValue) (actor : Z) (w : ban_world) (resp : response)
    (w' : ban_world) : Prop :=
  (exists room target reason, pathInt64 pv "room_id" = inl room /\ ban_body r = Ok (target, reason)
     /\ saved_ban actor room target w.1 w'.1
     /\ (resp = writeJSON 200 (JObj [("status", JStr "banned"); ("user_id", JNum target)])
          /\ enforced now id room target (TrimSpace reason) w.2.2.2 w'
        \/ resp = writeError 503 "BAN_ENFORCEMENT_FAILED" "ban saved but immediate eviction failed; retry safely"))
  \/ no_ban_answer resp /\ w'.2 = w.2
     /\ (committed w'.1 = committed w.1 \/ exists room target, saved_ban actor room target w.1 w'.1).

(** C16 A ban request to the identity-room server, with any faults of MySQL, Redis and
    the realtime server, is always answered. It is answered 200 only if the actor is
    the room's anchor and the ban of another user is in the table, the user's likes
    are blocked in Redis, the user is not among the viewers any more, and the notice
    and both unsubscriptions were accepted by the realtime server, in this order. It
    is answered 503 only if the ban is saved, so that it can be retried; any other
    answer leaves Redis and the realtime server untouched. *)
Theorem successful_ban_is_enforced s now id r pv actor t n fl red c log :
  wired s ->
  let w := (mkMysql t None n fl, (red, (c, log))) in
  exists resp w', Api.banUser s now id r pv actor w = (Ok resp, w') /\ ban_outcome now id r pv actor w resp w'.
Proof.
  intros Hs w.
  enough (Hwp : wp (Api.banUser s now id r pv actor)
                  (fun a w' => exists resp, a = Ok resp /\ ban_outcome now id r pv actor w resp w') w).
  { unfold wp in Hwp. destruct (Api.banUser s now id r pv actor w) as [a w'] eqn:E. destruct Hwp as (resp & Ha & Ho). cbn in Ha. subst a.
    exists resp, w'. by split. }
  assert (Hrefuse : forall resp, no_ban_answer resp -> exists resp', Ok resp = Ok resp' /\ ban_outcome now id r pv actor w resp' w).
  { intros resp Hresp. exists resp. split; [done|]. right. split; [done|]. split; [done|by left]. }
  unfold Api.banUser, with_path. destruct (pathInt64 pv "room_id") as [room|resp] eqn:Hroom; [|apply wp_ret, Hrefuse; by eapply path_is_no_ban].
  change (decodeJSON 8192 ["user_id"; "reason"] _ (q_Body r)) with (ban_body r).
  destruct (ban_body r) as [[target reason]|e] eqn:Hbody; [|by apply wp_ret, Hrefuse].
  destruct (target <=? 0); [by apply wp_ret, Hrefuse|].
  destruct Hs as (Hrooms & Hs'). unfold Api.with_rooms. rewrite Hrooms. unfold room_reply, reply.
  apply wp_bind, wp_try. cbn [ra_Ban lift_rooms room_service_api]. apply wp_zoom. cbn [lget lset lens_fst fst snd].
  apply wp_Ban; [done|..].
  - intros t' fl' Hban. apply wp_bind. apply wp_enforceBan; [done|]. intros e w' Hdb He. apply wp_ret.
    eexists. split; [done|]. left. exists room, target, reason. split; [done|]. split; [done|].
    split; [unfold saved_ban; by rewrite Hdb|]. destruct e; [by right|left; split; [done|by apply He]].
  - intros e t' fl' Ht. apply wp_ret. eexists. split; [done|]. right. split; [apply room_error_is_no_ban|]. split; [done|].
    destruct Ht as [->|Hban]; [by left|right]. by exists room, target.
Qed.
End ban.

(** ** Examples *)
Module BanExamples.
#[local] Existing Instances ascii_tables example_server nano_text tagged_json AuthExamples.padded_crypto.

(** A realtime server that is up, or down. *)
Definition controller (up : bool) : RealtimeController unit := {|
  rc_Ping := mret tt;
  rc_Publish := fun _ _ => if up then mret tt else throw (Fresh "centrifugo down");
  rc_Unsubscribe := fun _ _ => if up then mret tt else throw (Fresh "centrifugo down") |}.
Definition server (up : bool) : Server ban_world :=
  bare_server AuthExamples.manager (Some (lift_rooms (H := lens_fst _ _) (room_service_api RoomExamples.users 0)))
    (Some world_governance) (Some (noting_controller (controller up))).
Lemma server_wired up : wired RoomExamples.users 0 (controller up) (server up).
Proof. done. Qed.

Definition pv (name : string) : string := if bool_decide (name = "room_id") then "1" else "".
Definition ban_request : request :=
  mkRequest "POST" ["api"; "v1"; "rooms"; "1"; "bans"] (fun _ => "") (fun _ => "")
    (mkBody (Valid (JObj [("user_id", JNum 8); ("reason", JStr " spam ")])) 36 false 36).
Definition start : ban_world :=
  (mkMysql RoomExamples.live None (3 * Minute) [], (mkRedis (mkRedisDB ∅ {[ roomViewersKey 1 := {[ "8" := 5 ]} ]}) 0 [], (tt, []))).

(** The anchor bans a viewer: once with the realtime server up, once with it down. *)
Lemma successful_ban_is_enforced_witness :
  exists w', Api.banUser (server true) 0 "e1" ban_request pv 7 start
    = (Ok (writeJSON 200 (JObj [("status", JStr "banned"); ("user_id", JNum 8)])), w')
    /\ enforced 0 "e1" 1 8 "spam" [] w'.
Proof.
  destruct (successful_ban_is_enforced RoomExamples.users 0 (controller true) RoomExamples.users_pure (server true) 0 "e1" ban_request pv 7
    RoomExamples.live (3 * Minute) [] (mkRedis (mkRedisDB ∅ {[ roomViewersKey 1 := {[ "8" := 5 ]} ]}) 0 []) tt [] (server_wired true))
    as (resp & w' & Hrun & Hout).
  assert (Hresp : (Api.banUser (server true) 0 "e1" ban_request pv 7 start).1
                  = Ok (writeJSON 200 (JObj [("status", JStr "banned"); ("user_id", JNum 8)]))) by (vm_compute; reflexivity).
  exists w'. change start with (mkMysql RoomExamples.live None (3 * Minute) [], (mkRedis (mkRedisDB ∅ {[ roomViewersKey 1 := {[ "8" := 5 ]} ]}) 0 [], (tt, @nil rt_call))) in *.
  rewrite Hrun in Hresp |- *. injection Hresp as ->. split; [reflexivity|].
  destruct Hout as [(room & target & reason & Hroom & Hbody & _ & [[_ Henf]|Hno])|(Hno & _)]; [|discriminate Hno|by destruct Hno as [[] _]].
  injection Hroom as <-. injection Hbody as <- <-. exact Henf.
Defined.

Example ban_with_realtime_down :
  let '(resp, (db, (red, (_, log)))) := Api.banUser (server false) 0 "e1" ban_request pv 7 start in
  resp = Ok (writeError 503 "BAN_ENFORCEMENT_FAILED" "ban saved but immediate eviction failed; retry safely")
  /\ map_to_list (room_bans (committed db)) = [((1, 8), mkBanRow 7 "spam" (NOW3 (3 * Minute)))]
  /\ strs (r_db red) !! likeBanKey 1 8 = Some ("1", None) /\ log = [].
Proof. vm_compute. done. Qed.
End BanExamples.
