(* ===== verification/IdentityClient.v ===== *)
(** The client of the identity-room service: [internal/identityclient/client.go],
    against the internal routes of [HttpApi]. *)
From Stdlib Require Import Ascii.
From S2P Require Import Prelude GoStrings Json Realtime Room Auth Danmaku Like Commerce GiftRepository GiftService Http HttpApi.

(** [Client]; [New] cuts trailing slashes off the base URL. *)
Record Client : Type := mkClient { c_base : string }.
Definition New (base : string) : Client := mkClient (trim_right_slash base).

Definition unsupported {W A} : M W A := throw (Fresh "unsupported").

Section client.
Context {W : Type} `{HttpClient W} `{TimeText}.
Variable c : Client.

(** [call]: the decoded body of a 2xx answer. Building the request and closing the
    body do not fail. *)
Definition call {A} (method path : string) (decode : raw -> option A) : M W A :=
  res ← http_Do (mkHttpRequest method (c_base c +:+ path) [] None);
  if negb (Z.quot (rp_status res) 100 =? 2) then throw (Fresh ("identity-room status=" +:+ FormatInt (rp_status res))) else
  match rp_body res with
  | Err err => throw err
  | Ok raw => match decode raw with Some v => mret v | None => throw (Fresh "invalid json") end
  end.

Definition client_Get (id : Z) : M W Room := call "GET" ("/internal/v1/rooms/" +:+ FormatInt id) unmarshal_room.
Definition client_GetRoomAccess (r u : Z) : M W RoomAccess :=
  call "GET" ("/internal/v1/rooms/" +:+ FormatInt r +:+ "/access/" +:+ FormatInt u) unmarshal_access.
Definition client_IsBanned (r u : Z) : M W bool := v ← client_GetRoomAccess r u; mret (ra_Banned v).
Definition client_IsMuted (r u : Z) : M W bool := v ← client_GetRoomAccess r u; mret (ra_Muted v).
Definition client_Join (r u : Z) : M W Room :=
  call "POST" ("/internal/v1/rooms/" +:+ FormatInt r +:+ "/join/" +:+ FormatInt u) unmarshal_room.
Definition client_User (id : Z) : M W User := call "GET" ("/internal/v1/users/" +:+ FormatInt id) unmarshal_user.

(** The client as the rooms of the interaction server. *)
Definition remote_rooms_api : RoomAPI W := {|
  ra_Create := fun _ _ => unsupported;
  ra_Get := client_Get;
  ra_List := fun _ _ => unsupported;
  ra_Start := fun _ _ => unsupported;
  ra_Stop := fun _ _ => unsupported;
  ra_Join := client_Join;
  ra_GetRoomAccess := client_GetRoomAccess;
  ra_IsMuted := client_IsMuted;
  ra_IsBanned := client_IsBanned;
  ra_Mute := fun _ _ _ _ _ => unsupported;
  ra_Unmute := fun _ _ _ => unsupported;
  ra_ListMutes := fun _ _ => unsupported;
  ra_Ban := fun _ _ _ _ => unsupported;
  ra_Unban := fun _ _ _ => unsupported;
  ra_ListBans := fun _ _ => unsupported |}.

Definition client_danmaku_rooms : DanmakuRooms W := {| dr_GetRoomAccess := client_GetRoomAccess |}.
Definition client_danmaku_users : DanmakuUsers W := {| du_User := client_User |}.
Definition client_like_rooms : LikeRooms W := {| lr_Get := client_Get; lr_IsBanned := client_IsBanned |}.
End client.
Definition client_gift_rooms {W} `{HttpClient W} `{TimeText} (c : Client) : GiftRooms W := {| gr_Get := client_Get c; gr_IsBanned := client_IsBanned c |}.

(** A server reached over HTTP: the host is the base URL, the body is received whole. *)
Definition loopback {W} (base : string) (routes : list (route W)) : HttpClient W := {|
  http_Do := fun rq =>
    if negb (HasPrefix (rq_url rq) base) then throw (Fresh "no such host") else
    match serve routes (mkRequest (rq_method rq) (tl (Split "/"%char (TrimPrefix (rq_url rq) base))) (fun _ => "") (fun _ => "")
                          (mkBody (Invalid "") 0 false 0)) with
    | Some m => resp ← m; mret (mkHttpResponse (rs_status resp) (Ok (rs_body resp)))
    | None => mret (mkHttpResponse 404 (Ok (Invalid "")))
    end |}.
