(* ===== verification/IdentitySpec.v ===== *)
(** The identity-room service behind its client: what
    [internal/identityclient/client.go] returns when the internal routes of
    [internal/httpapi/server.go] answer it. *)
From S2P Require Import Prelude GoStrings Mysql Json Message Realtime Room RoomSpec Instances TaggedJson Auth AuthSpec Like Stats Danmaku Http Contract HttpApi HttpSpec IdentityClient.
From Stdlib Require Import Ascii.

(** ** JSON round trips *)
Section decoded.
Context `{TimeText}.
(** Whatever the ranges: a room that decodes has the anchor and the status that were sent. *)
Lemma room_decoded v v' : unmarshal_room (Valid (room_json v)) = Some v' ->
  room_AnchorID v' = room_AnchorID v /\ room_Status v' = room_Status v.
Proof.
  destruct v as [id anchor nick title status started ended created]. unfold unmarshal_room, room_json. cbn [decode_object mbind option_bind].
  cbn [room_ID room_AnchorID room_AnchorNickname room_Title room_Status room_StartedAt room_EndedAt room_CreatedAt].
  unfold dec_room_fields.
  case_bool_decide; destruct started as [st|], ended as [en|];
    cbn [opt_time_field app]; json_keys; unfold dec_int64; cbn [dec_string];
    intros; repeat match goal with
    | Hd : mbind _ (if ?b then _ else _) = Some _ |- _ => destruct b; cbn [mbind option_bind] in Hd; [|discriminate Hd]
    | Hd : mbind _ (Some _) = Some _ |- _ => cbn [mbind option_bind] in Hd
    | Hd : mbind _ ?o = Some _ |- _ => destruct o; cbn [mbind option_bind] in Hd; [|discriminate Hd]
    end; by simplify_eq.
Qed.
End decoded.
Section codec.
Context `{TimeTextOk}.

Definition sendable_time (t : Z) : Prop := 0 <= t <= int64_max.
Definition sendable_room (v : Room) : Prop :=
  in_int64 (room_ID v) /\ in_int64 (room_AnchorID v) /\ sendable_time (room_CreatedAt v)
  /\ (forall t, room_StartedAt v = Some t -> sendable_time t) /\ (forall t, room_EndedAt v = Some t -> sendable_time t).

Lemma room_roundtrip v : sendable_room v -> dec_room (room_json v) = Some v.
Proof.
  destruct v as [id anchor nick title status started ended created]. intros (Hid & Ha & Hc & Hs & He). cbn in Hid, Ha, Hc, Hs, He.
  unfold room_json, dec_room. cbn [room_ID room_AnchorID room_AnchorNickname room_Title room_Status room_StartedAt room_EndedAt room_CreatedAt].
  unfold dec_room_fields.
  case_bool_decide; [subst|]; destruct started as [st|], ended as [en|]; try specialize (Hs _ eq_refl); try specialize (He _ eq_refl);
    cbn [opt_time_field app mbind option_bind];
    repeat (json_keys; rewrite ?dec_int64_num, ?dec_time_text by done; cbn [mbind option_bind dec_string fmap option_fmap option_map]); done.
Qed.

Lemma access_roundtrip a : sendable_room (ra_Room a) -> unmarshal_access (Valid (access_json a)) = Some a.
Proof.
  destruct a as [room banned muted]. intros Hroom. unfold unmarshal_access, access_json.
  cbn [ra_Room ra_Banned ra_Muted decode_object mbind option_bind]. json_keys.
  assert (Hdec : match room_json room with JNull => Some zero_room | _ => dec_room (room_json room) end = Some room) by (by apply room_roundtrip).
  rewrite Hdec. done.
Qed.
Lemma unmarshal_room_json v : sendable_room v -> unmarshal_room (Valid (room_json v)) = Some v.
Proof. intros Hv. by apply room_roundtrip. Qed.

(** What of a user the internal API shows. *)
Definition public_user (u : User) : User := mkUser (us_ID u) (us_Username u) (us_Nickname u) (us_Avatar u) "" 0 (us_CreatedAt u).
Lemma user_roundtrip u : in_int64 (us_ID u) -> sendable_time (us_CreatedAt u) ->
  unmarshal_user (Valid (user_json u)) = Some (public_user u).
Proof.
  intros Hid Hc. unfold unmarshal_user, user_json. cbn [decode_object mbind option_bind]. json_keys.
  by rewrite dec_int64_num, dec_time_text by done.
Qed.
Lemma room_json_finite v : json_finite (room_json v) = true.
Proof.
  destruct v as [id anchor nick title status started ended created]. unfold room_json, opt_time_field.
  cbn [room_AnchorNickname room_StartedAt room_EndedAt]. by case_bool_decide; destruct started, ended.
Qed.
End codec.

(** ** Paths *)
Lemma free_of_app sep a b : free_of sep (a +:+ b) = free_of sep a && free_of sep b.
Proof. unfold free_of. induction a as [|x a IH]; [done|]. rewrite app_String. cbn [String.list_ascii_of_string forallb]. by rewrite IH, andb_assoc. Qed.
Lemma free_of_cons sep x s : free_of sep (String x s) = negb (Ascii.eqb x sep) && free_of sep s.
Proof. done. Qed.
Lemma format_digits_free fuel v s : free_of "/" s = true -> free_of "/" (format_digits fuel v s) = true.
Proof.
  revert v s. induction fuel as [|fuel IH]; intros v s Hs; [done|]. cbn [format_digits]. destruct (0 <? v); [|done].
  apply IH. rewrite free_of_cons, Hs, andb_true_r. pose proof (Z.mod_pos_bound v 10 eq_refl) as Hd.
  assert (Hc : In (v mod 10) [0; 1; 2; 3; 4; 5; 6; 7; 8; 9]) by (cbn; lia).
  cbn [In] in Hc. by repeat (destruct Hc as [<-|Hc]; [vm_compute|]).
Qed.
Lemma FormatInt_free v : free_of "/" (FormatInt v) = true.
Proof.
  unfold FormatInt. destruct (v =? 0); [done|]. destruct (v <? 0); [|by apply format_digits_free].
  change (free_of "/" (String "-" (format_digits (digits_fuel (- v)) (- v) "")) = true).
  rewrite free_of_cons, format_digits_free; done.
Qed.
Lemma path_end v : Split "/" (FormatInt v) = [FormatInt v].
Proof. apply Split_free, FormatInt_free. Qed.
Lemma path_step v s : Split "/" (FormatInt v +:+ String "/" s) = FormatInt v :: Split "/" s.
Proof. apply Split_app, FormatInt_free. Qed.
Lemma path_lit a s : free_of "/" a = true -> Split "/" (a +:+ String "/" s) = a :: Split "/" s.
Proof. apply Split_app. Qed.
Lemma FormatInt_nonempty v : FormatInt v <> "".
Proof. intros H. pose proof (decimal_FormatInt v) as Hd. rewrite H in Hd. vm_compute in Hd. discriminate. Qed.

(** ** The internal routes *)
(** Decide the equalities between literals in the goal. *)
Ltac literals :=
  repeat match goal with
  | |- context [bool_decide (?a = ?b)] =>
    let v := eval vm_compute in (bool_decide (a = b)) in
    match v with
    | true => change (bool_decide (a = b)) with true
    | false => change (bool_decide (a = b)) with false
    end
  end.

Lemma str_split_at base path : str_split (String.length base) (base +:+ path) = (base, path).
Proof.
  induction base as [|a base IH]; [by destruct path|]. rewrite app_String. cbn [String.length str_split]. by rewrite IH.
Qed.
Lemma TrimPrefix_app base path : TrimPrefix (base +:+ path) base = path.
Proof. unfold TrimPrefix, HasPrefix. by rewrite prefix_app, str_split_at. Qed.

Section remote.
Context `{UnicodeTables} `{Crypto} `{JsonText} `{TimeTextOk} {W : Type}.
Variables (s : Server W) (rooms : RoomAPI W) (now_auth now : Z) (ev base : string).
Hypothesis s_rooms : sv_rooms s = Some rooms.

Definition routes : list (route W) := Api.identity_routes s now_auth now ev.
#[local] Instance network : HttpClient W := loopback (c_base (New base)) routes.

Definition at_path (method : string) (path : list string) : request :=
  mkRequest method path (fun _ => "") (fun _ => "") (mkBody (Invalid "") 0 false 0).

Ltac route_found :=
  cbv [serve routes Api.identity_routes Api.common_routes app Api.api Api.internal Api.room_path method_match rt_method rt_pattern
    rt_handler match_path at_path q_Method q_Path mbind option_bind];
  literals; cbv beta iota; cbn [orb andb]; literals; cbv beta iota;
  rewrite ?bool_decide_eq_false_2 by assumption; try reflexivity.

Lemma serve_room x : x <> "" ->
  serve routes (at_path "GET" ["internal"; "v1"; "rooms"; x]) = Some (Api.getRoom s (at_path "GET" ["internal"; "v1"; "rooms"; x]) (path_value [("room_id", x)])).
Proof. intros Hx. route_found. Qed.
Lemma serve_access x y : x <> "" -> y <> "" ->
  serve routes (at_path "GET" ["internal"; "v1"; "rooms"; x; "access"; y])
  = Some (Api.internalAccess s (at_path "GET" ["internal"; "v1"; "rooms"; x; "access"; y]) (path_value [("room_id", x); ("user_id", y)])).
Proof. intros Hx Hy. route_found. Qed.
Lemma serve_join x y : x <> "" -> y <> "" ->
  serve routes (at_path "POST" ["internal"; "v1"; "rooms"; x; "join"; y])
  = Some (Api.internalJoin s (at_path "POST" ["internal"; "v1"; "rooms"; x; "join"; y]) (path_value [("room_id", x); ("user_id", y)])).
Proof. intros Hx Hy. route_found. Qed.
Lemma serve_user x : x <> "" ->
  serve routes (at_path "GET" ["internal"; "v1"; "users"; x]) = Some (Api.internalUser s (at_path "GET" ["internal"; "v1"; "users"; x]) (path_value [("user_id", x)])).
Proof. intros Hx. route_found. Qed.

(** *** The calls *)
Lemma split_room r : Split "/" ("/internal/v1/rooms/" +:+ FormatInt r) = [""; "internal"; "v1"; "rooms"; FormatInt r].
Proof. change (["" ; "internal"; "v1"; "rooms"] ++ Split "/" (FormatInt r) = [""; "internal"; "v1"; "rooms"; FormatInt r]). by rewrite path_end. Qed.
Lemma split_room_user r op u : free_of "/" op = true ->
  Split "/" ("/internal/v1/rooms/" +:+ FormatInt r +:+ String "/" (op +:+ "/" +:+ FormatInt u))
  = [""; "internal"; "v1"; "rooms"; FormatInt r; op; FormatInt u].
Proof.
  intros Hop.
  change (["" ; "internal"; "v1"; "rooms"] ++ Split "/" (FormatInt r +:+ String "/" (op +:+ String "/" (FormatInt u)))
          = [""; "internal"; "v1"; "rooms"; FormatInt r; op; FormatInt u]).
  by rewrite path_step, path_lit, path_end by done.
Qed.
Lemma split_user u : Split "/" ("/internal/v1/users/" +:+ FormatInt u) = [""; "internal"; "v1"; "users"; FormatInt u].
Proof. change (["" ; "internal"; "v1"; "users"] ++ Split "/" (FormatInt u) = [""; "internal"; "v1"; "users"; FormatInt u]). by rewrite path_end. Qed.

Definition id_ok (v : Z) : Prop := 0 < v <= int64_max.
Lemma path_value_id (pv : PathValue) name v : id_ok v -> pv name = FormatInt v -> pathInt64 pv name = inl v.
Proof.
  intros Hv Hpv. unfold pathInt64. rewrite Hpv, ParseInt_FormatInt by (unfold id_ok, in_int64, int64_min in *; lia).
  unfold id_ok in Hv. by destruct (Z.leb_spec v 0); [lia|].
Qed.

(** The client's view of a result of the identity-room service: every refusal is
    only its status. *)
Definition status_error (e : error) : error := Fresh ("identity-room status=" +:+ FormatInt (rs_status (handleRoomError e))).
Definition remotely {A B} (f : A -> B) (rw : res A * W) : res B * W :=
  (match rw.1 with Ok a => Ok (f a) | Err e => Err (status_error e) end, rw.2).
(** A result within the ranges of the wire format. *)
Definition result_in {A} (P : A -> Prop) (rw : res A * W) : Prop := match rw.1 with Ok a => P a | Err _ => True end.

Lemma refusal_status e : Z.quot (rs_status (handleRoomError e)) 100 =? 2 = false.
Proof. unfold handleRoomError. by repeat (destruct (errors_Is _ _); [reflexivity|]). Qed.

(** A call whose path leads to one room operation. *)
Lemma call_room_op {A} method path segs resp (m : M W A) (enc : A -> json) (dec : raw -> option A) w :
  Split "/" path = "" :: segs ->
  serve routes (at_path method segs) = Some resp ->
  resp = room_reply m (fun a => mret (writeJSON 200 (enc a))) ->
  (forall a, json_finite (enc a) = true) -> result_in (fun a => dec (Valid (enc a)) = Some a) (m w) ->
  call (New base) method path dec w = remotely (fun a => a) (m w).
Proof.
  intros Hpath Hserve -> Hfin Hdec. unfold call. cbn [http_Do network loopback]. cbn [rq_url rq_method].
  unfold HasPrefix at 1. rewrite prefix_app, TrimPrefix_app, Hpath. cbn [negb tl]. unfold at_path in Hserve. rewrite Hserve.
  unfold room_reply, reply, result_in, remotely, mbind, M_bind, try in *. destruct (m w) as [[a|e] w']; cbn [fst snd] in *.
  - cbn [mret M_ret]. unfold mret, M_ret, writeJSON, json_Marshal. rewrite Hfin. cbn [rp_status rp_body rs_status rs_body].
    change (negb (Z.quot 200 100 =? 2)) with false. cbv iota. by rewrite Hdec.
  - unfold mret, M_ret. cbn [rp_status rs_status]. by rewrite refusal_status.
Qed.

(** A call that returns a value got it from a 2xx answer. *)
Lemma call_answered {V} `{HttpClient V} {A} (c : Client) method path (dec : raw -> option A) (w w' : V) v :
  call c method path dec w = (Ok v, w') ->
  exists res raw, http_Do (mkHttpRequest method (c_base c +:+ path) [] None) w = (Ok res, w')
    /\ Z.quot (rp_status res) 100 = 2 /\ rp_body res = Ok raw /\ dec raw = Some v.
Proof.
  unfold call, mbind, M_bind. destruct (http_Do _ w) as [[res|e] w1]; [|done].
  destruct (Z.eqb_spec (Z.quot (rp_status res) 100) 2); [|done]. cbn [negb].
  destruct (rp_body res) as [raw|] eqn:Hb; [|done]. destruct (dec raw) as [a|] eqn:Hd; [|done].
  intros [= -> ->]. by exists res, raw.
Qed.
(** The room of a 2xx answer is one that the service returned. *)
Lemma room_answer r w w' res raw v :
  http_Do (mkHttpRequest "GET" (c_base (New base) +:+ "/internal/v1/rooms/" +:+ FormatInt r) [] None) w = (Ok res, w') ->
  Z.quot (rp_status res) 100 = 2 -> rp_body res = Ok raw -> unmarshal_room raw = Some v ->
  exists v0, (ra_Get rooms r w).1 = Ok v0 /\ room_AnchorID v = room_AnchorID v0 /\ room_Status v = room_Status v0.
Proof.
  cbn [http_Do network loopback rq_url rq_method]. unfold HasPrefix at 1. rewrite prefix_app, TrimPrefix_app, split_room. cbn [negb tl].
  pose proof (serve_room (FormatInt r) (FormatInt_nonempty r)) as Hserve. unfold at_path in Hserve. rewrite Hserve.
  unfold Api.getRoom, with_path, pathInt64.
  change (path_value [("room_id", FormatInt r)] "room_id") with (FormatInt r). rewrite ParseInt_FormatInt_eq.
  destruct (_ && _); [destruct (r <=? 0)|]; [by intros [= <- _]|..|by intros [= <- _]].
  unfold Api.with_rooms. rewrite s_rooms. unfold room_reply, reply, mbind, M_bind, try.
  destruct (ra_Get rooms r w) as [[v0|e] w1]; cbn [fst].
  - unfold mret, M_ret, writeJSON, json_Marshal. rewrite room_json_finite. intros [= <- <-] _ [= <-] Hv. exists v0. split; [done|]. by apply room_decoded.
  - unfold mret, M_ret. intros [= <- <-]. cbn [rp_status]. intros Hq. pose proof (refusal_status e) as Hr. by rewrite Hq in Hr.
Qed.

Lemma bind_remotely {A B} (m : M W A) (f : A -> B) (rw : res A * W) w :
  m w = remotely (fun a => a) rw -> (a ← m; mret (f a)) w = remotely f rw.
Proof. intros Hm. unfold mbind, M_bind. rewrite Hm. unfold remotely. by destruct rw as [[a|e] w']. Qed.

Lemma get_remote r w : id_ok r -> result_in sendable_room (ra_Get rooms r w) ->
  client_Get (New base) r w = remotely (fun v => v) (ra_Get rooms r w).
Proof.
  intros Hr Hok. unfold client_Get.
  eapply (call_room_op _ _ _ _ _ room_json); [apply split_room|apply serve_room, FormatInt_nonempty| |apply room_json_finite|].
  - unfold Api.getRoom, with_path. rewrite (path_value_id _ _ r) by done. unfold Api.with_rooms. by rewrite s_rooms.
  - unfold result_in in *. destruct (ra_Get rooms r w).1; [by apply unmarshal_room_json|done].
Qed.
Lemma join_remote r u w : id_ok r -> id_ok u -> result_in sendable_room (ra_Join rooms r u w) ->
  client_Join (New base) r u w = remotely (fun v => v) (ra_Join rooms r u w).
Proof.
  intros Hr Hu Hok. unfold client_Join.
  eapply (call_room_op _ _ _ _ _ room_json); [by apply (split_room_user r "join" u)|apply serve_join; apply FormatInt_nonempty| |apply room_json_finite|].
  - unfold Api.internalJoin, with_path. rewrite (path_value_id _ _ r), (path_value_id _ _ u) by done. unfold Api.with_rooms. by rewrite s_rooms.
  - unfold result_in in *. destruct (ra_Join rooms r u w).1; [by apply unmarshal_room_json|done].
Qed.
Lemma access_remote r u w : id_ok r -> id_ok u -> result_in (fun a => sendable_room (ra_Room a)) (ra_GetRoomAccess rooms r u w) ->
  client_GetRoomAccess (New base) r u w = remotely (fun v => v) (ra_GetRoomAccess rooms r u w).
Proof.
  intros Hr Hu Hok. unfold client_GetRoomAccess.
  eapply (call_room_op _ _ _ _ _ access_json); [by apply (split_room_user r "access" u)|apply serve_access; apply FormatInt_nonempty| | |].
  - unfold Api.internalAccess, with_path. rewrite (path_value_id _ _ r), (path_value_id _ _ u) by done. unfold Api.with_rooms. by rewrite s_rooms.
  - intros a. unfold access_json. cbn [json_finite forallb snd]. by rewrite room_json_finite.
  - unfold result_in in *. destruct (ra_GetRoomAccess rooms r u w).1; [by apply access_roundtrip|done].
Qed.

(** C17 The identity-room service behind HTTP is the room service up to its errors: for
    positive ids, and as long as the rooms returned have 64-bit ids and times the wire
    format can carry, each room operation of the client run against the internal
    routes returns exactly what the service behind the routes returns and leaves its
    state as the service leaves it; [IsBanned] and [IsMuted] are the flags of the
    access check; and every refusal becomes an error that carries only the HTTP
    status that the server gave it. *)
Theorem remote_rooms_refine_local r u w :
  id_ok r -> id_ok u ->
  result_in sendable_room (ra_Get rooms r w) -> result_in sendable_room (ra_Join rooms r u w) ->
  result_in (fun a => sendable_room (ra_Room a)) (ra_GetRoomAccess rooms r u w) ->
  let remote := remote_rooms_api (New base) in
  ra_Get remote r w = remotely (fun v => v) (ra_Get rooms r w)
  /\ ra_Join remote r u w = remotely (fun v => v) (ra_Join rooms r u w)
  /\ ra_GetRoomAccess remote r u w = remotely (fun v => v) (ra_GetRoomAccess rooms r u w)
  /\ ra_IsBanned remote r u w = remotely ra_Banned (ra_GetRoomAccess rooms r u w)
  /\ ra_IsMuted remote r u w = remotely ra_Muted (ra_GetRoomAccess rooms r u w).
Proof.
  intros Hr Hu Hget Hjoin Hacc remote.
  split; [by apply get_remote|]. split; [by apply join_remote|]. split; [by apply access_remote|].
  split; by apply bind_remotely, access_remote.
Qed.

(** C39 A user whom the identity-room service refuses to let join, for whatever reason,
    is answered 500 [INTERNAL_ERROR] by the interaction server whose rooms are the
    remote ones: the reason does not cross the internal API. The refusal has no other
    effect than on the identity-room service's own state. *)
Theorem remote_join_refusal_is_500 (d : Server W) req pv r u w e w' :
  sv_rooms d = Some (remote_rooms_api (New base)) -> pathInt64 pv "room_id" = inl r -> id_ok r -> id_ok u ->
  ra_Join rooms r u w = (Err e, w') ->
  Api.joinRoom d now req pv u w = (Ok (writeError 500 "INTERNAL_ERROR" "room operation failed"), w').
Proof.
  intros Hd Hpv Hr Hu Hj. unfold Api.joinRoom, with_path. rewrite Hpv. unfold Api.with_rooms. rewrite Hd.
  unfold room_reply, reply. cbn [ra_Join remote_rooms_api].
  rewrite (bind_ok _ _ _ (Err (status_error e)) w'); [done|].
  apply try_run. rewrite join_remote by (done || by rewrite Hj). by rewrite Hj.
Qed.
End remote.

(** ** Examples *)
Module IdentityExamples.
#[local] Existing Instances ascii_tables example_server nano_text nano_text_ok tagged_json AuthExamples.padded_crypto.

Definition local_rooms : RoomAPI (Mysql RoomDB) := room_service_api RoomExamples.users 0.
Definition identity : Server (Mysql RoomDB) := bare_server AuthExamples.manager (Some local_rooms) None None.
Definition wire : HttpClient (Mysql RoomDB) := network identity 0 0 "e1" "http://identity/".
#[local] Existing Instance wire.
(** Room 1 is live; user 8 is banned from it. *)
Definition start : Mysql RoomDB :=
  mkMysql (set_bans {[ (1, 8) := mkBanRow 7 "spam" 0 ]} RoomExamples.live) None (3 * Minute) [].

Ltac in_range := split; vm_compute; congruence.
Definition live_room : Room := Eval vm_compute in match (ra_Get local_rooms 1 start).1 with Ok v => v | Err _ => zero_room end.
Lemma live_sendable : sendable_room live_room.
Proof.
  split; [in_range|]. split; [in_range|]. split; [in_range|]. split; intros t; [intros [= <-]; in_range|discriminate].
Qed.

Lemma remote_rooms_refine_local_witness :
  ra_IsBanned (remote_rooms_api (New "http://identity/")) 1 8 start = (Ok true, start)
  /\ exists v, ra_Get (remote_rooms_api (New "http://identity/")) 1 start = (Ok v, start) /\ room_Status v = StatusLiving.
Proof.
  destruct (remote_rooms_refine_local identity local_rooms 0 0 "e1" "http://identity/" eq_refl 1 8 start)
    as (Hget & _ & _ & Hban & _); [in_range|in_range|exact live_sendable|vm_compute; exact I|exact live_sendable|].
  - split; [etransitivity; [exact Hban|vm_compute; reflexivity]|].
    eexists. split; [etransitivity; [exact Hget|vm_compute; reflexivity]|reflexivity].
Defined.

(** User 8 joins through the interaction server. *)
Lemma remote_join_refusal_is_500_witness :
  Api.joinRoom (bare_server AuthExamples.manager (Some (remote_rooms_api (New "http://identity/"))) None None) 0
    (mkRequest "POST" ["api"; "v1"; "rooms"; "1"; "join"] (fun _ => "") (fun _ => "") (mkBody (Invalid "") 0 false 0))
    (fun _ => "1") 8 start
  = (Ok (writeError 500 "INTERNAL_ERROR" "room operation failed"), start).
Proof.
  apply (remote_join_refusal_is_500 identity local_rooms 0 0 "e1" "http://identity/" eq_refl _ _ _ 1 8 start ErrBanned);
    [reflexivity|reflexivity|in_range|in_range|vm_compute; reflexivity].
Defined.
End IdentityExamples.
