(* ===== verification/CommerceApi.v ===== *)
(** The commerce server: [internal/commerceapi/server.go], gifts and wallets over
    HTTP. Its copies of [requireAuth], [decodeJSON], [writeJSON], [writeError] and
    [recoverer] are those of Http.v and Middleware.v. *)
From S2P Require Import Prelude GoStrings Json Commerce Wallet GiftRepository Room GiftService Auth Http.

(** [Server]: each service is the operations the handlers call on it. *)
Record CommerceServer (W : Type) : Type := mkCommerceServer {
  cs_mysql : option (M W unit);
  cs_redis : option (M W unit);
  cs_tokens : TokenManager;
  cs_List : M W (list Gift);
  cs_Send : Z -> Z -> Z -> Z -> string -> M W SendResult;
  cs_Order : string -> Z -> M W Order;
  cs_Balance : Z -> M W Balance;
  cs_Transactions : Z -> M W (list wallet_tx_row);
  cs_DevCredit : Z -> Z -> M W Balance;
  cs_AddGiftValue : option (Z -> Z -> Z -> M W unit) }.
Arguments mkCommerceServer {W}.
Arguments cs_mysql {W}. Arguments cs_redis {W}. Arguments cs_tokens {W}. Arguments cs_List {W}. Arguments cs_Send {W}.
Arguments cs_Order {W}. Arguments cs_Balance {W}. Arguments cs_Transactions {W}. Arguments cs_DevCredit {W}.
Arguments cs_AddGiftValue {W}.

Module CommerceApi.
(** ** JSON of the values in responses *)
Section codec.
Context `{TimeText}.
Definition gift_json (g : Gift) : json := JObj
  [("gift_id", JNum (gift_ID g)); ("name", JStr (gift_Name g)); ("price", JNum (gift_Price g)); ("status", JNum (gift_Status g))].
Definition order_json (o : Order) : json := JObj
  ([("order_no", JStr (OrderNo o))]
   ++ (if bool_decide (RequestID o = "") then [] else [("request_id", JStr (RequestID o))])
   ++ [("user_id", JNum (UserID o)); ("anchor_id", JNum (AnchorID o)); ("room_id", JNum (RoomID o));
       ("gift_id", JNum (GiftID o)); ("gift_name", JStr (GiftName o)); ("gift_count", JNum (GiftCount o));
       ("unit_price", JNum (UnitPrice o)); ("total_amount", JNum (TotalAmount o)); ("status", JStr (GiftRepository.Status o));
       ("created_at", JStr (time_text (CreatedAt o)))]).
Definition send_result_json (v : SendResult) : json := JObj
  [("order", order_json (sr_Order v)); ("idempotent_replay", JBool (sr_IdempotentReplay v)); ("event_queued", JBool (sr_EventQueued v))].
Definition balance_json (b : Balance) : json := JObj [("user_id", JNum (bal_UserID b)); ("balance", JNum (bal_Balance b))].
Definition transaction_json (t : wallet_tx_row) : json := JObj
  [("transaction_no", JStr (wt_transaction_no t)); ("user_id", JNum (wt_user_id t)); ("biz_type", JStr (wt_biz_type t));
   ("biz_id", JStr (wt_biz_id t)); ("amount", JNum (wt_amount t)); ("balance_before", JNum (wt_balance_before t));
   ("balance_after", JNum (wt_balance_after t)); ("created_at", JStr (time_text (wt_created_at t)))].
(** A nil slice is [null]. *)
Definition items_json {A} (enc : A -> json) (l : list A) : json := match l with [] => JNull | _ => JArr (map enc l) end.
End codec.

Section handlers.
Context `{UnicodeTables} `{Crypto} `{JsonText} `{TimeText} {W : Type}.
Variables (s : CommerceServer W) (now_auth : Z).

Definition health : handler W := fun _ _ =>
  mret (writeJSON 200 (JObj [("status", JStr "ok"); ("service", JStr "live-commerce")])).
Definition ping (name : string) (p : option (M W unit)) : M W (list string) :=
  match p with Some m => r ← try m; mret (if is_ok r then [] else [name]) | None => mret [] end.
Definition ready : handler W := fun _ _ =>
  m ← ping "mysql" (cs_mysql s);
  r ← ping "redis" (cs_redis s);
  mret (match m ++ r with
        | [] => writeJSON 200 (JObj [("status", JStr "ready"); ("service", JStr "live-commerce")])
        | failed => writeJSON 503 (JObj [("status", JStr "not_ready"); ("failed", JArr (map JStr failed))])
        end).

Definition listGifts : handler W := fun _ _ =>
  reply (cs_List s) (fun _ => mret (writeError 500 "INTERNAL_ERROR" "failed to list gifts"))
    (fun items => mret (writeJSON 200 (JObj [("items", items_json gift_json items)]))).

Definition walletBalance : authedHandler W := fun _ _ userID =>
  reply (cs_Balance s userID) (fun _ => mret (writeError 500 "INTERNAL_ERROR" "failed to load wallet"))
    (fun v => mret (writeJSON 200 (balance_json v))).
Definition walletTransactions : authedHandler W := fun _ _ userID =>
  reply (cs_Transactions s userID) (fun _ => mret (writeError 500 "INTERNAL_ERROR" "failed to load wallet transactions"))
    (fun items => mret (writeJSON 200 (JObj [("items", items_json transaction_json items)]))).

Definition devWalletCredit : authedHandler W := fun r _ userID =>
  match decodeJSON 8192 ["amount"] (decode_field 0 dec_int64 "amount") (q_Body r) with
  | Err err => mret (writeError 400 "BAD_REQUEST" (error_text err))
  | Ok amount =>
    reply (cs_DevCredit s userID amount)
      (fun err => mret (
         if errors_Is err ErrCreditDisabled then writeError 404 "NOT_FOUND" "endpoint is disabled"
         else if errors_Is err ErrInvalidCredit then writeError 400 "INVALID_CREDIT_AMOUNT" (error_text err)
         else writeError 500 "INTERNAL_ERROR" "failed to credit wallet"))
      (fun v => mret (writeJSON 200 (balance_json v)))
  end.

(** [handleGiftError] *)
Definition handleGiftError (err : error) : response :=
  if errors_Is err GiftService.ErrInvalidCount then writeError 400 "INVALID_GIFT_COUNT" (error_text err)
  else if errors_Is err ErrInvalidRequestID then writeError 400 "INVALID_IDEMPOTENCY_KEY" (error_text err)
  else if errors_Is err ErrGiftNotFound then writeError 404 "GIFT_NOT_FOUND" (error_text err)
  else if errors_Is err ErrGiftOffline then writeError 409 "GIFT_OFFLINE" (error_text err)
  else if errors_Is err ErrInsufficientBalance then writeError 409 "INSUFFICIENT_BALANCE" (error_text err)
  else if errors_Is err ErrIdempotencyConflict then writeError 409 "IDEMPOTENCY_CONFLICT" (error_text err)
  else if errors_Is err GiftService.ErrRateLimited then writeError 429 "GIFT_RATE_LIMITED" (error_text err)
  else if errors_Is err ErrNotFound then writeError 404 "ROOM_NOT_FOUND" (error_text err)
  else if errors_Is err ErrNotLiving then writeError 409 "ROOM_NOT_LIVING" (error_text err)
  else if errors_Is err ErrBanned then writeError 403 "ROOM_BANNED" (error_text err)
  else writeError 500 "GIFT_FAILED" "failed to send gift".

(** The body of a gift request. *)
Definition gift_body (r : request) : res (Z * Z) :=
  decodeJSON 8192 ["gift_id"; "count"]
    (fun o => g ← decode_field 0 dec_int64 "gift_id" o; c ← decode_field 0 dec_int64 "count" o; Some (g, c)) (q_Body r).

Definition sendGift : authedHandler W := fun r pv userID =>
  with_path pv "room_id" (fun roomID =>
  let requestID := TrimSpace (q_Header r "Idempotency-Key") in
  if bool_decide (requestID = "") then mret (writeError 400 "IDEMPOTENCY_KEY_REQUIRED" "Idempotency-Key header is required") else
  let bad := mret (writeError 400 "BAD_REQUEST" "valid gift_id and count are required") in
  match gift_body r with
  | Err _ => bad
  | Ok (giftID, count) =>
    if giftID <=? 0 then bad else
    reply (cs_Send s roomID userID giftID count requestID) (fun err => mret (handleGiftError err))
      (fun result =>
         _ ← match (if sr_EventQueued result then cs_AddGiftValue s else None) with
             | Some add => ignore (add roomID userID (TotalAmount (sr_Order result)))
             | None => mret tt
             end;
         mret (writeJSON 200 (send_result_json result)))
  end).

Definition giftOrder : authedHandler W := fun _ pv userID =>
  let orderNo := TrimSpace (pv "order_no") in
  if (slen orderNo <? 2) || (64 <? slen orderNo) then mret (writeError 400 "BAD_REQUEST" "invalid order_no") else
  reply (cs_Order s orderNo userID)
    (fun err => mret (
       if errors_Is err ErrOrderNotFound then writeError 404 "GIFT_ORDER_NOT_FOUND" (error_text err)
       else if errors_Is err ErrOrderForbidden then writeError 403 "FORBIDDEN" (error_text err)
       else writeError 500 "INTERNAL_ERROR" "failed to load gift order"))
    (fun v => mret (writeJSON 200 (order_json v))).

(** ** [New]: the routes ([GET /metrics] aside) *)
Definition authed (next : authedHandler W) : handler W := requireAuth (cs_tokens s) now_auth next.
Definition api (l : list segment) : list segment := [Lit "api"; Lit "v1"] ++ l.
Definition New : list (route W) :=
  [mkRoute "GET" [Lit "health"] health;
   mkRoute "GET" [Lit "ready"] ready;
   mkRoute "GET" (api [Lit "gifts"]) listGifts;
   mkRoute "GET" (api [Lit "wallet"]) (authed walletBalance);
   mkRoute "GET" (api [Lit "wallet"; Lit "transactions"]) (authed walletTransactions);
   mkRoute "POST" (api [Lit "wallet"; Lit "dev-credit"]) (authed devWalletCredit);
   mkRoute "POST" (api [Lit "rooms"; Wild "room_id"; Lit "gifts"]) (authed sendGift);
   mkRoute "GET" (api [Lit "gift-orders"; Wild "order_no"]) (authed giftOrder)].
End handlers.
End CommerceApi.
