(* ===== verification/CommerceApiSpec.v ===== *)
(** What the commerce server promises: it follows the published contract, its answer
    to a gift tells what happened to the money, and a request makes at most one of the
    changes of [commerce_change], with any new order for a room found live. *)
From S2P Require Import Prelude GoStrings Mysql Json Message Realtime Kafka Outbox Instances Commerce Wallet GiftRepository GiftSpec OutboxSpec WalletSpec.
From S2P Require Import CommerceInvariants GiftProperties Room GiftService GiftServiceSpec TaggedJson Auth AuthSpec Like Stats Danmaku Http Contract HttpApi HttpSpec CommerceApi.

(** ** The contract *)
Section contract.
Context `{UnicodeTables} `{Crypto} `{JsonText} `{TimeText} {W : Type}.
Variables (s : CommerceServer W) (now_auth : Z).

Lemma conforms_gift_error e : conforms send_gift_row (CommerceApi.handleGiftError e).
Proof. unfold CommerceApi.handleGiftError. answer. Qed.

Lemma ready_runs (p : option (M W unit)) name : forall w, exists l w', CommerceApi.ping name p w = (Ok l, w').
Proof. intros w. unfold CommerceApi.ping, mbind, M_bind, try. destruct p as [m|]; [destruct (m w)|]; by eexists _, _. Qed.

Lemma gifts_answers r pv : answers (conforms gifts_row) (CommerceApi.listGifts s r pv).
Proof. unfold CommerceApi.listGifts. answer. Qed.
Lemma balance_answers r pv userID : answers (conforms wallet_balance_row) (CommerceApi.walletBalance s r pv userID).
Proof. unfold CommerceApi.walletBalance. answer. Qed.
Lemma history_answers r pv userID : answers (conforms wallet_history_row) (CommerceApi.walletTransactions s r pv userID).
Proof. unfold CommerceApi.walletTransactions. answer. Qed.
Lemma credit_answers r pv userID : answers (conforms dev_credit_row) (CommerceApi.devWalletCredit s r pv userID).
Proof. unfold CommerceApi.devWalletCredit. answer. Qed.
Lemma order_answers r pv userID : answers (conforms gift_order_row) (CommerceApi.giftOrder s r pv userID).
Proof. unfold CommerceApi.giftOrder. answer. Qed.
Lemma gift_answers r pv userID : answers (conforms send_gift_row) (CommerceApi.sendGift s r pv userID).
Proof.
  unfold CommerceApi.sendGift. answer; try apply conforms_gift_error.
  apply answers_bind; [|intros; answer]. intros w0.
  match goal with |- context [sr_EventQueued ?x] => destruct (sr_EventQueued x) end; [|by eexists _, _].
  destruct (cs_AddGiftValue s) as [add|]; by eexists _, _.
Qed.

(** The commerce server follows the published contract, whatever its services
    return. *)
Lemma commerce_follows : follows (cs_tokens s) now_auth CommerceBackend (CommerceApi.New s now_auth).
Proof.
  apply follows_routes; repeat (apply Forall_cons; split); try (by apply implements_outside); try apply Forall_nil; try done.
  - apply (implements_public _ _ _ gifts_row); try done; [catalogued|]. intros. by apply gifts_answers.
  - apply (implements_authed _ _ _ wallet_balance_row); try done; [catalogued|]. intros. by apply balance_answers.
  - apply (implements_authed _ _ _ wallet_history_row); try done; [catalogued|]. intros. by apply history_answers.
  - apply (implements_authed _ _ _ dev_credit_row); try done; [catalogued|]. intros. by apply credit_answers.
  - apply (implements_authed _ _ _ send_gift_row); try done; [catalogued|]. intros. by apply gift_answers.
  - apply (implements_authed _ _ _ gift_order_row); try done; [catalogued|]. intros. by apply order_answers.
Qed.

End contract.

(** ** Errors after a charge *)
Section lost.
Context `{UnicodeTables} `{MySQLServer} `{TimeText}.

(** Nothing is committed yet, and the faults to come are faults of [fl]. *)
Definition untouched (c : CommerceDB) (fl : list fault) (s : Mysql CommerceDB) : Prop :=
  committed s = c /\ forall f, f ∈ faults s -> f ∈ fl.

Lemma next_fault_in fl fa fl' : next_fault fl = (fa, fl') -> (fa = NoFault \/ fa ∈ fl) /\ forall f, f ∈ fl' -> f ∈ fl.
Proof. destruct fl as [|x fl]; intros [= <- <-]; [by split; [left|]|]. split; [right; by left|]. intros f Hf. by right. Qed.

Lemma keeps_tx_exec {A} c fl (f : stmt CommerceDB A) : keeps (untouched c fl) (tx_exec f).
Proof.
  intros [c' x n fl1] [Hc Hfl]. unfold tx_exec. cbn in *. destruct x as [t|]; [|done].
  destruct (next_fault fl1) as [fa fl2] eqn:E. apply next_fault_in in E as [_ Hin].
  assert (Hu : forall t', untouched c fl (mkMysql c' t' n fl2)) by (split; [done|]; cbn; eauto).
  destruct fa as [|e|e]; [destruct (f (NOW3 n) t) as [[? ?]|]|..|destruct (f (NOW3 n) t) as [[? ?]|]]; apply Hu.
Qed.
Lemma keeps_rollback c fl : keeps (untouched c fl) rollback_tx.
Proof. by intros [c' x n fl1] [Hc Hfl]. Qed.
Lemma keeps_read {A} c fl (f : CommerceDB -> res A) : keeps (untouched c fl) (db_exec (reads f)).
Proof.
  intros [c' x n fl1] [Hc Hfl]. unfold db_exec, reads. cbn in *.
  destruct (next_fault fl1) as [fa fl2] eqn:E. apply next_fault_in in E as [_ Hin].
  assert (Hu : untouched c fl (mkMysql c' x n fl2)) by (split; [done|]; cbn; eauto).
  destruct fa as [|e|e]; [destruct (f c')|..|destruct (f c')]; apply Hu.
Qed.
#[local] Hint Resolve keeps_tx_exec keeps_rollback keeps_read : keeps.





End lost.

(** ** The server over its services *)
Section wired.
Context `{UnicodeTables} `{MySQLServer} `{Crypto} `{JsonText} `{TimeText} {R : Type} `{GiftRooms R}.
Variables (limiter : option (Limiter R)) (cfg : GiftConfig) (giftTopic : string) (devCreditEnabled : bool).
Variables (tokens : TokenManager) (ping_redis : M R unit) (add_gift_value : option (Z -> Z -> Z -> M R unit)).

(** What one request draws: the trace carrier, the clocks and the identifiers. *)
Record draws : Type := mkDraws {
  dr_ctx : trace_map; dr_now : Z; dr_auth : Z; dr_id : string; dr_tx_id : string; dr_event_id : string }.

(** [commerceapi.New] as [cmd/commerce] calls it: the commerce database and the
    state of everything else. *)
Definition commerce_server (x : draws) : CommerceServer (Mysql CommerceDB * R) := {|
  cs_mysql := Some (zoom Store_Ping);
  cs_redis := Some (zoom ping_redis);
  cs_tokens := tokens;
  cs_List := @GiftService.List_ _ (gift_repository (dr_ctx x) (dr_now x));
  cs_Send := send limiter cfg giftTopic (dr_ctx x) (dr_now x) (dr_id x) (dr_tx_id x) (dr_event_id x);
  cs_Order := @GiftService.Order_ _ (gift_repository (dr_ctx x) (dr_now x));
  cs_Balance := fun userID => zoom (WalletService.Balance_ userID);
  cs_Transactions := fun userID => zoom (WalletService.Transactions userID);
  cs_DevCredit := fun userID amount => zoom (WalletService.DevCredit devCreditEnabled (dr_id x) userID amount);
  cs_AddGiftValue := match add_gift_value with Some f => Some (fun room user v => zoom (f room user v)) | None => None end |}.



Lemma gift_error_status e : rs_status (CommerceApi.handleGiftError e) <> 200.
Proof. unfold CommerceApi.handleGiftError. by repeat (destruct (errors_Is _ _); [discriminate|]). Qed.


(** *** The books *)
(** The room of the order is live in what the rooms answer at [rw], and its anchor is paid. *)
Definition placed (rw : R) (o : order_row) : Prop :=
  exists v rw', gr_Get (o_room_id o) rw = (Ok v, rw') /\ room_Status v = StatusLiving /\ o_anchor_id o = room_AnchorID v.
(** One commerce operation, or none; a new order is for such a room. *)
Definition served_change (rw : R) (c c' : CommerceDB) : Prop :=
  commerce_change c c' /\ forall o, o ∈ orders c' -> o ∈ orders c \/ placed rw o.
Lemma served_same rw c c' : commerce_change c c' -> orders c' = orders c -> served_change rw c c'.
Proof. intros Hc Ho. split; [done|]. intros o. rewrite Ho. by left. Qed.

(** A computation that changes the tables as one commerce operation may, or not at all. *)
Definition safe {A} (m : M (Mysql CommerceDB * R) A) : Prop :=
  forall s, txn s.1 = None -> txn (m s).2.1 = None /\ served_change s.2 (committed s.1) (committed (m s).2.1).
Definition quiet {A} (m : M (Mysql CommerceDB * R) A) : Prop :=
  forall s, txn s.1 = None -> txn (m s).2.1 = None /\ committed (m s).2.1 = committed s.1.

Lemma quiet_ret {A} (a : A) : quiet (mret a).
Proof. done. Qed.
Lemma quiet_throw {A} e : quiet (throw e : M _ A).
Proof. done. Qed.
Lemma quiet_remote {A} (m : M R A) : quiet (zoom m).
Proof. intros [s rw]. unfold zoom. cbn. by destruct (m rw). Qed.
Lemma quiet_bind {A B} (m : M _ A) (k : A -> M _ B) : quiet m -> (forall a, quiet (k a)) -> quiet (m ≫= k).
Proof.
  intros Hm Hk s Hs. unfold mbind, M_bind. destruct (Hm s Hs) as [Ht Hc]. destruct (m s) as [[a|e] s1]; [|done].
  destruct (Hk a s1 Ht) as [Ht' Hc']. by rewrite <-Hc.
Qed.
Lemma quiet_try {A} (m : M _ A) : quiet m -> quiet (try m).
Proof. intros Hm s Hs. unfold try. destruct (Hm s Hs). by destruct (m s). Qed.
Lemma quiet_ignore {A} (m : M _ A) : quiet m -> quiet (ignore m).
Proof. intros Hm s Hs. apply (Hm s Hs). Qed.
Lemma safe_quiet {A} (m : M _ A) : quiet m -> safe m.
Proof. intros Hm s Hs. destruct (Hm s Hs) as [Ht ->]. split; [done|]. by apply served_same; [constructor|]. Qed.
Lemma safe_reply {A} (m : M _ A) on_err k :
  safe m -> (forall e, quiet (on_err e)) -> (forall a, quiet (k a)) -> safe (reply m on_err k).
Proof.
  intros Hm He Hk s Hs. unfold reply, mbind, M_bind, try. destruct (Hm s Hs) as [Ht Hc]. destruct (m s) as [[a|e] s1]; cbn [fst snd] in *.
  - destruct (Hk a s1 Ht) as [Ht' ->]. done.
  - destruct (He e s1 Ht) as [Ht' ->]. done.
Qed.
Lemma safe_zoom {A} (m : M (Mysql CommerceDB) A) :
  (forall c n fl, wp m (fun _ s => txn s = None /\ commerce_change c (committed s) /\ orders (committed s) = orders c) (mkMysql c None n fl)) ->
  safe (zoom m).
Proof.
  intros Hm [[c x n fl] rw] Hs. cbn in Hs. subst x. unfold zoom. cbn. specialize (Hm c n fl). unfold wp in Hm.
  destruct (m (mkMysql c None n fl)). destruct Hm as (? & ? & ?). split; [done|]. by apply served_same.
Qed.
Lemma quiet_read {A} (f : CommerceDB -> res A) : quiet (zoom (db_exec (reads f))).
Proof.
  intros [[c x n fl] rw] Hs. cbn in Hs. subst x. unfold zoom, db_exec, reads. cbn.
  destruct (next_fault fl) as [[|e|e] fl']; cbn; try done; by destruct (f c).
Qed.

Lemma send_safe x roomID userID giftID count requestID : safe (cs_Send (commerce_server x) roomID userID giftID count requestID).
Proof.
  intros [[c o n fl] rw] Hs. cbn in Hs. subst o. cbn [cs_Send commerce_server fst committed].
  pose proof (send_spec limiter cfg giftTopic (dr_ctx x) (dr_now x) (dr_id x) (dr_tx_id x) (dr_event_id x) roomID userID giftID count requestID c n fl rw) as Hout.
  unfold wp in Hout. destruct Hout as [Ht Ho]. split; [done|].
  destruct Ho as [e|o|v rw' g payload res Hv (rw1 & rw2 & Hget & Hlive & _) p Hen Hp _];
    [by apply served_same; [constructor|] ..|]. split; [by econstructor|]. cbn [gift_effect orders].
  intros o [Ho|Ho]%elem_of_snoc; [by left|]. right. subst o. by exists v, rw1.
Qed.
(** The order is the gift of this request. *)
Definition order_of (key : string) (userID roomID giftID count : Z) (o : order_row) : Prop :=
  str_eq (o_request_id o) key = true /\ o_user_id o = userID /\ o_room_id o = roomID /\ o_gift_id o = giftID /\ o_gift_count o = count.
Lemma send_has_order x roomID userID giftID count requestID s sr s' :
  txn s.1 = None -> cs_Send (commerce_server x) roomID userID giftID count requestID s = (Ok sr, s') ->
  exists o, o ∈ orders (committed s'.1) /\ order_of (TrimSpace requestID) userID roomID giftID count o.
Proof.
  destruct s as [[c tx n fl] rw]. intros Ht Hrun. cbn in Ht. subst tx. cbn [cs_Send commerce_server] in Hrun.
  pose proof (send_spec limiter cfg giftTopic (dr_ctx x) (dr_now x) (dr_id x) (dr_tx_id x) (dr_event_id x) roomID userID giftID count requestID c n fl rw) as Hs.
  unfold wp in Hs. unfold send in Hs, Hrun. rewrite Hrun in Hs. destruct Hs as [_ Ho].
  inversion Ho as [|o Hv Hsel Hsame Ho1 Ho2|v rw' g payload answer Hv Hadm p Hen Hp Hans Ho1 Ho2]; subst.
  - apply orderSelect_ok in Hsel as (r & Hin & Hid & Hscan).
    exists r. split; [done|]. split; [done|]. unfold scan_order in Hscan. destruct (gifts _ !! _); [|done].
    injection Hscan as <-. unfold GiftService.sameRequest in Hsame. cbn in Hsame. split_and!; lia.
  - exists (new_order (NOW3 n) p g). cbn [gift_effect orders]. split; [rewrite elem_of_app, list_elem_of_singleton; by right|].
    split; [apply str_eq_refl|done].
Qed.
(** A gift answered with 200 has its order. *)
Lemma gift_answered_200 x r pv userID s resp s' :
  txn s.1 = None -> CommerceApi.sendGift (commerce_server x) r pv userID s = (Ok resp, s') -> rs_status resp = 200 ->
  exists roomID giftID count o, pathInt64 pv "room_id" = inl roomID /\ CommerceApi.gift_body r = Ok (giftID, count)
    /\ o ∈ orders (committed s'.1) /\ order_of (TrimSpace (TrimSpace (q_Header r "Idempotency-Key"))) userID roomID giftID count o.
Proof.
  intros Ht. unfold CommerceApi.sendGift, with_path. destruct (pathInt64 pv "room_id") as [roomID|bad] eqn:Hroom.
  2: { revert Hroom. unfold pathInt64. destruct (ParseInt _) as [v|]; [destruct (v <=? 0)|]; by intros [= <-] [= <- _]. }
  case_bool_decide; [by intros [= <- _]|]. destruct (CommerceApi.gift_body r) as [[giftID count]|e]; [|by intros [= <- _]].
  destruct (giftID <=? 0); [by intros [= <- _]|]. unfold reply. intros (a & s1 & Hsend & Hrest)%bind_ok_inv H200.
  unfold try in Hsend. destruct (cs_Send _ _ _ _ _ _ s) as [[sr|e] s2] eqn:E; injection Hsend as <- <-.
  - destruct (send_safe x roomID userID giftID count (TrimSpace (q_Header r "Idempotency-Key")) s Ht) as [Ht2 _]. rewrite E in Ht2.
    apply send_has_order in E as (o & Ho & Hof); [|done]. exists roomID, giftID, count, o. split; [done|]. split; [done|]. split; [|done].
    apply bind_ok_inv in Hrest as (u & s3 & Hadd & [= _ <-]). revert Hadd. cbn [cs_AddGiftValue commerce_server].
    assert (Hq : quiet (match (if sr_EventQueued sr then match add_gift_value with Some f => Some (fun room user v => zoom (f room user v)) | None => None end else None) with
      | Some add => ignore (add roomID userID (TotalAmount (sr_Order sr)) : M (Mysql CommerceDB * R) unit) | None => mret tt end)).
    { destruct (sr_EventQueued sr), add_gift_value; (apply quiet_ignore, quiet_remote || apply quiet_ret). }
    intros Hadd. specialize (Hq s2 Ht2). rewrite Hadd in Hq. cbn [fst snd] in Hq. by rewrite (proj2 Hq).
  - injection Hrest as <- _. by destruct (gift_error_status e).
Qed.
Lemma credit_safe id userID amount : safe (zoom (WalletService.DevCredit devCreditEnabled id userID amount)).
Proof.
  apply safe_zoom. intros c n fl. unfold WalletService.DevCredit.
  destruct (negb devCreditEnabled); [apply wp_throw; split; [done|]; split; [constructor|done]|].
  destruct (Z.ltb_spec amount 1); [apply wp_throw; split; [done|]; split; [constructor|done]|].
  destruct (Z.ltb_spec 100000000 amount); [apply wp_throw; split; [done|]; split; [constructor|done]|].
  eapply wp_mono; [apply credit_spec|]. intros r s (Ht & _ & Hr). split; [done|].
  destruct r as [b|e]; [destruct Hr as (? & -> & _)|destruct Hr as [-> |[? ->]]]; (split; [constructor; (done || lia)|done]).
Qed.
Lemma balance_safe userID : safe (zoom (WalletService.Balance_ userID)).
Proof.
  apply safe_zoom. intros c n fl. eapply wp_mono; [apply balance_spec|]. intros r s (Ht & _ & Hr). split; [done|].
  destruct r as [b|e]; [destruct Hr as (-> & _)|destruct Hr as [-> | ->]]; (split; [constructor|done]).
Qed.

Create HintDb commerce discriminated.
#[local] Hint Resolve quiet_ret quiet_throw quiet_remote quiet_bind quiet_try quiet_ignore quiet_read safe_quiet safe_reply send_safe credit_safe balance_safe : commerce.
Ltac safe_step :=
  match goal with
  | |- quiet (match (match ?x with _ => _ end) with _ => _ end) => destruct x
  | |- safe (match ?x with _ => _ end) => destruct x
  | |- safe (if ?x then _ else _) => destruct x
  | |- quiet (match ?x with _ => _ end) => destruct x
  | |- quiet (if ?x then _ else _) => destruct x
  | |- safe (reply _ _ _) => apply safe_reply; [|intros ?|intros ?]
  | |- quiet (_ ≫= _) => apply quiet_bind; [|intros ?]
  | |- _ => solve [eauto with commerce]
  end.
Ltac safe := repeat (cbv beta zeta; safe_step).

Lemma handlers_safe x r m : serve (CommerceApi.New (commerce_server x) (dr_auth x)) r = Some m -> safe m.
Proof.
  intros Hs. apply serve_route in Hs as (rt & b & Hin & _ & _ & ->).
  assert (Hauth : forall (next : authedHandler _) r pv, (forall userID, safe (next r pv userID)) ->
    safe (CommerceApi.authed (commerce_server x) (dr_auth x) next r pv)).
  { intros next r' pv Hnext. unfold CommerceApi.authed, requireAuth. safe. }
  unfold CommerceApi.New in Hin. rewrite !elem_of_cons, elem_of_nil in Hin.
  destruct Hin as [->|[->|[->|[->|[->|[->|[->|[->|[]]]]]]]]]; cbn [rt_handler]; try (apply Hauth; intros userID).
  - unfold CommerceApi.health. safe.
  - unfold CommerceApi.ready, CommerceApi.ping. cbn [cs_mysql cs_redis commerce_server]. unfold Store_Ping. apply safe_quiet. safe.
  - unfold CommerceApi.listGifts. cbn [cs_List commerce_server]. unfold GiftService.List_. cbn [gs_ListActive gift_repository]. unfold ListActive. safe.
  - unfold CommerceApi.walletBalance. cbn [cs_Balance commerce_server]. safe.
  - unfold CommerceApi.walletTransactions. cbn [cs_Transactions commerce_server]. unfold WalletService.Transactions. cbn. safe.
  - unfold CommerceApi.devWalletCredit. cbn [cs_DevCredit commerce_server]. safe.
  - unfold CommerceApi.sendGift, with_path. cbn [cs_AddGiftValue commerce_server]. destruct add_gift_value as [add|]; safe.
  - unfold CommerceApi.giftOrder. cbn [cs_Order commerce_server].
    assert (Horder : forall o userID, quiet (@GiftService.Order_ _ (gift_repository (dr_ctx x) (dr_now x)) o userID)).
    { intros o u. unfold GiftService.Order_. cbn [gs_ByOrderNo gift_repository]. unfold ByOrderNo. safe. }
    safe.
Qed.
End wired.

(** ** Examples *)
Module CommerceApiExamples.
Import SendExamples.
#[local] Existing Instances ascii_tables example_server example_server_ok nano_text tagged_json AuthExamples.padded_crypto example_rooms.

Definition pv (name : string) : string := if bool_decide (name = "room_id") then "9" else "".

End CommerceApiExamples.
