(* ===== verification/HandlerSpec.v ===== *)
(** The handlers have no effects of their own: a property of the state that every
    operation of a server's services keeps is kept by every request to the server. *)
From S2P Require Import Prelude GoStrings Json Realtime Room Auth Like Stats Danmaku Commerce Wallet GiftRepository GiftService Http Contract HttpApi CommerceApi.

(** ** Combinators *)
Section combinators.
Context {W : Type} (P : W -> Prop).
Implicit Types (resp : response).

Lemma keeps_reply {A} (m : M W A) on_err k :
  keeps P m -> (forall e, keeps P (on_err e)) -> (forall a, keeps P (k a)) -> keeps P (reply m on_err k).
Proof. intros Hm He Hk. unfold reply. apply keeps_bind; [by apply keeps_try|]. intros [a|e]; auto. Qed.
Lemma keeps_room_reply {A} (m : M W A) k : keeps P m -> (forall a, keeps P (k a)) -> keeps P (room_reply m k).
Proof. intros Hm Hk. apply keeps_reply; [done|intros e; apply keeps_ret|done]. Qed.
Lemma keeps_path pv name k : (forall v, keeps P (k v)) -> keeps P (with_path pv name k).
Proof. intros Hk. unfold with_path. destruct (pathInt64 pv name); [done|apply keeps_ret]. Qed.
Lemma keeps_panicked : keeps P panicked.
Proof. apply keeps_ret. Qed.
Lemma keeps_auth `{Crypto} `{JsonText} tokens now next r pv :
  (forall userID, keeps P (next r pv userID)) -> keeps P (requireAuth tokens now next r pv).
Proof.
  intros Hn. unfold requireAuth. destruct (negb _); [apply keeps_ret|].
  destruct (Tokens.Verify _ _ _); [done|apply keeps_ret].
Qed.
Lemma keeps_effect {A} what (m : M W A) errs : keeps P m -> keeps P (Api.effect what m errs).
Proof. intros Hm. unfold Api.effect. keeps. Qed.

(** Every route keeps [P]. *)
Definition routes_keep (routes : list (route W)) : Prop := Forall (fun rt => forall r pv, keeps P (rt_handler rt r pv)) routes.
Lemma serve_keeps routes r m : routes_keep routes -> serve routes r = Some m -> keeps P m.
Proof.
  intros Hr Hs. apply serve_route in Hs as (rt & b & Hin & _ & _ & ->). unfold routes_keep in Hr. rewrite Forall_forall in Hr. by apply Hr.
Qed.
End combinators.
#[export] Hint Resolve keeps_panicked keeps_effect : keeps.

(** Walk through a handler down to the operations of the services. *)
Ltac handler_step :=
  match goal with
  | |- keeps _ (match (if ?b then _ else _) with _ => _ end) => destruct b
  | |- keeps _ (match ?x with _ => _ end) => destruct x eqn:?
  | |- keeps _ (if ?x then _ else _) => destruct x
  | |- keeps _ (with_path _ _ _) => apply keeps_path; intros ?
  | |- keeps _ (room_reply _ _) => apply keeps_room_reply; [|intros ?]
  | |- keeps _ (reply _ _ _) => apply keeps_reply; [|intros ?|intros ?]
  | |- keeps _ (_ ≫= _) => apply keeps_bind; [|intros ?]
  | |- keeps _ (try _) => apply keeps_try
  | |- keeps _ (ignore _) => apply keeps_ignore
  | |- keeps _ _ => solve [eauto with keeps]
  end.
Ltac handler := repeat (cbv beta zeta; handler_step).

(** ** The servers of httpapi *)
Section server.
Context `{UnicodeTables} `{Crypto} `{JsonText} `{TimeText} {W : Type} (P : W -> Prop).

Record rooms_keep (a : RoomAPI W) : Prop := {
  rk_Create : forall u t, keeps P (ra_Create a u t);
  rk_Get : forall r, keeps P (ra_Get a r);
  rk_List : forall st n, keeps P (ra_List a st n);
  rk_Start : forall r u, keeps P (ra_Start a r u);
  rk_Stop : forall r u, keeps P (ra_Stop a r u);
  rk_Join : forall r u, keeps P (ra_Join a r u);
  rk_Access : forall r u, keeps P (ra_GetRoomAccess a r u);
  rk_IsBanned : forall r u, keeps P (ra_IsBanned a r u);
  rk_Mute : forall r a' u d t, keeps P (ra_Mute a r a' u d t);
  rk_Unmute : forall r a' u, keeps P (ra_Unmute a r a' u);
  rk_ListMutes : forall r u, keeps P (ra_ListMutes a r u);
  rk_Ban : forall r a' u t, keeps P (ra_Ban a r a' u t);
  rk_Unban : forall r a' u, keeps P (ra_Unban a r a' u);
  rk_ListBans : forall r u, keeps P (ra_ListBans a r u) }.
Record realtime_keeps (c : RealtimeController W) : Prop := {
  ck_Ping : keeps P (rc_Ping c);
  ck_Publish : forall ch e, keeps P (rc_Publish c ch e);
  ck_Unsubscribe : forall u ch, keeps P (rc_Unsubscribe c u ch) }.
Record governance_keeps (g : GovernanceStore W) : Prop := {
  gk_Remove : forall r u, keeps P (gv_RemoveViewer g r u);
  gk_Ban : forall r u b, keeps P (gv_EnforceLikeBan g r u b) }.
Record server_keeps (s : Server W) : Prop := {
  sk_mysql : forall m, sv_mysql s = Some m -> keeps P m;
  sk_redis : keeps P (sv_redis s);
  sk_history : forall h r n, sv_history s = Some h -> keeps P (h r n);
  sk_centrifugo : forall c, sv_centrifugo s = Some c -> realtime_keeps c;
  sk_governance : forall g, sv_governance s = Some g -> governance_keeps g;
  sk_Register : forall u n p, keeps P (sv_Register s u n p);
  sk_Login : forall u p, keeps P (sv_Login s u p);
  sk_User : forall u, keeps P (sv_User s u);
  sk_profiles : forall u, keeps P (sv_profiles s u);
  sk_rooms : forall a, sv_rooms s = Some a -> rooms_keep a;
  sk_Danmaku : forall r u t, keeps P (sv_Danmaku s r u t);
  sk_AddLikes : forall r u n, keeps P (sv_AddLikes s r u n);
  sk_Touch : forall r u, keeps P (sv_Touch s r u);
  sk_Leave : forall r u, keeps P (sv_Leave s r u);
  sk_Top : forall r, keeps P (sv_Top s r);
  sk_Online : forall r, keeps P (sv_Online s r);
  sk_stats : forall g r, sv_stats s = Some g -> keeps P (g r) }.

Variables (s : Server W) (now_auth now : Z) (id : string).
Hypothesis Hs : server_keeps s.

#[local] Hint Resolve sk_redis sk_Register sk_Login sk_User sk_profiles sk_Danmaku sk_AddLikes sk_Touch sk_Leave sk_Top sk_Online
  sk_mysql sk_history sk_stats sk_rooms sk_centrifugo sk_governance Hs : keeps.
#[local] Hint Resolve rk_Create rk_Get rk_List rk_Start rk_Stop rk_Join rk_Access rk_IsBanned rk_Mute rk_Unmute rk_ListMutes rk_Ban rk_Unban rk_ListBans
  ck_Ping ck_Publish ck_Unsubscribe gk_Remove gk_Ban : keeps.

Lemma keeps_rooms k : (forall a, rooms_keep a -> keeps P (k a)) -> keeps P (Api.with_rooms s k).
Proof. intros Hk. unfold Api.with_rooms. destruct (sv_rooms s) eqn:E; [by apply Hk, (sk_rooms s)|apply keeps_panicked]. Qed.
Lemma keeps_profiles ids : keeps P (Api.profiles s ids).
Proof. induction ids as [|uid ids IH]; cbn [Api.profiles]; handler. Qed.
Lemma keeps_items items : keeps P (Api.list_items s items).
Proof. induction items as [|v items IH]; cbn [Api.list_items]; handler. Qed.
#[local] Hint Resolve keeps_profiles keeps_items : keeps.

Ltac api := handler; repeat (apply keeps_rooms; intros ? ?; handler).

Lemma interaction_keeps : routes_keep P (Api.interaction_routes s now_auth now).
Proof.
  repeat (apply Forall_cons; split); [..|apply Forall_nil; done]; intros r pv; cbn [rt_handler]; try (apply keeps_auth; intros userID).
  - apply keeps_ret.
  - unfold Api.ready. api.
  - unfold Api.joinRoom. api.
  - unfold Api.leaveRoom. api.
  - unfold Api.sendDanmaku. api.
  - unfold Api.likeRoom. api.
  - unfold Api.heartbeatRoom. api.
Qed.
Lemma identity_keeps : routes_keep P (Api.identity_routes s now_auth now id).
Proof.
  repeat (apply Forall_cons; split); [..|apply Forall_nil; done]; intros r pv; cbn [rt_handler]; try (apply keeps_auth; intros userID).
  - apply keeps_ret.
  - unfold Api.ready. api.
  - unfold Api.register. api.
  - unfold Api.login. api.
  - unfold Api.me. api.
  - unfold Api.realtimeToken. api.
  - unfold Api.createRoom. api.
  - unfold Api.listRooms. api.
  - unfold Api.getRoom. api.
  - unfold Api.startRoom. api.
  - unfold Api.stopRoom. api.
  - unfold Api.muteUser. api.
  - unfold Api.listMutes. api.
  - unfold Api.unmuteUser. api.
  - unfold Api.banUser, Api.enforceBan. api.
  - unfold Api.listBans. api.
  - unfold Api.unbanUser. api.
  - unfold Api.internalAccess. api.
  - unfold Api.getRoom. api.
  - unfold Api.internalUser. api.
  - unfold Api.internalJoin. api.
Qed.
Lemma query_keeps : routes_keep P (Api.query_routes s).
Proof.
  repeat (apply Forall_cons; split); [..|apply Forall_nil; done]; intros r pv; cbn [rt_handler].
  - apply keeps_ret.
  - unfold Api.ready. api.
  - unfold Api.roomMessages. api.
  - unfold Api.topViewers. api.
  - unfold Api.roomViewers. api.
  - unfold Api.roomStats. api.
Qed.
End server.

(** ** The commerce server *)
Section commerce.
Context `{UnicodeTables} `{Crypto} `{JsonText} `{TimeText} {W : Type} (P : W -> Prop).
Record commerce_keeps (s : CommerceServer W) : Prop := {
  mk_mysql : forall m, cs_mysql s = Some m -> keeps P m;
  mk_redis : forall m, cs_redis s = Some m -> keeps P m;
  mk_List : keeps P (cs_List s);
  mk_Send : forall r u g n k, keeps P (cs_Send s r u g n k);
  mk_Order : forall o u, keeps P (cs_Order s o u);
  mk_Balance : forall u, keeps P (cs_Balance s u);
  mk_Transactions : forall u, keeps P (cs_Transactions s u);
  mk_DevCredit : forall u n, keeps P (cs_DevCredit s u n);
  mk_Add : forall f r u n, cs_AddGiftValue s = Some f -> keeps P (f r u n) }.

Lemma commerce_routes_keep (s : CommerceServer W) now_auth : commerce_keeps s -> routes_keep P (CommerceApi.New s now_auth).
Proof.
  intros [Hm Hr Hl Hs Ho Hb Ht Hd Ha].
  repeat (apply Forall_cons; split); [..|apply Forall_nil; done]; intros r pv; cbn [rt_handler]; try (apply keeps_auth; intros userID).
  - apply keeps_ret.
  - unfold CommerceApi.ready, CommerceApi.ping. handler.
  - unfold CommerceApi.listGifts. handler.
  - unfold CommerceApi.walletBalance. handler.
  - unfold CommerceApi.walletTransactions. handler.
  - unfold CommerceApi.devWalletCredit. handler.
  - unfold CommerceApi.sendGift. handler.
  - unfold CommerceApi.giftOrder. handler.
Qed.
End commerce.
