(* ===== verification/Gateway.v ===== *)
(** The public gateway: [internal/gateway/server.go]. It answers probes itself, sends
    every API route to the service that owns it, hides the internal API and serves
    the web pages for the rest. *)
From S2P Require Import Prelude GoStrings Json Room Auth Http Contract.

(** What the mux does with a request: [Unrouted] is its own 404, 405 or redirect. *)
Inductive destination : Type := Health | Ready | Forwarded (b : backend) | Hidden | WebPages | Unrouted.
#[export] Instance destination_eq_dec : EqDecision destination.
Proof. solve_decision. Defined.

Definition api_path (l : list segment) : list segment := [Lit "api"; Lit "v1"] ++ l.
Definition a_room (l : list segment) : list segment := api_path ([Lit "rooms"; Wild "room_id"] ++ l).

(** The patterns registered by [routes] that name a path ([GET /metrics] aside). *)
Definition gateway_routes : list (string * list segment * destination) :=
  [("GET", [Lit "health"], Health); ("GET", [Lit "ready"], Ready);
   ("POST", api_path [Lit "auth"; Lit "register"], Forwarded Identity);
   ("POST", api_path [Lit "auth"; Lit "login"], Forwarded Identity);
   ("GET", api_path [Lit "me"], Forwarded Identity);
   ("POST", api_path [Lit "realtime"; Lit "token"], Forwarded Identity);
   ("POST", api_path [Lit "rooms"], Forwarded Identity);
   ("GET", api_path [Lit "rooms"], Forwarded Identity);
   ("GET", a_room [], Forwarded Identity);
   ("POST", a_room [Lit "start"], Forwarded Identity);
   ("POST", a_room [Lit "stop"], Forwarded Identity);
   ("POST", a_room [Lit "mutes"], Forwarded Identity);
   ("GET", a_room [Lit "mutes"], Forwarded Identity);
   ("DELETE", a_room [Lit "mutes"; Wild "user_id"], Forwarded Identity);
   ("POST", a_room [Lit "bans"], Forwarded Identity);
   ("GET", a_room [Lit "bans"], Forwarded Identity);
   ("DELETE", a_room [Lit "bans"; Wild "user_id"], Forwarded Identity);
   ("POST", a_room [Lit "join"], Forwarded Interaction);
   ("POST", a_room [Lit "leave"], Forwarded Interaction);
   ("POST", a_room [Lit "danmaku"], Forwarded Interaction);
   ("POST", a_room [Lit "like"], Forwarded Interaction);
   ("POST", a_room [Lit "heartbeat"], Forwarded Interaction);
   ("GET", api_path [Lit "gifts"], Forwarded CommerceBackend);
   ("GET", api_path [Lit "wallet"], Forwarded CommerceBackend);
   ("GET", api_path [Lit "wallet"; Lit "transactions"], Forwarded CommerceBackend);
   ("POST", api_path [Lit "wallet"; Lit "dev-credit"], Forwarded CommerceBackend);
   ("POST", a_room [Lit "gifts"], Forwarded CommerceBackend);
   ("GET", api_path [Lit "gift-orders"; Wild "order_no"], Forwarded CommerceBackend);
   ("GET", a_room [Lit "messages"], Forwarded QueryBackend);
   ("GET", a_room [Lit "top-viewers"], Forwarded QueryBackend);
   ("GET", a_room [Lit "viewers"], Forwarded QueryBackend);
   ("GET", a_room [Lit "stats"], Forwarded QueryBackend)].

Fixpoint routed (l : list (string * list segment * destination)) (r : request) : option destination :=
  match l with
  | [] => None
  | (method, pattern, d) :: l =>
    if method_match method (q_Method r) && bool_decide (is_Some (match_path pattern (q_Path r))) then Some d else routed l r
  end.

(** The patterns [METHOD /internal/] and [GET /]; the mux prefers a longer pattern. *)
Definition internal_methods : list string := ["GET"; "POST"; "PUT"; "PATCH"; "DELETE"].
Definition under_internal (path : list string) : bool :=
  match path with x :: _ :: _ => bool_decide (x = "internal") | _ => false end.
Definition destination_of (r : request) : destination :=
  match routed gateway_routes r with
  | Some d => d
  | None =>
    if under_internal (q_Path r) && existsb (fun m => method_match m (q_Method r)) internal_methods then Hidden
    else if bool_decide (q_Path r = ["internal"]) then Unrouted
    else if method_match "GET" (q_Method r) then WebPages else Unrouted
  end.

(** *** Proxies *)
Definition upstream_name (b : backend) : string :=
  match b with Identity => "identity-room" | Interaction => "interaction" | CommerceBackend => "commerce" | QueryBackend => "query" end.
Definition upstream_code (b : backend) : string :=
  match b with
  | Identity => "IDENTITY_ROOM_UNAVAILABLE" | Interaction => "INTERACTION_UNAVAILABLE"
  | CommerceBackend => "COMMERCE_UNAVAILABLE" | QueryBackend => "QUERY_UNAVAILABLE"
  end.

Section gateway.
Context {W : Type}.
(** The exchange with a service ([httputil.ReverseProxy]): an error when there is no
    response. [webui] serves the pages. *)
Variables (upstream : backend -> request -> M W response) (webui : request -> M W response).

(** [r.Header.Del("X-User-ID")] *)
Definition director (r : request) : request :=
  mkRequest (q_Method r) (q_Path r) (fun h => if bool_decide (h = "X-User-ID") then "" else q_Header r h) (q_Query r) (q_Body r).
Definition proxy (b : backend) (r : request) : M W response :=
  reply (upstream b (director r))
    (fun _ => mret (writeError 502 (upstream_code b) (upstream_name b +:+ " service unavailable"))) mret.

Definition gateway_serve (r : request) : option (M W response) :=
  match destination_of r with
  | Health => Some (mret (writeJSON 200 (JObj [("status", JStr "ok"); ("milestone", JStr "M8")])))
  | Ready => Some (mret (writeJSON 200 (JObj [("status", JStr "ready")])))
  | Forwarded b => Some (proxy b r)
  | Hidden => Some (mret (mkResponse 404 (Invalid "404 page not found")))
  | WebPages => Some (webui r)
  | Unrouted => None
  end.
End gateway.

(** [New]: every upstream needs an absolute URL; [parse_url] gives scheme and host
    ([net/url]), [quote] is the [%q] verb. *)
Section new.
Variables (parse_url : string -> option (string * string)) (quote : string -> string).
Definition check_upstream (b : backend) (rawURL : string) : res unit :=
  match parse_url (TrimSpace rawURL) with
  | Some (scheme, host) =>
    if bool_decide (scheme = "") || bool_decide (host = "") then Err (Fresh ("invalid " +:+ upstream_name b +:+ " upstream URL " +:+ quote rawURL)) else Ok tt
  | None => Err (Fresh ("invalid " +:+ upstream_name b +:+ " upstream URL " +:+ quote rawURL))
  end.
Fixpoint check_upstreams (l : list (backend * string)) : res unit :=
  match l with
  | [] => Ok tt
  | (b, u) :: l => match check_upstream b u with Ok _ => check_upstreams l | Err e => Err e end
  end.
(** [urls] in the order identity, interaction, commerce, query. *)
Definition gateway_New (logger : bool) (urls : backend -> string) : res unit :=
  if negb logger then Err (Fresh "gateway logger is required")
  else check_upstreams (map (fun b => (b, urls b)) [Identity; Interaction; CommerceBackend; QueryBackend]).
End new.
