(* ===== verification/GatewaySpec.v ===== *)
(** The gateway and the services behind it: each API request goes to the one service
    that has a route for it, and the answer follows the published contract. *)
From S2P Require Import Prelude GoStrings Json Realtime Room Auth AuthSpec Like Stats Danmaku Commerce Wallet GiftRepository GiftService Instances TaggedJson Http Contract HttpApi HttpSpec.
From S2P Require Import CommerceApi CommerceApiSpec Gateway.

(** ** Signatures of routes *)
#[export] Instance segment_eq_dec : EqDecision segment.
Proof. solve_decision. Defined.

Definition signature : Type := string * list segment.
Definition sig_match (sg : signature) (r : request) : bool :=
  method_match sg.1 (q_Method r) && bool_decide (is_Some (match_path sg.2 (q_Path r))).
Definition route_sig {W} (rt : route W) : signature := (rt_method rt, rt_pattern rt).
Definition row_sig (row : contract_row) : signature := (ct_method row, ct_pattern row).
Definition entry_sig (x : string * list segment * destination) : signature := x.1.

Lemma sig_match_spec sg r : sig_match sg r = true <-> method_match sg.1 (q_Method r) = true /\ is_Some (match_path sg.2 (q_Path r)).
Proof. unfold sig_match. by rewrite andb_true_iff, bool_decide_eq_true. Qed.

Lemma serve_sig {W} (routes : list (route W)) r :
  is_Some (serve routes r) <-> exists sg, sg ∈ map route_sig routes /\ sig_match sg r = true.
Proof.
  induction routes as [|rt routes IH].
  - split; [intros [? [=]]|intros (sg & Hin & _); by apply elem_of_nil in Hin].
  - cbn [serve map]. destruct (sig_match (route_sig rt) r) eqn:E.
    + split; [intros _; exists (route_sig rt); split; [by left|done]|intros _].
      apply sig_match_spec in E as [Hm [b Hp]]. cbn in Hm, Hp. rewrite Hm, Hp. by eexists.
    + assert (Hskip : (if method_match (rt_method rt) (q_Method r) then match_path (rt_pattern rt) (q_Path r) else None) = None).
      { destruct (method_match (rt_method rt) _) eqn:Hm; [|done]. destruct (match_path _ _) eqn:Hp; [|done].
        assert (sig_match (route_sig rt) r = true); [apply sig_match_spec; cbn; rewrite Hp; by eauto|congruence]. }
      rewrite Hskip, IH. split; intros (sg & Hin & Hsg); exists sg; (split; [|done]); [by right|].
      apply elem_of_cons in Hin as [->|Hin]; [congruence|done].
Qed.

Lemma routed_some l r d : routed l r = Some d -> exists x, x ∈ l /\ sig_match (entry_sig x) r = true /\ x.2 = d.
Proof.
  induction l as [|[[m p] d'] l IH]; [done|]. cbn [routed]. destruct (method_match m _ && _) eqn:E.
  - intros [= <-]. exists (m, p, d'). split; [by left|done].
  - intros (x & Hx & Hrest)%IH. exists x. split; [by right|done].
Qed.
Lemma routed_none l r : routed l r = None -> forall x, x ∈ l -> sig_match (entry_sig x) r = false.
Proof.
  induction l as [|[[m p] d'] l IH]; [intros _ x Hx; by apply elem_of_nil in Hx|]. cbn [routed].
  destruct (method_match m _ && _) eqn:E; [done|]. intros Hn x [->|Hx]%elem_of_cons; [done|by apply IH].
Qed.

(** *** Patterns that match a common path *)
Fixpoint overlap (p q : list segment) : bool :=
  match p, q with
  | [], [] => true
  | Lit a :: p, Lit b :: q => bool_decide (a = b) && overlap p q
  | _ :: p, _ :: q => overlap p q
  | _, _ => false
  end.
Lemma match_cons x p path : is_Some (match_path (x :: p) path) ->
  exists y path', path = y :: path' /\ is_Some (match_path p path') /\ match x with Lit s => s = y | Wild _ => True end.
Proof.
  destruct path as [|y path']; [by destruct x; intros [? [=]]|]. destruct x as [s|n]; cbn [match_path].
  - case_bool_decide; [|by intros [? [=]]]. subst. by exists y, path'.
  - case_bool_decide; [by intros [? [=]]|]. destruct (match_path p path') eqn:E; [|by intros [? [=]]].
    intros _. exists y, path'. rewrite E. split; [done|]. split; [by eexists|done].
Qed.
Lemma match_overlap p : forall q path, is_Some (match_path p path) -> is_Some (match_path q path) -> overlap p q = true.
Proof.
  induction p as [|x p IH]; intros q path Hp Hq.
  - destruct path; [|by destruct Hp as [? [=]]]. destruct q as [|[s|n] q]; [done|by destruct Hq as [? [=]]..].
  - apply match_cons in Hp as (y & path' & -> & Hp & Hx). destruct q as [|z q]; [by destruct Hq as [? [=]]|].
    apply match_cons in Hq as (y' & path'' & [= <- <-] & Hq & Hz).
    destruct x as [s|n], z as [s'|n']; cbn [overlap]; try by eapply IH. subst. rewrite bool_decide_eq_true_2 by done. by eapply IH.
Qed.
(** Two methods that some request method matches. *)
Definition methods_meet (a b : string) : bool :=
  bool_decide (a = b) || (bool_decide (a = "GET") && bool_decide (b = "HEAD")) || (bool_decide (b = "GET") && bool_decide (a = "HEAD")).
Lemma method_meet a b m : method_match a m = true -> method_match b m = true -> methods_meet a b = true.
Proof. unfold method_match, methods_meet. repeat case_bool_decide; subst; try done; try congruence. Qed.
Definition meets (x y : signature) : bool := methods_meet x.1 y.1 && overlap x.2 y.2.
Lemma sig_meets x y r : sig_match x r = true -> sig_match y r = true -> meets x y = true.
Proof.
  intros [Hm Hp]%sig_match_spec [Hm' Hp']%sig_match_spec. unfold meets. apply andb_true_iff. split; [by eapply method_meet|by eapply match_overlap].
Qed.

(** ** The tables agree *)
Section sigs.
#[local] Existing Instances ascii_tables nano_text tagged_json AuthExamples.padded_crypto.
(** The signatures of each service's routes, computed from its table. *)
Definition backend_sigs (b : backend) : list signature := Eval vm_compute in
  match b with
  | Identity => map route_sig (Api.identity_routes (bare_server AuthExamples.manager None None None : Server unit) 0 0 "")
  | Interaction => map route_sig (Api.interaction_routes (bare_server AuthExamples.manager None None None : Server unit) 0 0)
  | CommerceBackend => map route_sig (CommerceApi.New (mkCommerceServer None None AuthExamples.manager (mret []) (fun _ _ _ _ _ => throw ErrNotFound)
      (fun _ _ => throw ErrNotFound) (fun _ => throw ErrNotFound) (fun _ => mret []) (fun _ _ => throw ErrNotFound) None : CommerceServer unit) 0)
  | QueryBackend => map route_sig (Api.query_routes (bare_server AuthExamples.manager None None None : Server unit))
  end.
End sigs.

Definition in_api (sg : signature) : bool := match sg.2 with Lit x :: _ => bool_decide (x = "api") | _ => false end.
Definition row_of (b : backend) (sg : signature) : bool :=
  existsb (fun row => bool_decide (row_sig row = sg) && bool_decide (ct_owner row = b)) catalogue.

Lemma gateway_entries x : x ∈ gateway_routes ->
  in_api x.1 = false /\ (x.2 = Health \/ x.2 = Ready)
  \/ exists row, row ∈ catalogue /\ row_sig row = x.1 /\ x.2 = Forwarded (ct_owner row).
Proof.
  intros Hx. assert (Hall : forallb (fun x => match x.2 with
      | Forwarded b => row_of b x.1 | Health | Ready => negb (in_api x.1) | _ => false end) gateway_routes = true) by (vm_compute; reflexivity).
  rewrite forallb_forall in Hall. specialize (Hall x (proj1 (list_elem_of_In _ _) Hx)).
  destruct x as [sg d]. cbn [fst snd] in *. destruct d as [| |b| | |]; try done.
  - left. by apply negb_true_iff in Hall; auto.
  - left. by apply negb_true_iff in Hall; auto.
  - right. apply existsb_exists in Hall as (row & Hrow & [He Ho]%andb_true_iff). apply bool_decide_eq_true in He, Ho.
    exists row. split; [by apply list_elem_of_In|]. by rewrite Ho.
Qed.
Lemma catalogue_entries row : row ∈ catalogue -> (row_sig row, Forwarded (ct_owner row)) ∈ gateway_routes /\ in_api (row_sig row) = true.
Proof.
  intros Hrow. assert (Hall : forallb (fun row => existsb (fun x => bool_decide (x = (row_sig row, Forwarded (ct_owner row)))) gateway_routes
      && in_api (row_sig row)) catalogue = true) by (vm_compute; reflexivity).
  rewrite forallb_forall in Hall. specialize (Hall row (proj1 (list_elem_of_In _ _) Hrow)). apply andb_true_iff in Hall as [Hin Hapi].
  split; [|done]. apply existsb_exists in Hin as (x & Hx & ->%bool_decide_eq_true). by apply list_elem_of_In.
Qed.
Lemma entries_disjoint x y : x ∈ gateway_routes -> y ∈ gateway_routes -> meets x.1 y.1 = true -> x.2 = y.2.
Proof.
  intros Hx Hy Hm. assert (Hall : forallb (fun x => forallb (fun y => negb (meets x.1 y.1) || bool_decide (x.2 = y.2)) gateway_routes) gateway_routes = true)
    by (vm_compute; reflexivity).
  rewrite forallb_forall in Hall. specialize (Hall x (proj1 (list_elem_of_In _ _) Hx)).
  rewrite forallb_forall in Hall. specialize (Hall y (proj1 (list_elem_of_In _ _) Hy)). rewrite Hm in Hall. by apply bool_decide_eq_true in Hall.
Qed.
Lemma backend_entries b sg : in_api sg = true -> sg ∈ backend_sigs b <-> row_of b sg = true.
Proof.
  intros Hapi. split.
  - intros Hsg. assert (Hall : forallb (fun sg => negb (in_api sg) || row_of b sg) (backend_sigs b) = true) by (destruct b; vm_compute; reflexivity).
    rewrite forallb_forall in Hall. specialize (Hall sg (proj1 (list_elem_of_In _ _) Hsg)). by rewrite Hapi in Hall.
  - intros Hrow. apply existsb_exists in Hrow as (row & Hrow & [He Ho]%andb_true_iff). apply bool_decide_eq_true in He, Ho.
    assert (Hall : forallb (fun row => existsb (fun sg => bool_decide (sg = row_sig row)) (backend_sigs (ct_owner row))) catalogue = true)
      by (vm_compute; reflexivity).
    rewrite forallb_forall in Hall. specialize (Hall row Hrow). apply existsb_exists in Hall as (x & Hx & ->%bool_decide_eq_true).
    rewrite Ho, He in Hx. by apply list_elem_of_In.
Qed.

Lemma sig_in_api sg r : sig_match sg r = true -> in_api sg = true -> hd "" (q_Path r) = "api".
Proof.
  intros [_ Hp]%sig_match_spec. unfold in_api. destruct (sg.2) as [|[x|n] p]; try done.
  apply match_cons in Hp as (y & path & -> & _ & <-). by intros ?%bool_decide_eq_true.
Qed.
Lemma sig_not_api b sg r : sg ∈ backend_sigs b -> sig_match sg r = true -> hd "" (q_Path r) = "api" -> in_api sg = true.
Proof.
  intros Hsg Hm Hapi. apply sig_match_spec in Hm as [_ Hp].
  assert (Hall : forallb (fun sg => match sg.2 with Lit _ :: _ => true | _ => false end) (backend_sigs b) = true) by (destruct b; vm_compute; reflexivity).
  rewrite forallb_forall in Hall. specialize (Hall sg (proj1 (list_elem_of_In _ _) Hsg)). unfold in_api.
  destruct (sg.2) as [|[x|n] p]; try done. apply match_cons in Hp as (y & path & Heq & _ & ->). rewrite Heq in Hapi. by apply bool_decide_eq_true.
Qed.

(** ** Where requests go *)
Lemma forwarded_row r b : destination_of r = Forwarded b <-> exists row, row ∈ catalogue /\ ct_owner row = b /\ sig_match (row_sig row) r = true.
Proof.
  unfold destination_of. split.
  - destruct (routed gateway_routes r) as [d|] eqn:E; [intros ->|by repeat case_match].
    apply routed_some in E as (x & Hx & Hm & Hd). unfold entry_sig in Hm.
    apply gateway_entries in Hx as [(_ & [Hh|Hh])|(row & Hrow & Hs & Hf)]; destruct x as [sg dx]; cbn [fst snd] in *; [congruence..|].
    exists row. split; [done|]. split; [congruence|by rewrite Hs].
  - intros (row & Hrow & <- & Hm). apply catalogue_entries in Hrow as [Hin _].
    destruct (routed gateway_routes r) as [d|] eqn:E.
    + apply routed_some in E as (x & Hx & Hxm & <-). apply (entries_disjoint x _ Hx Hin). by eapply sig_meets.
    + pose proof (routed_none _ _ E _ Hin). unfold entry_sig in *. cbn [fst] in *. congruence.
Qed.

Lemma forwarded_api r b : destination_of r = Forwarded b -> hd "" (q_Path r) = "api".
Proof. intros (row & Hrow & _ & Hm)%forwarded_row. apply catalogue_entries in Hrow as [_ Hapi]. by eapply sig_in_api. Qed.


Section deployment.
Context `{UnicodeTables} `{Crypto} `{JsonText} `{TimeText} {W : Type}.
Variables (d : Server W) (redis : option (GovernanceStore W)) (c : CommerceServer W) (now_auth now : Z) (id : string).

(** The four services behind the gateway. *)
Definition services (b : backend) : list (route W) :=
  match b with
  | Identity => Api.NewIdentityRoom d now_auth now id redis
  | Interaction => Api.NewInteraction d now_auth now
  | CommerceBackend => CommerceApi.New c now_auth
  | QueryBackend => Api.NewQuery d
  end.

Lemma services_sigs b : map route_sig (services b) = backend_sigs b.
Proof. by destruct b. Qed.

(** C14 The gateway sends a request to a service exactly when the path is under [/api]
    and that service has a route for it, so every API operation is reachable, by one
    service only, and the internal API of the services is not; and it does so exactly
    for the rows of the published contract, each to its owner. *)
Theorem gateway_forwards_to_the_owner r b :
  (destination_of r = Forwarded b <-> hd "" (q_Path r) = "api" /\ is_Some (serve (services b) r))
  /\ (destination_of r = Forwarded b <-> exists row, row ∈ catalogue /\ ct_owner row = b
       /\ method_match (ct_method row) (q_Method r) = true /\ is_Some (match_path (ct_pattern row) (q_Path r))).
Proof.
  assert (Hrow : destination_of r = Forwarded b <-> exists row, row ∈ catalogue /\ ct_owner row = b
       /\ method_match (ct_method row) (q_Method r) = true /\ is_Some (match_path (ct_pattern row) (q_Path r))).
  { rewrite forwarded_row. split; intros (row & Hrow & Ho & Hm); exists row; (split; [done|]); (split; [done|]); by apply (sig_match_spec (row_sig row) r). }
  split; [|exact Hrow]. rewrite serve_sig, services_sigs. split.
  - intros Hd. split; [by eapply forwarded_api|]. apply forwarded_row in Hd as (row & Hin & Ho & Hm). exists (row_sig row). split; [|done].
    apply backend_entries; [by apply catalogue_entries|]. apply existsb_exists. exists row. split; [by apply list_elem_of_In|].
    by rewrite !bool_decide_eq_true_2.
  - intros [Hapi (sg & Hsg & Hm)]. apply forwarded_row. pose proof (sig_not_api _ _ _ Hsg Hm Hapi) as Hin.
    apply backend_entries in Hsg; [|done]. apply existsb_exists in Hsg as (row & Hr & [He Ho]%andb_true_iff).
    apply bool_decide_eq_true in He, Ho. exists row. split; [by apply list_elem_of_In|]. by rewrite He.
Qed.





End deployment.

(** ** Examples *)
Module GatewayExamples.
#[local] Existing Instances ascii_tables nano_text tagged_json AuthExamples.padded_crypto.

Definition at_path (method : string) (path : list string) : request :=
  mkRequest method path (fun _ => "") (fun _ => "") (mkBody (Invalid "") 0 false 0).
Example destinations :
  map (fun p => destination_of (at_path p.1 p.2))
    [("GET", ["api"; "v1"; "rooms"; "7"]); ("HEAD", ["api"; "v1"; "rooms"; "7"; "stats"]); ("POST", ["api"; "v1"; "rooms"; "7"; "gifts"]);
     ("POST", ["internal"; "v1"; "rooms"; "7"; "join"; "8"]); ("GET", [""]); ("POST", ["api"; "v1"; "wallet"])]
  = [Forwarded Identity; Forwarded QueryBackend; Forwarded CommerceBackend; Hidden; WebPages; Unrouted].
Proof. vm_compute. reflexivity. Qed.


End GatewayExamples.
