(* ===== verification/Query.v ===== *)
(** The read model behind the query server: [internal/querymodel/repository.go], the
    view [query.room_message_feed] of [migrations/008] and the history query of
    [internal/httpapi/server.go], and what [GET /rooms/{id}/messages] shows. *)
From S2P Require Import Prelude GoStrings Mysql Json Realtime Room Commerce Auth Like Stats Danmaku Instances TaggedJson AuthSpec Http Contract HttpApi HttpSpec.
From Stdlib Require Import Sorting.

(** ** Tables *)
(** The rows the views read, with the [AUTO_INCREMENT] ids of records and orders. *)
Record QueryDB : Type := mkQueryDB {
  q_users : UserDB;
  q_danmaku : list (Z * danmaku_row);
  q_orders : list (Z * order_row);
  q_gifts : gmap Z gift_row }.

(** [Repository.User] over [query.user_display_projection]: no username, no hash. *)
Definition display (u : User) : User := mkUser (us_ID u) "" (us_Nickname u) (us_Avatar u) "" (us_Status u) (us_CreatedAt u).
Definition find_user (id : Z) (t : UserDB) : option User := List.find (fun u => us_ID u =? id) (map u_user (users t)).
Definition display_user (id : Z) : M (Mysql QueryDB) User :=
  db_exec (reads (fun t => match find_user id (q_users t) with Some u => Ok (display u) | None => Err Auth.ErrUserNotFound end)).

(** [query.room_message_feed]: a message and its sequence number. *)
Definition feed_row : Type := historyMessage * Z.
Definition danmaku_feed (x : Z * danmaku_row) : feed_row :=
  (mkHistory "danmaku" (dr_message_id x.2) (dr_room_id x.2) (dr_user_id x.2) (dr_nickname x.2) (dr_content x.2) "" 0 (dr_created_at x.2), x.1).
Definition gift_feed (t : QueryDB) (x : Z * order_row) : option feed_row :=
  if negb (o_status x.2 =? 1) then None else
  u ← find_user (o_user_id x.2) (q_users t);
  g ← q_gifts t !! o_gift_id x.2;
  Some (mkHistory "gift" ("gift:" +:+ o_order_no x.2) (o_room_id x.2) (o_user_id x.2) (us_Nickname u) "" (gift_name g)
          (o_gift_count x.2) (o_created_at x.2), x.1).
Definition feed (t : QueryDB) : list feed_row := map danmaku_feed (q_danmaku t) ++ omap (gift_feed t) (q_orders t).

(** [ORDER BY created_at DESC, sequence DESC]; rows equal in both stay in view order. *)
Definition newer (x y : feed_row) : Prop :=
  hm_CreatedAt y.1 < hm_CreatedAt x.1 \/ hm_CreatedAt y.1 = hm_CreatedAt x.1 /\ y.2 <= x.2.
#[export] Instance newer_dec x y : Decision (newer x y).
Proof. unfold newer. solve_decision. Defined.
#[export] Instance newer_total : Total newer.
Proof. intros x y. unfold newer. lia. Qed.
#[export] Instance newer_trans : Transitive newer.
Proof. intros x y z. unfold newer. lia. Qed.

Definition room_feed (t : QueryDB) (roomID : Z) : list feed_row := List.filter (fun x => hm_RoomID x.1 =? roomID) (feed t).
Definition select_history (roomID limit : Z) : M (Mysql QueryDB) (list historyMessage) :=
  db_exec (reads (fun t => Ok (map fst (take (Z.to_nat limit) (merge_sort newer (room_feed t roomID)))))).

(** ** What the history shows *)
Lemma sorted_rev {A} (R : A -> A -> Prop) l : StronglySorted R l -> StronglySorted (fun x y => R y x) (rev l).
Proof.
  induction 1 as [|x l Hl IH Hx]; cbn [rev]; [constructor|].
  apply StronglySorted_app_2; [|done|repeat constructor]. intros a b Ha Hb. apply list_elem_of_In, in_rev, list_elem_of_In in Ha.
  apply list_elem_of_singleton in Hb as ->. rewrite Forall_forall in Hx. by apply Hx.
Qed.
Lemma sorted_split {A} (R : A -> A -> Prop) n l : StronglySorted R l ->
  StronglySorted R (take n l) /\ forall x y, x ∈ take n l -> y ∈ drop n l -> R x y.
Proof.
  intros Hs. rewrite <-(take_drop n l) in Hs. split; [by eapply StronglySorted_app_1_l|]. intros x y. by apply StronglySorted_app_1_elem_of.
Qed.

(** The messages shown, as rows of the feed: the newest [limit] rows of the room, in
    ascending order of time and sequence. *)
Definition shows_latest (t : QueryDB) (roomID limit : Z) (shown : list feed_row) : Prop :=
  exists older, room_feed t roomID ≡ₚ older ++ shown
    /\ StronglySorted (fun x y => newer y x) shown
    /\ (forall x y, x ∈ older -> y ∈ shown -> newer y x)
    /\ length shown = Nat.min (Z.to_nat limit) (length (room_feed t roomID)).

Lemma select_latest roomID limit t n : exists shown,
  select_history roomID limit (mkMysql t None n []) = (Ok (rev (map fst shown)), mkMysql t None n []) /\ shows_latest t roomID limit shown.
Proof.
  set (sorted := merge_sort newer (room_feed t roomID)).
  assert (Hs : StronglySorted newer sorted) by (apply (StronglySorted_merge_sort newer); apply _).
  destruct (sorted_split newer (Z.to_nat limit) sorted Hs) as [Htake Hdrop].
  exists (rev (take (Z.to_nat limit) sorted)). split.
  - unfold select_history, db_exec, reads. cbn. fold sorted. by rewrite map_rev, rev_involutive.
  - exists (drop (Z.to_nat limit) sorted). split; [|split; [by apply sorted_rev|split]].
    + rewrite <-(merge_sort_Permutation newer (room_feed t roomID)). fold sorted. rewrite <-(take_drop (Z.to_nat limit) sorted) at 1.
      rewrite Permutation_app_comm. f_equiv. apply Permutation_rev.
    + intros x y Hx Hy. apply list_elem_of_In, in_rev, list_elem_of_In in Hy. by apply Hdrop.
    + rewrite length_rev, length_take. unfold sorted. by rewrite merge_sort_Permutation.
Qed.

Section history.
Context `{UnicodeTables} `{Crypto} `{JsonText} `{TimeText} {R : Type}.
Variable d : Server (Mysql QueryDB * R).

(** The query server over its database, as [cmd/query] wires it. *)
Definition query_over_database : Server (Mysql QueryDB * R) := Api.query_server (mkServer
  (sv_mysql d) (sv_redis d) (Some (fun room limit => zoom (select_history room limit))) (sv_centrifugo d) (sv_governance d)
  (sv_Register d) (sv_Login d) (sv_User d) (fun id => zoom (display_user id)) (sv_appTokens d) (sv_cfTokens d) (sv_cfSubTTL d)
  (sv_rooms d) (sv_Danmaku d) (sv_AddLikes d) (sv_Touch d) (sv_Leave d) (sv_Top d) (sv_Online d) (sv_stats d)).

(** C33 The message history of a room, asked with a limit of 1 to 100 and the database
    available: the answer is 200 with the archived danmaku and the paid gifts of that
    room and no others, in ascending order of time and sequence number; there are as
    many as the limit and the room allow, and every one left out is no newer than any
    one shown. *)
Theorem history_shows_the_latest_messages r pv roomID limit t n rw :
  pathInt64 pv "room_id" = inl roomID -> Api.query_limit r 50 = Some limit ->
  exists shown, shows_latest t roomID limit shown
    /\ Api.roomMessages query_over_database r pv (mkMysql t None n [], rw)
       = (Ok (writeJSON 200 (JObj [("items", JArr (map Api.history_json (map fst shown)))])), (mkMysql t None n [], rw)).
Proof.
  intros Hpv Hlimit. destruct (select_latest roomID limit t n) as (shown & Hrun & Hlatest). exists shown. split; [done|].
  unfold Api.roomMessages, with_path. rewrite Hpv. cbn [sv_history query_over_database Api.query_server]. rewrite Hlimit.
  unfold reply, mbind, M_bind, try, zoom. cbn [lget lset lens_fst fst snd]. rewrite Hrun. by rewrite rev_involutive.
Qed.
End history.

(** ** Examples *)
Module QueryExamples.
#[local] Existing Instances ascii_tables nano_text tagged_json AuthExamples.padded_crypto.

Definition bob : User := mkUser 7 "bob" "Bob" "" "hash" 1 0.
Definition tables : QueryDB := mkQueryDB (mkUserDB [mkUserRow bob 0] 8)
  [(1, mkDanmakuRow "m1" 9 7 "Bob" "first" 100); (2, mkDanmakuRow "m2" 9 7 "Bob" "third" 300); (3, mkDanmakuRow "m3" 4 7 "Bob" "other room" 400)]
  [(1, mkOrder "G1" "request-1" 7 8 9 1 3 100 300 1 200 200); (2, mkOrder "G2" "request-2" 7 8 9 1 3 100 300 0 500 500)]
  {[ 1 := mkGift "Rose" 100 1 ]}.
Definition server : Server (Mysql QueryDB * unit) := query_over_database (bare_server AuthExamples.manager None None None).
Definition last_two : request :=
  mkRequest "GET" ["api"; "v1"; "rooms"; "9"; "messages"] (fun _ => "") (fun _ => "2") (mkBody (Invalid "") 0 false 0).

Lemma history_shows_the_latest_messages_witness :
  exists shown, shows_latest tables 9 2 shown /\ length shown = 2%nat
    /\ Api.roomMessages server last_two (fun _ => "9") (mkMysql tables None 0 [], tt)
       = (Ok (writeJSON 200 (JObj [("items", JArr (map Api.history_json (map fst shown)))])), (mkMysql tables None 0 [], tt)).
Proof.
  destruct (history_shows_the_latest_messages (bare_server AuthExamples.manager None None None) last_two (fun _ => "9") 9 2 tables 0 tt)
    as (shown & Hlatest & Hrun); [reflexivity|vm_compute; reflexivity|].
  exists shown. split; [exact Hlatest|]. split; [|exact Hrun]. destruct Hlatest as (older & _ & _ & _ & Hlen).
  etransitivity; [exact Hlen|]. vm_compute. reflexivity.
Defined.

(** The unpaid order and the other room are left out, the oldest message is cut. *)
Example last_two_example :
  (Api.roomMessages server last_two (fun _ => "9") (mkMysql tables None 0 [], tt)).1
  = Ok (writeJSON 200 (JObj [("items", JArr (map Api.history_json
      [mkHistory "gift" "gift:G1" 9 7 "Bob" "" "Rose" 3 200; mkHistory "danmaku" "m2" 9 7 "Bob" "third" "" 0 300]))])).
Proof. vm_compute. reflexivity. Qed.
End QueryExamples.
