(* ===== verification/Config.v ===== *)
(** Configuration from the environment: [internal/config/config.go].

    [getenv] is [os.Getenv] (the empty string when unset). The texts of parse errors of
    the standard library are not modelled. *)
From Stdlib Require Import SpecFloat Ascii.
From S2P Require Import Prelude GoStrings Realtime Traffic.

#[export] Instance res_ret : MRet res := fun A a => Ok a.
#[export] Instance res_bind : MBind res := fun A B k m => match m with Ok a => k a | Err e => Err e end.

(** ** Parsers of the standard library *)
(** [strconv.ParseFloat(s, 64)] *)
Class FloatText := { parse_float : string -> option float64 }.

(** [strconv.ParseBool] *)
Definition ParseBool (s : string) : option bool :=
  if existsb (String.eqb s) ["1"; "t"; "T"; "TRUE"; "true"; "True"] then Some true
  else if existsb (String.eqb s) ["0"; "f"; "F"; "FALSE"; "false"; "False"] then Some false
  else None.

(** *** [time.ParseDuration] *)
Definition two63 : Z := 2 ^ 63.
(** [leadingInt]: the value and the rest, [None] on overflow. *)
Fixpoint leadingInt (s : string) (x : Z) : option (Z * string) :=
  match s with
  | String a t =>
    match digit_value a with
    | Some d => if two63 / 10 <? x then None else if two63 <? x * 10 + d then None else leadingInt t (x * 10 + d)
    | None => Some (x, s)
    end
  | EmptyString => Some (x, "")
  end.
(** [leadingFraction]: digits that would overflow are dropped. *)
Fixpoint leadingFraction (s : string) (x : Z) (scale : float64) (overflow : bool) : Z * float64 * string :=
  match s with
  | String a t =>
    match digit_value a with
    | Some d =>
      if overflow then leadingFraction t x scale true
      else if (two63 - 1) / 10 <? x then leadingFraction t x scale true
      else if two63 <? x * 10 + d then leadingFraction t x scale true
      else leadingFraction t (x * 10 + d) (fmul scale (float_of_Z 10)) false
    | None => (x, scale, s)
    end
  | EmptyString => (x, scale, "")
  end.
Definition is_digit (a : ascii) : bool := match digit_value a with Some _ => true | None => false end.
(** The text up to the next period or digit. *)
Fixpoint unit_text (s : string) : string * string :=
  match s with
  | String a t =>
    if Ascii.eqb a "."%char || is_digit a then ("", s)
    else let (u, r) := unit_text t in (String a u, r)
  | EmptyString => ("", "")
  end.
Definition unitMap (u : string) : option Z :=
  if bool_decide (u = "ns") then Some 1
  else if bool_decide (u = "us") || bool_decide (u = "µs") || bool_decide (u = "μs") then Some 1000
  else if bool_decide (u = "ms") then Some 1000000
  else if bool_decide (u = "s") then Some Second
  else if bool_decide (u = "m") then Some (60 * Second)
  else if bool_decide (u = "h") then Some (3600 * Second)
  else None.
(** [uint64(f)] of a float that is not negative. *)
Definition trunc_Z (f : float64) : Z :=
  match f with
  | S754_finite false m e => if 0 <=? e then Zpos m * 2 ^ e else Zpos m / 2 ^ (- e)
  | _ => 0
  end.

(** One number with its unit: its nanoseconds and the rest. *)
Definition duration_term (s : string) : option (Z * string) :=
  match s with
  | EmptyString => None
  | String a _ =>
    if negb (Ascii.eqb a "."%char || is_digit a) then None else
    '(v, s1) ← leadingInt s 0;
    let pre := negb (String.length s1 =? String.length s)%nat in
    let '(f, scale, s2, post) :=
      match s1 with
      | String b t =>
        if Ascii.eqb b "."%char then
          let '(f, scale, r) := leadingFraction t 0 one false in (f, scale, r, negb (String.length r =? String.length t)%nat)
        else (0, one, s1, false)
      | EmptyString => (0, one, s1, false)
      end in
    if negb pre && negb post then None else
    let (u, rest) := unit_text s2 in
    if bool_decide (u = "") then None else
    unit ← unitMap u;
    if two63 / unit <? v then None else
    let v := v * unit in
    let v := if 0 <? f then v + trunc_Z (fmul (float_of_Z f) (fdiv (float_of_Z unit) scale)) else v in
    if two63 <? v then None else Some (v, rest)
  end.
(** The sum of the terms; every term consumes text, so the length is enough fuel. *)
Fixpoint duration_terms (fuel : nat) (s : string) (d : Z) : option Z :=
  match s, fuel with
  | EmptyString, _ => Some d
  | _, O => None
  | _, S fuel =>
    '(v, rest) ← duration_term s;
    if two63 <? d + v then None else duration_terms fuel rest (d + v)
  end.
Definition ParseDuration (s : string) : option Z :=
  let (neg, t) := match s with
                  | String a t => if Ascii.eqb a "-"%char then (true, t) else if Ascii.eqb a "+"%char then (false, t) else (false, s)
                  | EmptyString => (false, s)
                  end in
  if bool_decide (t = "0") then Some 0 else
  if bool_decide (t = "") then None else
  d ← duration_terms (String.length t) t 0;
  if neg then Some (- d) else if two63 - 1 <? d then None else Some d.

Example durations :
  map ParseDuration ["30m"; "1h"; "200ms"; "1.5h"; "-2s"; "0"; "1h15m30.918s"; "1"; ".s"; "9223372036854775808ns"; "+5s"]
  = [Some (30 * 60 * Second); Some (3600 * Second); Some 200000000; Some (5400 * Second); Some (-2 * Second); Some 0;
     Some 4530918000000; None; None; None; Some (5 * Second)].
Proof. vm_compute. reflexivity. Qed.

(** ** The configuration *)
Record CommerceConfig : Type := mkCommerceConfig { cc_HTTPAddr : string; cc_BaseURL : string }.
Record MySQLConfig : Type := mkMySQLConfig { mc_MaxOpenConns : Z; mc_MaxIdleConns : Z; mc_ConnMaxLifetime : Z }.
Record DatabaseConfig : Type := mkDatabaseConfig {
  db_IdentityDSN : string; db_RoomDSN : string; db_CommerceDSN : string; db_ArchiveDSN : string; db_QueryDSN : string; db_QueryWriterDSN : string }.
Record RedisConfig : Type := mkRedisConfig { rd_URL : string; rd_Addr : string; rd_Password : string; rd_DB : Z }.
Record CentrifugoConfig : Type := mkCentrifugoConfig {
  cf_APIURL : string; cf_APIKey : string; cf_TokenSecret : string; cf_TokenTTL : Z; cf_SubscriptionTokenTTL : Z }.
Record AuthConfig : Type := mkAuthConfig { au_JWTSecret : string; au_TokenTTL : Z }.
Record DanmakuConfig : Type := mkDanmakuConfig { dk_SensitiveWords : list string; dk_UserRateLimit : Z; dk_UserRateWindow : Z }.
Record LikeConfig : Type := mkLikeConfig { lc_UserRateLimit : Z; lc_UserRateWindow : Z; lc_RoomCacheTTL : Z; lc_BanCacheTTL : Z }.
Record GiftLimits : Type := mkGiftLimits { gl_MaxCountPerRequest : Z; gl_UserRateLimit : Z; gl_UserRateWindow : Z }.
Record EngagementConfig : Type := mkEngagementConfig {
  en_ViewerTTL : Z; en_StatsInterval : Z; en_ActiveRoomWindow : Z; en_ActiveRoomBatch : Z; en_ActiveRoomShards : Z; en_LikeSnapshotInterval : Z }.
Record KafkaConfig : Type := mkKafkaConfig {
  ka_Brokers : list string; ka_DanmakuTopic : string; ka_GiftTopic : string; ka_DanmakuConsumerGroup : string; ka_GiftConsumerGroup : string;
  ka_ConsumerLease : Z; ka_TLSEnabled : bool; ka_SASLMechanism : string; ka_SASLUsername : string; ka_SASLPassword : string }.
Record OutboxConfig : Type := mkOutboxConfig { ou_PollInterval : Z; ou_BatchSize : Z; ou_Lease : Z; ou_ProduceTimeout : Z }.
Record ObservabilityConfig : Type := mkObservabilityConfig {
  ob_WorkerMetricsAddr : string; ob_OTelEnabled : bool; ob_OTelEndpoint : string; ob_OTelInsecure : bool; ob_OTelSampleRatio : float64; ob_Environment : string }.
Record Config : Type := mkConfig {
  cg_HTTPAddr : string; cg_Commerce : CommerceConfig; cg_Interaction : CommerceConfig; cg_IdentityRoom : CommerceConfig; cg_Query : CommerceConfig;
  cg_MySQL : MySQLConfig; cg_Databases : DatabaseConfig; cg_Redis : RedisConfig; cg_Centrifugo : CentrifugoConfig; cg_Auth : AuthConfig;
  cg_Danmaku : DanmakuConfig; cg_Like : LikeConfig; cg_Gift : GiftLimits; cg_Engagement : EngagementConfig; cg_DevCreditEnabled : bool;
  cg_Kafka : KafkaConfig; cg_Outbox : OutboxConfig; cg_Observability : ObservabilityConfig; cg_Traffic : TrafficConfig; cg_Roles : list string }.
Record GatewayConfig : Type := mkGatewayConfig {
  gw_HTTPAddr : string; gw_Commerce : string; gw_Interaction : string; gw_IdentityRoom : string; gw_Query : string; gw_Observability : ObservabilityConfig }.

(** ** Loading *)
(** [v, err := parse(...); if err != nil || bad(v) { return ..., Errorf(msg) }] *)
Definition checked {A} (v : option A) (bad : A -> bool) (msg : string) : res A :=
  match v with Some v => if bad v then Err (Fresh msg) else Ok v | None => Err (Fresh msg) end.
(** [if err != nil { return ..., Errorf("KEY: %w", err) }] *)
Definition wrapped {A} (v : option A) (key : string) : res A :=
  match v with Some v => Ok v | None => Err (Wrapped (key +:+ ": ") (Fresh "parse error") "") end.
Definition splitCSV (raw : string) : list string :=
  List.filter (fun v => negb (bool_decide (v = ""))) (map TrimSpace (Split "," raw)).

Section load.
Context `{UnicodeTables} `{FloatText}.
Variables (getenv : string -> string) (quote : string -> string).

Definition env (key fallback : string) : string := if bool_decide (getenv key = "") then fallback else getenv key.
Definition not_positive (v : Z) : bool := v <=? 0.

Definition loadObservability : res ObservabilityConfig :=
  otelEnabled ← wrapped (ParseBool (env "OTEL_ENABLED" "true")) "OTEL_ENABLED";
  otelInsecure ← wrapped (ParseBool (env "OTEL_INSECURE" "true")) "OTEL_INSECURE";
  ratio ← checked (parse_float (env "OTEL_SAMPLE_RATIO" "1")) (fun v => flt v zero || flt one v) "OTEL_SAMPLE_RATIO must be between 0 and 1";
  mret (mkObservabilityConfig (env "WORKER_METRICS_ADDR" ":9090") otelEnabled (env "OTEL_EXPORTER_OTLP_ENDPOINT" "otel-collector:4317")
          otelInsecure ratio (env "DEPLOYMENT_ENVIRONMENT" "development")).

Definition LoadGateway : res GatewayConfig :=
  observability ← loadObservability;
  mret (mkGatewayConfig (env "HTTP_ADDR" ":8080") (env "COMMERCE_BASE_URL" "http://localhost:8081") (env "INTERACTION_BASE_URL" "http://localhost:8082")
          (env "IDENTITY_ROOM_BASE_URL" "http://localhost:8083") (env "QUERY_BASE_URL" "http://localhost:8084") observability).

Definition load_mysql : res MySQLConfig :=
  openc ← checked (Atoi (env "MYSQL_MAX_OPEN_CONNS" "40")) not_positive "MYSQL_MAX_OPEN_CONNS must be a positive integer";
  idle ← checked (Atoi (env "MYSQL_MAX_IDLE_CONNS" "20")) (fun v => (v <? 0) || (openc <? v))
           "MYSQL_MAX_IDLE_CONNS must be between 0 and MYSQL_MAX_OPEN_CONNS";
  life ← checked (ParseDuration (env "MYSQL_CONN_MAX_LIFETIME" "30m")) not_positive "MYSQL_CONN_MAX_LIFETIME must be a positive duration";
  mret (mkMySQLConfig openc idle life).

(** [REDIS_DB] and the three token lifetimes, which may have any sign. *)
Definition load_ttls : res (Z * Z * Z * Z) :=
  db ← wrapped (Atoi (env "REDIS_DB" "0")) "REDIS_DB";
  cfTTL ← wrapped (ParseDuration (env "CENTRIFUGO_TOKEN_TTL" "1h")) "CENTRIFUGO_TOKEN_TTL";
  subTTL ← wrapped (ParseDuration (env "CENTRIFUGO_SUBSCRIPTION_TOKEN_TTL" "5m")) "CENTRIFUGO_SUBSCRIPTION_TOKEN_TTL";
  authTTL ← wrapped (ParseDuration (env "AUTH_TOKEN_TTL" "24h")) "AUTH_TOKEN_TTL";
  mret (db, cfTTL, subTTL, authTTL).

Definition load_engagement : res EngagementConfig :=
  viewerTTL ← checked (ParseDuration (env "VIEWER_TTL" "90s")) not_positive "VIEWER_TTL must be a positive duration";
  statsInterval ← checked (ParseDuration (env "STATS_INTERVAL" "200ms")) not_positive "STATS_INTERVAL must be a positive duration";
  window ← checked (ParseDuration (env "ACTIVE_ROOM_WINDOW" "3m")) (fun v => v <=? viewerTTL) "ACTIVE_ROOM_WINDOW must be greater than VIEWER_TTL";
  batch ← checked (ParseInt (env "ACTIVE_ROOM_BATCH" "1000")) not_positive "ACTIVE_ROOM_BATCH must be a positive integer";
  shards ← checked (ParseInt (env "ACTIVE_ROOM_SHARDS" "16")) (fun v => (v <=? 0) || (1024 <? v)) "ACTIVE_ROOM_SHARDS must be between 1 and 1024";
  snapshot ← checked (ParseDuration (env "LIKE_SNAPSHOT_INTERVAL" "10s")) not_positive "LIKE_SNAPSHOT_INTERVAL must be a positive duration";
  mret (mkEngagementConfig viewerTTL statsInterval window batch shards snapshot).

Definition load_like : res LikeConfig :=
  limit ← checked (ParseInt (env "LIKE_USER_RATE_LIMIT" "300")) not_positive "LIKE_USER_RATE_LIMIT must be a positive integer";
  window ← checked (ParseDuration (env "LIKE_USER_RATE_WINDOW" "1s")) not_positive "LIKE_USER_RATE_WINDOW must be a positive duration";
  roomTTL ← checked (ParseDuration (env "LIKE_ROOM_CACHE_TTL" "2s")) not_positive "LIKE_ROOM_CACHE_TTL must be a positive duration";
  banTTL ← checked (ParseDuration (env "LIKE_BAN_CACHE_TTL" "1s")) not_positive "LIKE_BAN_CACHE_TTL must be a positive duration";
  mret (mkLikeConfig limit window roomTTL banTTL).

Definition load_limits : res (Z * Z * GiftLimits) :=
  limit ← checked (Atoi (env "DANMAKU_USER_RATE_LIMIT" "5")) not_positive "DANMAKU_USER_RATE_LIMIT must be a positive integer";
  window ← checked (ParseDuration (env "DANMAKU_USER_RATE_WINDOW" "10s")) not_positive "DANMAKU_USER_RATE_WINDOW must be a positive duration";
  max ← checked (ParseInt (env "GIFT_MAX_COUNT_PER_REQUEST" "100")) (fun v => (v <=? 0) || (10000 <? v))
          "GIFT_MAX_COUNT_PER_REQUEST must be between 1 and 10000";
  glimit ← checked (Atoi (env "GIFT_USER_RATE_LIMIT" "10")) not_positive "GIFT_USER_RATE_LIMIT must be a positive integer";
  gwindow ← checked (ParseDuration (env "GIFT_USER_RATE_WINDOW" "1s")) not_positive "GIFT_USER_RATE_WINDOW must be a positive duration";
  mret (limit, window, mkGiftLimits max glimit gwindow).

Definition allowedWorkerRoles : list string := ["stats"; "like-snapshot"; "outbox"; "gift-consumer"; "danmaku-consumer"].
Fixpoint check_roles (roles seen : list string) : res (list string) :=
  match roles with
  | [] => mret []
  | role :: roles =>
    let role := ToLower (TrimSpace role) in
    if negb (bool_decide (role ∈ allowedWorkerRoles)) then Err (Fresh ("WORKER_ROLES contains unsupported role " +:+ quote role))
    else if bool_decide (role ∈ seen) then Err (Fresh ("WORKER_ROLES contains duplicate role " +:+ quote role))
    else rest ← check_roles roles (role :: seen); mret (role :: rest)
  end.
Definition load_roles : res (list string) :=
  match splitCSV (env "WORKER_ROLES" "stats,like-snapshot,outbox,gift-consumer,danmaku-consumer") with
  | [] => Err (Fresh "WORKER_ROLES must contain at least one role")
  | roles => check_roles roles []
  end.

Definition kafka_role (role : string) : bool := bool_decide (role ∈ ["outbox"; "gift-consumer"; "danmaku-consumer"]).
Definition needsKafkaCredentials (roles : list string) : bool :=
  if bool_decide (TrimSpace (getenv "WORKER_ROLES") = "") then true else existsb kafka_role roles.
Definition load_kafka (roles : list string) : res KafkaConfig :=
  let brokers := splitCSV (env "KAFKA_BROKERS" "kafka:9092") in
  if bool_decide (brokers = []) then Err (Fresh "KAFKA_BROKERS must contain at least one broker") else
  tls ← wrapped (ParseBool (env "KAFKA_TLS_ENABLED" "false")) "KAFKA_TLS_ENABLED";
  let mechanism := ToLower (TrimSpace (getenv "KAFKA_SASL_MECHANISM")) in
  if negb (bool_decide (mechanism ∈ [""; "plain"; "scram-sha-256"; "scram-sha-512"]))
  then Err (Fresh "KAFKA_SASL_MECHANISM must be one of: plain, scram-sha-256, scram-sha-512")
  else if negb (bool_decide (mechanism = "")) && needsKafkaCredentials roles
          && (bool_decide (getenv "KAFKA_SASL_USERNAME" = "") || bool_decide (getenv "KAFKA_SASL_PASSWORD" = ""))
  then Err (Fresh "KAFKA_SASL_USERNAME and KAFKA_SASL_PASSWORD are required when Kafka is used with KAFKA_SASL_MECHANISM")
  else
  lease ← checked (ParseDuration (env "KAFKA_CONSUMER_LEASE" "30s")) not_positive "KAFKA_CONSUMER_LEASE must be a positive duration";
  mret (mkKafkaConfig brokers (env "KAFKA_DANMAKU_TOPIC" "live.danmaku.v1") (env "KAFKA_GIFT_TOPIC" "live.gift.v1")
          (env "KAFKA_DANMAKU_CONSUMER_GROUP" "live-danmaku-persist-v1") (env "KAFKA_GIFT_CONSUMER_GROUP" "live-gift-realtime-v1")
          lease tls mechanism (getenv "KAFKA_SASL_USERNAME") (getenv "KAFKA_SASL_PASSWORD")).

Definition load_outbox : res OutboxConfig :=
  poll ← checked (ParseDuration (env "OUTBOX_POLL_INTERVAL" "100ms")) not_positive "OUTBOX_POLL_INTERVAL must be a positive duration";
  batch ← checked (Atoi (env "OUTBOX_BATCH_SIZE" "100")) (fun v => (v <=? 0) || (1000 <? v)) "OUTBOX_BATCH_SIZE must be between 1 and 1000";
  lease ← checked (ParseDuration (env "OUTBOX_LEASE" "30s")) not_positive "OUTBOX_LEASE must be a positive duration";
  timeout ← checked (ParseDuration (env "OUTBOX_PRODUCE_TIMEOUT" "5s")) not_positive "OUTBOX_PRODUCE_TIMEOUT must be a positive duration";
  mret (mkOutboxConfig poll batch lease timeout).

(** The float tests are the code's, which are false on NaN. *)
Definition load_traffic : res TrafficConfig :=
  hotViewers ← checked (ParseInt (env "DANMAKU_HOT_VIEWERS" "50000")) not_positive "DANMAKU_HOT_VIEWERS must be a positive integer";
  protectViewers ← checked (ParseInt (env "DANMAKU_PROTECT_VIEWERS" "100000")) (fun v => v <? hotViewers)
    "DANMAKU_PROTECT_VIEWERS must be >= DANMAKU_HOT_VIEWERS";
  hotRate ← checked (ParseInt (env "DANMAKU_HOT_RATE" "500")) not_positive "DANMAKU_HOT_RATE must be a positive integer";
  protectRate ← checked (ParseInt (env "DANMAKU_PROTECT_RATE" "2000")) (fun v => v <? hotRate) "DANMAKU_PROTECT_RATE must be >= DANMAKU_HOT_RATE";
  hotSample ← checked (parse_float (env "DANMAKU_HOT_SAMPLE_RATE" "0.5")) (fun v => fle v zero || flt one v)
    "DANMAKU_HOT_SAMPLE_RATE must be in (0,1]";
  protectSample ← checked (parse_float (env "DANMAKU_PROTECT_SAMPLE_RATE" "0.2")) (fun v => fle v zero || flt hotSample v)
    "DANMAKU_PROTECT_SAMPLE_RATE must be in (0,DANMAKU_HOT_SAMPLE_RATE]";
  window ← checked (ParseDuration (env "DANMAKU_RATE_WINDOW" "1s")) (fun v => v <? Millisecond) "DANMAKU_RATE_WINDOW must be at least 1ms";
  adaptive ← wrapped (ParseBool (env "DANMAKU_ADAPTIVE_ENABLED" "true")) "DANMAKU_ADAPTIVE_ENABLED";
  target ← checked (parse_float (env "DANMAKU_TARGET_FANOUT_RATE" "25000")) (fun v => fle v zero) "DANMAKU_TARGET_FANOUT_RATE must be positive";
  hotFanout ← checked (parse_float (env "DANMAKU_HOT_FANOUT_RATE" "30000")) (fun v => flt v target)
    "DANMAKU_HOT_FANOUT_RATE must be >= DANMAKU_TARGET_FANOUT_RATE";
  protectFanout ← checked (parse_float (env "DANMAKU_PROTECT_FANOUT_RATE" "40000")) (fun v => flt v hotFanout)
    "DANMAKU_PROTECT_FANOUT_RATE must be >= DANMAKU_HOT_FANOUT_RATE";
  minSample ← checked (parse_float (env "DANMAKU_MIN_SAMPLE_RATE" "0.05")) (fun v => fle v zero || flt one v) "DANMAKU_MIN_SAMPLE_RATE must be in (0,1]";
  mret (mkTraffic hotViewers protectViewers hotRate protectRate hotSample protectSample window adaptive target hotFanout protectFanout minSample).

Definition service_config (addr_key addr url_key : string) : CommerceConfig :=
  mkCommerceConfig (env addr_key addr) (trim_right_slash (TrimSpace (getenv url_key))).
Definition load_databases : DatabaseConfig := mkDatabaseConfig
  (env "IDENTITY_MYSQL_DSN" "live_identity_app:identity-app@tcp(mysql:3306)/identity?parseTime=true&charset=utf8mb4")
  (env "ROOM_MYSQL_DSN" "live_room_app:room-app@tcp(mysql:3306)/room?parseTime=true&charset=utf8mb4")
  (env "COMMERCE_MYSQL_DSN" "live_commerce_app:commerce-app@tcp(mysql:3306)/commerce?parseTime=true&charset=utf8mb4")
  (env "ARCHIVE_MYSQL_DSN" "live_archive_app:archive-app@tcp(mysql:3306)/archive?parseTime=true&charset=utf8mb4")
  (env "QUERY_MYSQL_DSN" "live_query_audit:query-audit@tcp(mysql:3306)/query?parseTime=true&charset=utf8mb4")
  (env "QUERY_WRITER_MYSQL_DSN" "live_query_app:query-app@tcp(mysql:3306)/query?parseTime=true&charset=utf8mb4").

Definition Load : res Config :=
  mysql ← load_mysql;
  ttls ← load_ttls;
  let '(db, cfTTL, subTTL, authTTL) := ttls : Z * Z * Z * Z in
  engagement ← load_engagement;
  like ← load_like;
  devCredit ← wrapped (ParseBool (env "ENABLE_DEV_WALLET_CREDIT" "false")) "ENABLE_DEV_WALLET_CREDIT";
  limits ← load_limits;
  let '(dLimit, dWindow, gift) := limits : Z * Z * GiftLimits in
  roles ← load_roles;
  kafka ← load_kafka roles;
  outbox ← load_outbox;
  observability ← loadObservability;
  traffic ← load_traffic;
  let words := splitCSV (env "DANMAKU_SENSITIVE_WORDS" "spam,banned") in
  mret (mkConfig (env "HTTP_ADDR" ":8080")
    (service_config "COMMERCE_HTTP_ADDR" ":8081" "COMMERCE_BASE_URL") (service_config "INTERACTION_HTTP_ADDR" ":8082" "INTERACTION_BASE_URL")
    (service_config "IDENTITY_ROOM_HTTP_ADDR" ":8083" "IDENTITY_ROOM_BASE_URL") (service_config "QUERY_HTTP_ADDR" ":8084" "QUERY_BASE_URL")
    mysql load_databases (mkRedisConfig (getenv "REDIS_URL") (env "REDIS_ADDR" "redis:6379") (getenv "REDIS_PASSWORD") db)
    (mkCentrifugoConfig (env "CENTRIFUGO_API_URL" "http://centrifugo:8000/api") (env "CENTRIFUGO_API_KEY" "dev-api-key-change-me")
       (env "CENTRIFUGO_TOKEN_SECRET" "dev-token-secret-change-me") cfTTL subTTL)
    (mkAuthConfig (env "AUTH_JWT_SECRET" "dev-app-jwt-secret-change-me") authTTL)
    (mkDanmakuConfig words dLimit dWindow) like gift engagement devCredit kafka outbox observability traffic roles).
End load.
