(* ===== verification/ConfigSpec.v ===== *)
(** What a loaded configuration guarantees to the components that are built from it. *)
From Stdlib Require Import SpecFloat Ascii Wf_nat.
From S2P Require Import Prelude GoStrings Traffic TrafficSpec Instances Config.

(** ** Results *)
Lemma res_bind_ok {A B} (m : res A) (k : A -> res B) b : (m ≫= k) = Ok b -> exists a, m = Ok a /\ k a = Ok b.
Proof. unfold mbind, res_bind. destruct m as [a|e]; [eauto|done]. Qed.
Lemma checked_ok {A} (v : option A) bad msg a : checked v bad msg = Ok a -> v = Some a /\ bad a = false.
Proof. unfold checked. destruct v as [x|]; [|done]. destruct (bad x) eqn:E; [done|]. by intros [= <-]. Qed.
Lemma wrapped_ok {A} (v : option A) key a : wrapped v key = Ok a -> v = Some a.
Proof. unfold wrapped. destruct v; [|done]. by intros [= <-]. Qed.

(** Split a successful load into its steps. *)
Ltac load_step :=
  match goal with
  | H : (_ ≫= _) = Ok _ |- _ => apply res_bind_ok in H as (? & ? & H); cbv beta zeta in H
  | H : checked _ _ _ = Ok _ |- _ => apply checked_ok in H as [? ?]
  | H : wrapped _ _ = Ok _ |- _ => apply wrapped_ok in H
  | H : mret _ = Ok _ |- _ => injection H as <-
  | H : not_positive _ = false |- _ => apply Z.leb_gt in H
  | H : _ || _ = false |- _ => apply orb_false_iff in H as [? ?]
  | H : (_ <=? _) = false |- _ => apply Z.leb_gt in H
  | H : (_ <? _) = false |- _ => apply Z.ltb_ge in H
  end.
Ltac load := repeat load_step.

(** ** Durations and integers *)
Lemma digit_value_nonneg a d : digit_value a = Some d -> 0 <= d.
Proof. unfold digit_value. case_match eqn:E; [|done]. intros [= <-]. apply andb_true_iff in E as [?%Z.leb_le ?]. lia. Qed.
Lemma leadingInt_nonneg s x v r : 0 <= x -> leadingInt s x = Some (v, r) -> 0 <= v.
Proof.
  revert x. induction s as [|a s IH]; intros x Hx; cbn [leadingInt]; [by intros [= <- <-]|].
  destruct (digit_value a) as [d|] eqn:E; [|by intros [= <- <-]]. apply digit_value_nonneg in E.
  destruct (_ <? x); [done|]. destruct (two63 <? _); [done|]. apply IH. lia.
Qed.
Lemma trunc_nonneg f : 0 <= trunc_Z f.
Proof.
  destruct f as [| | |[] m e]; cbn; try lia. destruct (Z.leb_spec 0 e); [nia|]. apply Z.div_pos; [lia|]. nia.
Qed.
Lemma unitMap_pos u v : unitMap u = Some v -> 0 < v.
Proof. unfold unitMap, Second. intros H. repeat case_match; simplify_eq; lia. Qed.
Lemma duration_term_nonneg s v r : duration_term s = Some (v, r) -> 0 <= v.
Proof.
  unfold duration_term. destruct s as [|a s]; [done|]. destruct (negb _); [done|].
  intros H. apply bind_Some in H as ([v0 s1] & Hl & H). apply leadingInt_nonneg in Hl; [|done].
  destruct (match s1 with String b t => _ | EmptyString => _ end) as [[[f scale] s2] post].
  destruct (_ && _); [done|]. destruct (unit_text s2) as [u rest]. case_bool_decide; [done|].
  apply bind_Some in H as (unit & Hu & H). apply unitMap_pos in Hu. destruct (_ <? v0); [done|].
  destruct (two63 <? _); [done|]. injection H as <- <-. pose proof (trunc_nonneg (fmul (float_of_Z f) (fdiv (float_of_Z unit) scale))).
  destruct (0 <? f); nia.
Qed.
Lemma duration_terms_nonneg fuel s d t : 0 <= d <= two63 -> duration_terms fuel s d = Some t -> 0 <= t <= two63.
Proof.
  revert s d. induction fuel as [|fuel IH]; intros s d Hd; (destruct s as [|a s]; [by intros [= <-]|]); [done|].
  cbn [duration_terms]. intros H. apply bind_Some in H as ([v r] & Hv & H). apply duration_term_nonneg in Hv.
  destruct (Z.ltb_spec two63 (d + v)); [done|]. eapply IH; [|exact H]. lia.
Qed.
Lemma ParseDuration_int64 s d : ParseDuration s = Some d -> in_int64 d.
Proof.
  unfold ParseDuration. destruct (match s with String a t => _ | EmptyString => _ end) as [neg t].
  case_bool_decide; [intros [= <-]; by vm_compute|]. case_bool_decide; [done|].
  intros Hrun. apply bind_Some in Hrun as (v & Hv & Hrun). apply duration_terms_nonneg in Hv; [|by vm_compute].
  unfold in_int64, int64_min, int64_max, two63 in *. destruct neg; [injection Hrun as <-; lia|].
  destruct (Z.ltb_spec (2 ^ 63 - 1) v); [done|]. injection Hrun as <-. lia.
Qed.
Lemma parse_digits_nonneg s acc v : 0 <= acc -> parse_digits s acc = Some v -> 0 <= v.
Proof.
  revert acc. induction s as [|a s IH]; intros acc Hacc; cbn [parse_digits]; [by intros [= <-]|].
  destruct (digit_value a) as [d|] eqn:E; [|done]. apply digit_value_nonneg in E. apply IH. lia.
Qed.
Lemma parse_unsigned_nonneg s v : parse_unsigned s = Some v -> 0 <= v.
Proof. destruct s; [done|]. by apply parse_digits_nonneg. Qed.
Lemma ParseInt_int64 s v : ParseInt s = Some v -> in_int64 v.
Proof.
  unfold ParseInt. assert (Hs : forall neg t, match parse_unsigned t with
    | Some n => if (neg : bool) then (if n <=? 2 ^ 63 then Some (- n) else None) else (if n <? 2 ^ 63 then Some n else None)
    | None => None end = Some v -> in_int64 v).
  { intros neg t. destruct (parse_unsigned t) as [n|] eqn:E; [|done]. apply parse_unsigned_nonneg in E. unfold in_int64, int64_min, int64_max.
    destruct neg; [destruct (Z.leb_spec n (2 ^ 63))|destruct (Z.ltb_spec n (2 ^ 63))]; intros [= <-]; lia. }
  destruct s as [|a t]; [done|]. destruct (Ascii.eqb a _); [apply (Hs false)|]. destruct (Ascii.eqb a _); [apply (Hs true)|apply (Hs false)].
Qed.

(** *** Enough fuel *)
Lemma leadingInt_length s x v r : leadingInt s x = Some (v, r) -> (String.length r <= String.length s)%nat.
Proof.
  revert x. induction s as [|a s IH]; intros x; cbn [leadingInt]; [by intros [= <- <-]|].
  destruct (digit_value a); [|by intros [= <- <-]]. destruct (_ <? x); [done|]. destruct (two63 <? _); [done|].
  intros H%IH. cbn. lia.
Qed.
Lemma leadingFraction_length s x scale o : (String.length (leadingFraction s x scale o).2 <= String.length s)%nat.
Proof.
  revert x scale o. induction s as [|a s IH]; intros x scale o; cbn [leadingFraction]; [done|].
  destruct (digit_value a); [|done]. cbn [String.length].
  destruct o; [etransitivity; [apply IH|lia]|]. destruct (_ <? x); [etransitivity; [apply IH|lia]|].
  destruct (two63 <? _); (etransitivity; [apply IH|lia]).
Qed.
Lemma unit_text_length s : (String.length (unit_text s).1 + String.length (unit_text s).2 = String.length s)%nat.
Proof.
  induction s as [|a s IH]; [done|]. cbn [unit_text]. destruct (_ || _); [done|]. destruct (unit_text s) as [u r]. cbn in *. lia.
Qed.
(** A term leaves less text than it was given. *)
Lemma duration_term_shorter s v r : duration_term s = Some (v, r) -> (String.length r < String.length s)%nat.
Proof.
  unfold duration_term. destruct s as [|a s]; [done|]. destruct (negb _); [done|].
  intros H. apply bind_Some in H as ([v0 s1] & Hl & H). apply leadingInt_length in Hl.
  assert (Hs2 : (String.length (match s1 with
      | String b t => if Ascii.eqb b "."%char then let '(f, scale, r) := leadingFraction t 0%Z one false in (f, scale, r, negb (String.length r =? String.length t)%nat)
                      else (0%Z, one, s1, false)
      | EmptyString => (0%Z, one, s1, false) end).1.2 <= String.length s1)%nat).
  { destruct s1 as [|b t]; [done|]. destruct (Ascii.eqb b _); [|done]. pose proof (leadingFraction_length t 0 one false).
    destruct (leadingFraction t 0 one false) as [[f sc] r0]. cbn in *. lia. }
  destruct (match s1 with String b t => _ | EmptyString => _ end) as [[[f scale] s2] post]. cbn [fst snd] in Hs2.
  destruct (_ && _); [done|]. pose proof (unit_text_length s2) as Hu. destruct (unit_text s2) as [u rest]. cbn [fst snd] in Hu.
  case_bool_decide as Hne; [done|]. apply bind_Some in H as (unit & _ & H). destruct (_ <? v0); [done|].
  destruct (two63 <? _); [done|]. injection H as _ <-. assert (String.length u <> 0)%nat by (by destruct u). lia.
Qed.
Lemma duration_terms_fuel fuel s d : (String.length s <= fuel)%nat -> duration_terms fuel s d = duration_terms (String.length s) s d.
Proof.
  revert fuel d. induction s as [s IH] using (induction_ltof1 _ String.length); intros fuel d Hf.
  destruct s as [|a s]; [by destruct fuel|]. destruct fuel as [|fuel]; [cbn in Hf; lia|]. cbn [String.length duration_terms].
  destruct (duration_term (String a s)) as [[v r]|] eqn:E; [|done]. cbn [mbind option_bind].
  apply duration_term_shorter in E. destruct (two63 <? _); [done|]. unfold ltof in IH. cbn in E, Hf.
  assert (Hr : (String.length r < S (String.length s))%nat) by lia.
  rewrite (IH r Hr fuel), (IH r Hr (String.length s)) by lia. done.
Qed.

(** ** Floats *)
Lemma flt_of_not_le x y : is_nan x = false -> is_nan y = false -> fle y x = false -> flt x y = true.
Proof. intros Hx Hy. destruct (flt x y) eqn:E; [done|]. by rewrite (fle_of_not_lt x y). Qed.
Lemma fle_trans_positive x y z : flt zero x = true -> fle x y = true -> fle y z = true -> fle x z = true.
Proof.
  destruct x as [|[]| |[] m1 e1]; try done; destruct y as [|[]| |[] m2 e2]; try done; destruct z as [|[]| |[] m3 e3]; try done.
  intros _. unfold fle, SFleb. cbn.
  change (Pos.compare_cont Eq m1 m2) with (m1 ?= m2)%positive. change (Pos.compare_cont Eq m2 m3) with (m2 ?= m3)%positive.
  change (Pos.compare_cont Eq m1 m3) with (m1 ?= m3)%positive.
  destruct (Z.compare_spec e1 e2), (Z.compare_spec e2 e3), (Z.compare_spec e1 e3); try done; try lia;
    destruct (Pos.compare_spec m1 m2), (Pos.compare_spec m2 m3), (Pos.compare_spec m1 m3); try done; lia.
Qed.

(** ** The configuration *)
Section config.
Context `{UnicodeTables} `{FloatText}.
Variables (getenv : string -> string) (quote : string -> string).

(** No NaN among the rates, and a finite target. *)
Definition rates_are_numbers (t : TrafficConfig) : Prop :=
  Forall (fun r => is_nan r = false) [MinSampleRate t; HotSampleRate t; ProtectSampleRate t] /\ is_pos_inf (TargetFanoutRate t) = false.

(** No NaN among the fan-out thresholds. *)
Definition fanouts_are_numbers (t : TrafficConfig) : Prop :=
  Forall (fun r => is_nan r = false) [TargetFanoutRate t; HotFanoutRate t; ProtectFanoutRate t].

Record config_ok (c : Config) : Prop := {
  ok_mysql : 0 < mc_MaxOpenConns (cg_MySQL c) /\ 0 <= mc_MaxIdleConns (cg_MySQL c) <= mc_MaxOpenConns (cg_MySQL c)
    /\ 0 < mc_ConnMaxLifetime (cg_MySQL c);
  ok_engagement : let e := cg_Engagement c in
    0 < en_ViewerTTL e < en_ActiveRoomWindow e /\ 0 < en_StatsInterval e /\ 0 < en_ActiveRoomBatch e
    /\ 1 <= en_ActiveRoomShards e <= 1024 /\ 0 < en_LikeSnapshotInterval e;
  ok_like : let l := cg_Like c in
    0 < lc_UserRateLimit l /\ 0 < lc_UserRateWindow l /\ 0 < lc_RoomCacheTTL l /\ 0 < lc_BanCacheTTL l;
  ok_danmaku : 0 < dk_UserRateLimit (cg_Danmaku c) /\ 0 < dk_UserRateWindow (cg_Danmaku c)
    /\ Forall (fun w => w <> "") (dk_SensitiveWords (cg_Danmaku c));
  ok_gift : 1 <= gl_MaxCountPerRequest (cg_Gift c) <= 10000 /\ 0 < gl_UserRateLimit (cg_Gift c) /\ 0 < gl_UserRateWindow (cg_Gift c);
  ok_roles : cg_Roles c <> [] /\ NoDup (cg_Roles c) /\ Forall (fun r => r ∈ allowedWorkerRoles) (cg_Roles c);
  ok_kafka : let k := cg_Kafka c in
    ka_Brokers k <> [] /\ Forall (fun b => b <> "") (ka_Brokers k) /\ 0 < ka_ConsumerLease k
    /\ ka_SASLMechanism k ∈ [""; "plain"; "scram-sha-256"; "scram-sha-512"]
    /\ (ka_SASLMechanism k <> "" -> existsb kafka_role (cg_Roles c) = true -> ka_SASLUsername k <> "" /\ ka_SASLPassword k <> "");
  ok_outbox : let o := cg_Outbox c in
    0 < ou_PollInterval o /\ 1 <= ou_BatchSize o <= 1000 /\ 0 < ou_Lease o /\ 0 < ou_ProduceTimeout o;
  ok_traffic : let t := cg_Traffic c in
    0 < HotViewers t <= ProtectViewers t /\ 0 < HotDanmakuRate t <= ProtectDanmakuRate t /\ Millisecond <= RateWindow t
    /\ (rates_are_numbers t -> rates_ok t /\ fle (ProtectSampleRate t) (HotSampleRate t) = true)
    /\ (fanouts_are_numbers t -> flt zero (TargetFanoutRate t) = true /\ fle (TargetFanoutRate t) (HotFanoutRate t) = true
        /\ fle (HotFanoutRate t) (ProtectFanoutRate t) = true);
  ok_widths : Forall in_int64 [mc_ConnMaxLifetime (cg_MySQL c); cf_TokenTTL (cg_Centrifugo c); cf_SubscriptionTokenTTL (cg_Centrifugo c);
    au_TokenTTL (cg_Auth c); en_ViewerTTL (cg_Engagement c); en_ActiveRoomWindow (cg_Engagement c); ka_ConsumerLease (cg_Kafka c); ou_Lease (cg_Outbox c)] }.

Lemma splitCSV_nonempty s : Forall (fun v => v <> "") (splitCSV s).
Proof.
  apply Forall_forall. intros v Hv. unfold splitCSV in Hv. apply list_elem_of_In, filter_In in Hv as [_ Hv].
  apply negb_true_iff in Hv. by apply bool_decide_eq_false in Hv.
Qed.
Lemma check_roles_ok roles seen out : check_roles quote roles seen = Ok out ->
  length out = length roles /\ NoDup out /\ Forall (fun r => r ∈ allowedWorkerRoles /\ r ∉ seen) out.
Proof.
  revert seen out. induction roles as [|role roles IH]; intros seen out; cbn [check_roles].
  - intros [= <-]. split; [done|]. by split; [apply NoDup_nil|].
  - case_bool_decide as Hallowed; cbn [negb]; [|done]. case_bool_decide as Hseen; [done|].
    intros Hrun. apply res_bind_ok in Hrun as (rest & Hrest & [= <-]). apply IH in Hrest as (Hlen & Hnd & Hall).
    split; [cbn; lia|]. split.
    + apply NoDup_cons. split; [|done]. intros Hin. rewrite Forall_forall in Hall. destruct (Hall _ Hin) as [_ Hn]. apply Hn. by left.
    + apply Forall_cons. split; [done|]. eapply Forall_impl; [exact Hall|]. intros r [Hr Hns]. split; [done|]. intros Hin. apply Hns. by right.
Qed.
Lemma rates_in_range hot protect min :
  fle hot zero = false -> flt one hot = false -> fle protect zero = false -> flt hot protect = false -> fle min zero = false -> flt one min = false ->
  Forall (fun r => is_nan r = false) [min; hot; protect] ->
  Forall (fun r => flt zero r = true /\ fle r one = true) [min; hot; protect].
Proof.
  intros Hh1 Hh2 Hp1 Hp2 Hm1 Hm2 Hnum. apply Forall_cons in Hnum as [Hmn Hnum]. apply Forall_cons in Hnum as [Hhn Hnum].
  apply Forall_cons in Hnum as [Hpn _]. assert (Hone : is_nan one = false) by by vm_compute.
  assert (Hpos : forall x, is_nan x = false -> fle x zero = false -> flt zero x = true) by (intros x Hx Hf; by apply flt_of_not_le).
  repeat (apply Forall_cons; split); [..|done]; (split; [by apply Hpos|]).
  - by apply fle_of_not_lt.
  - by apply fle_of_not_lt.
  - apply (fle_trans_positive _ hot); [by apply Hpos|by apply fle_of_not_lt..].
Qed.

Lemma load_roles_ok roles : load_roles getenv quote = Ok roles ->
  roles <> [] /\ NoDup roles /\ Forall (fun r => r ∈ allowedWorkerRoles) roles.
Proof.
  unfold load_roles. destruct (splitCSV _) as [|r0 rs]; [done|]. intros Hr. apply check_roles_ok in Hr as (Hlen & Hnd & Hall).
  split; [by intros ->|]. split; [done|]. eapply Forall_impl; [exact Hall|]. by intros ? [].
Qed.
Lemma load_kafka_ok roles k : load_kafka getenv roles = Ok k ->
  ka_Brokers k <> [] /\ Forall (fun b => b <> "") (ka_Brokers k) /\ 0 < ka_ConsumerLease k
  /\ ka_SASLMechanism k ∈ [""; "plain"; "scram-sha-256"; "scram-sha-512"]
  /\ (ka_SASLMechanism k <> "" -> existsb kafka_role roles = true -> ka_SASLUsername k <> "" /\ ka_SASLPassword k <> "")
  /\ in_int64 (ka_ConsumerLease k).
Proof.
  unfold load_kafka. case_bool_decide as Hb; [done|]. intros Hrun. apply res_bind_ok in Hrun as (tls & _ & Hrun).
  case_bool_decide as Hm; cbn [negb] in Hrun; [|done].
  destruct (negb (bool_decide (ToLower (TrimSpace (getenv "KAFKA_SASL_MECHANISM")) = "")) && needsKafkaCredentials getenv roles && _) eqn:Ecred in Hrun; [done|].
  load. cbn [ka_Brokers ka_ConsumerLease ka_SASLMechanism ka_SASLUsername ka_SASLPassword].
  split; [done|]. split; [apply splitCSV_nonempty|]. split; [done|]. split; [done|]. split; [|by eapply ParseDuration_int64].
  intros Hne Hrole. rewrite bool_decide_eq_false_2 in Ecred by done. unfold needsKafkaCredentials in Ecred.
  assert (Hneeds : (if bool_decide (TrimSpace (getenv "WORKER_ROLES") = "") then true else existsb kafka_role roles) = true) by (by case_bool_decide).
  rewrite Hneeds in Ecred. cbn [negb andb] in Ecred. apply orb_false_iff in Ecred as [Hu%bool_decide_eq_false Hp%bool_decide_eq_false]. done.
Qed.

Lemma load_config_ok c : Load getenv quote = Ok c -> config_ok c.
Proof.
  intros Hload. unfold Load in Hload.
  apply res_bind_ok in Hload as (mysql & Hmysql & Hload). apply res_bind_ok in Hload as ([[[db cf] sub] auth] & Httl & Hload).
  apply res_bind_ok in Hload as (eng & Heng & Hload). apply res_bind_ok in Hload as (like & Hlike & Hload).
  apply res_bind_ok in Hload as (dev & _ & Hload). apply res_bind_ok in Hload as ([[dl dw] gift] & Hlim & Hload).
  apply res_bind_ok in Hload as (roles & Hroles & Hload). apply res_bind_ok in Hload as (kafka & Hkafka & Hload).
  apply res_bind_ok in Hload as (outbox & Hout & Hload). apply res_bind_ok in Hload as (obs & _ & Hload).
  apply res_bind_ok in Hload as (traffic & Htr & Hload). cbv zeta in Hload. injection Hload as <-.
  apply load_roles_ok in Hroles. apply load_kafka_ok in Hkafka as (Hk1 & Hk2 & Hk3 & Hk4 & Hk5 & Hk6).
  unfold load_mysql in Hmysql. unfold load_ttls in Httl. unfold load_engagement in Heng. unfold load_like in Hlike.
  unfold load_limits in Hlim. unfold load_outbox in Hout. unfold load_traffic in Htr. load.
  subst. split; cbn; try first [exact Hroles | split_and!; first [lia | done | apply splitCSV_nonempty]].
  - split; [lia|]. split; [lia|]. split; [lia|]. split.
    + intros [Hnum Hinf]. split; [split; [by eapply rates_in_range|done]|]. apply Forall_cons in Hnum as [_ Hnum].
      apply Forall_cons in Hnum as [Hh Hnum]. apply Forall_cons in Hnum as [Hp _]. by apply fle_of_not_lt.
    + intros Hnum. apply Forall_cons in Hnum as [Ht Hnum]. apply Forall_cons in Hnum as [Hh Hnum].
      apply Forall_cons in Hnum as [Hp _]. split; [by apply flt_of_not_le|]. split; by apply fle_of_not_lt.
  - repeat (apply Forall_cons; split); try done; try (apply Forall_nil; done); by eapply ParseDuration_int64.
Qed.

(** C34 Whatever the environment, a configuration that [Load] returns is well formed:
    pool sizes, intervals, cache times, leases, limits and shards are within the ranges
    its error messages name (the three token lifetimes only fit 64 bits: their sign is
    not checked); the roles are a non-empty set of known worker roles; a SASL mechanism
    is a known one and comes with credentials whenever a role that uses Kafka is
    configured; the viewer and danmaku thresholds are ordered; and when the float
    settings are numbers, the sample rates are in (0,1] and ordered as the traffic
    policy requires, and the fan-out thresholds are positive and ordered. *)
Theorem loaded_config_is_well_formed c : Load getenv quote = Ok c -> config_ok c.
Proof. apply load_config_ok. Qed.
End config.

(** ** Examples *)
Module ConfigExamples.
#[local] Existing Instance ascii_tables.
(** Decimals written as a whole number or as one over a whole number, and NaN. *)
#[local] Instance some_floats : FloatText := {|
  parse_float := fun s =>
    if bool_decide (s = "0.5") then Some (fdiv one (float_of_Z 2))
    else if bool_decide (s = "0.2") then Some (fdiv one (float_of_Z 5))
    else if bool_decide (s = "0.05") then Some (fdiv one (float_of_Z 20))
    else if bool_decide (s = "NaN") then Some S754_nan
    else float_of_Z <$> ParseInt s |}.

(** The empty environment, and one with some variables set. *)
Definition empty_env (_ : string) : string := "".
Fixpoint with_vars (l : list (string * string)) (key : string) : string :=
  match l with [] => "" | (k, v) :: l => if bool_decide (k = key) then v else with_vars l key end.
Definition load_with (l : list (string * string)) : res Config := Load (with_vars l) (fun s => s).
Definition defaults : res Config := Eval vm_compute in load_with [].

Lemma loaded_config_is_well_formed_witness : exists c, load_with [] = Ok c /\ config_ok c /\ rates_ok (cg_Traffic c).
Proof.
  destruct defaults as [c|e] eqn:E; [|discriminate E]. exists c.
  assert (Hload : load_with [] = Ok c) by (vm_compute in E |- *; exact E).
  split; [exact Hload|]. pose proof (loaded_config_is_well_formed (with_vars []) (fun s => s) c Hload) as Hok.
  split; [exact Hok|]. apply (ok_traffic c Hok). injection E as <-. split; [repeat constructor|reflexivity].
Defined.

(** Refused and accepted environments; the last ones have a NaN sample rate and access
    tokens that have expired when they are issued. *)
Example environments :
  map (fun l => is_ok (load_with l))
    [[("MYSQL_MAX_IDLE_CONNS", "41")]; [("WORKER_ROLES", "stats, Stats")]; [("WORKER_ROLES", "stats,unknown")];
     [("KAFKA_SASL_MECHANISM", "plain")]; [("KAFKA_SASL_MECHANISM", "plain"); ("WORKER_ROLES", "stats")];
     [("OUTBOX_BATCH_SIZE", "1001")]; [("DANMAKU_HOT_SAMPLE_RATE", "NaN")]; [("AUTH_TOKEN_TTL", "-1h")]]
  = [false; false; false; false; true; false; true; true].
Proof. vm_compute. reflexivity. Qed.
End ConfigExamples.
