(* ===== verification/Migrate.v ===== *)
(** The migration runner: [cmd/migrate/main.go]. It takes the schema lock, applies
    the files that are not recorded yet in the order of their names, records each
    with its checksum, and gives every service account its password and the
    privileges on its own schema.

    DDL commits by itself, so nothing is undone when a run stops half way: a script
    whose connection breaks has executed some of its statements. The directory, the
    files, SHA-256 and the statements of the files are parameters. *)
From S2P Require Import Prelude GoStrings Mysql.

(** ** What the server holds *)
Record migration_row : Type := mkMigration { mg_version : string; mg_checksum : string; mg_applied_at : Z }.
Record account : Type := mkAccount { ac_password : string; ac_grants : gset (string * string) }.
(** [sc_lock] is the session that holds the advisory lock, [sc_migrations] the table
    [schema_migrations] once it exists, [sc_data] everything the files change and
    [sc_accounts] the accounts by principal. *)
Record Schemas (S : Type) : Type := mkSchemas {
  sc_lock : option Z;
  sc_migrations : option (list migration_row);
  sc_data : S;
  sc_accounts : gmap string account }.
Arguments mkSchemas {S}.
Arguments sc_lock {S}.
Arguments sc_migrations {S}.
Arguments sc_data {S}.
Arguments sc_accounts {S}.

(** [fmt.Errorf(text + ": %w", err)] around a failure of [m]. *)
Definition errorf {W A} (text : string) (m : M W A) : M W A :=
  r ← try m; match r with Ok a => mret a | Err e => throw (Wrapped (text +:+ ": ") e "") end.

(** What the runner meets outside the repository: the server's reading of a file as
    statements and the effect of one, how many statements of a script it had executed
    when the connection broke, [QUOTE] and the reading of a quoted string;
    [os.ReadDir] (name and whether it is a directory), [os.ReadFile] of a file of the
    directory, the hexadecimal SHA-256 of a text, [os.Getenv]; [mysql.ParseDSN] with
    [MultiStatements], and [sql.Open], which does not connect. *)
Class MigrationHost (S : Type) : Type := {
  statements : string -> list string;
  exec_statement : string -> S -> res S;
  cut : error -> nat;
  sql_quote : string -> string;
  sql_unquote : string -> string;
  read_dir : string -> res (list (string * bool));
  read_file : string -> string -> res string;
  sha256_hex : string -> string;
  getenv : string -> string;
  ParseDSN : string -> res string;
  sql_Open : string -> res unit }.

Section migrate.
Context `{UnicodeTables} `{MySQLServer} {S : Type} `{MigrationHost S}.
#[local] Abbreviation W := (Mysql (Schemas S)).

(** *** Scripts *)
Fixpoint exec_statements (l : list string) (d : S) : res unit * S :=
  match l with
  | [] => (Ok tt, d)
  | q :: l => match exec_statement q d with Ok d' => exec_statements l d' | Err e => (Err e, d) end
  end.
Definition set_data (d : S) (t : Schemas S) : Schemas S := mkSchemas (sc_lock t) (sc_migrations t) d (sc_accounts t).
Definition exec_script (l : list string) (t : Schemas S) : res unit * Schemas S :=
  let (r, d) := exec_statements l (sc_data t) in (r, set_data d t).

(** [conn.ExecContext(ctx, string(body))]. A script changes the data only: the scripts of
    the repository hold no [CREATE USER] and no [GRANT]. *)
Definition db_script (body : string) : M W unit := fun s =>
  let (fa, fl) := next_fault (faults s) in
  let leave t := mkMysql t (txn s) (db_now s) fl in
  match fa with
  | NoFault => let (r, t) := exec_script (statements body) (committed s) in (r, leave t)
  | Fails e => (Err e, leave (committed s))
  | AckLost e => (Err e, leave (exec_script (take (cut e) (statements body)) (committed s)).2)
  end.

(** *** Statements of the runner *)
Definition set_lock (l : option Z) (t : Schemas S) : Schemas S := mkSchemas l (sc_migrations t) (sc_data t) (sc_accounts t).
Definition set_migrations (m : option (list migration_row)) (t : Schemas S) : Schemas S :=
  mkSchemas (sc_lock t) m (sc_data t) (sc_accounts t).
Definition set_accounts (a : gmap string account) (t : Schemas S) : Schemas S :=
  mkSchemas (sc_lock t) (sc_migrations t) (sc_data t) a.

(** [SELECT GET_LOCK(..., 60)] of session [me]: 1, or 0 while another session holds it. *)
Definition get_lock (me : Z) : stmt (Schemas S) Z := fun _ t =>
  match sc_lock t with
  | None => Ok (1, set_lock (Some me) t)
  | Some holder => if holder =? me then Ok (1, t) else Ok (0, t)
  end.
(** [SELECT RELEASE_LOCK(...)], and what the server does when a session ends. *)
Definition unlocked (me : Z) (t : Schemas S) : Schemas S :=
  match sc_lock t with Some holder => if holder =? me then set_lock None t else t | None => t end.
Definition release_lock (me : Z) : stmt (Schemas S) unit := fun _ t => Ok (tt, unlocked me t).

Definition create_migrations : stmt (Schemas S) unit := fun _ t =>
  Ok (tt, match sc_migrations t with Some _ => t | None => set_migrations (Some []) t end).
Definition recorded (t : Schemas S) : list migration_row := default [] (sc_migrations t).
Definition find_migration (name : string) (rows : list migration_row) : option migration_row :=
  List.find (fun r => str_eq (mg_version r) name) rows.
Definition select_checksum (name : string) : stmt (Schemas S) string := reads (fun t =>
  match find_migration name (recorded t) with Some r => Ok (mg_checksum r) | None => Err sql_ErrNoRows end).
Definition insert_migration (name checksum : string) : stmt (Schemas S) unit := fun now t =>
  match find_migration name (recorded t) with
  | Some _ => Err (dup_entry name "schema_migrations.PRIMARY")
  | None => Ok (tt, set_migrations (Some (recorded t ++ [mkMigration name checksum now])) t)
  end.

(** *** Files *)
Definition migration_names (entries : list (string * bool)) : list string :=
  merge_sort String.le (map fst (List.filter (fun e => negb e.2 && HasSuffix e.1 ".sql") entries)).

Definition apply_migration (dir name : string) : M W unit :=
  body ← of_res (read_file dir name);
  let checksum := sha256_hex body in
  r ← try (db_exec (select_checksum name));
  match r with
  | Ok existing =>
    if bool_decide (existing = checksum) then mret tt
    else throw (Fresh ("migration " +:+ name +:+ " checksum changed after application"))
  | Err err =>
    if negb (same_error err sql_ErrNoRows) then throw (Wrapped ("check migration " +:+ name +:+ ": ") err "") else
    _ ← errorf ("apply migration " +:+ name) (db_script body);
    errorf ("record migration " +:+ name) (db_exec (insert_migration name checksum))
  end.
Fixpoint apply_migrations (dir : string) (names : list string) : M W unit :=
  match names with
  | [] => mret tt
  | name :: names => _ ← apply_migration dir name; apply_migrations dir names
  end.

(** *** Service accounts *)
Record serviceAccount : Type := mkServiceAccount {
  sa_schema : string; sa_user : string; sa_passwordEnv : string; sa_privileges : string }.
Definition accounts_of (schema : string) : list serviceAccount :=
  let upper := ToUpper schema in
  [mkServiceAccount schema ("live_" +:+ schema +:+ "_app") (upper +:+ "_MYSQL_APP_PASSWORD") "SELECT, INSERT, UPDATE, DELETE";
   mkServiceAccount schema ("live_" +:+ schema +:+ "_migrate") (upper +:+ "_MYSQL_MIGRATION_PASSWORD") "ALL PRIVILEGES";
   mkServiceAccount schema ("live_" +:+ schema +:+ "_audit") (upper +:+ "_MYSQL_AUDIT_PASSWORD") "SELECT"].
Definition service_schemas : list string := ["identity"; "room"; "commerce"; "archive"; "query"].
Definition service_accounts : list serviceAccount := concat (map accounts_of service_schemas).
Definition principal (a : serviceAccount) : string := "'" +:+ sa_user a +:+ "'@'%'".

Definition no_such_user (op : string) : error :=
  let m := "Operation " +:+ op +:+ " failed" in MySQLError 1396 m (error_string 1396 m).
Definition create_user (who quoted : string) : stmt (Schemas S) unit := fun _ t =>
  Ok (tt, match sc_accounts t !! who with
          | Some _ => t
          | None => set_accounts (<[who := mkAccount (sql_unquote quoted) ∅]> (sc_accounts t)) t
          end).
Definition change_user (op who : string) (f : account -> account) : stmt (Schemas S) unit := fun _ t =>
  match sc_accounts t !! who with
  | Some a => Ok (tt, set_accounts (<[who := f a]> (sc_accounts t)) t)
  | None => Err (no_such_user op)
  end.
Definition alter_user (who quoted : string) : stmt (Schemas S) unit :=
  change_user "ALTER USER" who (fun a => mkAccount (sql_unquote quoted) (ac_grants a)).
Definition revoke_all (who : string) : stmt (Schemas S) unit :=
  change_user "REVOKE" who (fun a => mkAccount (ac_password a) ∅).
Definition grant (privileges schema who : string) : stmt (Schemas S) unit :=
  change_user "GRANT" who (fun a => mkAccount (ac_password a) ({[(schema, privileges)]} ∪ ac_grants a)).

Definition account_password (a : serviceAccount) : string := TrimSpace (getenv (sa_passwordEnv a)).
Definition provision_account (a : serviceAccount) : M W unit :=
  let password := account_password a in
  if bool_decide (password = "") then throw (Fresh (sa_passwordEnv a +:+ " is required")) else
  quoted ← db_exec (reads (fun _ => Ok (sql_quote password)));
  _ ← db_exec (create_user (principal a) quoted);
  _ ← db_exec (alter_user (principal a) quoted);
  _ ← db_exec (revoke_all (principal a));
  db_exec (grant (sa_privileges a) (sa_schema a) (principal a)).
Fixpoint provision_accounts (l : list serviceAccount) : M W unit :=
  match l with
  | [] => mret tt
  | a :: l => _ ← provision_account a; provision_accounts l
  end.
Definition provisionServiceAccounts : M W unit := provision_accounts service_accounts.

(** *** One run *)
Definition migrate_locked (dir : string) : M W unit :=
  _ ← errorf "create schema_migrations" (db_exec create_migrations);
  entries ← errorf "read migrations dir" (of_res (read_dir dir));
  _ ← apply_migrations dir (migration_names entries);
  errorf "provision service accounts" provisionServiceAccounts.
(** One session from [db.Conn] on; [RELEASE_LOCK] is deferred. *)
Definition migrate_session (me : Z) (dir : string) : M W unit :=
  _ ← errorf "reserve mysql migration connection" (db_exec (reads (fun _ => Ok tt)));
  _ ← errorf "ping mysql" (db_exec (reads (fun _ => Ok tt)));
  locked ← errorf "acquire migration lock" (db_exec (get_lock me));
  if negb (locked =? 1) then throw (Fresh "migration lock timeout") else
  r ← try (migrate_locked dir);
  _ ← ignore (db_exec (release_lock me));
  of_res r.
(** [run]; the session [me] ends with it. *)
Definition run (me : Z) (dsn dir : string) : M W unit :=
  formatted ← errorf "parse mysql dsn" (of_res (ParseDSN dsn));
  _ ← of_res (sql_Open formatted);
  r ← try (migrate_session me dir);
  _ ← modify (fun s => mkMysql (unlocked me (committed s)) (txn s) (db_now s) (faults s));
  of_res r.

(** [main]: the exit code. *)
Definition migrate_main (me : Z) : M W Z :=
  let dsn := TrimSpace (getenv "MYSQL_DSN") in
  if bool_decide (dsn = "") then mret 1 else
  let dir := if bool_decide (getenv "MIGRATIONS_DIR" = "") then "/app/migrations" else getenv "MIGRATIONS_DIR" in
  r ← try (run me dsn dir);
  mret (if is_ok r then 0 else 1).
End migrate.
