(* ===== verification/MigrateSpec.v ===== *)
(** What the migration runner guarantees ([cmd/migrate/main.go]): runs that were
    interrupted anywhere converge to the schema of one complete run, and the service
    accounts are confined to their own schemas. *)
From Stdlib Require Import Ascii.
From S2P Require Import Prelude GoStrings Mysql Migrate Instances.

Section spec.
Context `{UnicodeTables} `{MySQLServer} {S : Type} `{MigrationHost S}.
#[local] Abbreviation T := (Schemas S).
#[local] Abbreviation W := (Mysql (Schemas S)).

(** ** Programs over the connection
    A fault is an error of the connection, never [sql.ErrNoRows]. *)
Definition proper (f : fault) : Prop :=
  match f with NoFault => True | Fails e | AckLost e => same_error e sql_ErrNoRows = false end.

(** From tables with [P], under any faults, [m] ends in [R] or fails in [E]; when
    [healthy] it fails only if there was a fault. *)
Definition does {A} (healthy : Prop) (P : T -> Prop) (m : M W A) (R : A -> T -> Prop) (E : T -> Prop) : Prop :=
  forall s, Forall proper (faults s) -> P (committed s) ->
    Forall proper (faults (m s).2) /\ (faults s = [] -> faults (m s).2 = [])
    /\ match (m s).1 with
       | Ok a => R a (committed (m s).2)
       | Err _ => E (committed (m s).2) /\ (healthy -> faults s <> [])
       end.

Section rules.
Variable healthy : Prop.

Lemma does_weaken {A} (P P' : T -> Prop) (m : M W A) (R R' : A -> T -> Prop) (E E' : T -> Prop) :
  does healthy P m R E -> (forall t, P' t -> P t) -> (forall a t, R a t -> R' a t) -> (forall t, E t -> E' t) -> does healthy P' m R' E'.
Proof.
  intros Hm HP HR HE s Hf Hs. destruct (Hm s Hf (HP _ Hs)) as (H1' & H2' & H3'). split; [done|]. split; [done|].
  destruct (m s).1; [by apply HR|]. destruct H3' as [??]. split; [by apply HE|done].
Qed.
Lemma does_ret {A} (a : A) (P : T -> Prop) (R : A -> T -> Prop) E : (forall t, P t -> R a t) -> does healthy P (mret a) R E.
Proof. intros HR s Hf Hs. split; [done|]. split; [done|]. by apply HR. Qed.
Lemma does_throw {A} e (P : T -> Prop) (R : A -> T -> Prop) (E : T -> Prop) :
  (forall t, P t -> E t /\ ~ healthy) -> does healthy P (throw e) R E.
Proof. intros HE s Hf Hs. split; [done|]. split; [done|]. destruct (HE _ Hs). by split. Qed.
Lemma does_of_res {A} (r : res A) (P : T -> Prop) (R : A -> T -> Prop) (E : T -> Prop) :
  match r with Ok a => forall t, P t -> R a t | Err _ => forall t, P t -> E t /\ ~ healthy end -> does healthy P (of_res r) R E.
Proof. destruct r as [a|e]; [apply does_ret|apply does_throw]. Qed.
Lemma does_bind {A B} (P : T -> Prop) (m : M W A) (k : A -> M W B) R R' E :
  does healthy P m R E -> (forall a, does healthy (R a) (k a) R' E) -> does healthy P (m ≫= k) R' E.
Proof.
  intros Hm Hk s Hf Hs. specialize (Hm s Hf Hs). unfold mbind, M_bind. destruct (m s) as [[a|e] s1]; cbn in *; [|done].
  destruct Hm as (Hf1 & Hn1 & HR). destruct (Hk a s1 Hf1 HR) as (Hf2 & Hn2 & Hr). split; [done|]. split; [auto|].
  destruct (k a s1).1; [done|]. destruct Hr as [HE Hh]. split; [done|]. intros Hhealthy Hnone. apply (Hh Hhealthy). auto.
Qed.
Lemma does_errorf {A} text P (m : M W A) R E : does healthy P m R E -> does healthy P (errorf text m) R E.
Proof.
  intros Hm s Hf Hs. specialize (Hm s Hf Hs). unfold errorf, try, mbind, M_bind. destruct (m s) as [[a|e] s1]; exact Hm.
Qed.
Lemma does_exec {A} (f : stmt T A) (P : T -> Prop) R (E : T -> Prop) :
  (forall t, P t -> E t) -> (forall now t e, P t -> f now t = Err e -> ~ healthy) ->
  (forall now t a t', P t -> f now t = Ok (a, t') -> R a t' /\ E t') -> does healthy P (db_exec f) R E.
Proof.
  intros HE Herr Hok s Hf Hs. unfold db_exec. destruct (faults s) as [|fa fl] eqn:Efl; cbn [next_fault].
  - destruct (f _ _) as [[a t']|e] eqn:Ef; cbn; (split; [done|split; [done|]]); [by eapply Hok|].
    split; [auto|]. intros Hh. destruct (Herr _ _ _ Hs Ef Hh).
  - apply Forall_cons in Hf as [Hfa Hfl]. destruct fa as [|e|e]; [destruct (f _ _) as [[a t']|e] eqn:Ef| |destruct (f _ _) as [[a t']|e'] eqn:Ef];
      cbn; (split; [done|split; [done|]]); try (split; [|done]); eauto; by eapply Hok.
Qed.
(** The tables on entry may be named. *)
Lemma does_from {A} (P : T -> Prop) (m : M W A) (R : A -> T -> Prop) (E : T -> Prop) :
  (forall t0, P t0 -> does healthy (fun t => t = t0) m R E) -> does healthy P m R E.
Proof. intros Hm s Hf Hs. by apply (Hm (committed s)). Qed.
(** A deferred statement whose result is dropped. *)
Lemma does_finally {A} (P : T -> Prop) (m : M W A) (cleanup : M W unit) (R : A -> T -> Prop) (E : T -> Prop) :
  does healthy P m R E -> (forall Q, (Q = E \/ exists a, Q = R a) -> does healthy Q cleanup (fun _ => Q) Q) ->
  does healthy P (r ← try m; _ ← ignore cleanup; of_res r) R E.
Proof.
  intros Hm Hc s Hf Hs. specialize (Hm s Hf Hs). unfold try, ignore, of_res, mbind, M_bind.
  destruct (m s) as [[a|e] s1]; cbn in *; destruct Hm as (Hf1 & Hn1 & Hr).
  - destruct (Hc (R a) (or_intror (ex_intro _ a eq_refl)) s1 Hf1 Hr) as (Hf2 & Hn2 & Hr2). split; [done|]. split; [auto|].
    destruct (cleanup s1).1; [done|by destruct Hr2].
  - destruct Hr as [HE Hh]. destruct (Hc E (or_introl eq_refl) s1 Hf1 HE) as (Hf2 & Hn2 & Hr2). split; [done|]. split; [auto|].
    split; [|done]. destruct (cleanup s1).1; [done|by destruct Hr2].
Qed.

Lemma does_of_res_bind {A B} (a : A) (k : A -> M W B) (P : T -> Prop) R (E : T -> Prop) :
  does healthy P (k a) R E -> does healthy P (of_res (Ok a) ≫= k) R E.
Proof. intros Hk. exact Hk. Qed.
End rules.

(** A lookup whose error is inspected: it answers from the tables, or there was a
    fault. *)
Lemma does_lookup {A B} healthy (f : T -> res A) (k : res A -> M W B) (P : T -> Prop) R (E : T -> Prop) :
  (forall t0, P t0 -> does healthy (fun t => t = t0) (k (f t0)) R E) ->
  (forall t0 e, P t0 -> same_error e sql_ErrNoRows = false -> does False (fun t => t = t0) (k (Err e)) R E) ->
  does healthy P (r ← try (db_exec (reads f)); k r) R E.
Proof.
  intros Hk Herr s Hf Hs. unfold try, db_exec, reads, mbind, M_bind.
  assert (Hgo : forall fl, Forall proper fl -> (faults s = [] -> fl = []) ->
    let s1 := mkMysql (committed s) (txn s) (db_now s) fl in
    Forall proper (faults (k (f (committed s)) s1).2) /\ (faults s = [] -> faults (k (f (committed s)) s1).2 = [])
    /\ match (k (f (committed s)) s1).1 with
       | Ok a => R a (committed (k (f (committed s)) s1).2)
       | Err _ => E (committed (k (f (committed s)) s1).2) /\ (healthy -> faults s <> [])
       end).
  { intros fl Hfl Hnone s1. destruct (Hk _ Hs s1 Hfl eq_refl) as (H1' & H2' & H3'). split; [done|]. split; [auto|].
    destruct (k _ s1).1; [done|]. destruct H3' as [HE Hh]. split; [done|]. intros Hok Hn. apply (Hh Hok). auto. }
  destruct (faults s) as [|fa fl] eqn:Efl; cbn [next_fault].
  - specialize (Hgo [] Hf (fun _ => eq_refl)). by destruct (f (committed s)).
  - apply Forall_cons in Hf as [Hfa Hfl].
    assert (Hfault : forall e, proper (Fails e) -> let s1 := mkMysql (committed s) (txn s) (db_now s) fl in
      Forall proper (faults (k (Err e) s1).2) /\ (fa :: fl = [] -> faults (k (Err e) s1).2 = [])
      /\ match (k (Err e) s1).1 with
         | Ok a => R a (committed (k (Err e) s1).2)
         | Err _ => E (committed (k (Err e) s1).2) /\ (healthy -> fa :: fl <> [])
         end).
    { intros e He s1. destruct (Herr _ e Hs He s1 Hfl eq_refl) as (H1' & _ & H3'). split; [done|]. split; [done|].
      destruct (k _ s1).1; [done|]. destruct H3' as [HE _]. by split. }
    destruct fa as [|e|e]; cbn.
    + specialize (Hgo fl Hfl ltac:(done)). by destruct (f (committed s)).
    + by apply Hfault.
    + destruct (f (committed s)); by apply Hfault.
Qed.

(** ** Scripts *)
(** The data after some attempts at a script, each cut off anywhere. *)
Inductive attempted (l : list string) (d : S) : S -> Prop :=
| not_attempted : attempted l d d
| attempted_again d' m : attempted l d d' -> attempted l d (exec_statements (take m l) d').2.

(** Whatever was attempted before, executing the script does what it does once. *)
Definition rerunnable (l : list string) : Prop :=
  forall d d', attempted l d d' -> exec_statements l d' = exec_statements l d.

Lemma does_script healthy body d (P R : T -> Prop) (E : T -> Prop) :
  rerunnable (statements body) -> (healthy -> (exec_statements (statements body) d).1 = Ok tt) ->
  (forall t, P t -> attempted (statements body) d (sc_data t)) -> (forall t, P t -> E t) ->
  (forall t d', P t -> attempted (statements body) d d' -> E (set_data d' t)) ->
  (forall t, P t -> (exec_statements (statements body) d).1 = Ok tt -> R (set_data (exec_statements (statements body) d).2 t)) ->
  does healthy P (db_script body) (fun _ => R) E.
Proof.
  intros Hre Hok Hatt HE Hpartial HR s Hf Hs. specialize (Hatt _ Hs).
  assert (Hcut : forall n, E (exec_script (take n (statements body)) (committed s)).2).
  { intros n. unfold exec_script. pose proof (attempted_again _ _ _ n Hatt) as Hn.
    destruct (exec_statements (take n _) _) as [r d']. by apply Hpartial. }
  assert (Hfull : (exec_script (statements body) (committed s)).2 = set_data (exec_statements (statements body) d).2 (committed s)
                  /\ (exec_script (statements body) (committed s)).1 = (exec_statements (statements body) d).1).
  { unfold exec_script. rewrite (Hre _ _ Hatt). by destruct (exec_statements _ _). }
  destruct Hfull as [Hdata Hres]. specialize (Hcut (length (statements body))) as Hall. rewrite firstn_all in Hall.
  unfold db_script. destruct (faults s) as [|fa fl] eqn:Efl; cbn [next_fault].
  - destruct (exec_script (statements body) (committed s)) as [[[]|e] t] eqn:Es; cbn in *; (split; [done|split; [done|]]).
    + subst t. by apply HR.
    + split; [done|]. intros Hh. rewrite <- Hres in Hok. by specialize (Hok Hh).
  - apply Forall_cons in Hf as [Hfa Hfl]. destruct fa as [|e|e]; cbn;
      [|split; [done|]; split; [done|]; split; [by auto|done]..].
    destruct (exec_script (statements body) (committed s)) as [[[]|e] t] eqn:Es; cbn in *; (split; [done|split; [done|]]).
    + subst t. by apply HR.
    + by split.
Qed.

(** ** Service accounts *)
Definition own (a : serviceAccount) : string * string := (sa_schema a, sa_privileges a).
Definition grants_of (m : gmap string account) (who : string) : gset (string * string) :=
  match m !! who with Some x => ac_grants x | None => ∅ end.
(** Seen from [m0]: accounts that are not service accounts are as they were, and a
    service account has the grants it had, none, or its own. *)
Definition confined (m0 m : gmap string account) : Prop := forall who,
  (~ (exists a, a ∈ service_accounts /\ principal a = who) -> m !! who = m0 !! who)
  /\ forall a, a ∈ service_accounts -> principal a = who ->
     grants_of m who = grants_of m0 who \/ grants_of m who = ∅ \/ grants_of m who = {[own a]}.
Definition settled (a : serviceAccount) (m : gmap string account) : Prop :=
  account_password a <> "" /\ m !! principal a = Some (mkAccount (account_password a) {[own a]}).

Lemma service_principals : NoDup (map principal service_accounts).
Proof. apply (bool_decide_unpack _). vm_compute. exact I. Qed.
Lemma principal_inj a b : a ∈ service_accounts -> b ∈ service_accounts -> principal a = principal b -> a = b.
Proof.
  intros Ha Hb E. apply list_elem_of_lookup in Ha as [i Hi], Hb as [j Hj].
  assert (i = j); [|congruence]. eapply (NoDup_lookup _ i j (principal a) service_principals).
  - by rewrite list_lookup_fmap, Hi.
  - by rewrite list_lookup_fmap, Hj, E.
Qed.

Lemma confined_refl m : confined m m.
Proof. intros who. split; [done|by left]. Qed.
(** A change of one service account to grants it may have. *)
Lemma confined_insert m0 m a x : confined m0 m -> a ∈ service_accounts ->
  ac_grants x = grants_of m (principal a) \/ ac_grants x = ∅ \/ ac_grants x = {[own a]} ->
  confined m0 (<[principal a := x]> m).
Proof.
  intros Hm Ha Hx who. destruct (Hm who) as [Hother Hown]. destruct (decide (principal a = who)) as [<-|Hne].
  - split; [intros Hno; destruct Hno; by exists a|]. intros b Hb E. apply principal_inj in E; [|done..]. subst b.
    replace (grants_of (<[principal a := x]> m) (principal a)) with (ac_grants x) by (unfold grants_of; by rewrite lookup_insert_eq).
    destruct Hx as [->|Hx]; [by apply Hown|by right].
  - unfold grants_of. rewrite lookup_insert_ne by done. by split.
Qed.
Lemma settled_insert a b x m : a ∈ service_accounts -> b ∈ service_accounts -> a <> b -> settled b m -> settled b (<[principal a := x]> m).
Proof. intros Ha Hb Hne [Hp Hs]. split; [done|]. rewrite lookup_insert_ne; [done|]. intros E. by apply Hne, principal_inj. Qed.

Section provisioning.
Context (Hquote : forall p, sql_unquote (sql_quote p) = p).
Variables (I E : T -> Prop) (m0 : gmap string account) (healthy : Prop).
Context (Hstable : forall t m, I t -> I (set_accounts m t)) (HIE : forall t, I t -> confined m0 (sc_accounts t) -> E t)
        (Hpasswords : healthy -> forall a, a ∈ service_accounts -> account_password a <> "").

(** The state between two statements: [F] speaks of the accounts. *)
Definition between (F : gmap string account -> Prop) (t : T) : Prop :=
  I t /\ confined m0 (sc_accounts t) /\ F (sc_accounts t).

Lemma does_change op a f (F F' : gmap string account -> Prop) :
  a ∈ service_accounts ->
  (forall m, F m -> is_Some (m !! principal a)) ->
  (forall m x, F m -> m !! principal a = Some x -> F' (<[principal a := f x]> m)
     /\ (ac_grants (f x) = ac_grants x \/ ac_grants (f x) = ∅ \/ ac_grants (f x) = {[own a]})) ->
  does healthy (between F) (db_exec (change_user op (principal a) f)) (fun _ => between F') E.
Proof.
  intros Ha Hex Hf. apply does_exec.
  - intros t (HI & Hc & _). by apply HIE.
  - intros now t e (_ & _ & HF) Hs. unfold change_user in Hs. destruct (Hex _ HF) as [x Hx]. by rewrite Hx in Hs.
  - intros now t [] t' (HI & Hc & HF) Hs. unfold change_user in Hs. destruct (_ !! _) as [x|] eqn:Hx; [|done]. injection Hs as <-.
    destruct (Hf _ _ HF Hx) as [HF' Hg].
    assert (Hc' : confined m0 (<[principal a := f x]> (sc_accounts t))).
    { apply confined_insert; [done..|]. unfold grants_of. by rewrite Hx. }
    split; [split; [by apply Hstable|by split]|]. apply HIE; [by apply Hstable|done].
Qed.

Definition settled_all (l : list serviceAccount) (m : gmap string account) : Prop := forall b, b ∈ l -> settled b m.

Lemma does_provision_account a l : a ∈ service_accounts -> Forall (fun b => b ∈ service_accounts /\ b <> a) l ->
  does healthy (between (settled_all l)) (provision_account a) (fun _ => between (settled_all (a :: l))) E.
Proof.
  intros Ha Hl. unfold provision_account. destruct (decide (account_password a = "")) as [Hp|Hp].
  { rewrite bool_decide_true by done. apply does_throw. intros t (HI & Hc & _). split; [by apply HIE|]. intros Hh. by apply (Hpasswords Hh a Ha). }
  rewrite bool_decide_false by done.
  assert (Hkeep : forall x m, settled_all l m -> settled_all l (<[principal a := x]> m)).
  { intros x m Hs b Hb. rewrite Forall_forall in Hl. destruct (Hl b Hb). apply settled_insert; auto. }
  eapply (does_bind _ _ _ _ (fun q => between (fun m => settled_all l m /\ q = sql_quote (account_password a)))).
  { apply does_exec; [intros t (? & ? & _); by apply HIE|by intros ???? [=]|].
    intros now t q t' (HI & Hc & HF) [= <- <-]. split; [by split|by apply HIE]. }
  intros quoted. eapply (does_bind _ _ _ _ (fun _ => between (fun m => settled_all l m /\ quoted = sql_quote (account_password a) /\ is_Some (m !! principal a)))).
  { apply does_exec; [intros t (? & ? & _); by apply HIE|by intros ???? [=]|].
    intros now t [] t' (HI & Hc & HF & Hq) Hs. unfold create_user in Hs. injection Hs as <-. destruct (_ !! _) as [x|] eqn:Hx.
    - split; [|by apply HIE]. split; [done|]. split; [done|]. by rewrite Hx.
    - assert (Hc' : confined m0 (<[principal a := mkAccount (sql_unquote quoted) ∅]> (sc_accounts t))) by (apply confined_insert; auto).
      split; [|apply HIE; [by apply Hstable|done]]. split; [by apply Hstable|]. split; [done|]. cbn. split; [by apply Hkeep|].
      split; [done|]. by rewrite lookup_insert_eq. }
  intros ?. eapply (does_bind _ _ _ _ (fun _ => between (fun m => settled_all l m /\ exists g, m !! principal a = Some (mkAccount (account_password a) g)))).
  { apply does_change; [done|by intros m (_ & _ & ?)|]. intros m x (HF & -> & _) Hx. cbn. rewrite Hquote. split; [|by left].
    split; [by apply Hkeep|]. exists (ac_grants x). by rewrite lookup_insert_eq. }
  intros ?. eapply (does_bind _ _ _ _ (fun _ => between (fun m => settled_all l m /\ m !! principal a = Some (mkAccount (account_password a) ∅)))).
  { apply does_change; [done|by intros m (_ & g & ->)|]. intros m x (HF & g & Hg) Hx. rewrite Hg in Hx. injection Hx as <-. cbn.
    split; [|by auto]. split; [by apply Hkeep|by rewrite lookup_insert_eq]. }
  intros ?. apply does_change; [done|by intros m [_ ->]|]. intros m x (HF & Hg) Hx. rewrite Hg in Hx. injection Hx as <-. cbn.
  rewrite union_empty_r_L. split; [|by auto]. intros b [->|Hb]%elem_of_cons; [|by apply Hkeep]. split; [done|]. by rewrite lookup_insert_eq.
Qed.

Lemma does_provision_all l done_ : done_ ++ l ≡ₚ service_accounts ->
  does healthy (between (settled_all done_)) (provision_accounts l) (fun _ => between (settled_all service_accounts)) E.
Proof.
  revert done_. induction l as [|a l IH]; intros done_ Hl; cbn [provision_accounts].
  - apply does_ret. intros t (HI & Hc & HF). split; [done|]. split; [done|]. intros b Hb. apply HF. rewrite app_nil_r in Hl. by rewrite Hl.
  - assert (Hnd : NoDup (done_ ++ a :: l)) by (rewrite Hl; apply (NoDup_fmap_1 principal), service_principals).
    eapply does_bind.
    + apply does_provision_account; [rewrite <- Hl; set_solver|]. apply Forall_forall. intros b Hb. split; [rewrite <- Hl; set_solver|].
      intros ->. apply NoDup_app in Hnd as (_ & Hdis & _). apply (Hdis a Hb). set_solver.
    + intros ?. apply IH. rewrite <- Hl. cbn. by rewrite Permutation_middle.
Qed.
Lemma does_provision :
  does healthy (fun t => I t /\ confined m0 (sc_accounts t)) provisionServiceAccounts (fun _ => between (settled_all service_accounts)) E.
Proof.
  eapply does_weaken; [by apply (does_provision_all service_accounts [])| |done|done]. intros t [HI Hc]. split; [done|]. split; [done|].
  intros b Hb. by apply elem_of_nil in Hb.
Qed.
End provisioning.

(** ** One run around its locked part *)
Lemma does_run healthy me dsn dir (P P1 R E R' E' : T -> Prop) :
  (healthy -> exists formatted, ParseDSN dsn = Ok formatted /\ sql_Open formatted = Ok tt) ->
  (forall t, P t -> E t /\ E' t) ->
  (forall t now v t', P t -> get_lock me now t = Ok (v, t') -> E t' /\ (v = 1 -> P1 t') /\ (v <> 1 -> ~ healthy)) ->
  (forall t, E t -> E (unlocked me t) /\ E' (unlocked me t)) -> (forall t, R t -> R (unlocked me t) /\ E (unlocked me t) /\ R' (unlocked me t)) ->
  does healthy P1 (migrate_locked dir) (fun _ => R) E ->
  does healthy P (run me dsn dir) (fun _ => R') E'.
Proof.
  intros Hdsn HE Hlock HEu HRu Hlocked.
  assert (Hsession : does healthy P (migrate_session me dir) (fun _ => R) E).
  { unfold migrate_session.
    assert (Hnoop : forall text, does healthy P (errorf text (db_exec (reads (fun _ => Ok tt)))) (fun _ => P) E).
    { intros text. apply does_errorf, does_exec; [intros t Ht; by apply HE|by intros ???? [=]|]. intros now t a t' Ht [= _ <-].
      split; [done|by apply HE]. }
    eapply does_bind; [apply Hnoop|]. intros ?. eapply does_bind; [apply Hnoop|]. intros ?.
    eapply (does_bind _ _ _ _ (fun v t => E t /\ (v = 1 -> P1 t) /\ (v <> 1 -> ~ healthy))).
    { apply does_errorf, does_exec; [intros t Ht; by apply HE| |].
      - intros now t e _ He. unfold get_lock in He. destruct (sc_lock t); [|done]. by destruct (_ =? _).
      - intros now t v t' Ht Hs. destruct (Hlock _ _ _ _ Ht Hs) as (? & ? & ?). by split_and!. }
    intros v. destruct (Z.eqb_spec v 1) as [->|Hv]; cbn [negb].
    - apply does_finally; [eapply does_weaken; [exact Hlocked|intros t (_ & Ht & _); by apply Ht|done|done]|].
      intros Q HQ. assert (Hu : forall t, Q t -> Q (unlocked me t)).
      { intros t. destruct HQ as [HQ|[x HQ]]; subst Q; [apply HEu|apply HRu]. }
      apply does_exec; [done|by intros ???? [=]|]. intros now t [] t' Ht [= <-]. split; by apply Hu.
    - apply does_throw. intros t (Ht & _ & Hh). split; [done|by apply Hh]. }
  unfold run. destruct (ParseDSN dsn) as [formatted|e] eqn:Ed; cycle 1.
  { eapply (does_bind _ _ _ _ (fun _ _ => False)); [apply does_errorf, does_of_res|intros ? s _ []].
    intros t Ht. split; [by apply HE|]. intros Hh. by destruct (Hdsn Hh) as (f & ? & _). }
  apply does_of_res_bind. destruct (sql_Open formatted) as [[]|e] eqn:Eo; cycle 1.
  { eapply (does_bind _ _ _ _ (fun _ _ => False)); [apply does_of_res|intros ? s _ []].
    intros t Ht. split; [by apply HE|]. intros Hh. destruct (Hdsn Hh) as (f & Hf & Ho). congruence. }
  apply does_of_res_bind. intros s Hf Hs. specialize (Hsession s Hf Hs). unfold try, modify, of_res, mbind, M_bind.
  destruct (migrate_session me dir s) as [[a|e] s1]; cbn in *; destruct Hsession as (Hf1 & Hn1 & Hr).
  - split_and!; [done..|]. by apply HRu.
  - destruct Hr. split_and!; [done..|by apply HEu|done].
Qed.

(** ** The runs over one directory *)
Section converge.
Variables (dsn dir : string) (entries : list (string * bool)) (body : string -> string) (d0 : S).
Definition names : list string := migration_names entries.
Definition row_key (r : migration_row) : string * string := (mg_version r, mg_checksum r).
Definition key (name : string) : string * string := (name, sha256_hex (body name)).
(** The data after the first files, executed in order. *)
Definition execute (d : S) (name : string) : S := (exec_statements (statements (body name)) d).2.
Definition data_after (j : nat) : S := fold_left execute (take j names) d0.

(** The first [j] files are recorded and executed; the next one may have been
    attempted. *)
Definition stage (j : nat) (t : T) : Prop :=
  map row_key (recorded t) = map key (take j names)
  /\ match names !! j with
     | Some name => attempted (statements (body name)) (data_after j) (sc_data t)
     | None => sc_data t = data_after j
     end.
Definition past (i : nat) (t : T) : Prop := exists j, (i <= j <= length names)%nat /\ stage j t.

(** The environment is in order: the DSN is accepted, every file succeeds on the data before it and every
    account has a password. *)
Definition healthy : Prop :=
  (exists formatted, ParseDSN dsn = Ok formatted /\ sql_Open formatted = Ok tt)
  /\ (forall j name, names !! j = Some name -> (exec_statements (statements (body name)) (data_after j)).1 = Ok tt)
  /\ forall a, a ∈ service_accounts -> account_password a <> "".

Context (Hread : forall name, name ∈ names -> read_file dir name = Ok (body name))
        (Hdistinct : NoDup (map collate names))
        (Hrerun : forall name, name ∈ names -> rerunnable (statements (body name))).

Lemma data_step j name : names !! j = Some name -> data_after (Datatypes.S j) = execute (data_after j) name.
Proof. intros Hj. unfold data_after. by rewrite (take_S_r _ _ _ Hj), fold_left_app. Qed.

(** Lookups by name among the recorded files. *)
Lemma find_key l i name rows : NoDup (map collate l) -> l !! i = Some name ->
  forall j, map row_key rows = map key (take j l) ->
  option_map row_key (find_migration name rows) = if decide (i < j)%nat then Some (key name) else None.
Proof.
  revert i rows. induction l as [|x l IH]; intros i rows Hnd Hi j Hrows; [done|].
  cbn [map] in Hnd. apply NoDup_cons in Hnd as [Hx Hnd]. destruct j as [|j]; cbn [take map] in Hrows.
  - destruct rows; [|done]. cbn. by rewrite decide_False by lia.
  - destruct rows as [|r rows]; [done|]. cbn [map] in Hrows. injection Hrows as Hv Hc Hrows.
    unfold find_migration. cbn [List.find]. rewrite Hv. destruct i as [|i]; cbn [lookup list_lookup] in Hi.
    + injection Hi as ->. rewrite str_eq_refl. cbn. rewrite decide_True by lia. unfold row_key. by rewrite Hv, Hc.
    + replace (str_eq x name) with false.
      * fold (find_migration name rows). rewrite (IH i rows Hnd Hi j Hrows). destruct (decide (i < j)%nat), (decide (Datatypes.S i < Datatypes.S j)%nat); done || lia.
      * symmetry. apply bool_decide_eq_false. intros E. apply Hx. rewrite E. apply list_elem_of_fmap_2, list_elem_of_lookup. by exists i.
Qed.
Lemma find_stage i j name t : stage j t -> names !! i = Some name ->
  option_map row_key (find_migration name (recorded t)) = if decide (i < j)%nat then Some (key name) else None.
Proof. intros [Hrows _] Hi. by apply (find_key names). Qed.

(** The lock is free or held by this session; [k] files were recorded before. *)
Variables (me : Z) (k : nat).
Definition here (t : T) : Prop := sc_lock t = None \/ sc_lock t = Some me.
Definition at_file (i : nat) (t : T) : Prop := past (Nat.max i k) t /\ here t.

Lemma at_file_weaken i t : at_file i t -> at_file 0 t.
Proof. intros [(j & Hj & Hst) Hh]. split; [|done]. exists j. split; [lia|done]. Qed.
Lemma stage_at_file j i t : stage j t -> here t -> (Nat.max i k <= j <= length names)%nat -> at_file i t.
Proof. intros Hst Hh Hj. split; [|done]. by exists j. Qed.

(** The file is recorded after it was executed. *)
Lemma does_record i name : names !! i = Some name -> (k <= i)%nat ->
  does healthy (fun t => map row_key (recorded t) = map key (take i names) /\ sc_data t = data_after (Datatypes.S i) /\ here t)
    (db_exec (insert_migration name (sha256_hex (body name)))) (fun _ => at_file (Datatypes.S i)) (at_file 0).
Proof.
  intros Hi Hk. pose proof (lookup_lt_Some _ _ _ Hi) as Hlt.
  assert (Hmid : forall t, map row_key (recorded t) = map key (take i names) /\ sc_data t = data_after (Datatypes.S i) /\ here t -> stage i t).
  { intros t (Hrows & Hdata & _). split; [done|]. rewrite Hi, Hdata, (data_step i name Hi).
    pose proof (attempted_again _ _ _ (length (statements (body name))) (not_attempted (statements (body name)) (data_after i))) as Ha.
    by rewrite firstn_all in Ha. }
  apply does_exec.
  - intros t Ht. apply (stage_at_file i); [auto|by destruct Ht as (_ & _ & ?)|lia].
  - intros now t e Ht Hins. pose proof (find_stage i i name t (Hmid t Ht) Hi) as Hfind. unfold insert_migration in Hins.
    rewrite decide_False in Hfind by lia. by destruct (find_migration _ _).
  - intros now t [] t' Ht Hins. pose proof (find_stage i i name t (Hmid t Ht) Hi) as Hfind. unfold insert_migration in Hins.
    rewrite decide_False in Hfind by lia. destruct (find_migration _ _); [done|]. injection Hins as <-.
    destruct Ht as (Hrows & Hdata & Hh).
    assert (Hst : stage (Datatypes.S i) (set_migrations (Some (recorded t ++ [mkMigration name (sha256_hex (body name)) now])) t)).
    { split.
      - change (map row_key (recorded t ++ [mkMigration name (sha256_hex (body name)) now]) = map key (take (Datatypes.S i) names)).
        by rewrite map_app, Hrows, (take_S_r _ _ _ Hi), map_app.
      - cbn [set_migrations sc_data]. rewrite Hdata. destruct (names !! Datatypes.S i); [apply not_attempted|done]. }
    split; [|apply at_file_weaken with (Datatypes.S i)]; (apply (stage_at_file (Datatypes.S i)); [done|done|lia]).
Qed.

Lemma does_apply i name : names !! i = Some name ->
  does healthy (at_file i) (apply_migration dir name) (fun _ => at_file (Datatypes.S i)) (at_file 0).
Proof.
  intros Hi. pose proof (lookup_lt_Some _ _ _ Hi) as Hlt.
  assert (Hin : name ∈ names) by (apply list_elem_of_lookup; eauto).
  unfold apply_migration. rewrite (Hread name Hin). apply does_of_res_bind, does_lookup.
  - intros t0 [(j & Hj & Hst) Hh]. pose proof (find_stage i j name t0 Hst Hi) as Hfind. destruct (decide (i < j)%nat).
    + destruct (find_migration _ _) as [r|]; [|done]. injection Hfind as Hv Hc. rewrite Hc, bool_decide_true by done.
      apply does_ret. intros t ->. apply (stage_at_file j); [done|done|lia].
    + replace j with i in * by lia. destruct (find_migration _ _); [done|]. cbn [same_error sql_ErrNoRows].
      rewrite bool_decide_true by done. cbn [negb]. destruct Hst as [Hrows Hatt]. rewrite Hi in Hatt.
      eapply does_bind; [|intros ?; apply does_errorf; apply (does_record i name Hi); lia].
      apply does_errorf, (does_script _ _ (data_after i)).
      * by apply Hrerun.
      * intros (_ & Hok & _). by apply Hok.
      * by intros t ->.
      * intros t ->. apply (stage_at_file i); [split; [done|by rewrite Hi]|done|lia].
      * intros t d' -> Hd. apply (stage_at_file i); [split; [done|by rewrite Hi]|done|lia].
      * intros t -> _. split; [done|]. split; [|done]. by rewrite (data_step i name Hi).
  - intros t0 e Ht He. rewrite He. cbn [negb]. apply does_throw. intros t ->. split; [by eapply at_file_weaken|tauto].
Qed.

Lemma does_apply_all l i : drop i names = l ->
  does healthy (at_file i) (apply_migrations dir l) (fun _ => at_file (length names)) (at_file 0).
Proof.
  revert i. induction l as [|name l IH]; intros i Hl; cbn [apply_migrations].
  - apply does_ret. intros t [(j & Hj & Hst) Hh].
    assert (length names <= i)%nat by (rewrite <- Nat.sub_0_le, <- length_drop; by rewrite Hl).
    apply (stage_at_file j); [done|done|lia].
  - assert (Hi : names !! i = Some name) by (rewrite <- (Nat.add_0_r i), <- lookup_drop; by rewrite Hl).
    eapply does_bind; [by apply does_apply|]. intros ?. apply IH.
    rewrite <- Nat.add_1_r, <- drop_drop. by rewrite Hl.
Qed.

Context (Hentries : read_dir dir = Ok entries) (Hquote : forall p, sql_unquote (sql_quote p) = p).
Lemma at_file_accounts i t m : at_file i t -> at_file i (set_accounts m t).
Proof. done. Qed.
Lemma does_locked : does healthy (at_file 0) (migrate_locked dir) (fun _ => at_file (length names)) (at_file 0).
Proof.
  unfold migrate_locked. rewrite Hentries.
  eapply (does_bind _ _ _ _ (fun _ => at_file 0)).
  { apply does_errorf, does_exec; [done|by intros ???? [=]|]. intros now t [] t' Ht [= <-]. destruct (sc_migrations t) eqn:Em; [done|].
    assert (Hr : at_file 0 (set_migrations (Some []) t)); [|done]. destruct Ht as [(j & Hj & Hst & Hd) Hh]. split; [|done]. exists j.
    split; [done|]. split; [|done]. rewrite <- Hst. unfold recorded. by rewrite Em. }
  intros ?. eapply (does_bind _ _ _ _ (fun r t => r = entries /\ at_file 0 t)); [by apply does_errorf, does_of_res|].
  intros r. eapply (does_bind _ _ _ _ (fun _ => at_file (length names))).
  { intros s Hf [-> Hs]. by apply (does_apply_all names 0). }
  intros ?. apply does_errorf, does_from. intros t0 Ht0. eapply does_weaken.
  - apply (does_provision Hquote (at_file (length names)) (at_file 0) (sc_accounts t0) healthy);
      [done|intros t Ht _; by eapply at_file_weaken|by intros (_ & _ & ?)].
  - intros t ->. split; [done|apply confined_refl].
  - by intros ? t [Ht _].
  - done.
Qed.

Lemma does_whole_run : does healthy (fun t => past k t /\ sc_lock t = None) (run me dsn dir)
  (fun _ t => stage (length names) t /\ sc_lock t = None) (fun t => past k t /\ sc_lock t = None).
Proof.
  assert (Hunlock : forall i t, at_file i t -> past (Nat.max i k) (unlocked me t) /\ sc_lock (unlocked me t) = None).
  { intros i t [Hp [Hl|Hl]]; unfold unlocked; rewrite Hl; [done|]. rewrite Z.eqb_refl. done. }
  apply (does_run healthy me dsn dir _ (at_file 0) (at_file (length names)) (at_file 0)).
  - by intros [? _].
  - intros t [Hp Hl]. split; [|done]. split; [done|by left].
  - intros t now v t' [Hp Hl] Hs. unfold get_lock in Hs. rewrite Hl in Hs. injection Hs as <- <-.
    assert (at_file 0 (set_lock (Some me) t)) by (split; [done|by right]). by split_and!.
  - intros t Ht. destruct (Hunlock _ _ Ht). split; [|done]. split; [done|by left].
  - intros t Ht. destruct (Hunlock _ _ Ht) as [Hp Hl]. assert (Hat : at_file (length names) (unlocked me t)) by (split; [done|by left]).
    split; [done|]. split; [by eapply at_file_weaken|]. split; [|done]. destruct Hp as (j & Hj & Hst). by replace (length names) with j by lia.
  - apply does_locked.
Qed.
End converge.
(** ** Results *)
(** A run of session [at_session] that meets [at_faults]. *)
Record attempt : Type := mkAttempt { at_session : Z; at_now : Z; at_faults : list fault }.
Definition attempts (dsn dir : string) (l : list attempt) (t : T) : T :=
  fold_left (fun t a => committed (run (at_session a) dsn dir (mkMysql t None (at_now a) (at_faults a))).2) l t.

(** C19 Interrupted migrations converge when every file is rerunnable (which not every
    file of the repository is: 005_user_avatar.sql is not). However many runs were cut off, by whatever
    faults of the connection and in the middle of whatever script, the recorded files
    are a prefix of the directory in the order of the names, at least the files that
    were recorded before, and the data is that of executing these files once in
    that order, up to attempts at the next one; the lock is free. If moreover every
    file succeeds and every account has a password, one run without faults ends the
    migration: it returns no error, every file is recorded with its checksum, and the
    data is that of executing all files once in order. *)
Theorem interrupted_migrations_converge dsn dir entries body d0 k t0 (l : list attempt) me now :
  read_dir dir = Ok entries ->
  (forall name, name ∈ names entries -> read_file dir name = Ok (body name)) ->
  NoDup (map collate (names entries)) ->
  (forall name, name ∈ names entries -> rerunnable (statements (body name))) ->
  (forall p, sql_unquote (sql_quote p) = p) ->
  past entries body d0 k t0 -> sc_lock t0 = None -> Forall (fun a => Forall proper (at_faults a)) l ->
  let t := attempts dsn dir l t0 in
  past entries body d0 k t /\ sc_lock t = None
  /\ (healthy dsn entries body d0 -> exists s, run me dsn dir (mkMysql t None now []) = (Ok tt, s)
        /\ map row_key (recorded (committed s)) = map (key body) (names entries)
        /\ sc_data (committed s) = fold_left (execute body) (names entries) d0).
Proof.
  intros Hentries Hread Hdistinct Hrerun Hquote Hstart Hlock Hfaults t.
  assert (Hrun : forall me', does (healthy dsn entries body d0) (fun t => past entries body d0 k t /\ sc_lock t = None) (run me' dsn dir)
    (fun _ t => stage entries body d0 (length (names entries)) t /\ sc_lock t = None) (fun t => past entries body d0 k t /\ sc_lock t = None)).
  { intros me'. by apply does_whole_run. }
  assert (Ht : past entries body d0 k t /\ sc_lock t = None).
  { subst t. revert t0 Hstart Hlock. induction Hfaults as [|a l Ha Hl IH]; intros t0 Hstart Hlock; [done|]. cbn [attempts fold_left].
    destruct (Hrun (at_session a) (mkMysql t0 None (at_now a) (at_faults a)) Ha (conj Hstart Hlock)) as (_ & _ & Hr).
    apply IH; destruct (run _ _ _ _).1; try apply Hr.
    destruct Hr as [Hst _], Hstart as (j & Hj & _). exists (length (names entries)). by split; [lia|]. }
  destruct Ht as [Hp Hl]. split; [done|]. split; [done|]. intros Hok.
  destruct (Hrun me (mkMysql t None now []) (Forall_nil_2 _) (conj Hp Hl)) as (_ & _ & Hr).
  destruct (run me dsn dir _) as [[[]|e] s]; cbn in Hr; [|by destruct Hr as [_ Hr]; destruct (Hr Hok)].
  exists s. split; [done|]. destruct Hr as [[Hrows Hdata] _]. rewrite firstn_all in Hrows. split; [done|].
  rewrite lookup_ge_None_2 in Hdata by done. rewrite Hdata. unfold data_after. by rewrite firstn_all.
Qed.

(** Applying files leaves the accounts alone. *)
Lemma does_files (Q : T -> Prop) dir l : (forall t t', sc_accounts t' = sc_accounts t -> Q t -> Q t') ->
  does False Q (apply_migrations dir l) (fun _ => Q) Q.
Proof.
  intros HQ. induction l as [|name l IH]; cbn [apply_migrations]; [by apply does_ret|]. eapply does_bind; [|intros ?; exact IH].
  unfold apply_migration. eapply (does_bind _ _ _ _ (fun _ => Q)).
  { apply does_of_res. destruct (read_file _ _); [done|by split; [|intros []]]. }
  intros text.
  assert (Hexec : does False Q (_ ← errorf ("apply migration " +:+ name) (db_script text);
                                errorf ("record migration " +:+ name) (db_exec (insert_migration name (sha256_hex text)))) (fun _ => Q) Q).
  { eapply (does_bind _ _ _ _ (fun _ => Q)).
    - apply does_errorf. intros s Hf Hs. unfold db_script.
      assert (Hscript : forall l, Q (exec_script l (committed s)).2).
      { intros l'. apply (HQ (committed s)); [|done]. unfold exec_script. by destruct (exec_statements _ _). }
      destruct (faults s) as [|fa fl] eqn:Efl; [|apply Forall_cons in Hf as [Hfa Hfl]; destruct fa as [|e|e]]; cbn [next_fault];
        try (specialize (Hscript (statements text)); destruct (exec_script _ _) as [[[]|e] t]); cbn; split_and!; done || apply Hscript.
    - intros ?. apply does_errorf, does_exec; [done|intros ?????; tauto|]. intros now t [] t' Ht Hs. unfold insert_migration in Hs.
      destruct (find_migration _ _); [done|]. injection Hs as <-. split; by apply (HQ t). }
  apply does_lookup.
  - intros t0 Ht0. destruct (match find_migration _ _ with Some _ => _ | None => _ end) as [existing|e].
    + destruct (bool_decide _); [apply does_ret|apply does_throw]; intros t ->; [done|by split; [|intros []]].
    + destruct (negb _); [apply does_throw; intros t ->; by split; [|intros []]|]. eapply does_weaken; [exact Hexec|by intros t ->|done|done].
  - intros t0 e Ht0 He. rewrite He. apply does_throw. intros t ->. by split; [|intros []].
Qed.

(** C20 Service accounts are confined to their schemas. Whatever a run meets and
    wherever it stops, it changes no account outside the fifteen service accounts, and
    a service account keeps its grants, has none, or has exactly its own privileges on
    its own schema; a run that returns no error leaves every service account with its
    password from the environment, which is not blank, and exactly its own grant. *)
Theorem service_accounts_are_confined dsn dir me now t0 fl :
  (forall p, sql_unquote (sql_quote p) = p) -> Forall proper fl ->
  let (r, s) := run me dsn dir (mkMysql t0 None now fl) in
  confined (sc_accounts t0) (sc_accounts (committed s))
  /\ (r = Ok tt -> forall a, a ∈ service_accounts -> settled a (sc_accounts (committed s))).
Proof.
  intros Hquote Hfl. set (E := fun t : T => confined (sc_accounts t0) (sc_accounts t)).
  set (R := fun t : T => E t /\ settled_all service_accounts (sc_accounts t)).
  assert (HE : forall t t', sc_accounts t' = sc_accounts t -> E t -> E t') by (unfold E; by intros t t' ->).
  assert (Hu : forall t : T, sc_accounts (unlocked me t) = sc_accounts t).
  { intros t. unfold unlocked. destruct (sc_lock t) as [x|]; [by destruct (x =? me)|done]. }
  assert (Hrun : does False E (run me dsn dir) (fun _ => R) E).
  { apply (does_run False me dsn dir _ E R E); [done|done| | | |].
    - intros t lnow v t' Ht Hs. assert (E t'); [|by split_and!; [|done|intros _ []]]. revert Ht. apply HE. unfold get_lock in Hs.
      destruct (sc_lock t) as [x|]; [destruct (x =? me)|]; by injection Hs as <- <-.
    - intros t Ht. split; (eapply HE; [apply Hu|done]).
    - intros t [Ht Hs]. assert (E (unlocked me t)) by (eapply HE; [apply Hu|done]). unfold R. rewrite Hu. by split_and!.
    - unfold migrate_locked. eapply (does_bind _ _ _ _ (fun _ => E)).
      { apply does_errorf, does_exec; [done|intros ?????; tauto|]. intros lnow t [] t' Ht [= <-].
        destruct (sc_migrations t); [done|]. split; by apply (HE t). }
      intros ?. eapply (does_bind _ _ _ _ (fun _ => E)).
      { apply does_errorf, does_of_res. destruct (read_dir _); [done|by split; [|intros []]]. }
      intros es. eapply does_bind; [by apply does_files|]. intros ?. eapply does_errorf, does_weaken.
      + apply (does_provision Hquote (fun _ => True) E (sc_accounts t0) False); [done|done|done].
      + by intros t Ht.
      + intros ? t (_ & Hc & Hs). by split.
      + done. }
  specialize (Hrun (mkMysql t0 None now fl) Hfl (confined_refl _)). destruct (run _ _ _ _) as [[[]|e] s]; cbn in Hrun.
  - destruct Hrun as (_ & _ & Hc & Hs). split; [done|]. intros _ a Ha. by apply Hs.
  - by destruct Hrun as (_ & _ & Hc & _).
Qed.

End spec.

(** ** Examples *)
Module MigrateExamples.
#[local] Existing Instance ascii_tables.
#[local] Existing Instance example_server.

(** A server whose data is a set of objects; a statement creates one if it does not
    exist. Two files; a broken connection leaves one statement of a script executed. *)
#[local] Instance host : MigrationHost (gset string) := {|
  statements := Split ";"%char;
  exec_statement := fun q d => Ok ({[q]} ∪ d);
  cut := fun _ => 1%nat;
  sql_quote := fun p => "'" +:+ p;
  sql_unquote := fun q => match q with String _ p => p | EmptyString => "" end;
  read_dir := fun _ => Ok [("002_gifts.sql", false); ("README.md", false); ("001_init.sql", false); ("old.sql", true)];
  read_file := fun _ name => Ok (if bool_decide (name = "001_init.sql") then "users;rooms" else "gifts;orders");
  sha256_hex := fun text => text;
  getenv := fun key => key;
  ParseDSN := fun dsn => Ok dsn;
  sql_Open := fun _ => Ok tt |}.
Definition listing : list (string * bool) := [("002_gifts.sql", false); ("README.md", false); ("001_init.sql", false); ("old.sql", true)].
Definition text (name : string) : string := if bool_decide (name = "001_init.sql") then "users;rooms" else "gifts;orders".

Lemma exec_all l (d : gset string) : exec_statements l d = (Ok tt, list_to_set l ∪ d).
Proof.
  revert d. induction l as [|q l IH]; intros d; cbn [exec_statements exec_statement host list_to_set foldr]; [by rewrite union_empty_l_L|].
  rewrite IH. f_equal. set_solver.
Qed.
Lemma all_rerunnable l : rerunnable (S := gset string) l.
Proof.
  intros d d' Ha. rewrite !exec_all. f_equal.
  assert (d ⊆ d' /\ d' ⊆ list_to_set l ∪ d) as [??]; [|set_solver].
  induction Ha as [|d' m Ha [IH1 IH2]]; [set_solver|]. rewrite exec_all. cbn [snd]. split; [set_solver|].
  intros x [Hx|Hx]%elem_of_union; [|by apply IH2]. apply elem_of_list_to_set in Hx. apply elem_of_union_l, elem_of_list_to_set.
  rewrite <- (take_drop m l). set_solver.
Qed.

Definition fresh : Schemas (gset string) := mkSchemas None None ∅ ∅.
Definition gone : error := Fresh "invalid connection".
(** The first run dies inside the first script, the second before it can record it. *)
Definition bad_days : list attempt :=
  [mkAttempt 1 10 [NoFault; NoFault; NoFault; NoFault; NoFault; AckLost gone];
   mkAttempt 2 20 [NoFault; NoFault; NoFault; NoFault; NoFault; NoFault; Fails gone]].

Example half_done :
  let t := attempts "dsn" "/migrations" bad_days fresh in
  (map row_key (recorded t), elements (sc_data t)) = ([], ["users"; "rooms"]).
Proof. vm_compute. reflexivity. Qed.

Lemma interrupted_migrations_converge_witness :
  let t := attempts "dsn" "/migrations" bad_days fresh in
  exists s, run 3 "dsn" "/migrations" (mkMysql t None 30 []) = (Ok tt, s)
    /\ map row_key (recorded (committed s)) = map (key text) (names listing).
Proof.
  cbv zeta. destruct (interrupted_migrations_converge "dsn" "/migrations" listing text ∅ 0 fresh bad_days 3 30) as (_ & _ & Hdone).
  - reflexivity.
  - intros name _. reflexivity.
  - apply (bool_decide_unpack _). vm_compute. exact I.
  - intros name _. apply all_rerunnable.
  - reflexivity.
  - exists 0%nat. split; [split; vm_compute; lia|]. split; [reflexivity|apply not_attempted].
  - reflexivity.
  - repeat constructor.
  - destruct Hdone as (s & Hrun & Hrows & _).
    + split; [exists "dsn"; split; reflexivity|]. split; [intros; by rewrite exec_all|].
      intros a Ha. assert (Hall : forallb (fun a => negb (bool_decide (account_password a = ""))) service_accounts = true) by (vm_compute; reflexivity).
      rewrite forallb_forall in Hall. specialize (Hall a ltac:(by apply list_elem_of_In)). intros Hp. by rewrite Hp in Hall.
    + exists s. split; [exact Hrun|exact Hrows].
Defined.

Definition calm : Mysql (Schemas (gset string)) := mkMysql fresh None 30 [].
Lemma service_accounts_are_confined_witness :
  let (r, s) := run 3 "dsn" "/migrations" calm in
  r = Ok tt /\ confined ∅ (sc_accounts (committed s)) /\ forall a, a ∈ service_accounts -> settled a (sc_accounts (committed s)).
Proof.
  pose proof (service_accounts_are_confined "dsn" "/migrations" 3 30 fresh []) as Hc. fold calm in Hc.
  assert (Hok : (run 3 "dsn" "/migrations" calm).1 = Ok tt) by (vm_compute; reflexivity).
  destruct (run 3 "dsn" "/migrations" calm) as [r s]. destruct Hc as [Hc Hs]; [reflexivity|repeat constructor|].
  split; [exact Hok|]. split; [exact Hc|]. apply Hs. exact Hok.
Defined.

(** A file that changed after it was applied stops the run before anything later. *)
Example changed_file :
  (run 1 "dsn" "/migrations" (mkMysql (mkSchemas None (Some [mkMigration "001_init.sql" "users" 0]) ∅ ∅) None 30 [])).1
  = Err (Fresh "migration 001_init.sql checksum changed after application").
Proof. vm_compute. reflexivity. Qed.
End MigrateExamples.
