(* ===== verification/Worker.v ===== *)
(** The worker process: [cmd/worker/main.go]. From its roles it opens the databases,
    Redis and Kafka they use and starts one component per role; the components
    themselves are modelled elsewhere (the aggregator in Stats.v, the snapshotter in
    Like.v, the publisher in Outbox.v, the consumers in Kafka.v).

    What each is opened with, tracing, the metrics listener and the end of the process
    are in Process.v. *)
From S2P Require Import Prelude GoStrings Config.

(** What can be opened, by the setting it is opened with. *)
Inductive resource : Type := CommerceMySQL | ArchiveMySQL | QueryMySQL | RedisConn | Centrifugo | Producer | GiftGroup | DanmakuGroup.
#[export] Instance resource_eq_dec : EqDecision resource.
Proof. solve_decision. Defined.

(** What the process did: resources opened and components started with the handles
    they were given, [None] for a nil pointer. *)
Inductive action : Type := Opened (r : resource) | Started (component : string) (handles : list (option resource)).

Section worker.
(** The error of opening a resource, if any. *)
Variable open_error : resource -> option error.
#[local] Abbreviation W := (list action).

Definition act (a : action) : M W unit := modify (fun w => w ++ [a]).
(** An error ends the process ([os.Exit(1)]). *)
Definition open_resource (r : resource) : M W (option resource) :=
  match open_error r with
  | Some err => throw err
  | None => _ ← act (Opened r); mret (Some r)
  end.
(** [var h; if cond { h = open(...) }] *)
Definition open_if (cond : bool) (r : resource) : M W (option resource) :=
  if cond then open_resource r else mret None.
(** [run(name, fn)] *)
Definition run_component (name : string) (handles : list (option resource)) : M W unit := act (Started name handles).

(** [roleSet] *)
Definition has_role (roles : list string) (role : string) : bool := existsb (String.eqb role) roles.

Definition start_stats (redis publisher : option resource) : M W unit := run_component "stats-aggregator" [redis; publisher].
Definition start_like_snapshot (redis queryDB : option resource) : M W unit := run_component "like-snapshot" [redis; queryDB].
Definition start_outbox (commerceDB producer : option resource) : M W unit := run_component "outbox-publisher" [commerceDB; producer].
(** A consumer joins its group before it runs; its dead letters go to the producer. *)
Definition start_gift_consumer (archiveDB publisher producer : option resource) : M W unit :=
  group ← open_resource GiftGroup; run_component "gift-consumer" [group; producer; archiveDB; publisher].
Definition start_danmaku_consumer (archiveDB producer : option resource) : M W unit :=
  group ← open_resource DanmakuGroup; run_component "danmaku-consumer" [group; producer; archiveDB].

Definition when (cond : bool) (m : M W unit) : M W unit := if cond then m else mret tt.

(** [main] up to the point where it waits. *)
Definition worker_start (roles : list string) : M W unit :=
  let has := has_role roles in
  let needsRedis := has "stats" || has "like-snapshot" in
  let needsPublisher := has "stats" || has "gift-consumer" in
  commerceDB ← open_if (has "outbox") CommerceMySQL;
  archiveDB ← open_if (has "gift-consumer" || has "danmaku-consumer") ArchiveMySQL;
  queryDB ← open_if (has "like-snapshot") QueryMySQL;
  redis ← open_if needsRedis RedisConn;
  let publisher := if needsPublisher then Some Centrifugo else None in
  _ ← when (has "stats") (start_stats redis publisher);
  _ ← when (has "like-snapshot") (start_like_snapshot redis queryDB);
  kafkaProducer ← open_if (has "outbox" || has "gift-consumer" || has "danmaku-consumer") Producer;
  _ ← when (has "outbox") (start_outbox commerceDB kafkaProducer);
  _ ← when (has "gift-consumer") (start_gift_consumer archiveDB publisher kafkaProducer);
  when (has "danmaku-consumer") (start_danmaku_consumer archiveDB kafkaProducer).
End worker.

(** ** Running *)
(** What ends the wait: a signal, a component that returned an error other than
    cancellation, or the metrics server. *)
Inductive worker_event : Type :=
| Signalled | ComponentReturned (component : string) (err : option error) | MetricsStopped (err : error).

(** [run]'s goroutine: the error it reports. *)
Definition component_error (component : string) (err : option error) : option error :=
  match err with
  | Some e => if errors_Is e context_Canceled then None else Some (Fresh (component +:+ ": " +:+ error_text e))
  | None => None
  end.
(** Whether the event makes [main] stop waiting. *)
Definition ends_wait (e : worker_event) : bool :=
  match e with
  | Signalled => true
  | ComponentReturned c err => match component_error c err with Some _ => true | None => false end
  | MetricsStopped _ => true
  end.
