(* ===== verification/WorkerSpec.v ===== *)
(** What the worker process promises: whatever roles the configuration allows and
    whatever fails to open, no component starts with a nil dependency and nothing is
    opened that no role uses. *)
From S2P Require Import Prelude GoStrings Realtime Traffic Config ConfigSpec Worker Instances.

(** The component of a role and what it uses. *)
Definition component_of (role : string) : string :=
  if bool_decide (role = "stats") then "stats-aggregator"
  else if bool_decide (role = "outbox") then "outbox-publisher" else role.
Definition uses (role : string) : list resource :=
  if bool_decide (role = "stats") then [RedisConn; Centrifugo]
  else if bool_decide (role = "like-snapshot") then [RedisConn; QueryMySQL]
  else if bool_decide (role = "outbox") then [CommerceMySQL; Producer]
  else if bool_decide (role = "gift-consumer") then [GiftGroup; Producer; ArchiveMySQL; Centrifugo]
  else if bool_decide (role = "danmaku-consumer") then [DanmakuGroup; Producer; ArchiveMySQL]
  else [].

(** A component starts with the handles of its role, all of them open ([Centrifugo] is
    a value that needs no opening); a resource is opened once, for a role that uses
    it. *)
Fixpoint wired (roles : list string) (opened : list resource) (w : list action) : Prop :=
  match w with
  | [] => True
  | Opened r :: w => r ∉ opened /\ (exists role, role ∈ roles /\ r ∈ uses role) /\ wired roles (r :: opened) w
  | Started c hs :: w =>
    (exists role, role ∈ roles /\ c = component_of role /\ hs = map Some (uses role))
    /\ Forall (fun h => h = Some Centrifugo \/ exists r, h = Some r /\ r ∈ opened) hs /\ wired roles opened w
  end.
Definition started (w : list action) : list string :=
  omap (fun a => match a with Started c _ => Some c | Opened _ => None end) w.
Definition opened_in (r : resource) (w : list action) : bool :=
  existsb (fun a => match a with Opened r' => bool_decide (r = r') | Started _ _ => false end) w.

(** The checks are decidable, so that the role sets can be tried one by one. *)
Fixpoint wired_b (roles : list string) (opened : list resource) (w : list action) : bool :=
  match w with
  | [] => true
  | Opened r :: w => negb (bool_decide (r ∈ opened)) && existsb (fun role => bool_decide (r ∈ uses role)) roles && wired_b roles (r :: opened) w
  | Started c hs :: w =>
    existsb (fun role => bool_decide (c = component_of role) && bool_decide (hs = map Some (uses role))) roles
    && forallb (fun h => bool_decide (h = Some Centrifugo) || existsb (fun r => bool_decide (h = Some r)) opened) hs && wired_b roles opened w
  end.
Lemma wired_b_ok roles opened w : wired_b roles opened w = true -> wired roles opened w.
Proof.
  revert opened. induction w as [|[r|c hs] w IH]; intros opened; cbn [wired_b wired]; [done|..]; rewrite !andb_true_iff; intros [[H1 H2] H3].
  - apply negb_true_iff, bool_decide_eq_false in H1. apply existsb_exists in H2 as (role & Hin & H2%bool_decide_eq_true).
    split; [done|]. split; [exists role; by rewrite list_elem_of_In|auto].
  - apply existsb_exists in H1 as (role & Hin & H1). apply andb_true_iff in H1 as [Hc%bool_decide_eq_true Hh%bool_decide_eq_true].
    split; [exists role; by rewrite list_elem_of_In|]. split; [|auto]. rewrite forallb_forall in H2. apply Forall_forall. intros h Hhs.
    apply list_elem_of_In in Hhs. specialize (H2 h Hhs). apply orb_true_iff in H2 as [H2%bool_decide_eq_true|H2]; [by left|right].
    apply existsb_exists in H2 as (x & Hx & H2%bool_decide_eq_true). exists x. by rewrite list_elem_of_In.
Qed.

(** Only membership matters to [worker_start], so the allowed roles that are present,
    in the order of the list of allowed roles, stand for any configured list. *)
Definition canonical (roles : list string) : list string := List.filter (has_role roles) allowedWorkerRoles.
Lemma has_role_spec roles r : has_role roles r = true <-> r ∈ roles.
Proof.
  unfold has_role. rewrite existsb_exists. split.
  - intros (x & Hx & <-%String.eqb_eq). by apply list_elem_of_In.
  - intros Hr. exists r. split; [by apply list_elem_of_In|by apply String.eqb_eq].
Qed.

Lemma worker_start_canonical e roles : worker_start e (canonical roles) = worker_start e roles.
Proof.
  assert (Hhas : forall r, r ∈ allowedWorkerRoles -> has_role (canonical roles) r = has_role roles r).
  { intros r Hr. apply eq_true_iff_eq. rewrite has_role_spec. unfold canonical. rewrite list_elem_of_In, List.filter_In, <- list_elem_of_In. tauto. }
  unfold worker_start. rewrite !Hhas by (unfold allowedWorkerRoles; set_solver). done.
Qed.

(** A start is in order: wired, complete unless something failed to open, and failing
    only then. *)
Definition in_order (e : resource -> option error) (l : list string) : Prop :=
  let (r, w) := worker_start e l [] in
  wired l [] w
  /\ match r with
     | Ok _ => started w = map component_of l
     | Err err => (exists x, e x = Some err) /\ started w `prefix_of` map component_of l
     end.
Lemma canonical_in_order e roles : in_order e (canonical roles).
Proof.
  unfold canonical, allowedWorkerRoles. cbn [List.filter].
  destruct (has_role roles "stats"), (has_role roles "like-snapshot"), (has_role roles "outbox"), (has_role roles "gift-consumer"),
    (has_role roles "danmaku-consumer"); unfold in_order, worker_start, open_if, open_resource, start_gift_consumer, start_danmaku_consumer, open_resource;
    cbn; repeat (match goal with |- context [match e ?x with _ => _ end] => destruct (e x) eqn:?; cbn end);
    (split; [apply wired_b_ok; vm_compute; reflexivity|]); try reflexivity; (split; [by eexists|]);
    by (apply (bool_decide_unpack _); vm_compute; exact I).
Qed.

Lemma wired_mono l roles opened w : (forall r, r ∈ l -> r ∈ roles) -> wired l opened w -> wired roles opened w.
Proof.
  intros Hl. revert opened. induction w as [|[r|c hs] w IH]; intros opened; cbn [wired]; [done|..].
  - intros (Hn & (role & Hr & Hu) & Hw). split; [done|]. split; [exists role; auto|auto].
  - intros ((role & Hr & Hu) & Hh & Hw). split; [exists role; auto|]. split; auto.
Qed.
Lemma wired_opened roles opened w r : wired roles opened w -> opened_in r w = true -> exists role, role ∈ roles /\ r ∈ uses role.
Proof.
  revert opened. induction w as [|[x|c hs] w IH]; intros opened; cbn [wired opened_in existsb]; [done|..].
  - intros (_ & Hx & Hw). case_bool_decide as E; [by subst x|]. by apply (IH _ Hw).
  - intros (_ & _ & Hw) Hr. by apply (IH _ Hw).
Qed.
Lemma producer_role role : Producer ∈ uses role -> kafka_role role = true.
Proof.
  unfold uses. repeat (case_bool_decide; [subst; vm_compute|]); intros Hin; try reflexivity;
    repeat (apply elem_of_cons in Hin as [Hin|Hin]; [discriminate Hin|]); by apply elem_of_nil in Hin.
Qed.

(** C35 Worker wiring. Load any configuration and let any of the resources fail to
    open. No component is started with a nil dependency: the handles it gets are
    those of its role, and they were opened before. A resource is opened at most once
    and only for a configured role that uses it. When the start succeeds exactly one
    component per configured role runs; when it does not, a resource really failed to
    open. The Kafka producer is opened with credentials if there is a SASL mechanism. *)
Theorem worker_roles_get_their_dependencies `{UnicodeTables} `{FloatText} getenv quote c (e : resource -> option error) :
  Load getenv quote = Ok c ->
  let (r, w) := worker_start e (cg_Roles c) [] in
  wired (cg_Roles c) [] w
  /\ (r = Ok tt -> started w ≡ₚ map component_of (cg_Roles c))
  /\ (forall err, r = Err err -> exists x, e x = Some err)
  /\ (opened_in Producer w = true -> ka_SASLMechanism (cg_Kafka c) <> "" ->
      ka_SASLUsername (cg_Kafka c) <> "" /\ ka_SASLPassword (cg_Kafka c) <> "").
Proof.
  intros Hload. apply load_config_ok in Hload. destruct (ok_roles c Hload) as (_ & Hnd & Hallowed). destruct (ok_kafka c Hload) as (_ & _ & _ & _ & Hcred).
  assert (Hperm : canonical (cg_Roles c) ≡ₚ cg_Roles c).
  { apply NoDup_Permutation; [apply NoDup_ListNoDup, List.NoDup_filter, NoDup_ListNoDup|done|].
    - apply (bool_decide_unpack _). vm_compute. exact I.
    - intros x. unfold canonical. rewrite list_elem_of_In, List.filter_In, <- list_elem_of_In, has_role_spec.
      rewrite Forall_forall in Hallowed. split; [tauto|auto]. }
  pose proof (canonical_in_order e (cg_Roles c)) as Hgood. unfold in_order in Hgood. rewrite worker_start_canonical in Hgood.
  destruct (worker_start e (cg_Roles c) []) as [r w]. destruct Hgood as [Hw Hr].
  assert (Hwired : wired (cg_Roles c) [] w) by (eapply wired_mono; [|exact Hw]; intros x Hx; by rewrite <- Hperm).
  split; [done|]. split; [intros ->; by rewrite Hr, Hperm|]. split; [intros err ->; by destruct Hr|].
  intros Hp Hsasl. apply Hcred; [done|]. apply (wired_opened _ _ _ _ Hwired) in Hp as (role & Hrole & Hu). apply existsb_exists.
  exists role. split; [by apply list_elem_of_In|by apply producer_role].
Qed.

(** ** Examples *)
Module WorkerExamples.
#[local] Existing Instance ascii_tables.
#[local] Existing Instance ConfigExamples.some_floats.

Definition stats_and_outbox : list (string * string) := [("WORKER_ROLES", "outbox, STATS")].
Definition roles_only : res Config := Eval vm_compute in ConfigExamples.load_with stats_and_outbox.
(** Kafka is down. *)
Definition no_kafka (r : resource) : option error := if bool_decide (r = Producer) then Some (Fresh "no brokers") else None.

Lemma worker_roles_get_their_dependencies_witness : exists c, ConfigExamples.load_with stats_and_outbox = Ok c
  /\ wired (cg_Roles c) [] (worker_start (fun _ => None) (cg_Roles c) []).2 /\ started (worker_start (fun _ => None) (cg_Roles c) []).2 = ["stats-aggregator"; "outbox-publisher"].
Proof.
  destruct roles_only as [c|e] eqn:E; [|discriminate E]. exists c.
  assert (Hload : ConfigExamples.load_with stats_and_outbox = Ok c) by (vm_compute in E |- *; exact E).
  split; [exact Hload|].
  pose proof (worker_roles_get_their_dependencies (ConfigExamples.with_vars stats_and_outbox) (fun s => s) c (fun _ => None) Hload) as Hw.
  destruct (worker_start (fun _ => None) (cg_Roles c) []) as [r w] eqn:Ew. destruct Hw as (Hwired & _).
  split; [exact Hwired|]. injection E as <-. vm_compute in Ew. injection Ew as _ <-. reflexivity.
Defined.

Example kafka_down :
  worker_start no_kafka ["outbox"; "stats"] []
  = (Err (Fresh "no brokers"), [Opened CommerceMySQL; Opened RedisConn; Started "stats-aggregator" [Some RedisConn; Some Centrifugo]]).
Proof. vm_compute. reflexivity. Qed.
End WorkerExamples.
