(* ===== verification/Metrics.v ===== *)
(** The metrics of a process: [internal/observability/metrics.go].

    A registry is the list of what is registered, by name and constant labels; a
    vector is the values of its label tuples. Counters are whole numbers (every
    increment in the code is), gauges and observations are [float64]. Registering the
    same metric twice and a wrong number of labels panic, as the client library does.
    The Go and process collectors and the exposition format are not modelled. *)
From S2P Require Import Prelude GoStrings Traffic.

Inductive metric_kind : Type := CounterVec | GaugeVec | HistogramVec (buckets : list (Z * Z)).
(** A vector: name, kind and label names; a bucket is a fraction. *)
Record descriptor : Type := mkDescriptor { ds_name : string; ds_kind : metric_kind; ds_labels : list string }.
#[export] Instance metric_kind_eq_dec : EqDecision metric_kind.
Proof. solve_decision. Defined.

Definition live (name : string) : string := "live_" +:+ name.
Definition ms (l : list Z) : list (Z * Z) := map (fun n => (n, 1000)) l.
Definition whole (l : list Z) : list (Z * Z) := map (fun n => (n, 1)) l.

(** The fields of [Metrics], in the order of [reg.MustRegister]. *)
Definition HTTPRequests := mkDescriptor (live "http_requests_total") CounterVec ["service"; "method"; "route"; "status"].
Definition HTTPDuration := mkDescriptor (live "http_request_duration_seconds")
  (HistogramVec (ms [5; 10; 25; 50; 100; 250; 500; 1000; 2500; 5000])) ["service"; "method"; "route"].
Definition DanmakuTotal := mkDescriptor (live "danmaku_total") CounterVec ["result"].
Definition DanmakuDegradation := mkDescriptor (live "danmaku_degradation_total") CounterVec ["mode"; "action"].
Definition DanmakuFanoutEstimate := mkDescriptor (live "danmaku_estimated_fanout_per_second")
  (HistogramVec (whole [5000; 10000; 20000; 25000; 30000; 40000; 50000; 75000; 100000; 250000; 500000; 1000000])) ["mode"].
Definition DanmakuSampleRate := mkDescriptor (live "danmaku_sample_rate")
  (HistogramVec (ms [50; 100; 200; 250; 400; 500; 625; 800; 1000])) ["mode"].
Definition LikesTotal := mkDescriptor (live "likes_total") CounterVec [].
Definition GiftOrders := mkDescriptor (live "gift_orders_total") CounterVec ["result"].
Definition GiftRateLimited := mkDescriptor (live "gift_rate_limited_total") CounterVec [].
Definition RealtimePublish := mkDescriptor (live "realtime_publish_total") CounterVec ["result"].
Definition StatsBroadcast := mkDescriptor (live "stats_broadcast_total") CounterVec ["result"].
Definition OutboxPending := mkDescriptor (live "outbox_pending") GaugeVec [].
Definition OutboxOldestPendingAge := mkDescriptor (live "outbox_oldest_pending_age_seconds") GaugeVec [].
Definition OutboxPublish := mkDescriptor (live "outbox_publish_total") CounterVec ["result"].
Definition OutboxRetries := mkDescriptor (live "outbox_retry_total") CounterVec [].
Definition KafkaProduce := mkDescriptor (live "kafka_produce_total") CounterVec ["topic"; "result"].
Definition KafkaProduceErrors := mkDescriptor (live "kafka_produce_errors_total") CounterVec ["topic"; "reason"].
Definition KafkaProduceDur := mkDescriptor (live "kafka_produce_duration_seconds")
  (HistogramVec (ms [1; 5; 10; 25; 50; 100; 250; 500; 1000; 2000; 5000])) ["topic"].
Definition KafkaConsume := mkDescriptor (live "kafka_consume_total") CounterVec ["group"; "topic"; "result"].
Definition KafkaConsumerLag := mkDescriptor (live "kafka_consumer_lag") GaugeVec ["group"; "topic"; "partition"].
Definition KafkaBufferedRecords := mkDescriptor (live "kafka_buffered_records") GaugeVec ["client"; "direction"].
Definition vectors : list descriptor :=
  [HTTPRequests; HTTPDuration; DanmakuTotal; DanmakuDegradation; DanmakuFanoutEstimate; DanmakuSampleRate; LikesTotal; GiftOrders;
   GiftRateLimited; RealtimePublish; StatsBroadcast; OutboxPending; OutboxOldestPendingAge; OutboxPublish; OutboxRetries;
   KafkaProduce; KafkaProduceErrors; KafkaProduceDur; KafkaConsume; KafkaConsumerLag; KafkaBufferedRecords].

Definition series : Type := (string * list string)%type.
Record Metrics : Type := mkMetrics {
  mt_service : string;
  mt_registry : list (string * list (string * string));
  mt_counters : gmap series Z;
  mt_gauges : gmap series float64;
  mt_observed : gmap series (list float64) }.

Definition set_registry l m := mkMetrics (mt_service m) l (mt_counters m) (mt_gauges m) (mt_observed m).
Definition set_counters c m := mkMetrics (mt_service m) (mt_registry m) c (mt_gauges m) (mt_observed m).
Definition set_gauges g m := mkMetrics (mt_service m) (mt_registry m) (mt_counters m) g (mt_observed m).
Definition set_observed o m := mkMetrics (mt_service m) (mt_registry m) (mt_counters m) (mt_gauges m) o.

(** ** The client library, as the code uses it: [Err] is a panic *)
Definition MustRegister (name : string) (labels : list (string * string)) : M Metrics unit := fun m =>
  if bool_decide ((name, labels) ∈ mt_registry m) then (Err (Fresh "duplicate metrics collector registration attempted"), m)
  else (Ok tt, set_registry (mt_registry m ++ [(name, labels)]) m).
Fixpoint register_all (l : list (string * list (string * string))) : M Metrics unit :=
  match l with
  | [] => mret tt
  | (name, labels) :: l => _ ← MustRegister name labels; register_all l
  end.
(** [WithLabelValues] *)
Definition with_labels (d : descriptor) (values : list string) (f : series -> Metrics -> Metrics) : M Metrics unit := fun m =>
  if bool_decide (length values = length (ds_labels d)) then (Ok tt, f (ds_name d, values) m)
  else (Err (Fresh "inconsistent label cardinality"), m).
Definition counter_at (m : Metrics) (d : descriptor) (values : list string) : Z := default 0 (mt_counters m !! (ds_name d, values)).
Definition Counter_Add (d : descriptor) (values : list string) (n : Z) : M Metrics unit :=
  with_labels d values (fun s m => set_counters (<[s := default 0 (mt_counters m !! s) + n]> (mt_counters m)) m).
Definition Inc (d : descriptor) (values : list string) : M Metrics unit := Counter_Add d values 1.
Definition Gauge_Set (d : descriptor) (values : list string) (v : float64) : M Metrics unit :=
  with_labels d values (fun s m => set_gauges (<[s := v]> (mt_gauges m)) m).
Definition Observe (d : descriptor) (values : list string) (v : float64) : M Metrics unit :=
  with_labels d values (fun s m => set_observed (<[s := default [] (mt_observed m !! s) ++ [v]]> (mt_observed m)) m).

(** ** [NewMetrics] *)
Fixpoint each {A} (l : list A) (f : A -> M Metrics unit) : M Metrics unit :=
  match l with
  | [] => mret tt
  | x :: l => _ ← f x; each l f
  end.
Definition results : list string := ["success"; "failed"; "rejected"; "replay"].
Definition modes : list string := ["NORMAL"; "HOT"; "PROTECT"].
Definition actions : list string := ["broadcast"; "sampled"].
Definition NewMetrics_body : M Metrics unit :=
  _ ← register_all (map (fun d => (ds_name d, [])) vectors);
  _ ← each results (fun result => _ ← Counter_Add DanmakuTotal [result] 0; Counter_Add GiftOrders [result] 0);
  _ ← each modes (fun mode => each actions (fun action => Counter_Add DanmakuDegradation [mode; action] 0));
  _ ← Gauge_Set OutboxPending [] zero;
  Gauge_Set OutboxOldestPendingAge [] zero.
Definition empty_metrics (service : string) : Metrics := mkMetrics service [] ∅ ∅ ∅.
Definition NewMetrics (service : string) : res unit * Metrics := NewMetrics_body (empty_metrics service).

(** [RegisterDBPool] *)
Definition pool_metrics : list string :=
  map live ["db_pool_max_open_connections"; "db_pool_open_connections"; "db_pool_in_use_connections"; "db_pool_idle_connections";
            "db_pool_wait_total"; "db_pool_wait_duration_seconds_total"].
Definition RegisterDBPool (pool : string) : M Metrics unit :=
  service ← gets mt_service;
  register_all (map (fun name => (name, [("service", service); ("pool", pool)])) pool_metrics).

(** ** What the components call *)
Definition KafkaProduced (topic result : string) (duration : Z) : M Metrics unit :=
  _ ← Inc KafkaProduce [topic; result]; Observe KafkaProduceDur [topic] (Seconds duration).
Definition KafkaProduceFailed (topic reason : string) : M Metrics unit := Inc KafkaProduceErrors [topic; reason].
Definition KafkaConsumed (group topic result : string) : M Metrics unit := Inc KafkaConsume [group; topic; result].
Definition KafkaLag (group topic : string) (partition lag : Z) : M Metrics unit :=
  Gauge_Set KafkaConsumerLag [group; topic; FormatInt partition] (float_of_Z lag).
Definition KafkaBuffered (client direction : string) (records : Z) : M Metrics unit :=
  Gauge_Set KafkaBufferedRecords [client; direction] (float_of_Z records).
Definition RealtimePublished (result : string) : M Metrics unit := Inc RealtimePublish [result].
Definition OutboxPendingSet (n oldestAge : Z) : M Metrics unit :=
  _ ← Gauge_Set OutboxPending [] (float_of_Z n); Gauge_Set OutboxOldestPendingAge [] (Seconds oldestAge).
Definition OutboxPublished (result : string) : M Metrics unit := Inc OutboxPublish [result].
Definition OutboxRetried : M Metrics unit := Inc OutboxRetries [].
Definition StatsBroadcasted (result : string) : M Metrics unit := Inc StatsBroadcast [result].
Definition DanmakuDegraded (mode action : string) : M Metrics unit := Inc DanmakuDegradation [mode; action].
Definition DanmakuPolicyObserved (mode : string) (estimatedFanout sampleRate : float64) : M Metrics unit :=
  _ ← Observe DanmakuFanoutEstimate [mode] estimatedFanout; Observe DanmakuSampleRate [mode] sampleRate.

(** ** Laws *)
Lemma counter_add_at d values n m d' values' :
  length values = length (ds_labels d) ->
  exists m', Counter_Add d values n m = (Ok tt, m') /\ mt_registry m' = mt_registry m
    /\ mt_gauges m' = mt_gauges m /\ mt_observed m' = mt_observed m
    /\ counter_at m' d' values' = counter_at m d' values' + (if bool_decide ((ds_name d, values) = (ds_name d', values')) then n else 0).
Proof.
  intros Hl. unfold Counter_Add, with_labels. rewrite bool_decide_eq_true_2 by done. eexists. split; [done|]. do 3 (split; [done|]).
  unfold counter_at. cbn [mt_counters set_counters]. case_bool_decide as E.
  - rewrite E, lookup_insert_eq. done.
  - rewrite lookup_insert_ne by done. lia.
Qed.

Lemma register_all_ok l m :
  NoDup l -> (forall x, x ∈ l -> x ∉ mt_registry m) -> register_all l m = (Ok tt, set_registry (mt_registry m ++ l) m).
Proof.
  revert m. induction l as [|[name labels] l IH]; intros m Hnd Hfresh; cbn [register_all].
  - rewrite app_nil_r. by destruct m.
  - apply NoDup_cons in Hnd as [Hn Hnd]. unfold mbind, M_bind, MustRegister.
    rewrite bool_decide_eq_false_2 by (apply Hfresh; by left). rewrite IH; [|done|].
    + cbn. by rewrite <-app_assoc.
    + cbn. intros x Hx [Hin| ->%list_elem_of_singleton]%elem_of_app; [|done]. by eapply Hfresh; [right|].
Qed.

(** Registering pools never panics when their names differ. *)
Definition pool_entries (service pool : string) : list (string * list (string * string)) :=
  map (fun name => (name, [("service", service); ("pool", pool)])) pool_metrics.
Lemma pool_entries_nodup service pool : NoDup (pool_entries service pool).
Proof. unfold pool_entries. apply NoDup_fmap_2_strong; [by intros x y _ _ [= ->]|]. apply (bool_decide_unpack _). vm_compute. exact I. Qed.

Lemma pool_entry service pool x : x ∈ pool_entries service pool -> x.2 = [("service", service); ("pool", pool)].
Proof. intros Hx. apply list_elem_of_In, in_map_iff in Hx as (name & <- & _). done. Qed.

Fixpoint register_pools (pools : list string) : M Metrics unit :=
  match pools with
  | [] => mret tt
  | p :: pools => _ ← RegisterDBPool p; register_pools pools
  end.
Lemma register_pools_ok pools m :
  NoDup pools -> (forall p, p ∈ pools -> forall x, x ∈ pool_entries (mt_service m) p -> x ∉ mt_registry m) ->
  exists m', register_pools pools m = (Ok tt, m') /\ mt_service m' = mt_service m /\ mt_counters m' = mt_counters m.
Proof.
  revert m. induction pools as [|p pools IH]; intros m Hnd Hfresh; [by exists m|].
  apply NoDup_cons in Hnd as [Hn Hnd]. cbn [register_pools].
  assert (Hreg : RegisterDBPool p m = (Ok tt, set_registry (mt_registry m ++ pool_entries (mt_service m) p) m)).
  { unfold RegisterDBPool, mbind, M_bind, gets. apply register_all_ok; [apply pool_entries_nodup|]. apply Hfresh. by left. }
  unfold mbind, M_bind. rewrite Hreg. edestruct IH as (m' & Hrun & Hs & Hc); [done| |by exists m'].
  cbn. intros q Hq x Hx [Hin|Hin]%elem_of_app.
  - eapply Hfresh; [by right|done|done].
  - apply pool_entry in Hx, Hin. rewrite Hx in Hin. injection Hin as ->. done.
Qed.

(** [NewMetrics] does not panic. *)
Definition has_registry (service : string) l (m : Metrics) : Prop := mt_service m = service /\ mt_registry m = l.
Definition runs {A} (P : Metrics -> Prop) (c : M Metrics A) : Prop := forall m, P m -> exists a m', c m = (Ok a, m') /\ P m'.
Lemma runs_bind {A B} P (c : M Metrics A) (k : A -> M Metrics B) : runs P c -> (forall a, runs P (k a)) -> runs P (c ≫= k).
Proof. intros Hc Hk m Hm. destruct (Hc m Hm) as (a & m1 & E & H1). unfold mbind, M_bind. rewrite E. by apply Hk. Qed.
Lemma runs_each {A} P (l : list A) f : (forall x, runs P (f x)) -> runs P (each l f).
Proof. intros Hf. induction l as [|x l IH]; [by intros m Hm; exists tt, m|]. apply runs_bind; [apply Hf|done]. Qed.
Lemma runs_with_labels service l d values f :
  length values = length (ds_labels d) -> (forall s m, mt_service (f s m) = mt_service m /\ mt_registry (f s m) = mt_registry m) ->
  runs (has_registry service l) (with_labels d values f).
Proof.
  intros Hl Hf m [Hs Hr]. unfold with_labels. rewrite bool_decide_eq_true_2 by done. exists tt. eexists. split; [done|].
  destruct (Hf (ds_name d, values) m) as [Hs' Hr']. unfold has_registry. by rewrite Hs', Hr'.
Qed.
Lemma new_metrics_ready service :
  exists m, NewMetrics service = (Ok tt, m) /\ has_registry service (map (fun d => (ds_name d, [])) vectors) m.
Proof.
  set (P := has_registry service (map (fun d => (ds_name d, [])) vectors)).
  unfold NewMetrics, NewMetrics_body. erewrite (bind_ok (register_all _));
    [|apply register_all_ok; [apply (bool_decide_unpack _); vm_compute; exact I|intros x _ Hx; by apply elem_of_nil in Hx]].
  match goal with |- context [?c (set_registry ?l ?m)] => enough (Hruns : runs P c) end.
  { edestruct Hruns as ([] & m & E & Hm); [|by exists m]. done. }
  apply runs_bind; [|intros _; apply runs_bind; [|intros _; apply runs_bind; [|intros _]]]; try by apply runs_with_labels.
  - apply runs_each. intros result. apply runs_bind; [|intros _]; by apply runs_with_labels.
  - apply runs_each. intros mode. apply runs_each. intros action. by apply runs_with_labels.
Qed.

(** The dashboards' counters start at zero. *)
Example counters_at_start :
  forallb (fun result => bool_decide (mt_counters (NewMetrics "live-api").2 !! (ds_name DanmakuTotal, [result]) = Some 0)
                         && bool_decide (mt_counters (NewMetrics "live-api").2 !! (ds_name GiftOrders, [result]) = Some 0)) results = true.
Proof. vm_compute. reflexivity. Qed.
