(* ===== verification/Middleware.v ===== *)
(** What surrounds the handlers of every server: the response writer, the middlewares
    [recoverer], [requestID], [HTTPMiddleware] and [TraceHTTP]
    ([internal/httpapi/server.go], [internal/gateway/server.go],
    [internal/commerceapi/server.go], [internal/observability]), the mux in front of the
    routes, and the request ids of [internal/idgen].

    A handler is a computation over an [exchange]: the state of the services, the
    request, what was sent so far, metrics, spans and log lines. It returns nothing;
    [Err] is a panic, which unwinds to the next [recover]. The duration of a request,
    the trace context and the random bytes are arguments. *)
From Stdlib Require Import Ascii.
From S2P Require Import Prelude GoStrings Json Room Auth Traffic Danmaku Commerce GiftRepository GiftService Http HttpApi CommerceApi Metrics.

(** ** [idgen.New] *)
Definition hex_digit (n : Z) : ascii := byte_of_Z (if n <? 10 then 48 + n else 87 + n).
Fixpoint hex_EncodeToString (l : list Z) : string :=
  match l with
  | [] => ""
  | b :: l => String (hex_digit (b / 16)) (String (hex_digit (b mod 16)) (hex_EncodeToString l))
  end.
(** [random] is what [rand.Read] put into the 12 bytes, [unix_nano] the clock. *)
Definition idgen_New (random : option (list Z)) (unix_nano : Z) : string :=
  match random with Some b => hex_EncodeToString b | None => FormatInt unix_nano end.

(** ** Exchanges *)
Record span : Type := mkSpan {
  sp_name : string; sp_parent : option string; sp_method : string; sp_path : string; sp_route : option string; sp_status : Z }.
Definition attrs : Type := list (string * string).
Abbreviation headers := (gmap string (list string)).
(** [ex_header] is [w.Header()], [ex_sent] the status line and headers once they are
    sent, [ex_wrappers] the [status] fields of the status writers around the
    connection, the innermost last. *)
Record exchange (W : Type) : Type := mkExchange {
  ex_world : W;
  ex_request : request;
  ex_pattern : string;
  ex_wrappers : list Z;
  ex_header : headers;
  ex_sent : option (Z * headers);
  ex_body : list raw;
  ex_metrics : Metrics;
  ex_spans : list span;
  ex_log : list (string * attrs) }.
Arguments mkExchange {W}.
Arguments ex_world {W}. Arguments ex_request {W}. Arguments ex_pattern {W}. Arguments ex_wrappers {W}. Arguments ex_header {W}.
Arguments ex_sent {W}. Arguments ex_body {W}. Arguments ex_metrics {W}. Arguments ex_spans {W}. Arguments ex_log {W}.

Section exchange.
Context {W : Type}.
Implicit Types (x : exchange W).
Definition set_world w x : exchange W := mkExchange w (ex_request x) (ex_pattern x) (ex_wrappers x) (ex_header x) (ex_sent x) (ex_body x) (ex_metrics x) (ex_spans x) (ex_log x).
Definition set_request r x : exchange W := mkExchange (ex_world x) r (ex_pattern x) (ex_wrappers x) (ex_header x) (ex_sent x) (ex_body x) (ex_metrics x) (ex_spans x) (ex_log x).
Definition set_pattern p x : exchange W := mkExchange (ex_world x) (ex_request x) p (ex_wrappers x) (ex_header x) (ex_sent x) (ex_body x) (ex_metrics x) (ex_spans x) (ex_log x).
Definition set_wrappers l x : exchange W := mkExchange (ex_world x) (ex_request x) (ex_pattern x) l (ex_header x) (ex_sent x) (ex_body x) (ex_metrics x) (ex_spans x) (ex_log x).
Definition set_headers h x : exchange W := mkExchange (ex_world x) (ex_request x) (ex_pattern x) (ex_wrappers x) h (ex_sent x) (ex_body x) (ex_metrics x) (ex_spans x) (ex_log x).
Definition set_sent s x : exchange W := mkExchange (ex_world x) (ex_request x) (ex_pattern x) (ex_wrappers x) (ex_header x) s (ex_body x) (ex_metrics x) (ex_spans x) (ex_log x).
Definition set_body b x : exchange W := mkExchange (ex_world x) (ex_request x) (ex_pattern x) (ex_wrappers x) (ex_header x) (ex_sent x) b (ex_metrics x) (ex_spans x) (ex_log x).
Definition set_metrics m x : exchange W := mkExchange (ex_world x) (ex_request x) (ex_pattern x) (ex_wrappers x) (ex_header x) (ex_sent x) (ex_body x) m (ex_spans x) (ex_log x).
Definition set_spans l x : exchange W := mkExchange (ex_world x) (ex_request x) (ex_pattern x) (ex_wrappers x) (ex_header x) (ex_sent x) (ex_body x) (ex_metrics x) l (ex_log x).
Definition set_log l x : exchange W := mkExchange (ex_world x) (ex_request x) (ex_pattern x) (ex_wrappers x) (ex_header x) (ex_sent x) (ex_body x) (ex_metrics x) (ex_spans x) l.
End exchange.

(** A service's computation, and one on the metrics, inside an exchange. *)
Definition in_world {W A} (m : M W A) : M (exchange W) A := fun x => let (r, w) := m (ex_world x) in (r, set_world w x).
Definition in_metrics {W A} (m : M Metrics A) : M (exchange W) A := fun x => let (r, s) := m (ex_metrics x) in (r, set_metrics s x).

(** An [http.Handler]. *)
Abbreviation served W := (M (exchange W) unit).

(** ** [http.ResponseWriter] *)
Section writer.
Context {W : Type}.
(** [w.Header().Set(k, v)]: no effect on headers already sent. *)
Definition Header_Set (k v : string) : served W := modify (fun x => set_headers (<[k := [v]]> (ex_header x)) x).
Definition send_headers (code : Z) (x : exchange W) : exchange W :=
  match ex_sent x with Some _ => x | None => set_sent (Some (code, ex_header x)) x end.
(** [WriteHeader] through the status writers: each records the code, the connection
    sends only the first. *)
Definition WriteHeader (code : Z) : served W := modify (fun x => send_headers code (set_wrappers (map (fun _ => code) (ex_wrappers x)) x)).
(** [Write] sends status 200 when nothing was sent; status writers do not see it. *)
Definition Write (chunk : raw) : served W := modify (fun x => let x := send_headers 200 x in set_body (ex_body x ++ [chunk]) x).

(** [writeJSON] of a response made by [Http.writeJSON]. *)
Definition write_response (resp : response) : served W :=
  _ ← Header_Set "Content-Type" "application/json";
  _ ← WriteHeader (rs_status resp);
  match rs_body resp with Invalid EmptyString => mret tt | chunk => Write chunk end.
(** [http.Error], as the mux uses it. *)
Definition http_Error (text : string) (code : Z) : served W :=
  _ ← Header_Set "Content-Type" "text/plain; charset=utf-8";
  _ ← Header_Set "X-Content-Type-Options" "nosniff";
  _ ← WriteHeader code;
  Write (Invalid text).
End writer.

(** [httputil.ReverseProxy] with a response from the upstream: its headers are added,
    its status and body copied; when the copying breaks off under an [http.Server] it
    panics with [http.ErrAbortHandler]. *)
Definition http_ErrAbortHandler : error := Sentinel "http.ErrAbortHandler" "net/http: abort Handler".
Definition Header_Add {W} (k v : string) : served W :=
  modify (fun x => set_headers (<[k := default [] (ex_header x !! k) ++ [v]]> (ex_header x)) x).
Fixpoint add_headers {W} (l : list (string * string)) : served W :=
  match l with [] => mret tt | (k, v) :: l => _ ← Header_Add k v; add_headers l end.
Fixpoint write_chunks {W} (l : list raw) : served W :=
  match l with [] => mret tt | c :: l => _ ← Write c; write_chunks l end.
Definition copy_response {W} (status : Z) (upstream_headers : list (string * string)) (chunks : list raw) (broken : bool) : served W :=
  _ ← add_headers upstream_headers;
  _ ← WriteHeader status;
  _ ← write_chunks chunks;
  if broken then throw http_ErrAbortHandler else mret tt.

(** ** The mux *)
Definition segment_text (s : segment) : string := match s with Lit x => x | Wild n => "{" +:+ n +:+ "}" end.
(** [r.Pattern]: the string the route was registered with. *)
Definition pattern_text {W} (rt : route W) : string := rt_method rt +:+ " /" +:+ String.concat "/" (map segment_text (rt_pattern rt)).

Definition route_match {W} (rt : route W) (r : request) : option (list (string * string)) :=
  if method_match (rt_method rt) (q_Method r) then match_path (rt_pattern rt) (q_Path r) else None.
Fixpoint find_route {W} (routes : list (route W)) (r : request) : option (route W * list (string * string)) :=
  match routes with
  | [] => None
  | rt :: routes => match route_match rt r with Some b => Some (rt, b) | None => find_route routes r end
  end.
(** The mux of the gateway at a proxied pattern. *)
Definition mux_proxied {W} (pattern : string) (status : Z) (upstream_headers : list (string * string)) (chunks : list raw) (broken : bool) : served W :=
  _ ← modify (set_pattern pattern); copy_response status upstream_headers chunks broken.
(** Another method would match: the mux answers 405. *)
Definition path_known {W} (routes : list (route W)) (r : request) : bool :=
  existsb (fun rt => bool_decide (is_Some (match_path (rt_pattern rt) (q_Path r)))) routes.
(** The mux over routes that answer with one whole response; the proxied patterns of the
    gateway are [mux_proxied]. *)
Definition mux_ServeHTTP {W} (routes : list (route W)) : served W :=
  r ← gets ex_request;
  match find_route routes r with
  | Some (rt, b) =>
    _ ← modify (set_pattern (pattern_text rt));
    resp ← in_world (rt_handler rt r (path_value b));
    write_response resp
  | None => if path_known routes r then http_Error "Method Not Allowed" 405 else http_Error "404 page not found" 404
  end.

(** ** Middlewares *)
Section middlewares.
Context `{JsonText} {W : Type}.
Definition log_line (msg : string) (a : attrs) : served W := modify (fun x => set_log (ex_log x ++ [(msg, a)]) x).

(** [recoverer] *)
Definition recoverer (next : served W) : served W :=
  r ← try next;
  match r with
  | Ok _ => mret tt
  | Err v =>
    path ← gets (fun x => path_text (q_Path (ex_request x)));
    _ ← log_line "panic recovered" [("panic", error_text v); ("path", path)];
    write_response (writeError 500 "INTERNAL_ERROR" "internal server error")
  end.

(** [r.Header.Set] *)
Definition set_request_header (k v : string) (r : request) : request :=
  mkRequest (q_Method r) (q_Path r) (fun h => if bool_decide (h = k) then v else q_Header r h) (q_Query r) (q_Body r).

(** The trace and span id of the request's context when it has a valid one. *)
Variable span_context : option (string * string).
Definition trace_attrs : attrs :=
  match span_context with Some (t, s) => [("trace_id", t); ("span_id", s)] | None => [] end.
(** [TraceHandler.Handle] adds them to the record. *)
Definition InfoContext (msg : string) (a : attrs) : served W := log_line msg (a ++ trace_attrs).

(** [requestID]; [newid] is [idgen.New()] and [elapsed_ms] the duration. *)
Definition requestID (newid : string) (elapsed_ms : Z) (next : served W) : served W :=
  sent ← gets (fun x => q_Header (ex_request x) "X-Request-ID");
  let id := if bool_decide (sent = "") then newid else sent in
  _ ← modify (fun x => set_request (set_request_header "X-Request-ID" id (ex_request x)) x);
  _ ← Header_Set "X-Request-ID" id;
  _ ← next;
  r ← gets ex_request;
  InfoContext "http request"
    ([("request_id", id); ("method", q_Method r); ("path", path_text (q_Path r)); ("duration_ms", FormatInt elapsed_ms)] ++ trace_attrs).

Definition is_metrics (r : request) : bool := bool_decide (q_Path r = ["metrics"]).
(** A status writer around [next]: what it recorded. *)
Definition with_status (next : served W) : M (exchange W) Z :=
  _ ← modify (fun x => set_wrappers (ex_wrappers x ++ [200]) x);
  _ ← next;
  status ← gets (fun x => List.last (ex_wrappers x) 200);
  _ ← modify (fun x => set_wrappers (removelast (ex_wrappers x)) x);
  mret status.

(** [Metrics.HTTPMiddleware] *)
Definition HTTPMiddleware (service : string) (elapsed : Z) (next : served W) : served W :=
  r ← gets ex_request;
  if is_metrics r then next else
  status ← with_status next;
  pattern ← gets ex_pattern;
  let route := if bool_decide (pattern = "") then "unmatched" else pattern in
  _ ← in_metrics (Inc HTTPRequests [service; q_Method r; route; FormatInt status]);
  in_metrics (Observe HTTPDuration [service; q_Method r; route] (Seconds elapsed)).

(** [TraceHTTP]; [parent] is what the propagator extracts from the headers. The span
    is recorded when it ends. *)
Definition TraceHTTP (parent : (string -> string) -> option string) (next : served W) : served W :=
  r ← gets ex_request;
  if is_metrics r then next else
  status ← with_status next;
  pattern ← gets ex_pattern;
  let name := q_Method r +:+ " " +:+ (if bool_decide (pattern = "") then path_text (q_Path r) else pattern) in
  modify (fun x => set_spans (ex_spans x ++
    [mkSpan name (parent (q_Header r)) (q_Method r) (path_text (q_Path r)) (if bool_decide (pattern = "") then None else Some pattern) status]) x).

(** What the chains take from the environment. *)
Variables (newid : string) (elapsed : Z) (parent : (string -> string) -> option string).
(** [Server.handler] of httpapi. *)
Definition handler_chain (service : string) (mux : served W) : served W :=
  TraceHTTP parent (HTTPMiddleware service elapsed (requestID newid (Z.quot elapsed Millisecond) (recoverer mux))).
(** [Server.Handler] of the gateway. *)
Definition gateway_chain (mux : served W) : served W := handler_chain "live-api" mux.
(** [recoverer] of commerceapi: its line has no path. *)
Definition commerce_recoverer (next : served W) : served W :=
  r ← try next;
  match r with
  | Ok _ => mret tt
  | Err v => _ ← log_line "panic recovered" [("panic", error_text v)]; write_response (writeError 500 "INTERNAL_ERROR" "internal server error")
  end.
(** [Server.Handler] of commerceapi: no request ids and no spans. *)
Definition commerce_chain (mux : served W) : served W := HTTPMiddleware "live-commerce" elapsed (commerce_recoverer mux).
End middlewares.

(** A request as it comes from the connection. *)
Definition fresh_exchange {W} (w : W) (r : request) (m : Metrics) : exchange W := mkExchange w r "" [] ∅ None [] m [] [].

(** ** [InitTracer] *)
Record TraceConfig : Type := mkTraceConfig {
  tc_Enabled : bool; tc_ServiceName : string; tc_Environment : string; tc_Endpoint : string; tc_Insecure : bool; tc_SampleRatio : float64 }.
(** The ratio given to the sampler. *)
Definition sampler_ratio (ratio : float64) : float64 :=
  let ratio := if flt ratio zero then zero else ratio in
  if flt one ratio then one else ratio.
(** The exporter and the resource may fail; the result is the installed sampler's
    ratio, [None] when tracing is off. *)
Definition InitTracer (exporter_error resource_error : option error) (cfg : TraceConfig) : res (option float64) :=
  if negb (tc_Enabled cfg) then Ok None else
  match exporter_error with
  | Some e => Err (Wrapped "create OTLP trace exporter: " e "")
  | None =>
    match resource_error with
    | Some e => Err (Wrapped "create trace resource: " e "")
    | None => Ok (Some (sampler_ratio (tc_SampleRatio cfg)))
    end
  end.

(** ** The results the handlers count *)
(** [sendDanmaku]: the label of an error of [Send]; a body that does not decode is
    ["rejected"], a sent message ["success"]. *)
Definition danmaku_result (err : error) : string :=
  if errors_Is err Danmaku.ErrRateLimited || errors_Is err ErrMuted || errors_Is err ErrSensitive || errors_Is err ErrInvalidContent
     || errors_Is err ErrNotFound || errors_Is err ErrNotLiving || errors_Is err ErrBanned
  then "rejected" else "failed".
(** [handleGiftError]: the label of [GiftOrders] and whether [GiftRateLimited] counts. *)
Definition gift_result (err : error) : string * bool :=
  let named := errors_Is err GiftService.ErrInvalidCount || errors_Is err ErrInvalidRequestID || errors_Is err ErrGiftNotFound
               || errors_Is err ErrGiftOffline || errors_Is err ErrInsufficientBalance || errors_Is err ErrIdempotencyConflict
               || errors_Is err GiftService.ErrRateLimited || errors_Is err ErrNotFound || errors_Is err ErrNotLiving || errors_Is err ErrBanned in
  if named then ("rejected", errors_Is err GiftService.ErrRateLimited) else ("failed", false).
