(* ===== verification/MiddlewareSpec.v ===== *)
(** What the middlewares promise about every request: one answer, one count under its
    own status, one span, one log line, one request id; and what they do with a panic. *)
From Stdlib Require Import Ascii.
From S2P Require Import Prelude GoStrings Json Instances TaggedJson Realtime Room Auth AuthSpec Like Stats Traffic Danmaku Commerce GiftRepository GiftService Http Contract HttpApi CommerceApi Metrics Middleware TrafficSpec.

(** ** Request ids *)
Definition is_byte (b : Z) : Prop := 0 <= b < 256.
Lemma hex_digit_inj a b : 0 <= a < 16 -> 0 <= b < 16 -> hex_digit a = hex_digit b -> a = b.
Proof.
  intros Ha Hb. assert (Hall : forallb (fun p => negb (Ascii.eqb (hex_digit p.1) (hex_digit p.2)) || (p.1 =? p.2))
    (list_prod (map Z.of_nat (seq 0 16)) (map Z.of_nat (seq 0 16))) = true) by (vm_compute; reflexivity).
  rewrite forallb_forall in Hall. specialize (Hall (a, b)). intros Heq.
  assert (Hin : forall c, 0 <= c < 16 -> In c (map Z.of_nat (seq 0 16))).
  { intros c Hc. apply in_map_iff. exists (Z.to_nat c). rewrite in_seq. lia. }
  assert (In (a, b) (list_prod (map Z.of_nat (seq 0 16)) (map Z.of_nat (seq 0 16)))) as Hp by (apply in_prod; by apply Hin).
  specialize (Hall Hp). cbn [fst snd] in Hall. rewrite Heq, Ascii.eqb_refl in Hall. cbn in Hall. lia.
Qed.
Lemma hex_inj l l' : Forall is_byte l -> Forall is_byte l' -> hex_EncodeToString l = hex_EncodeToString l' -> l = l'.
Proof.
  intros Hl. revert l'. induction Hl as [|b l Hb _ IH]; intros l' Hl'; destruct Hl' as [|b' l' Hb' Hl']; cbn [hex_EncodeToString]; try done.
  unfold is_byte in *. intros [= H1 H2 H3]. f_equal; [|by apply IH]. apply hex_digit_inj in H1, H2;
    try (split; [apply Z.div_pos|apply Z.div_lt_upper_bound]; lia); try (apply Z.mod_pos_bound; lia).
  rewrite (Z.div_mod b 16), (Z.div_mod b' 16) by lia. lia.
Qed.
Lemma hex_length l : String.length (hex_EncodeToString l) = (2 * length l)%nat.
Proof. induction l as [|b l IH]; [done|]. cbn [hex_EncodeToString String.length length]. lia. Qed.

(** Two identifiers drawn from different bytes differ, and are 24 characters long. *)
Lemma idgen_distinct b b' t t' : Forall is_byte b -> Forall is_byte b' -> length b = 12%nat ->
  String.length (idgen_New (Some b) t) = 24%nat /\ (idgen_New (Some b) t = idgen_New (Some b') t' -> b = b').
Proof. intros Hb Hb' Hlen. cbn [idgen_New]. split; [by rewrite hex_length, Hlen|by apply hex_inj]. Qed.

Section accounting.
Context `{JsonText} {W : Type}.
Variables (span_context : option (string * string)) (newid : string) (elapsed : Z) (parent : (string -> string) -> option string).

Definition chunks (resp : response) : list raw := match rs_body resp with Invalid EmptyString => [] | c => [c] end.
Definition internal_error : response := writeError 500 "INTERNAL_ERROR" "internal server error".

(** What the routes make of a request: the pattern, status, body and state. *)
Definition expected (routes : list (route W)) (r : request) (w : W) : string * Z * list raw * W :=
  match find_route routes r with
  | Some (rt, b) =>
    match rt_handler rt r (path_value b) w with
    | (Ok resp, w') => (pattern_text rt, rs_status resp, chunks resp, w')
    | (Err _, w') => (pattern_text rt, 500, chunks internal_error, w')
    end
  | None => if path_known routes r then ("", 405, [Invalid "Method Not Allowed"], w) else ("", 404, [Invalid "404 page not found"], w)
  end.

(** An exchange before anything is sent. *)
Definition pending (w : W) r ws h m sp lg : exchange W := mkExchange w r "" ws h None [] m sp lg.
(** The exchange after the answer. *)
Definition done_with (w : W) r p ws h status body m sp lg : exchange W := mkExchange w r p ws h (Some (status, h)) body m sp lg.

Lemma write_response_run resp (w : W) r p ws h m sp lg :
  write_response resp (mkExchange w r p ws h None [] m sp lg)
  = (Ok tt, done_with w r p (map (fun _ => rs_status resp) ws) (<["Content-Type" := ["application/json"]]> h) (rs_status resp) (chunks resp) m sp lg).
Proof. unfold write_response, chunks. destruct (rs_body resp) as [j|[|a t]]; reflexivity. Qed.

Lemma recovered_mux routes w r ws h m sp lg :
  let '(p, status, body, w') := expected routes r w in
  exists h' lg', recoverer (mux_ServeHTTP routes) (pending w r ws h m sp lg)
    = (Ok tt, done_with w' r p (map (fun _ => status) ws) h' status body m sp (lg ++ lg'))
    /\ h' !! "X-Request-ID" = h !! "X-Request-ID" /\ Forall (fun l => l.1 = "panic recovered") lg'.
Proof.
  unfold expected, recoverer, mux_ServeHTTP, pending. unfold mbind, M_bind, try. cbn [gets ex_request].
  destruct (find_route routes r) as [[rt b]|] eqn:E; cbn [fst snd].
  - unfold in_world. cbn -[write_response]. destruct (rt_handler rt r (path_value b) w) as [[resp|e] w'].
    + unfold set_world. cbn -[write_response]. rewrite write_response_run. exists (<["Content-Type" := ["application/json"]]> h), [].
      rewrite app_nil_r. split; [reflexivity|]. split; [by rewrite lookup_insert_ne|constructor].
    + unfold set_world. cbn -[write_response]. unfold set_log. cbn -[write_response]. rewrite write_response_run.
      exists (<["Content-Type" := ["application/json"]]> h). eexists. split; [reflexivity|]. split; [by rewrite lookup_insert_ne|]. by constructor.
  - destruct (path_known routes r);
      exists (<["X-Content-Type-Options" := ["nosniff"]]> (<["Content-Type" := ["text/plain; charset=utf-8"]]> h)), []; rewrite app_nil_r; (split; [reflexivity|]);
      (split; [by rewrite !lookup_insert_ne|constructor]).
Qed.
(** *** The whole chain *)
Definition counted (service : string) (r : request) (route : string) (status : Z) (m m' : Metrics) : Prop :=
  forall d values, counter_at m' d values = counter_at m d values
    + (if bool_decide ((ds_name HTTPRequests, [service; q_Method r; route; FormatInt status]) = (ds_name d, values)) then 1 else 0).
Lemma count_run service r route status m :
  exists m1 m2, Inc HTTPRequests [service; q_Method r; route; FormatInt status] m = (Ok tt, m1)
    /\ Observe HTTPDuration [service; q_Method r; route] (Seconds elapsed) m1 = (Ok tt, m2) /\ counted service r route status m m2.
Proof.
  destruct (counter_add_at HTTPRequests [service; q_Method r; route; FormatInt status] 1 m HTTPRequests [] eq_refl) as (m1 & E & _).
  exists m1. eexists. split; [exact E|]. split; [reflexivity|]. intros d values.
  destruct (counter_add_at HTTPRequests [service; q_Method r; route; FormatInt status] 1 m d values eq_refl) as (m1' & E' & _ & _ & _ & Hat).
  unfold Inc in E. rewrite E' in E. injection E as ->. exact Hat.
Qed.

Definition route_label (pattern : string) : string := if bool_decide (pattern = "") then "unmatched" else pattern.
Definition request_id (r : request) : string := if bool_decide (q_Header r "X-Request-ID" = "") then newid else q_Header r "X-Request-ID".
Definition with_id (r : request) : request := set_request_header "X-Request-ID" (request_id r) r.
Definition access_line (r : request) : string * attrs :=
  ("http request", [("request_id", request_id r); ("method", q_Method r); ("path", path_text (q_Path r));
     ("duration_ms", FormatInt (Z.quot elapsed Millisecond))] ++ trace_attrs span_context ++ trace_attrs span_context).

(** What a client and an operator see of a request: the answer with its request id,
    one count under the status of the answer, one span with it, one log line. *)
Definition accounted (service : string) (r : request) (m : Metrics) (p : string) (status : Z) (body : list raw) (w' : W) (x : exchange W) : Prop :=
  ex_world x = w' /\ ex_body x = body
  /\ (exists h, ex_sent x = Some (status, h) /\ h !! "X-Request-ID" = Some [request_id r])
  /\ counted service r (route_label p) status m (ex_metrics x)
  /\ (exists name route, ex_spans x = [mkSpan name (parent (q_Header r)) (q_Method r) (path_text (q_Path r)) route status])
  /\ List.filter (fun l => String.eqb l.1 "http request") (ex_log x) = [access_line r].

Lemma recovered_lines lg : Forall (fun l : string * attrs => l.1 = "panic recovered") lg -> List.filter (fun l => String.eqb l.1 "http request") lg = [].
Proof. induction 1 as [|l lg Hl _ IH]; [done|]. cbn [List.filter]. by rewrite Hl. Qed.

(** Each layer, over what the next one does. *)
Lemma run_requestID next (x y : exchange W) :
  next (set_headers (<["X-Request-ID" := [request_id (ex_request x)]]> (ex_header x)) (set_request (with_id (ex_request x)) x)) = (Ok tt, y) ->
  ex_request y = with_id (ex_request x) ->
  requestID span_context newid (Z.quot elapsed Millisecond) next x = (Ok tt, set_log (ex_log y ++ [access_line (ex_request x)]) y).
Proof.
  intros Hnext Hreq. unfold requestID, mbind, M_bind. cbn [gets modify ex_request Header_Set]. unfold Header_Set, modify.
  cbn [ex_header set_request]. change (set_request_header "X-Request-ID" _ (ex_request x)) with (with_id (ex_request x)).
  cbn [ex_header set_request] in Hnext. unfold request_id, with_id, request_id in Hnext |- *. rewrite Hnext.
  unfold InfoContext, log_line, modify. rewrite Hreq. unfold access_line, trace_attrs. by rewrite <-app_assoc.
Qed.
Lemma run_with_status next (x y : exchange W) :
  next (set_wrappers (ex_wrappers x ++ [200]) x) = (Ok tt, y) ->
  with_status next x = (Ok (List.last (ex_wrappers y) 200), set_wrappers (removelast (ex_wrappers y)) y).
Proof. intros Hnext. unfold with_status, mbind, M_bind, modify, gets. by rewrite Hnext. Qed.
Lemma run_HTTPMiddleware service next (x y : exchange W) status m1 m2 :
  is_metrics (ex_request x) = false -> with_status next x = (Ok status, y) ->
  Inc HTTPRequests [service; q_Method (ex_request x); route_label (ex_pattern y); FormatInt status] (ex_metrics y) = (Ok tt, m1) ->
  Observe HTTPDuration [service; q_Method (ex_request x); route_label (ex_pattern y)] (Seconds elapsed) m1 = (Ok tt, m2) ->
  HTTPMiddleware service elapsed next x = (Ok tt, set_metrics m2 y).
Proof.
  intros Hm Hnext E1 E2. unfold HTTPMiddleware, mbind, M_bind, gets. rewrite Hm, Hnext. unfold route_label in E1, E2.
  unfold in_metrics. by rewrite E1; cbn [ex_metrics set_metrics]; rewrite E2.
Qed.
Lemma run_TraceHTTP next (x y : exchange W) status :
  is_metrics (ex_request x) = false -> with_status next x = (Ok status, y) ->
  exists name route, TraceHTTP parent next x
    = (Ok tt, set_spans (ex_spans y ++ [mkSpan name (parent (q_Header (ex_request x))) (q_Method (ex_request x)) (path_text (q_Path (ex_request x))) route status]) y).
Proof. intros Hm Hnext. eexists _, _. unfold TraceHTTP, mbind, M_bind, gets. by rewrite Hm, Hnext. Qed.

(** The chain around a handler that was recovered with [status] in the status writers. *)
Lemma chain_run service next r w m w' p status h sent body lg :
  is_metrics r = false ->
  recoverer next (pending w (with_id r) [200; 200] (<["X-Request-ID" := [request_id r]]> ∅) m [] [])
    = (Ok tt, mkExchange w' (with_id r) p [status; status] h sent body m [] lg) ->
  exists m2 name route,
    handler_chain span_context newid elapsed parent service next (fresh_exchange w r m)
      = (Ok tt, mkExchange w' (with_id r) p [] h sent body m2 [mkSpan name (parent (q_Header r)) (q_Method r) (path_text (q_Path r)) route status]
                  (lg ++ [access_line r]))
    /\ counted service r (route_label p) status m m2.
Proof.
  intros Hm Hrun. destruct (count_run service r (route_label p) status m) as (m1 & m2 & E1 & E2 & Hcount). exists m2.
  edestruct (run_TraceHTTP (HTTPMiddleware service elapsed (requestID span_context newid (Z.quot elapsed Millisecond) (recoverer next)))
    (fresh_exchange w r m)) as (name & route & Hchain); [exact Hm| |].
  { apply run_with_status. eapply run_HTTPMiddleware; [exact Hm|apply run_with_status, run_requestID; [exact Hrun|reflexivity]|exact E1|exact E2]. }
  exists name, route. split; [exact Hchain|done].
Qed.

Lemma chain_accounts service routes r w m :
  is_metrics r = false ->
  let '(p, status, body, w') := expected routes (with_id r) w in
  exists x', handler_chain span_context newid elapsed parent service (mux_ServeHTTP routes) (fresh_exchange w r m) = (Ok tt, x')
    /\ accounted service r m p status body w' x'.
Proof.
  intros Hm. pose proof (recovered_mux routes w (with_id r) [200; 200] (<["X-Request-ID" := [request_id r]]> ∅) m [] []) as Hmux.
  destruct (expected routes (with_id r) w) as [[[p status] body] w']. destruct Hmux as (h & lg & Hrun & Hid & Hlg).
  eapply chain_run in Hrun as (m2 & name & route & Hchain & Hcount); [|exact Hm].
  eexists. split; [exact Hchain|]. split; [reflexivity|]. split; [reflexivity|]. split; [exists h; split; [reflexivity|by rewrite Hid, lookup_insert_eq]|].
  split; [exact Hcount|]. split; [by exists name, route|]. cbn -[access_line]. rewrite List.filter_app, recovered_lines by done. reflexivity.
Qed.

(** C18 Every request to a server whose handler chain is [Server.handler] and whose
    routes answer whole responses - the interaction, identity-room and query servers,
    and the gateway for what it answers itself -, other than [/metrics], gets exactly
    one answer: the one of its route, 404 or 405 without one,
    and 500 INTERNAL_ERROR when the handler panics. The answer carries the request's
    [X-Request-ID], or the generated one; the request counter is incremented once,
    under the status that was sent; one span is recorded with that status and one
    access line with that id; and the services are in the state the handler left. The
    commerce server has another chain ([commerce_accounts]), and a proxied response is
    copied piece by piece ([broken_upstream_response_looks_complete]). *)
Theorem every_request_is_accounted service routes r w m :
  is_metrics r = false ->
  let '(p, status, body, w') := expected routes (with_id r) w in
  exists x', handler_chain span_context newid elapsed parent service (mux_ServeHTTP routes) (fresh_exchange w r m) = (Ok tt, x')
    /\ accounted service r m p status body w' x'.
Proof. apply chain_accounts. Qed.

(** The commerce server counts its requests as well, but its answers carry no request
    id, and no span and no access line is recorded. *)
Lemma recovered_by_commerce next (x : exchange W) :
  commerce_recoverer next x = (let (r, y) := recoverer next x in (r, match next x with (Ok _, _) => y | (Err v, z) =>
    set_log (ex_log z ++ [("panic recovered", [("panic", error_text v)])]) y end)).
Proof.
  unfold commerce_recoverer, recoverer, try, mbind, M_bind. destruct (next x) as [[a|v] z]; [reflexivity|].
  unfold log_line, modify, gets, write_response, Header_Set, WriteHeader, Write, set_log, set_headers, set_wrappers, send_headers, set_sent, set_body.
  cbn. by destruct (ex_sent z).
Qed.
Lemma commerce_accounts routes r w m :
  is_metrics r = false ->
  let '(p, status, body, w') := expected routes r w in
  exists x', commerce_chain elapsed (mux_ServeHTTP routes) (fresh_exchange w r m) = (Ok tt, x')
    /\ ex_world x' = w' /\ ex_body x' = body /\ (exists h, ex_sent x' = Some (status, h) /\ h !! "X-Request-ID" = None)
    /\ counted "live-commerce" r (route_label p) status m (ex_metrics x')
    /\ ex_spans x' = [] /\ Forall (fun l => l.1 = "panic recovered") (ex_log x').
Proof.
  intros Hm. pose proof (recovered_mux routes w r [200] ∅ m [] []) as Hmux.
  destruct (expected routes r w) as [[[p status] body] w']. destruct Hmux as (h & lg & Hrun & Hid & Hlg).
  pose proof (recovered_by_commerce (mux_ServeHTTP routes) (pending w r [200] ∅ m [] [])) as Hcom. rewrite Hrun in Hcom.
  assert (exists lg', commerce_recoverer (mux_ServeHTTP routes) (pending w r [200] ∅ m [] [])
    = (Ok tt, done_with w' r p [status] h status body m [] lg') /\ Forall (fun l => l.1 = "panic recovered") lg') as (lg' & Hrun' & Hlg').
  { destruct (mux_ServeHTTP routes (pending w r [200] ∅ m [] [])) as [[a|v] z] eqn:Emux.
    - eexists. split; [exact Hcom|exact Hlg].
    - eexists. split; [exact Hcom|]. unfold recoverer, try, mbind, M_bind in Hrun. rewrite Emux in Hrun.
      apply Forall_app_2; [|by constructor]. revert Hrun.
      unfold log_line, modify, gets, write_response, Header_Set, WriteHeader, Write, set_log, set_headers, set_wrappers, send_headers, set_sent, set_body.
      cbn. destruct (ex_sent z); cbn; intros [=]; subst; match goal with HF : Forall _ _ |- _ => by apply Forall_app in HF as [? _] end. }
  destruct (count_run "live-commerce" r (route_label p) status m) as (m1 & m2 & E1 & E2 & Hcount).
  eexists. split; [eapply run_HTTPMiddleware; [exact Hm|apply run_with_status; exact Hrun'|exact E1|exact E2]|].
  split; [reflexivity|]. split; [reflexivity|]. split; [exists h; split; [reflexivity|by rewrite Hid]|]. split; [exact Hcount|]. by split.
Qed.

(** *** A panic after the answer has started *)
Lemma add_headers_run l (w : W) r p ws h m sp lg :
  exists h', add_headers l (mkExchange w r p ws h None [] m sp lg) = (Ok tt, mkExchange w r p ws h' None [] m sp lg).
Proof. revert h. induction l as [|[k v] l IH]; intros h; [by exists h|]. cbn [add_headers]. apply IH. Qed.
Lemma write_chunks_run l (w : W) r p ws h s b m sp lg :
  write_chunks l (mkExchange w r p ws h (Some s) b m sp lg) = (Ok tt, mkExchange w r p ws h (Some s) (b ++ l) m sp lg).
Proof.
  revert b. induction l as [|c l IH]; intros b; [by rewrite app_nil_r|]. cbn [write_chunks].
  etransitivity; [apply IH|]. cbn. by rewrite <-app_assoc.
Qed.
Lemma copy_response_run status hs l broken (w : W) r p ws h m sp lg :
  exists h', copy_response status hs l broken (mkExchange w r p ws h None [] m sp lg)
    = (if broken then Err http_ErrAbortHandler else Ok tt, mkExchange w r p (map (fun _ => status) ws) h' (Some (status, h')) l m sp lg).
Proof.
  destruct (add_headers_run hs w r p ws h m sp lg) as [h' Eh]. exists h'. unfold copy_response. erewrite (bind_ok (add_headers hs)) by exact Eh.
  erewrite (bind_ok (WriteHeader status)) by reflexivity. erewrite (bind_ok (write_chunks l)); [by destruct broken|]. exact (write_chunks_run l _ _ _ _ _ _ [] _ _ _).
Qed.

(** C37 When a service's response breaks off while the gateway copies it, the reverse
    proxy panics with [http.ErrAbortHandler], which should close the connection. The
    middleware recovers that panic too: the handler returns normally, the client has
    the upstream's status and the part of the body that was copied, followed by the
    JSON of an internal error, and the request is counted as a 500. *)
Theorem broken_upstream_response_looks_complete pattern status hs partial r (w : W) m :
  is_metrics r = false ->
  exists x', gateway_chain span_context newid elapsed parent (mux_proxied pattern status hs partial true) (fresh_exchange w r m) = (Ok tt, x')
    /\ (exists h, ex_sent x' = Some (status, h)) /\ ex_body x' = partial ++ chunks internal_error
    /\ counted "live-api" r (route_label pattern) 500 m (ex_metrics x') /\ ex_world x' = w.
Proof.
  intros Hm. destruct (copy_response_run status hs partial true w (with_id r) pattern [200; 200] (<["X-Request-ID" := [request_id r]]> ∅) m [] [])
    as [h' Hcopy].
  edestruct (chain_run "live-api" (mux_proxied pattern status hs partial true) r w m) as (m2 & name & route & Hchain & Hcount); [exact Hm| |].
  - unfold recoverer. erewrite bind_ok by (apply try_run; unfold mux_proxied; erewrite bind_ok by reflexivity; exact Hcopy). reflexivity.
  - eexists. split; [exact Hchain|]. cbn. split; [by eexists|]. split; [done|]. split; [exact Hcount|done].
Qed.
End accounting.

(** ** The results that are counted agree with the answers *)
Lemma danmaku_rejected_is_client_error err : danmaku_result err = "rejected" <->
  errors_Is err Danmaku.ErrRateLimited = true \/ errors_Is err ErrMuted = true \/ errors_Is err ErrSensitive = true
  \/ errors_Is err ErrInvalidContent = true \/ Api.room_refusal err = true.
Proof.
  unfold danmaku_result, Api.room_refusal.
  destruct (errors_Is err Danmaku.ErrRateLimited), (errors_Is err ErrMuted), (errors_Is err ErrSensitive), (errors_Is err ErrInvalidContent),
    (errors_Is err ErrNotFound), (errors_Is err ErrNotLiving), (errors_Is err ErrBanned); cbn; intuition discriminate.
Qed.
(** A gift is counted as failed exactly when it is answered 500. *)
Lemma gift_failed_is_500 err : (gift_result err).1 = "failed" <-> rs_status (CommerceApi.handleGiftError err) = 500.
Proof.
  unfold gift_result, CommerceApi.handleGiftError. repeat (destruct (errors_Is err _); [cbn; split; discriminate|]). done.
Qed.

(** ** Tracing *)
(** The sampler gets a ratio between 0 and 1, whatever number was configured. *)
Lemma sampler_ratio_bounds ratio : is_nan ratio = false -> fle zero (sampler_ratio ratio) = true /\ fle (sampler_ratio ratio) one = true.
Proof.
  intros Hn. unfold sampler_ratio. destruct (flt ratio zero) eqn:E0; [by vm_compute|].
  destruct (flt one ratio) eqn:E1; [by vm_compute|]. split; by apply fle_of_not_lt.
Qed.
(** The access log of a traced request has its trace and span id twice: once from
    [requestID], once from [TraceHandler]. *)
Lemma trace_ids_logged_twice `{JsonText} t s newid elapsed r :
  List.filter (fun kv => String.eqb kv.1 "trace_id") (access_line (Some (t, s)) newid elapsed r).2 = [("trace_id", t); ("trace_id", t)].
Proof. reflexivity. Qed.

(** ** Examples *)
Module MiddlewareExamples.
#[local] Existing Instances nano_text tagged_json.

Definition get (path : list string) (id : string) : request :=
  mkRequest "GET" path (fun h => if bool_decide (h = "X-Request-ID") then id else "") (fun _ => "") (mkBody (Invalid "") 0 false 0).
(** One route that answers and one that panics. *)
Definition routes : list (route Z) :=
  [mkRoute "GET" [Lit "rooms"; Wild "id"] (fun _ pv w => (Ok (writeJSON 200 (JStr (pv "id"))), w + 1));
   mkRoute "GET" [Lit "ready"] (fun _ _ _ => (Err (Fresh "nil pointer"), 7))].
Definition metrics : Metrics := empty_metrics "live-test".
Definition run (r : request) := handler_chain None "generated" 0 (fun _ => None) "live-test" (mux_ServeHTTP routes) (fresh_exchange 0 r metrics).

Lemma every_request_is_accounted_witness :
  exists x', run (get ["ready"] "") = (Ok tt, x') /\ ex_world x' = 7 /\ ex_body x' = chunks internal_error
    /\ counter_at (ex_metrics x') HTTPRequests ["live-test"; "GET"; "GET /ready"; "500"] = 1.
Proof.
  pose proof (every_request_is_accounted None "generated" 0 (fun _ => None) "live-test" routes (get ["ready"] "") 0 metrics) as Hacc.
  change (expected routes (with_id "generated" (get ["ready"] "")) 0) with ("GET /ready", 500, chunks internal_error, 7) in Hacc.
  destruct Hacc as (x' & Hrun & Hw & Hb & _ & Hc & _); [reflexivity|].
  exists x'. split; [exact Hrun|]. split; [exact Hw|]. split; [exact Hb|]. rewrite (Hc HTTPRequests). vm_compute. reflexivity.
Defined.

Lemma broken_upstream_response_looks_complete_witness :
  exists x', gateway_chain None "generated" 0 (fun _ => None) (mux_proxied "GET /api/v1/gifts" 200 [] [Invalid "{items:[" ] true)
      (fresh_exchange 0 (get ["api"; "v1"; "gifts"] "") metrics) = (Ok tt, x')
    /\ ex_body x' = [Invalid "{items:["] ++ chunks internal_error.
Proof.
  destruct (broken_upstream_response_looks_complete None "generated" 0 (fun _ => None) "GET /api/v1/gifts" 200 [] [Invalid "{items:["]
    (get ["api"; "v1"; "gifts"] "") 0 metrics) as (x' & Hrun & _ & Hb & _); [reflexivity|].
  exists x'. split; [exact Hrun|exact Hb].
Defined.

(** The client's own id is kept and comes back. *)
Example own_id : (run (get ["rooms"; "9"] "abc")).2.(ex_log)
  = [("http request", [("request_id", "abc"); ("method", "GET"); ("path", "/rooms/9"); ("duration_ms", "0")])].
Proof. vm_compute. reflexivity. Qed.
Example ids : idgen_New (Some [0; 255; 16; 1; 2; 3; 4; 5; 6; 7; 8; 171]) 5 = "00ff100102030405060708ab" /\ idgen_New None 5 = "5".
Proof. split; vm_compute; reflexivity. Qed.
End MiddlewareExamples.
