(* ===== verification/Process.v ===== *)
(** The processes under [cmd/]: what each [main] opens, in which order, what it serves,
    and what it releases when it ends.

    [defer] and [os.Exit] are written out: a process holds the stack of its deferred
    closes; returning from [main] runs them, last first, and [os.Exit] does not. Which
    things fail to open, the signal or server error that ends the wait and the
    environment are arguments. Timeouts of the shutdown are not modelled. *)
From Stdlib Require Import Ascii.
From S2P Require Import Prelude GoStrings Realtime Traffic Kafka Config Auth Http Contract Gateway Metrics Middleware Worker.

(** ** [defer] and [os.Exit] *)
(** What can be opened. *)
Inductive dependency : Type :=
| Tracing (cfg : TraceConfig)
| MySQLPool (pool dsn : string) (cfg : MySQLConfig)
| RedisClient (cfg : RedisConfig) (shards : Z)
| KafkaClient (cfg : ClientConfig)
| GatewayProxies (urls : backend -> string).
(** What happens, in order. *)
Inductive happening : Type :=
| Acquired (d : dependency) | Released (d : dependency)
| Listening (service addr : string) | Logged (msg : string) (err : error) | ServerShutdown.
Record process : Type := mkProcess { pr_trace : list happening; pr_deferred : list dependency }.

Definition happens (h : happening) : M process unit := modify (fun p => mkProcess (pr_trace p ++ [h]) (pr_deferred p)).
(** [h, err := Open(...); if err != nil { log.Error(msg, err); os.Exit(1) };
    defer h.Close()] *)
Definition open_or_exit (msg : string) (err : option error) (d : dependency) : M process unit :=
  match err with
  | Some e => _ ← happens (Logged msg e); throw e
  | None => modify (fun p => mkProcess (pr_trace p ++ [Acquired d]) (d :: pr_deferred p))
  end.
Definition run_main (main : M process unit) : res unit * list happening :=
  match main (mkProcess [] []) with
  | (Ok _, p) => (Ok tt, pr_trace p ++ map Released (pr_deferred p))
  | (Err e, p) => (Err e, pr_trace p)
  end.

(** ** The constructors that only check their configuration *)
(** [redisstore.Open]: [parse_url] is [redis.ParseURL]. The options and the shards. *)
Record redis_options : Type := mkRedisOptions { ro_Addr : string; ro_Password : string; ro_DB : Z }.
Definition redisstore_Open (parse_url : string -> res redis_options) (cfg : RedisConfig) (shards : Z) : res (redis_options * Z) :=
  let opts := if bool_decide (rd_URL cfg <> "") then parse_url (rd_URL cfg)
              else Ok (mkRedisOptions (rd_Addr cfg) (rd_Password cfg) (rd_DB cfg)) in
  match opts with
  | Ok o => Ok (o, if shards <=? 0 then 16 else shards)
  | Err e => Err e
  end.
(** [mysqlstore.Open]: [sql.Open] checks the DSN, the pool takes the three settings. *)
Record mysql_pool : Type := mkMySQLPool { mp_dsn : string; mp_MaxOpen : Z; mp_MaxIdle : Z; mp_Lifetime : Z }.
Definition mysqlstore_Open (sql_open : string -> option error) (dsn : string) (cfg : MySQLConfig) : res mysql_pool :=
  match sql_open dsn with
  | Some e => Err e
  | None => Ok (mkMySQLPool dsn (mc_MaxOpenConns cfg) (mc_MaxIdleConns cfg) (mc_ConnMaxLifetime cfg))
  end.
Definition failure {A} (r : res A) : option error := match r with Ok _ => None | Err e => Some e end.

(** What the environment does to the openings. *)
Record openings : Type := mkOpenings {
  op_exporter : option error; op_resource : option error;
  op_sql : string -> option error;
  op_redis_url : string -> res redis_options;
  op_kafka : list kgo_opt -> res unit;
  op_parse_url : string -> option (string * string) }.
(** What ends the wait: a signal, or [ListenAndServe] returning. *)
Inductive ending : Type := Signal | ServerReturned (err : error).
Definition http_ErrServerClosed : error := Sentinel "http.ErrServerClosed" "http: Server closed".

(** ** Settings taken from the configuration *)
Definition trace_config (service : string) (c : ObservabilityConfig) : TraceConfig :=
  mkTraceConfig (ob_OTelEnabled c) service (ob_Environment c) (ob_OTelEndpoint c) (ob_OTelInsecure c) (ob_OTelSampleRatio c).
Definition kafka_config (c : KafkaConfig) : ClientConfig :=
  mkClientConfig (ka_Brokers c) (ka_TLSEnabled c) (ka_SASLMechanism c) (ka_SASLUsername c) (ka_SASLPassword c).
Definition gateway_urls (c : GatewayConfig) (b : backend) : string :=
  match b with Identity => gw_IdentityRoom c | Interaction => gw_Interaction c | CommerceBackend => gw_Commerce c | QueryBackend => gw_Query c end.

Section mains.
Context `{UnicodeTables} `{FloatText}.
Variables (getenv : string -> string) (quote : string -> string) (o : openings) (ev : ending).

Definition init_tracing (service : string) (c : ObservabilityConfig) : M process unit :=
  let cfg := trace_config service c in
  open_or_exit "init tracing" (failure (InitTracer (op_exporter o) (op_resource o) cfg)) (Tracing cfg).
Definition open_mysql (msg pool dsn : string) (c : Config) : M process unit :=
  open_or_exit msg (failure (mysqlstore_Open (op_sql o) dsn (cg_MySQL c))) (MySQLPool pool dsn (cg_MySQL c)).
Definition open_redis (c : Config) : M process unit :=
  let shards := en_ActiveRoomShards (cg_Engagement c) in
  open_or_exit "open redis" (failure (redisstore_Open (op_redis_url o) (cg_Redis c) shards)) (RedisClient (cg_Redis c) shards).
Definition open_kafka (c : Config) : M process unit :=
  let cfg := kafka_config (cg_Kafka c) in
  open_or_exit "create kafka producer" (failure (NewProducerWithConfig (op_kafka o) cfg)) (KafkaClient cfg).

(** From the listener to the end of [main]. *)
Definition serve_http (service addr msg : string) : M process unit :=
  _ ← happens (Listening service addr);
  _ ← match ev with
      | Signal => mret tt
      | ServerReturned e => if errors_Is e http_ErrServerClosed then mret tt else happens (Logged msg e)
      end;
  happens ServerShutdown.
(** [cfg, err := config.Load(); if err != nil { log.Error("load config", ...); os.Exit(1) }] *)
Definition load_or_exit {A} (msg : string) (r : res A) : M process A :=
  match r with Ok c => mret c | Err e => _ ← happens (Logged msg e); throw e end.

(** [cmd/interaction/main.go] *)
Definition interaction_main : M process unit :=
  c ← load_or_exit "load config" (Load getenv quote);
  _ ← init_tracing "live-interaction" (cg_Observability c);
  _ ← open_redis c;
  _ ← open_kafka c;
  serve_http "interaction" (cc_HTTPAddr (cg_Interaction c)) "http server".

(** [cmd/commerce/main.go] *)
Definition commerce_main : M process unit :=
  c ← load_or_exit "load config" (Load getenv quote);
  _ ← init_tracing "live-commerce" (cg_Observability c);
  _ ← open_mysql "open mysql" "mysql" (db_CommerceDSN (cg_Databases c)) c;
  _ ← open_redis c;
  serve_http "commerce" (cc_HTTPAddr (cg_Commerce c)) "commerce server".

(** [cmd/identityroom/main.go] *)
Definition identityroom_main : M process unit :=
  c ← load_or_exit "load config" (Load getenv quote);
  _ ← init_tracing "live-identity-room" (cg_Observability c);
  _ ← open_mysql "open identity mysql" "identity-mysql" (db_IdentityDSN (cg_Databases c)) c;
  _ ← open_mysql "open room mysql" "room-mysql" (db_RoomDSN (cg_Databases c)) c;
  _ ← open_redis c;
  serve_http "identity-room" (cc_HTTPAddr (cg_IdentityRoom c)) "http server".

(** [cmd/query/main.go] *)
Definition query_main : M process unit :=
  c ← load_or_exit "load config" (Load getenv quote);
  _ ← init_tracing "live-query" (cg_Observability c);
  _ ← open_mysql "open mysql" "mysql" (db_QueryDSN (cg_Databases c)) c;
  _ ← open_redis c;
  serve_http "query" (cc_HTTPAddr (cg_Query c)) "query server".

(** [cmd/api/main.go]: the proxies hold nothing to release. *)
Definition api_main : M process unit :=
  c ← load_or_exit "load gateway config" (LoadGateway getenv);
  _ ← init_tracing "live-api" (gw_Observability c);
  _ ← match gateway_New (op_parse_url o) quote true (gateway_urls c) with
      | Ok _ => mret tt
      | Err e => _ ← happens (Logged "create gateway" e); throw e
      end;
  serve_http "api gateway" (gw_HTTPAddr c) "http server".
End mains.

(** The pools each process registers with its metrics ([RegisterDBPool]). *)
Definition registered_pools (service : string) : list string :=
  if bool_decide (service = "live-commerce") || bool_decide (service = "live-query") then ["mysql"]
  else if bool_decide (service = "live-identity-room") then ["identity-mysql"; "room-mysql"]
  else if bool_decide (service = "live-worker") then ["commerce-mysql"; "archive-mysql"; "query-mysql"]
  else [].

(** ** The worker from its wait to its end *)
Inductive worker_happening : Type :=
| Did (a : action) | MetricsListening (addr : string) | WorkerLogged (msg : string) (err : error)
| Cancelled | MetricsShutdown | ComponentsStopped | ShutdownTimedOut | Closed (r : resource) | TracingStopped.

(** The first event that ends the wait. *)
Fixpoint awaited (events : list worker_event) : option worker_event :=
  match events with
  | [] => None
  | e :: events => if ends_wait e then Some e else awaited events
  end.
(** What [main] logs for it and whether it cancels the components itself; a signal has
    cancelled them already. *)
Definition on_event (e : worker_event) : list worker_happening :=
  match e with
  | Signalled => [Cancelled]
  | ComponentReturned c err =>
    match component_error c err with
    | Some err => [WorkerLogged "worker component stopped unexpectedly" err; Cancelled]
    | None => []
    end
  | MetricsStopped err =>
    if errors_Is err http_ErrServerClosed then [] else [WorkerLogged "worker metrics server stopped unexpectedly" err; Cancelled]
  end.
Definition opened (w : list action) : list resource :=
  omap (fun a => match a with Opened r => Some r | Started _ _ => None end) w.
(** [main] of the worker after its configuration: [in_time] is whether the components
    stop before the shutdown timeout; [None] when it still waits. *)
Definition worker_main (open_error : resource -> option error) (addr : string) (roles : list string) (events : list worker_event)
    (in_time : bool) : option (res unit * list worker_happening) :=
  match worker_start open_error roles [] with
  | (Err e, w) => Some (Err e, map Did w)
  | (Ok _, w) =>
    match awaited events with
    | None => None
    | Some e =>
      Some (Ok tt, map Did w ++ [MetricsListening addr] ++ on_event e
                   ++ [MetricsShutdown; if in_time then ComponentsStopped else ShutdownTimedOut]
                   ++ map Closed (rev (opened w)) ++ [TracingStopped])
    end
  end.

(** What each resource of the worker is opened with; the realtime publisher only keeps its
    address. *)
Section worker_process.
Context `{UnicodeTables} `{FloatText}.
Variables (getenv : string -> string) (quote : string -> string) (o : openings).
Definition worker_open_error (c : Config) (r : resource) : option error :=
  let mysql dsn := failure (mysqlstore_Open (op_sql o) (dsn (cg_Databases c)) (cg_MySQL c)) in
  let kafka := kafka_config (cg_Kafka c) in
  let consumer group topic := failure (NewConsumerWithConfig (op_kafka o) kafka (group (cg_Kafka c)) [topic (cg_Kafka c)]) in
  match r with
  | CommerceMySQL => mysql db_CommerceDSN
  | ArchiveMySQL => mysql db_ArchiveDSN
  | QueryMySQL => mysql db_QueryWriterDSN
  | RedisConn => failure (redisstore_Open (op_redis_url o) (cg_Redis c) (en_ActiveRoomShards (cg_Engagement c)))
  | Centrifugo => None
  | Producer => failure (NewProducerWithConfig (op_kafka o) kafka)
  | GiftGroup => consumer ka_GiftConsumerGroup ka_GiftTopic
  | DanmakuGroup => consumer ka_DanmakuConsumerGroup ka_DanmakuTopic
  end.
(** [main] of the worker. *)
Definition worker_process (events : list worker_event) (in_time : bool) : option (res unit * list worker_happening) :=
  match Load getenv quote with
  | Err e => Some (Err e, [WorkerLogged "load config" e])
  | Ok c =>
    match InitTracer (op_exporter o) (op_resource o) (trace_config "live-worker" (cg_Observability c)) with
    | Err e => Some (Err e, [WorkerLogged "init tracing" e])
    | Ok _ => worker_main (worker_open_error c) (ob_WorkerMetricsAddr (cg_Observability c)) (cg_Roles c) events in_time
    end
  end.
End worker_process.

(** [newMetricsServer]: the health document, the same for both probes. *)
Definition worker_health (roles : list string) : string :=
  let q := String (ascii_of_nat 34) "" in
  let field k v := q +:+ k +:+ q +:+ ":" +:+ q +:+ v +:+ q in
  "{" +:+ field "status" "ok" +:+ "," +:+ field "service" "live-worker" +:+ "," +:+ field "milestone" "M8" +:+ ","
      +:+ field "roles" (String.concat "," roles) +:+ "}".

(** ** [cmd/dlq-replay] *)
(** The exit code and the count that is reported; [input] is the lines of the input or
    the error of opening it, [scan_err] the error at its end. *)
Section dlq_replay.
Context `{UnicodeTables} {K : Type} (replay : list line -> string -> option error -> M K (Z * option error)).
Variable getenv : string -> string.
(** [env] of this command trims its value. *)
Definition dlq_env (key fallback : string) : string :=
  let value := TrimSpace (getenv key) in if bool_decide (value <> "") then value else fallback.
Definition dlq_brokers (flag : option string) : list string :=
  Split ","%char (match flag with Some b => b | None => dlq_env "KAFKA_BROKERS" "localhost:19092" end).
(** [openInput]: standard input for ["-"]. *)
Definition openInput (open_file : string -> res (list line)) (stdin : list line) (path : string) : res (list line) :=
  if bool_decide (path = "-") then Ok stdin
  else match open_file path with Ok l => Ok l | Err e => Err (Wrapped "open input: " e "") end.
Definition dlq_replay_main (NewClient : list kgo_opt -> res unit) (brokers : option string) (actor path : string)
    (open_file : string -> res (list line)) (stdin : list line) (scan_err : option error) : M K (Z * Z) :=
  if bool_decide (TrimSpace actor = "") then mret (2, 0) else
  match openInput open_file stdin path with
  | Err _ => mret (1, 0)
  | Ok lines =>
    match NewProducerWithConfig NewClient (mkClientConfig (dlq_brokers brokers) false "" "" "") with
    | Err _ => mret (1, 0)
    | Ok _ =>
      r ← replay lines actor scan_err;
      mret (match r with (count, None) => (0, count) | (count, Some _) => (1, count) end)
    end
  end.
End dlq_replay.
