(* ===== verification/ProcessSpec.v ===== *)
(** What the processes promise about their life: everything opened before a process
    serves, released in reverse order after it stopped, nothing served when anything
    failed. *)
From Stdlib Require Import Ascii.
From S2P Require Import Prelude GoStrings Realtime Traffic TrafficSpec Kafka Instances Config ConfigSpec Auth Http Contract Gateway Metrics Middleware Worker WorkerSpec IdentitySpec Process.

(** ** The shape of a life *)
Definition is_log (h : happening) : Prop := match h with Logged _ _ => True | _ => False end.
(** [run] opened [deps], served at [addr], and released them, last opened first; or an
    opening failed, and nothing was served. *)
Definition lifecycle (service addr : string) (deps : list dependency) (run : res unit * list happening) : Prop :=
  match run.1 with
  | Ok _ => exists logs, Forall is_log logs
      /\ run.2 = map Acquired deps ++ Listening service addr :: logs ++ ServerShutdown :: map Released (rev deps)
  | Err e => exists l msg, l `prefix_of` deps /\ run.2 = map Acquired l ++ [Logged msg e]
  end.

(** A start so far: [deps] are open, in this order. *)
Definition opened_so_far (deps : list dependency) (p : process) : Prop := p = mkProcess (map Acquired deps) (rev deps).

Lemma wp_open_or_exit msg err d deps (Q : res unit -> process -> Prop) p :
  opened_so_far deps p ->
  (forall e, err = Some e -> Q (Err e) (mkProcess (map Acquired deps ++ [Logged msg e]) (rev deps))) ->
  (err = None -> forall p', opened_so_far (deps ++ [d]) p' -> Q (Ok tt) p') ->
  wp (open_or_exit msg err d) Q p.
Proof.
  intros -> Herr Hok. unfold open_or_exit. destruct err as [e|].
  - apply wp_bind. unfold wp. cbn. by apply Herr.
  - apply wp_modify. apply Hok; [done|]. unfold opened_so_far. by rewrite map_app, rev_app_distr.
Qed.

(** What [main] leaves before the deferred calls. *)
Definition served_or_failed (service addr : string) (all : list dependency) (r : res unit) (p : process) : Prop :=
  match r with
  | Ok _ => exists logs, Forall is_log logs /\ p = mkProcess (map Acquired all ++ Listening service addr :: logs ++ [ServerShutdown]) (rev all)
  | Err e => exists l msg, l `prefix_of` all /\ pr_trace p = map Acquired l ++ [Logged msg e]
  end.
Lemma wp_serve_http ev service addr msg all p :
  opened_so_far all p -> wp (serve_http ev service addr msg) (served_or_failed service addr all) p.
Proof.
  intros ->. unfold serve_http, served_or_failed, wp, mbind, M_bind, happens, modify. destruct ev as [|e].
  - cbn. exists []. split; [done|]. by rewrite <-app_assoc.
  - destruct (errors_Is e http_ErrServerClosed); cbn; [exists []|exists [Logged msg e]]; (split; [by repeat constructor|]); by rewrite <-?app_assoc.
Qed.
Lemma failed_open service addr all l msg e ds : l `prefix_of` all ->
  served_or_failed service addr all (Err e) (mkProcess (map Acquired l ++ [Logged msg e]) ds).
Proof. intros Hl. by exists l, msg. Qed.

Lemma run_main_lifecycle service addr all (main : M process unit) :
  wp main (served_or_failed service addr all) (mkProcess [] []) -> lifecycle service addr all (run_main main).
Proof.
  unfold wp, run_main, lifecycle, served_or_failed. destruct (main (mkProcess [] [])) as [[[]|e] p]; cbn [fst snd].
  - intros (logs & Hlogs & ->). exists logs. split; [done|]. cbn [pr_trace pr_deferred]. by rewrite <-app_assoc, <-app_comm_cons, <-app_assoc.
  - done.
Qed.

(** Walk through a [main]: each opening either ends the start or adds its dependency. *)
Ltac prefix_done := solve [repeat apply prefix_cons; first [apply prefix_nil | reflexivity]].
Ltac start_step :=
  match goal with
  | |- wp (_ ≫= _) _ _ => apply wp_bind
  | |- wp (open_or_exit _ _ _) _ _ =>
    eapply wp_open_or_exit; [eassumption | intros ? ?; apply failed_open; prefix_done | intros ? ? ?]
  | |- wp (serve_http _ _ _ _) _ _ => apply wp_serve_http; eassumption
  end.

Section lives.
Context `{UnicodeTables} `{FloatText}.
Variables (getenv : string -> string) (quote : string -> string) (o : openings) (ev : ending).

Definition redis_of (c : Config) : dependency := RedisClient (cg_Redis c) (en_ActiveRoomShards (cg_Engagement c)).
Definition tracing_of (service : string) (c : Config) : dependency := Tracing (trace_config service (cg_Observability c)).
Definition interaction_needs (c : Config) : list dependency :=
  [tracing_of "live-interaction" c; redis_of c; KafkaClient (kafka_config (cg_Kafka c))].
Definition commerce_needs (c : Config) : list dependency :=
  [tracing_of "live-commerce" c; MySQLPool "mysql" (db_CommerceDSN (cg_Databases c)) (cg_MySQL c); redis_of c].
Definition identityroom_needs (c : Config) : list dependency :=
  [tracing_of "live-identity-room" c; MySQLPool "identity-mysql" (db_IdentityDSN (cg_Databases c)) (cg_MySQL c);
   MySQLPool "room-mysql" (db_RoomDSN (cg_Databases c)) (cg_MySQL c); redis_of c].
Definition query_needs (c : Config) : list dependency :=
  [tracing_of "live-query" c; MySQLPool "mysql" (db_QueryDSN (cg_Databases c)) (cg_MySQL c); redis_of c].
Definition api_needs (c : GatewayConfig) : list dependency := [Tracing (trace_config "live-api" (gw_Observability c))].

Lemma opened_nil : opened_so_far [] (mkProcess [] []).
Proof. done. Qed.
#[local] Hint Resolve opened_nil : core.

Lemma interaction_life c : Load getenv quote = Ok c ->
  lifecycle "interaction" (cc_HTTPAddr (cg_Interaction c)) (interaction_needs c) (run_main (interaction_main getenv quote o ev)).
Proof.
  intros Hc. apply run_main_lifecycle. unfold interaction_main, load_or_exit, init_tracing, open_redis, open_kafka. rewrite Hc.
  apply wp_bind, wp_ret. pose proof opened_nil. repeat start_step.
Qed.
Lemma commerce_life c : Load getenv quote = Ok c ->
  lifecycle "commerce" (cc_HTTPAddr (cg_Commerce c)) (commerce_needs c) (run_main (commerce_main getenv quote o ev)).
Proof.
  intros Hc. apply run_main_lifecycle. unfold commerce_main, load_or_exit, init_tracing, open_redis, open_mysql. rewrite Hc.
  apply wp_bind, wp_ret. pose proof opened_nil. repeat start_step.
Qed.
Lemma identityroom_life c : Load getenv quote = Ok c ->
  lifecycle "identity-room" (cc_HTTPAddr (cg_IdentityRoom c)) (identityroom_needs c) (run_main (identityroom_main getenv quote o ev)).
Proof.
  intros Hc. apply run_main_lifecycle. unfold identityroom_main, load_or_exit, init_tracing, open_redis, open_mysql. rewrite Hc.
  apply wp_bind, wp_ret. pose proof opened_nil. repeat start_step.
Qed.
Lemma query_life c : Load getenv quote = Ok c ->
  lifecycle "query" (cc_HTTPAddr (cg_Query c)) (query_needs c) (run_main (query_main getenv quote o ev)).
Proof.
  intros Hc. apply run_main_lifecycle. unfold query_main, load_or_exit, init_tracing, open_redis, open_mysql. rewrite Hc.
  apply wp_bind, wp_ret. pose proof opened_nil. repeat start_step.
Qed.
Lemma api_life c : LoadGateway getenv = Ok c ->
  lifecycle "api gateway" (gw_HTTPAddr c) (api_needs c) (run_main (api_main getenv quote o ev)).
Proof.
  intros Hc. apply run_main_lifecycle. unfold api_main, load_or_exit, init_tracing. rewrite Hc.
  apply wp_bind, wp_ret. pose proof opened_nil. start_step. start_step. start_step.
  destruct (gateway_New _ _ _ _) as [u|e]; [apply wp_ret; by repeat start_step|].
  apply wp_bind. match goal with Hp : opened_so_far _ ?p |- _ => rewrite Hp end. unfold wp, happens, modify, throw. cbn.
  by exists (api_needs c), "create gateway".
Qed.

(** *** Starts that succeed *)
(** Nothing in the environment fails; the URLs of the gateway parse. *)
Record healthy : Prop := {
  h_exporter : op_exporter o = None; h_resource : op_resource o = None;
  h_sql : forall dsn, op_sql o dsn = None; h_redis : forall url, exists opts, op_redis_url o url = Ok opts;
  h_kafka : forall opts, op_kafka o opts = Ok tt }.
Lemma failure_none {A} (r : res A) a : r = Ok a -> failure r = None.
Proof. by intros ->. Qed.
Lemma init_healthy c : healthy -> failure (InitTracer (op_exporter o) (op_resource o) c) = None.
Proof. intros [-> -> _ _ _]. unfold InitTracer. by destruct (negb _). Qed.
Lemma mysql_healthy dsn c : healthy -> failure (mysqlstore_Open (op_sql o) dsn c) = None.
Proof. intros Ho. unfold mysqlstore_Open. by rewrite (h_sql Ho). Qed.
Lemma redis_healthy c shards : healthy -> failure (redisstore_Open (op_redis_url o) c shards) = None.
Proof.
  intros Ho. unfold redisstore_Open. case_bool_decide; [|done]. by destruct (h_redis Ho (rd_URL c)) as [opts ->].
Qed.
(** A loaded configuration always makes Kafka options: brokers and a known mechanism. *)
Lemma producer_options_ok c : config_ok c -> exists opts, producerOptions (kafka_config (cg_Kafka c)) = Ok opts.
Proof.
  intros Hok. destruct (ok_kafka c Hok) as (Hb & _ & _ & Hm & _). unfold producerOptions, clientOptions, kafka_config. cbn.
  destruct (ka_Brokers (cg_Kafka c)); [done|]. rewrite !elem_of_cons, elem_of_nil in Hm.
  destruct Hm as [->|[->|[->|[->|[]]]]]; literals; by eexists.
Qed.
Lemma kafka_healthy c : healthy -> config_ok c -> failure (NewProducerWithConfig (op_kafka o) (kafka_config (cg_Kafka c))) = None.
Proof.
  intros Ho Hok. destruct (producer_options_ok c Hok) as [opts E]. unfold NewProducerWithConfig. rewrite E. by rewrite (h_kafka Ho).
Qed.

Lemma open_ok msg err d p : err = None -> open_or_exit msg err d p = (Ok tt, mkProcess (pr_trace p ++ [Acquired d]) (d :: pr_deferred p)).
Proof. by intros ->. Qed.
Lemma serve_ok service addr msg p : exists p', serve_http ev service addr msg p = (Ok tt, p').
Proof.
  unfold serve_http, mbind, M_bind, happens, modify. destruct ev as [|e]; [by eexists|]. destruct (errors_Is e _); by eexists.
Qed.

Ltac opens :=
  repeat (erewrite bind_ok; [|apply open_ok; by first [apply init_healthy | apply mysql_healthy | apply redis_healthy | apply kafka_healthy]]).
Lemma healthy_starts c : healthy -> Load getenv quote = Ok c ->
  (run_main (interaction_main getenv quote o ev)).1 = Ok tt /\ (run_main (commerce_main getenv quote o ev)).1 = Ok tt
  /\ (run_main (identityroom_main getenv quote o ev)).1 = Ok tt /\ (run_main (query_main getenv quote o ev)).1 = Ok tt.
Proof.
  intros Ho Hc. pose proof (load_config_ok getenv quote c Hc) as Hok.
  unfold run_main, interaction_main, commerce_main, identityroom_main, query_main, load_or_exit, init_tracing, open_redis, open_kafka, open_mysql.
  rewrite Hc. split_and!; (erewrite bind_ok; [|reflexivity]); opens;
    match goal with |- context [serve_http ev ?s ?a ?m ?p] => destruct (serve_ok s a m p) as [p' ->] end; reflexivity.
Qed.

Lemma healthy_gateway_starts c : healthy -> LoadGateway getenv = Ok c ->
  gateway_New (op_parse_url o) quote true (gateway_urls c) = Ok tt -> (run_main (api_main getenv quote o ev)).1 = Ok tt.
Proof.
  intros Ho Hc Hnew. unfold run_main, api_main, load_or_exit, init_tracing. rewrite Hc.
  erewrite bind_ok by reflexivity. opens. rewrite Hnew. erewrite bind_ok by reflexivity.
  match goal with |- context [serve_http ev ?s ?a ?m ?p] => destruct (serve_ok s a m p) as [p' ->] end. reflexivity.
Qed.

(** C36 The life of the five HTTP processes, for every environment, whatever fails to
    open and whatever ends the wait. Without a valid configuration a process only logs
    it and exits. With one it opens exactly the dependencies of its configuration, one after
    the other, and listens on its configured address only when all of them are open;
    after the signal or the server's error it shuts the server down and then releases
    everything it opened, last opened first. When an opening fails it exits without
    serving. When nothing fails, the four services start for every configuration that
    loads, and the gateway for every one whose service URLs are valid. *)
Theorem processes_release_what_they_open :
  (forall e, Load getenv quote = Err e ->
     Forall (fun main => run_main main = (Err e, [Logged "load config" e]))
       [interaction_main getenv quote o ev; commerce_main getenv quote o ev; identityroom_main getenv quote o ev; query_main getenv quote o ev])
  /\ (forall e, LoadGateway getenv = Err e -> run_main (api_main getenv quote o ev) = (Err e, [Logged "load gateway config" e]))
  /\ (forall c, Load getenv quote = Ok c ->
     lifecycle "interaction" (cc_HTTPAddr (cg_Interaction c)) (interaction_needs c) (run_main (interaction_main getenv quote o ev))
     /\ lifecycle "commerce" (cc_HTTPAddr (cg_Commerce c)) (commerce_needs c) (run_main (commerce_main getenv quote o ev))
     /\ lifecycle "identity-room" (cc_HTTPAddr (cg_IdentityRoom c)) (identityroom_needs c) (run_main (identityroom_main getenv quote o ev))
     /\ lifecycle "query" (cc_HTTPAddr (cg_Query c)) (query_needs c) (run_main (query_main getenv quote o ev))
     /\ (healthy -> Forall (fun main => (run_main main).1 = Ok tt)
           [interaction_main getenv quote o ev; commerce_main getenv quote o ev; identityroom_main getenv quote o ev; query_main getenv quote o ev]))
  /\ (forall c, LoadGateway getenv = Ok c ->
     lifecycle "api gateway" (gw_HTTPAddr c) (api_needs c) (run_main (api_main getenv quote o ev))
     /\ (healthy -> gateway_New (op_parse_url o) quote true (gateway_urls c) = Ok tt -> (run_main (api_main getenv quote o ev)).1 = Ok tt)).
Proof.
  split; [|split; [|split]].
  - intros e He. unfold interaction_main, commerce_main, identityroom_main, query_main, load_or_exit. rewrite He. by repeat constructor.
  - intros e He. unfold api_main, load_or_exit. by rewrite He.
  - intros c Hc. split; [by apply interaction_life|]. split; [by apply commerce_life|]. split; [by apply identityroom_life|].
    split; [by apply query_life|]. intros Ho. destruct (healthy_starts c Ho Hc) as (H1 & H2 & H3 & H4). by repeat constructor.
  - intros c Hc. split; [by apply api_life|]. intros. by eapply healthy_gateway_starts.
Qed.
End lives.

(** ** Metrics of the processes *)
(** No process registers a pool twice: [RegisterDBPool] never panics. *)
Lemma pools_register service : exists m m', NewMetrics service = (Ok tt, m) /\ register_pools (registered_pools service) m = (Ok tt, m').
Proof.
  destruct (new_metrics_ready service) as (m & E & Hs & Hr). exists m.
  edestruct (register_pools_ok (registered_pools service) m) as (m' & Hrun & _); [| |by exists m'].
  - unfold registered_pools. destruct (_ || _); [|repeat case_bool_decide]; apply (bool_decide_unpack _); vm_compute; exact I.
  - rewrite Hr. intros p _ x Hx Hin. apply pool_entry in Hx. apply list_elem_of_In, in_map_iff in Hin as (d & <- & _). done.
Qed.

(** ** The worker *)
Lemma opened_in_opened r w : opened_in r w = true <-> r ∈ opened w.
Proof.
  unfold opened_in, opened. rewrite existsb_exists, list_elem_of_omap. split.
  - intros ([x|c hs] & Hin & Hx); [|done]. apply bool_decide_eq_true in Hx as ->. exists (Opened x). by rewrite list_elem_of_In.
  - intros ([x|c hs] & Hin & [= ->]). exists (Opened r). rewrite <-list_elem_of_In. split; [done|]. by apply bool_decide_eq_true.
Qed.
Lemma wired_fresh roles done w : wired roles done w -> NoDup (opened w) /\ forall r, r ∈ opened w -> r ∉ done.
Proof.
  revert done. induction w as [|[x|c hs] w IH]; intros done; cbn [wired opened omap list_omap].
  - intros _. split; [constructor|]. intros r Hr. by apply elem_of_nil in Hr.
  - intros (Hx & _ & Hw). destruct (IH _ Hw) as [Hnd Hn]. split.
    + apply NoDup_cons. split; [|exact Hnd]. intros Hin. apply (Hn x Hin). by left.
    + intros r [->|Hr]%elem_of_cons; [done|]. intros Hd. apply (Hn r Hr). by right.
  - intros (_ & _ & Hw). by apply IH.
Qed.
(** When the worker ends, every resource it opened is closed exactly once, after the
    metrics server is shut down and the components stopped or timed out; the
    components were cancelled unless the metrics server was closed on purpose. *)
Lemma worker_releases `{UnicodeTables} `{FloatText} getenv quote c open_error addr events in_time tr :
  Load getenv quote = Ok c -> worker_main open_error addr (cg_Roles c) events in_time = Some (Ok tt, tr) ->
  exists w mid, tr = map Did w ++ mid ++ map Closed (rev (opened w)) ++ [TracingStopped]
    /\ NoDup (opened w) /\ (forall r, Closed r ∉ mid) /\ MetricsShutdown ∈ mid
    /\ (awaited events <> Some (MetricsStopped http_ErrServerClosed) -> (forall e, awaited events = Some (MetricsStopped e) -> errors_Is e http_ErrServerClosed = false) -> Cancelled ∈ mid)
    /\ started w = map component_of (canonical (cg_Roles c)).
Proof.
  intros Hload. unfold worker_main. pose proof (canonical_in_order open_error (cg_Roles c)) as Hgood. unfold in_order in Hgood.
  rewrite worker_start_canonical in Hgood. destruct (worker_start open_error (cg_Roles c) []) as [[u|e] w]; [|done]. destruct Hgood as [Hw Hs].
  destruct (awaited events) as [ev|] eqn:Hev; [|done]. intros [= <-]. exists w.
  exists (MetricsListening addr :: on_event ev ++ [MetricsShutdown; if in_time then ComponentsStopped else ShutdownTimedOut]).
  split; [cbn; by rewrite <-!app_assoc|]. split; [by apply wired_fresh in Hw as [? _]|].
  assert (Hon : forall r, Closed r ∉ on_event ev).
  { intros r. unfold on_event. destruct ev as [|comp err|err]; [|destruct (component_error comp err)|destruct (errors_Is err _)]; set_solver. }
  split; [intros r Hr; specialize (Hon r); destruct in_time; set_solver|]. split; [set_solver|]. split; [|exact Hs].
  intros _ Hclosed. right. apply elem_of_app. left. unfold on_event. destruct ev as [|comp err|err]; [by left| |].
  - assert (He : ends_wait (ComponentReturned comp err) = true).
    { clear -Hev. induction events as [|x events IH]; [done|]. cbn [awaited] in Hev. destruct (ends_wait x) eqn:E; [by injection Hev as ->|by apply IH]. }
    cbn in He. destruct (component_error comp err); [|done]. right. by left.
  - rewrite (Hclosed err eq_refl). right. by left.
Qed.

(** A worker that loads its configuration and finds everything it opens runs until the
    event that ends its wait, with a component for each of its roles. *)
Lemma consumer_healthy o c group topic : healthy o -> config_ok c -> group <> "" ->
  failure (NewConsumerWithConfig (op_kafka o) (kafka_config (cg_Kafka c)) group [topic]) = None.
Proof.
  intros Ho Hok Hg. destruct (producer_options_ok c Hok) as [opts E]. unfold NewConsumerWithConfig, consumerOptions.
  rewrite !bool_decide_false by done. cbn [orb]. unfold producerOptions in E.
  destruct (clientOptions (kafka_config (cg_Kafka c))) as [copts|]; [|discriminate]. cbn beta iota. by rewrite (h_kafka o Ho).
Qed.
Lemma nothing_fails e roles w : (forall r, e r = None) -> (worker_start e roles w).1 = Ok tt.
Proof.
  intros He. unfold worker_start, start_gift_consumer, start_danmaku_consumer, open_if, open_resource. rewrite !He.
  destruct (has_role roles "stats"), (has_role roles "like-snapshot"), (has_role roles "outbox"), (has_role roles "gift-consumer"), (has_role roles "danmaku-consumer"); reflexivity.
Qed.
Lemma worker_runs `{UnicodeTables} `{FloatText} getenv quote o c events in_time ev :
  healthy o -> Load getenv quote = Ok c -> ka_GiftConsumerGroup (cg_Kafka c) <> "" -> ka_DanmakuConsumerGroup (cg_Kafka c) <> "" ->
  awaited events = Some ev ->
  exists w tr, worker_process getenv quote o events in_time = Some (Ok tt, map Did w ++ tr) /\ started w = map component_of (canonical (cg_Roles c)).
Proof.
  intros Ho Hload Hg Hd Hev. pose proof (load_config_ok getenv quote c Hload) as Hok.
  assert (He : forall r, worker_open_error o c r = None).
  { intros []; unfold worker_open_error; try done; by first [apply mysql_healthy | apply redis_healthy | apply kafka_healthy | apply consumer_healthy]. }
  unfold worker_process. rewrite Hload. pose proof (init_healthy o (trace_config "live-worker" (cg_Observability c)) Ho) as Hi.
  destruct (InitTracer _ _ _) as [u|]; [|discriminate]. unfold worker_main.
  pose proof (nothing_fails (worker_open_error o c) (cg_Roles c) [] He) as Hs. pose proof (canonical_in_order (worker_open_error o c) (cg_Roles c)) as Hgood.
  unfold in_order in Hgood. rewrite worker_start_canonical in Hgood. destruct (worker_start _ _ _) as [[u'|e] w]; [|discriminate Hs].
  rewrite Hev. destruct Hgood as [_ Hgood]. by exists w; eexists.
Qed.

(** ** Examples *)
Module ProcessExamples.
#[local] Existing Instance ascii_tables.
#[local] Existing Instance ConfigExamples.some_floats.

Definition fine : openings := mkOpenings None None (fun _ => None) (fun _ => Ok (mkRedisOptions "" "" 0)) (fun _ => Ok tt) (fun _ => Some ("http", "host")).
Definition no_redis : openings :=
  mkOpenings None None (fun _ => None) (fun _ => Err (Fresh "invalid URL scheme")) (fun _ => Ok tt) (fun _ => Some ("http", "host")).

Lemma processes_release_what_they_open_witness : exists c, ConfigExamples.load_with [] = Ok c
  /\ lifecycle "commerce" (cc_HTTPAddr (cg_Commerce c)) (commerce_needs c) (run_main (commerce_main (ConfigExamples.with_vars []) (fun s => s) fine Signal))
  /\ (run_main (interaction_main (ConfigExamples.with_vars []) (fun s => s) fine Signal)).1 = Ok tt
  /\ (run_main (api_main (ConfigExamples.with_vars []) (fun s => s) fine Signal)).1 = Ok tt.
Proof.
  destruct ConfigExamples.defaults as [c|e] eqn:E; [|discriminate E]. exists c.
  assert (Hload : ConfigExamples.load_with [] = Ok c) by (vm_compute in E |- *; exact E).
  split; [exact Hload|]. destruct (processes_release_what_they_open (ConfigExamples.with_vars []) (fun s => s) fine Signal) as (_ & _ & Hok & Hgw).
  destruct (Hok c Hload) as (_ & Hcommerce & _ & _ & Hstart). split; [exact Hcommerce|].
  assert (Hh : healthy fine) by (split; [reflexivity|reflexivity|reflexivity|intros url; by eexists|reflexivity]).
  specialize (Hstart Hh). split; [by inversion Hstart|].
  destruct (LoadGateway (ConfigExamples.with_vars [])) as [gw|e] eqn:Eg; [|discriminate Eg].
  destruct (Hgw gw eq_refl) as [_ Hgs]. apply (Hgs Hh). reflexivity.
Defined.

(** With a bad Redis URL the query process closes nothing and does not listen. *)
Example redis_fails :
  let (r, tr) := run_main (query_main (ConfigExamples.with_vars [("REDIS_URL", "x")]) (fun s => s) no_redis Signal) in
  (is_ok r, existsb (fun h => match h with Listening _ _ | Released _ => true | _ => false end) tr, length tr) = (false, false, 3%nat).
Proof. vm_compute. reflexivity. Qed.
Example stats_worker :
  worker_main (fun _ => None) ":9090" ["stats"] [ComponentReturned "stats-aggregator" None; Signalled] true
  = Some (Ok tt, [Did (Opened RedisConn); Did (Started "stats-aggregator" [Some RedisConn; Some Centrifugo]); MetricsListening ":9090";
                  Cancelled; MetricsShutdown; ComponentsStopped; Closed RedisConn; TracingStopped]).
Proof. vm_compute. reflexivity. Qed.
Example outbox_worker :
  match worker_process (ConfigExamples.with_vars [("WORKER_ROLES", "outbox")]) (fun s => s) fine [Signalled] true with
  | Some (Ok _, tr) => existsb (fun h => match h with Did (Started c _) => bool_decide (c = "outbox-publisher") | _ => false end) tr
  | _ => false
  end = true.
Proof. vm_compute. reflexivity. Qed.
Example health_document : String.length (worker_health ["stats"; "outbox"]) = 79%nat.
Proof. vm_compute. reflexivity. Qed.
End ProcessExamples.
