(* ===== verification/Loops.v ===== *)
(** The loops of the worker's components: [outbox.Publisher.Run],
    [stats.Aggregator.Run] and [like.Snapshotter.Run]; and what the publisher's
    promises over time: an event that is due does not wait for ever. *)
From S2P Require Import Prelude GoStrings Mysql Json Message Realtime Commerce Kafka Outbox Instances OutboxSpec Like Stats.

(** ** The loop
    [select] returns because the context ended, or because the timer fired; anything
    may have happened to the state before. The body is given what it draws. *)
Inductive wake (W A : Type) : Type :=
| Cancelled (err : error)
| Fired (meanwhile : W -> W) (drawn : A).
Arguments Cancelled {W A}. Arguments Fired {W A}.

Section loop.
Context {W A : Type}.
Variable body : A -> M W unit.
(** [ctx.Err()] when the loop returned, [None] while it waits. *)
Fixpoint run_loop (wakes : list (wake W A)) : M W (option error) :=
  match wakes with
  | [] => mret None
  | Cancelled err :: _ => mret (Some err)
  | Fired meanwhile a :: wakes => _ ← modify meanwhile; _ ← ignore (body a); run_loop wakes
  end.
End loop.

(** What a tick of the publisher draws: the rows other transactions hold, and its clocks. *)
Record publisher_tick : Type := mkTick { tk_skip : outbox_row -> bool; tk_claim_now : Z; tk_fail_now : Z -> Z }.
Definition Publisher_Run {K} `{MySQLServer} `{TimeText} `{Producer K} (workerID : string) (batch lease : Z) (metrics : bool) (ctx : trace_map)
  : list (wake (Mysql CommerceDB * K) publisher_tick) -> M (Mysql CommerceDB * K) (option error) :=
  run_loop (fun t => dispatch workerID batch lease metrics (tk_skip t) (tk_claim_now t) (tk_fail_now t) ctx).

Definition Aggregator_Run {W} `{StatsStore W} `{Publisher W} (activeWindow batch : Z)
  : list (wake W (Z * (nat -> string))) -> M W (option error) :=
  run_loop (fun t => Aggregator.Tick activeWindow batch t.1 t.2).

(** [None] also when the fuel of [Recover] runs out. *)
Definition Snapshotter_Run {W} `{SnapshotSource W} `{CheckpointStore W} (activeWindow batch : Z) (fuel : nat) (wakes : list (wake W Z))
  : M W (option error) :=
  r ← Snapshotter.Recover batch fuel;
  match r with
  | None => mret None
  | Some errs =>
    match errors_Join errs with
    | Some err => mret (Some (Wrapped "recover like snapshots: " err ""))
    | None => run_loop (Snapshotter.Tick activeWindow batch) wakes
    end
  end.

(** A loop ends only with the error of its context. *)
Lemma run_loop_end {W A} (body : A -> M W unit) wakes : forall w,
  exists r w', run_loop body wakes w = (Ok r, w') /\ forall err, r = Some err -> Cancelled err ∈ wakes.
Proof.
  induction wakes as [|[err|meanwhile a] wakes IH]; intros w; cbn [run_loop].
  - by exists None, w.
  - exists (Some err), w. split; [done|]. intros e [= <-]. by left.
  - unfold modify, ignore, mbind at 1 2, M_bind at 1 2. destruct (IH (body a (meanwhile w)).2) as (r & w' & Hrun & He).
    exists r, w'. split; [by destruct (body a (meanwhile w)) as [? w1]|]. intros e Hr. right. by apply He.
Qed.
(** The like snapshotter ends before its first tick exactly when a checkpoint was not restored. *)
Lemma snapshotter_start {W} `{SnapshotSource W} `{CheckpointStore W} activeWindow batch fuel wakes (w w1 : W) errs :
  Snapshotter.Recover batch fuel w = (Ok (Some errs), w1) ->
  match errors_Join errs with
  | Some err => Snapshotter_Run activeWindow batch fuel wakes w = (Ok (Some (Wrapped "recover like snapshots: " err "")), w1)
  | None => Snapshotter_Run activeWindow batch fuel wakes w = run_loop (Snapshotter.Tick activeWindow batch) wakes w1
  end.
Proof. intros Hr. unfold Snapshotter_Run. rewrite (bind_ok _ _ _ _ _ Hr). by destruct (errors_Join errs). Qed.

(** ** Draining the outbox *)
Section drain.
Context `{MySQLServer} `{TimeText} {K : Type} `{Producer K} `{!ProducerOk K}.
Variables (workerID : string) (batch lease : Z) (metrics : bool) (ctx : trace_map).

(** The ids of the events up to [id] that are not published. *)
Definition waiting (id : Z) (t : CommerceDB) : gset Z :=
  list_to_set (map ob_id (List.filter (fun r => pending r && (ob_id r <=? id)) (outbox t))).
Lemma elem_of_waiting id t i :
  i ∈ waiting id t <-> exists r, r ∈ outbox t /\ ob_id r = i /\ ob_status r <> 1 /\ i <= id.
Proof.
  unfold waiting. rewrite elem_of_list_to_set, list_elem_of_In, in_map_iff. setoid_rewrite filter_In. setoid_rewrite <- list_elem_of_In.
  unfold pending. split.
  - intros (r & <- & Hr & [Hp Hl]%andb_true_iff). exists r. split_and!; (done || lia).
  - intros (r & Hr & <- & Hs & Hl). exists r. split; [done|]. split; [done|]. apply andb_true_iff. split; lia.
Qed.

Lemma NoDup_map_filter {A B} (f : A -> B) p l : NoDup (map f l) -> NoDup (map f (List.filter p l)).
Proof.
  induction l as [|a l IH]; [done|]. intros [Ha Hl]%NoDup_cons. cbn [List.filter]. destruct (p a); [|by apply IH].
  apply NoDup_cons. split; [|by apply IH]. intros Hin. apply Ha. apply list_elem_of_In, in_map_iff in Hin as (b & Hb & [Hin _]%filter_In).
  apply list_elem_of_In, in_map_iff. by exists b.
Qed.
Lemma claim_rows_nodup skip now stale b t : ids_unique t -> NoDup (map ob_id (claim_rows skip now stale b (outbox t))).
Proof.
  intros Hu. unfold claim_rows. set (l := List.filter _ _).
  assert (Hl : NoDup (map ob_id l)).
  { apply NoDup_map_filter. assert (Hp : map ob_id (merge_sort ob_id_le (outbox t)) ≡ₚ map ob_id (outbox t)) by (apply Permutation_map, merge_sort_Permutation).
    by rewrite Hp. }
  rewrite <- (take_drop (Z.to_nat b) l), map_app in Hl. by apply NoDup_app in Hl as [? _].
Qed.

(** A tick without faults empties the head of the queue. *)
Lemma batch_tables_waiting now ids id t : waiting id (batch_tables workerID now ids ids t) = waiting id t ∖ list_to_set ids.
Proof.
  apply set_eq. intros i. rewrite elem_of_difference, elem_of_list_to_set, !elem_of_waiting. unfold batch_tables. cbn [set_outbox outbox].
  split.
  - intros (r' & Hr' & Hid & Hs & Hl). apply list_elem_of_In, in_map_iff in Hr' as (r & <- & Hr). rewrite <- list_elem_of_In in Hr.
    revert Hid Hs. unfold batch_row. destruct (bool_decide_reflect (ob_id r ∈ ids)); [done|]. intros <- Hs. split; [by exists r|done].
  - intros [(r & Hr & <- & Hs & Hl) Hn]. exists r. split; [|done]. apply list_elem_of_In, in_map_iff. exists r. rewrite <- list_elem_of_In.
    split; [|done]. unfold batch_row. by rewrite bool_decide_false.
Qed.

(** The event [r], waiting or published and in the log. *)
Definition due (w : Mysql CommerceDB * K) (r : outbox_row) : Prop :=
  r ∈ outbox (committed w.1) /\ ob_status r = 0 /\ match ob_next_retry_at r with None => True | Some n => n <= NOW3 (db_now w.1) end.
Definition delivered_row (w : Mysql CommerceDB * K) (r : outbox_row) : Prop :=
  (exists r', r' ∈ outbox (committed w.1) /\ ob_id r' = ob_id r /\ ob_status r' = 1) /\ row_sent w.2 r.
(** The connection is idle, no statement will fail, and ids are a key. *)
Definition healthy (w : Mysql CommerceDB * K) : Prop := txn w.1 = None /\ faults w.1 = [] /\ ids_unique (committed w.1).

(** What may happen between two ticks: new events with larger ids, time, records sent. *)
Definition arrivals (id : Z) (w w' : Mysql CommerceDB * K) : Prop :=
  (exists new, outbox (committed w'.1) = outbox (committed w.1) ++ new /\ forall r, r ∈ new -> id < ob_id r)
  /\ healthy w' /\ db_now w.1 <= db_now w'.1 /\ forall x, x ∈ sent w.2 -> x ∈ sent w'.2.

Hypothesis accepts : forall ctx topic key v s, exists s', producer_ProduceSync ctx topic key v s = (Ok tt, s').
#[local] Abbreviation tick t := (dispatch workerID batch lease metrics (tk_skip t) (tk_claim_now t) (tk_fail_now t) ctx).

Lemma dispatch_run t c n k :
  let ids := map ob_id (claim_rows (tk_skip t) (NOW3 n) (tk_claim_now t - lease) (claim_batch batch) (outbox c)) in
  exists k', tick t (mkMysql c None n [], k) = (Ok tt, (mkMysql (batch_tables workerID (NOW3 n) ids ids c) None n [], k'))
    /\ (forall x, x ∈ sent k -> x ∈ sent k')
    /\ forall r, r ∈ claim_rows (tk_skip t) (NOW3 n) (tk_claim_now t - lease) (claim_batch batch) (outbox c) -> row_sent k' r.
Proof. by apply dispatch_publishes_the_batch. Qed.

Lemma batch_row_same now ids r : ob_id (batch_row workerID now ids ids r) = ob_id r.
Proof. unfold batch_row. by destruct (bool_decide _). Qed.
Lemma batch_tables_unique now ids t : ids_unique t -> ids_unique (batch_tables workerID now ids ids t).
Proof.
  unfold ids_unique, batch_tables. cbn [set_outbox outbox]. rewrite map_map. erewrite (map_ext (fun r => ob_id (batch_row _ _ _ _ r))); [done|].
  intros r. apply batch_row_same.
Qed.
Lemma in_batch_tables now ids t r : r ∈ outbox t -> batch_row workerID now ids ids r ∈ outbox (batch_tables workerID now ids ids t).
Proof. intros Hr. unfold batch_tables. cbn [set_outbox outbox]. by apply list_elem_of_fmap_2. Qed.

(** A tick serves the event, or a whole batch of older ones. *)
Lemma tick_serves t r w : healthy w -> due w r -> tk_skip t r = false ->
  exists w', tick t w = (Ok tt, w') /\ healthy w' /\ db_now w'.1 = db_now w.1
    /\ (delivered_row w' r \/ due w' r /\ (size (waiting (ob_id r) (committed w'.1)) + Z.to_nat (claim_batch batch))%nat = size (waiting (ob_id r) (committed w.1))).
Proof.
  destruct w as [[c x n fl] k]. intros (Hx & Hfl & Hu) (Hr & Hs & Hn) Hskip. cbn in Hx, Hfl, Hu, Hr, Hn. subst x fl.
  destruct (dispatch_run t c n k) as (k' & Hrun & Hgrow & Hsent). set (rows := claim_rows _ _ _ _ _) in *. set (ids := map ob_id rows) in *.
  eexists. split; [exact Hrun|]. split; [split; [done|split; [done|by apply batch_tables_unique]]|]. split; [done|].
  assert (Hin : forall r', r' ∈ outbox c -> ob_id r' ∈ ids <-> r' ∈ rows).
  { intros r' Hr'. unfold ids. rewrite list_elem_of_In, in_map_iff. setoid_rewrite <- list_elem_of_In. split; [|eauto].
    intros (r2 & Hid & Hr2). assert (r2 ∈ outbox c) by (by apply elem_of_claim_rows in Hr2 as [? _]). by rewrite <- (unique_row c r2 r'). }
  destruct (decide (r ∈ rows)) as [Hc|Hc].
  - left. split; [|by apply Hsent]. exists (batch_row workerID (NOW3 n) ids ids r). split; [by apply in_batch_tables|].
    split; [apply batch_row_same|]. unfold batch_row. by rewrite bool_decide_true by by apply Hin.
  - right. assert (Hsame : batch_row workerID (NOW3 n) ids ids r = r) by (unfold batch_row; rewrite bool_decide_false; [done|by rewrite Hin]).
    split; [split; [rewrite <- Hsame at 1; by apply in_batch_tables|done]|]. cbn [fst committed].
    assert (He : eligible (NOW3 n) (tk_claim_now t - lease) r = true).
    { unfold eligible. rewrite Hs. cbn. destruct (ob_next_retry_at r); [by rewrite (proj2 (Z.leb_le _ _) Hn)|done]. }
    destruct (claim_rows_maximal (tk_skip t) (NOW3 n) (tk_claim_now t - lease) (claim_batch batch) (outbox c) r) as [Hlen Hle];
      [done|done|done|done|pose proof (claim_batch_pos batch); lia|]. fold rows in Hlen, Hle.
    rewrite batch_tables_waiting. assert (Hsub : list_to_set ids ⊆ waiting (ob_id r) c).
    { intros i Hi. rewrite elem_of_list_to_set in Hi. unfold ids in Hi. apply list_elem_of_In, in_map_iff in Hi as (r' & <- & Hr'). rewrite <- list_elem_of_In in Hr'.
      apply elem_of_waiting. exists r'. destruct (elem_of_claim_rows _ _ _ _ _ _ Hr') as (Ho & Hel & _). split; [done|]. split; [done|].
      split; [by eapply eligible_unpublished|by apply Hle]. }
    rewrite size_difference by done. rewrite size_list_to_set by (by apply claim_rows_nodup). unfold ids. rewrite length_map.
    apply subseteq_size in Hsub. rewrite size_list_to_set in Hsub by (by apply claim_rows_nodup). unfold ids in Hsub. rewrite length_map in Hsub. lia.
Qed.

Lemma delivered_stays t r w : healthy w -> delivered_row w r ->
  exists w', tick t w = (Ok tt, w') /\ healthy w' /\ db_now w'.1 = db_now w.1 /\ delivered_row w' r.
Proof.
  destruct w as [[c x n fl] k]. intros (Hx & Hfl & Hu) ((r' & Hr' & Hid & Hs) & ctx' & Hsent). cbn in Hx, Hfl, Hu, Hr'. subst x fl.
  destruct (dispatch_run t c n k) as (k' & Hrun & Hgrow & _). set (rows := claim_rows _ _ _ _ _) in *. set (ids := map ob_id rows) in *.
  eexists. split; [exact Hrun|]. split; [split; [done|split; [done|by apply batch_tables_unique]]|]. split; [done|].
  split; [|exists ctx'; by apply Hgrow]. exists r'. split; [|done].
  assert (Hsame : batch_row workerID (NOW3 n) ids ids r' = r'); [|rewrite <- Hsame; by apply in_batch_tables].
  unfold batch_row. rewrite bool_decide_false; [done|]. unfold ids. rewrite list_elem_of_In, in_map_iff. setoid_rewrite <- list_elem_of_In.
  intros (r2 & Hid2 & (Hr2 & He & _)%elem_of_claim_rows). apply eligible_unpublished in He. by rewrite (unique_row c r2 r') in He.
Qed.

Lemma arrivals_due id w w' r : arrivals id w w' -> due w r -> due w' r.
Proof.
  intros ((new & Ho & _) & _ & Hn & _) (Hr & Hs & Hd). split; [rewrite Ho; apply elem_of_app; by left|]. split; [done|].
  destruct (ob_next_retry_at r) as [m|]; [|done]. etrans; [exact Hd|]. unfold NOW3. apply Z.mul_le_mono_nonneg_r; [lia|]. apply Z.div_le_mono; lia.
Qed.
Lemma arrivals_delivered id w w' r : arrivals id w w' -> delivered_row w r -> delivered_row w' r.
Proof.
  intros ((new & Ho & _) & _ & _ & Hg) ((r' & Hr & Hid & Hs) & ctx' & Hsent). split; [|exists ctx'; by apply Hg].
  exists r'. split; [rewrite Ho; apply elem_of_app; by left|done].
Qed.
Lemma arrivals_waiting id w w' : arrivals id w w' -> waiting id (committed w'.1) ⊆ waiting id (committed w.1).
Proof.
  intros ((new & Ho & Hnew) & _) i. rewrite !elem_of_waiting, Ho. intros (r & [Hr|Hr]%elem_of_app & Hid & Hs & Hl); [by exists r|].
  apply Hnew in Hr. lia.
Qed.

(** The ticks of a run: between them only [arrivals], and no other transaction holds the event. *)
Definition fair (id : Z) (x : wake (Mysql CommerceDB * K) publisher_tick) : Prop :=
  match x with
  | Cancelled _ => False
  | Fired meanwhile t => (forall w, healthy w -> arrivals id w (meanwhile w)) /\ forall r, ob_id r = id -> tk_skip t r = false
  end.

Lemma run_tick t meanwhile wakes w w1 :
  tick t (meanwhile w) = (Ok tt, w1) ->
  Publisher_Run workerID batch lease metrics ctx (Fired meanwhile t :: wakes) w = Publisher_Run workerID batch lease metrics ctx wakes w1.
Proof. intros Ht. unfold Publisher_Run. cbn [run_loop]. unfold modify, ignore, mbind, M_bind. by rewrite Ht. Qed.

Lemma delivered_run r wakes : forall w, Forall (fair (ob_id r)) wakes -> healthy w -> delivered_row w r ->
  exists w', Publisher_Run workerID batch lease metrics ctx wakes w = (Ok None, w') /\ delivered_row w' r.
Proof.
  induction wakes as [|[err|meanwhile t] wakes IH]; intros w; [intros _ _ Hd; by exists w|by intros [[] _]%Forall_cons|].
  intros [[Harr _] Hf]%Forall_cons Hw Hd. destruct (delivered_stays t r (meanwhile w)) as (w1 & Ht & Hw1 & _ & Hd1);
    [by apply Harr|by eapply arrivals_delivered; [apply Harr|]|].
  rewrite (run_tick _ _ _ _ _ Ht). by apply IH.
Qed.
Lemma due_run r wakes : forall w, Forall (fair (ob_id r)) wakes -> healthy w -> due w r ->
  (size (waiting (ob_id r) (committed w.1)) <= length wakes * Z.to_nat (claim_batch batch))%nat ->
  exists w', Publisher_Run workerID batch lease metrics ctx wakes w = (Ok None, w') /\ delivered_row w' r.
Proof.
  induction wakes as [|[err|meanwhile t] wakes IH]; intros w.
  - intros _ _ (Hr & Hs & _) Hsize. exfalso. assert (Hin : ob_id r ∈ waiting (ob_id r) (committed w.1)).
    { apply elem_of_waiting. exists r. split_and!; (done || lia). }
    cbn in Hsize. assert (He : size (waiting (ob_id r) (committed w.1)) = 0%nat) by lia. apply size_empty_inv in He. by rewrite He in Hin.
  - by intros [[] _]%Forall_cons.
  - intros [[Harr Hskip] Hf]%Forall_cons Hw Hd Hsize. specialize (Harr w Hw).
    destruct (tick_serves t r (meanwhile w)) as (w1 & Ht & Hw1 & _ & Hcase); [apply Harr|by eapply arrivals_due|by apply Hskip|].
    rewrite (run_tick _ _ _ _ _ Ht). destruct Hcase as [Hdel|[Hdue Hdrop]]; [by apply delivered_run|]. apply IH; [done..|].
    pose proof (subseteq_size _ _ (arrivals_waiting _ _ _ Harr)) as Hle. cbn [length] in Hsize. lia.
Qed.

(** C5 An event that is due does not wait for ever. While the database answers and Kafka
    accepts records, and whatever new events and records of others arrive between the
    ticks, a publisher whose loop fires at least [backlog / batch] times - the backlog
    being the unpublished events with an id up to this one's - has put the event on its
    topic under its key, and marked its row published: older events are served first, and
    later arrivals cannot overtake it. *)
Theorem due_events_reach_kafka r wakes w :
  Forall (fair (ob_id r)) wakes -> healthy w -> due w r ->
  (size (waiting (ob_id r) (committed w.1)) <= length wakes * Z.to_nat (claim_batch batch))%nat ->
  exists w', Publisher_Run workerID batch lease metrics ctx wakes w = (Ok None, w')
    /\ (exists r', r' ∈ outbox (committed w'.1) /\ ob_id r' = ob_id r /\ ob_status r' = 1) /\ row_sent w'.2 r.
Proof. apply due_run. Qed.
End drain.

(** ** Example *)
Module LoopExamples.
#[local] Existing Instances example_server nano_text.
(** Two events wait; the publisher takes one at a time. *)
Definition backlog : Mysql CommerceDB := mkMysql (set_outbox [example_row 1 0 None; example_row 2 0 None] example_outbox) None (10 * Minute) [].
Definition wakes : list (wake (Mysql CommerceDB * list (string * string * raw)) publisher_tick) :=
  repeat (Fired (fun w => w) (mkTick (fun _ => false) (10 * Minute) (fun _ => 10 * Minute))) 2.
Lemma due_events_reach_kafka_witness :
  exists w', Publisher_Run (H1 := example_producer true) "w1" 1 (5 * Minute) false [] wakes (backlog, []) = (Ok None, w')
    /\ map ob_status (outbox (committed w'.1)) = [1; 1] /\ length w'.2 = 2%nat.
Proof.
  destruct (@due_events_reach_kafka example_server nano_text _ (example_producer true) (example_producer_ok true) "w1" 1 (5 * Minute) false []
    ltac:(intros; eexists; reflexivity) (example_row 2 0 None) wakes (backlog, [])) as (w' & Hrun & _).
  - unfold wakes. cbn [repeat]. repeat (apply Forall_cons; split); [..|by apply Forall_nil]; (split; [|done]; intros w Hw;
      split; [exists []; split; [by rewrite app_nil_r|intros ? []%not_elem_of_nil]|]; split; [exact Hw|]; split; [lia|done]).
  - split; [done|]. split; [done|]. apply (bool_decide_unpack _). by vm_compute.
  - split; [right; left|done].
  - vm_compute. lia.
  - exists w'. split; [exact Hrun|]. vm_compute in Hrun. injection Hrun as <-. split; reflexivity.
Defined.
End LoopExamples.
