(* ===== verification/Journey.v ===== *)
(** The journey of a gift over three processes: the transaction that charges it
    ([gift.Repository.Create]), the publisher's loop ([outbox.Publisher.Run]) and the gift
    consumer ([gift.ConsumerHandler.Handle]). *)
From S2P Require Import Prelude GoStrings Mysql Json Message Realtime Commerce GiftRepository GiftSpec Kafka Outbox Instances OutboxSpec CommerceInvariants GiftProperties Dedup GiftConsumer DeliverySpec Loops.

(** The parameters that [GiftService.Send] passes: identifiers drawn, ids from the path,
    the token and the room. *)
Record params_ok (p : CreateParams) : Prop := {
  po_order : p_OrderNo p <> "";
  po_event : TrimSpace (p_EventID p) <> "";
  po_user : 0 < p_UserID p <= int64_max;
  po_anchor : 0 < p_AnchorID p <= int64_max;
  po_room : 0 < p_RoomID p <= int64_max;
  po_gift : 0 < p_GiftID p <= int64_max;
  po_count : p_Count p <= int64_max }.

Section journey.
Context `{UnicodeTables} `{MySQLServer} `{TimeTextOk}.
Context {K : Type} `{Producer K} `{!ProducerOk K} {W : Type} `{DedupStore W} `{Publisher W}.
Variables (workerID : string) (batch lease : Z) (metrics : bool) (ctx : trace_map).
Hypothesis accepts : forall ctx topic key v s, exists s', producer_ProduceSync ctx topic key v s = (Ok tt, s').
Variables (group : string) (consumer_lease : Z).

Lemma charged_deliverable now p g t : params_ok p -> gift_enabled now p g t -> gift_name g <> "" ->
  deliverable p (mkGiftV (p_GiftID p) (gift_name g) (gift_price g) (gift_status g)) (gift_total p g).
Proof.
  intros Hp Hen Hname. pose proof (ge_count _ _ _ _ Hen). pose proof (ge_price _ _ _ _ Hen). pose proof (ge_total _ _ _ _ Hen) as Ht.
  unfold gift_total in *. split; try apply Hp; cbn [gift_Name gift_Price]; try done; split; try nia. by apply Hp.
Qed.

(** C12 A charged gift with a name reaches its room. When the gift transaction commits, under whatever
    faults, then however long the publisher pauses, once the database answers and Kafka
    accepts records, and whatever arrives between the ticks, a publisher whose loop fires
    [backlog / batch] times has put a record on the gift topic under the key of the room;
    and a consumer that gets a record with this value, as long as the event is not
    processed yet and the realtime server answers, publishes the gift - its order, giver,
    anchor, count and prices - to the stream of the room and acknowledges the event. *)
Theorem charged_gift_reaches_the_room gctx app_now p c n fl o s n' k wakes g :
  commerce_inv c -> params_ok p -> gifts c !! p_GiftID p = Some g -> gift_name g <> "" -> 0 <= app_now <= int64_max ->
  Create gctx app_now p (mkMysql c None n fl) = (Ok (o, false), s) -> n <= n' ->
  Forall (fair (outbox_next_id c)) wakes ->
  (size (waiting (outbox_next_id c) (committed s)) <= length wakes * Z.to_nat (claim_batch batch))%nat ->
  exists w' value, Publisher_Run workerID batch lease metrics ctx wakes (mkMysql (committed s) None n' [], k) = (Ok None, w')
    /\ (p_GiftTopic p, FormatInt (p_RoomID p), value) ∈ sent w'.2
    /\ forall rec (v v1 v2 v3 : W), Value rec = Some value ->
       ds_Begin group (p_EventID p) consumer_lease v = (Ok false, v1) ->
       Publish (RoomStream (p_RoomID p)) (gift_rt_event app_now p g) v1 = (Ok tt, v2) ->
       ds_Done group (p_EventID p) v2 = (Ok tt, v3) ->
       GiftConsumer.Handle group consumer_lease rec v = (Ok tt, v3).
Proof.
  intros Hinv Hp Hg Hname Hnow Hcreate Hn Hfair Hsize.
  pose proof (create_spec gctx app_now p c n fl) as Hc. unfold wp in Hc. rewrite Hcreate in Hc. destruct Hc as [Hout _].
  inversion Hout as [| |g' payload o' Hen Hpay Ho Hr Hs|]; subst. rewrite <- Hs in *.
  assert (g' = g) as -> by (pose proof (ge_gift _ _ _ _ Hen); congruence).
  set (r := new_event (NOW3 n) p (outbox_next_id c) payload).
  destruct (due_run workerID batch lease metrics ctx accepts r wakes (mkMysql (gift_effect (NOW3 n) p g payload c) None n' [], k))
    as (w' & Hrun & _ & ctx' & Hsent); [done| | |done|].
  - split; [done|]. split; [done|]. cbn [fst committed]. by eapply ci_outbox_unique, gift_effect_inv.
  - split; [apply elem_of_app; right; by apply list_elem_of_singleton|]. split; [done|]. cbn. unfold NOW3.
    apply Z.mul_le_mono_nonneg_r; [lia|]. apply Z.div_le_mono; lia.
  - exists w', (InjectTrace payload ctx'). split; [done|]. split; [exact Hsent|]. intros rec v v1 v2 v3 Hval Hb Hpub Hd.
    eapply (handle_gift_event group consumer_lease gctx ctx' app_now p g payload rec v v1 v2 v3); try done; [by eapply charged_deliverable| |]; apply Hp.
Qed.
End journey.

(** ** Example
    User 7 gives three roses in room 9; one tick later the record is there, and the
    consumer shows the gift to the room. *)
Module JourneyExamples.
Import GiftExamples DeliveryExamples.
#[local] Existing Instances ascii_tables example_server nano_text nano_text_ok example_server_ok.
#[local] Existing Instances example_dedup example_publisher.
Definition roses : CreateParams := GiftExamples.params "1" "req-1" 3.
Definition tick : wake (Mysql CommerceDB * list (string * string * raw)) publisher_tick :=
  Fired (fun w => w) (mkTick (fun _ => false) GiftExamples.now (fun _ => GiftExamples.now)).
Definition charged : res (Order * bool) * Mysql CommerceDB := Create [] GiftExamples.now roses (mkMysql credited None GiftExamples.now []).
Definition nobody : Mysql DedupDB := mkMysql DeliveryExamples.start None Minute [].

Lemma charged_gift_reaches_the_room_witness :
  exists w' value shown, Publisher_Run (H1 := example_producer true) "w1" 10 (5 * Minute) false [] [tick] (mkMysql (committed charged.2) None GiftExamples.now [], []) = (Ok None, w')
    /\ ("live.gift.v1", "9", value) ∈ w'.2
    /\ GiftConsumer.Handle "g" (30 * Second) (mkRecord "live.gift.v1" 0 1 "9" (Some value)) (nobody, []) = (Ok tt, (shown, [("room:9:stream", gift_rt_event GiftExamples.now roses (mkGift "Rose" 100 1))])).
Proof.
  destruct charged as [[[o []]|e] s] eqn:E; [vm_compute in E; discriminate E| |vm_compute in E; discriminate E].
  destruct (@charged_gift_reaches_the_room ascii_tables example_server nano_text _ (list (string * string * raw)) (example_producer true) (example_producer_ok true)
    world example_dedup example_publisher "w1" 10 (5 * Minute) false [] ltac:(intros; eexists; reflexivity) "g" (30 * Second)
    [] GiftExamples.now roses credited GiftExamples.now [] o s GiftExamples.now [] [tick] (mkGift "Rose" 100 1)) as (w' & value & Hrun & Hsent & Hshow).
  - apply (reachable_inv catalogue), credited_reachable.
  - split; unfold int64_max; cbn; (done || lia).
  - reflexivity.
  - done.
  - unfold GiftExamples.now, int64_max, Second. lia.
  - exact E.
  - lia.
  - apply Forall_cons. split; [|by apply Forall_nil]. split; [|done]. intros w Hw.
    split; [exists []; split; [by rewrite app_nil_r|intros ? []%not_elem_of_nil]|]. split; [exact Hw|]. split; [lia|done].
  - apply (f_equal snd) in E. vm_compute in E. subst s. vm_compute. lia.
  - exists w', value. eexists. split; [exact Hrun|]. split; [exact Hsent|]. eapply Hshow; [reflexivity|vm_compute; reflexivity|reflexivity|vm_compute; reflexivity].
Defined.
End JourneyExamples.
