(* ===== verification/Pool.v ===== *)
(** Bounded worker pools, as the load generators write them:

      sem := make(chan struct{}, cap)
      for { select { case <-stop: ...; case <-tick: sem <- struct{}{}; n := seq.Add(1); wg.Add(1)
              go func(n) { defer wg.Done(); defer func() { <-sem }(); ... }(n) } }
      wg.Wait()

    The workers' steps interleave: each reads or writes one shared atomic at a time.
    [pool_run] is one interleaving, given as the list of its steps; the theorems hold
    for all of them. *)
From S2P Require Import Prelude.
From Stdlib Require Import Permutation.

(** Split a list at the element that moves. *)
Lemma lookup_split {B} (l : list B) i w : l !! i = Some w ->
  exists l1 l2, l = l1 ++ w :: l2 /\ (forall w', <[i := w']> l = l1 ++ w' :: l2) /\ delete i l = l1 ++ l2.
Proof.
  intros Hi. exists (take i l), (drop (Datatypes.S i) l). pose proof (lookup_lt_Some _ _ _ Hi) as Hlt. split; [by rewrite take_drop_middle|]. split.
  - intros w'. by rewrite insert_take_drop.
  - apply delete_take_drop.
Qed.

Section pool.
(** The shared state, the atomic actions on it, and what the rest of a worker's body
    does once the outcome of its task is known. *)
Context {S Act Out : Type}.
Variables (act : Act -> S -> S) (effects : Z -> Out -> list Act) (cap : nat).

(** A worker whose body ended has released the semaphore, but not yet told the group. *)
Inductive worker : Type := Starting (n : Z) | Working (l : list Act) | Released.
Record pool : Type := mkPool {
  po_shared : S;
  po_seq : Z;                       (** tasks dispatched *)
  po_workers : list worker;         (** goroutines the group waits for *)
  po_stopped : bool;                (** the dispatcher has left its loop *)
  po_outcomes : list (Z * Out) }.   (** tasks with their outcomes *)
Definition pool_start (s : S) : pool := mkPool s 0 [] false [].

Inductive pool_event : Type :=
| Dispatch                          (** the ticker fired and the semaphore admitted *)
| Outcome (i : nat) (o : Out)       (** the task of the worker has its outcome *)
| Action (i : nat)                  (** its next action *)
| Release (i : nat)                 (** [<-sem] *)
| GroupDone (i : nat)               (** [wg.Done()] *)
| Stop.                             (** the deadline or a signal *)

Definition holds (w : worker) : bool := match w with Released => false | _ => true end.
Definition in_flight (p : pool) : nat := length (List.filter holds (po_workers p)).
Definition with_worker (i : nat) (w : worker) (p : pool) : pool :=
  mkPool (po_shared p) (po_seq p) (<[i := w]> (po_workers p)) (po_stopped p) (po_outcomes p).

(** [None]: the step is not possible. *)
Definition pool_step (e : pool_event) (p : pool) : option pool :=
  match e with
  | Dispatch =>
    if negb (po_stopped p) && (in_flight p <? cap)%nat
    then Some (mkPool (po_shared p) (po_seq p + 1) (po_workers p ++ [Starting (po_seq p + 1)]) false (po_outcomes p)) else None
  | Outcome i o =>
    match po_workers p !! i with
    | Some (Starting n) =>
      let p := with_worker i (Working (effects n o)) p in
      Some (mkPool (po_shared p) (po_seq p) (po_workers p) (po_stopped p) (po_outcomes p ++ [(n, o)]))
    | _ => None
    end
  | Action i =>
    match po_workers p !! i with
    | Some (Working (a :: l)) =>
      let p := with_worker i (Working l) p in Some (mkPool (act a (po_shared p)) (po_seq p) (po_workers p) (po_stopped p) (po_outcomes p))
    | _ => None
    end
  | Release i => match po_workers p !! i with Some (Working []) => Some (with_worker i Released p) | _ => None end
  | GroupDone i =>
    match po_workers p !! i with
    | Some Released => Some (mkPool (po_shared p) (po_seq p) (delete i (po_workers p)) (po_stopped p) (po_outcomes p))
    | _ => None
    end
  | Stop => if po_stopped p then None else Some (mkPool (po_shared p) (po_seq p) (po_workers p) true (po_outcomes p))
  end.
Fixpoint pool_run (es : list pool_event) (p : pool) : option pool :=
  match es with [] => Some p | e :: es => match pool_step e p with Some p => pool_run es p | None => None end end.

(** [wg.Wait()] returns. *)
Definition finished (p : pool) : bool := po_stopped p && bool_decide (length (po_workers p) = 0%nat).

Lemma pool_run_ind (P : pool -> Prop) p0 :
  P p0 -> (forall e p p', P p -> pool_step e p = Some p' -> P p') -> forall es p, pool_run es p0 = Some p -> P p.
Proof.
  intros H0 Hs es. revert p0 H0. induction es as [|e es IH]; intros p0 H0 p; cbn [pool_run]; [by intros [= <-]|].
  destruct (pool_step e p0) as [p1|] eqn:E; [|done]. eapply IH. by eapply Hs.
Qed.

Ltac pool_cases :=
  intros e p p' Hp Hstep; destruct e as [|i o|i|i|i|]; cbn [pool_step] in Hstep;
  repeat match type of Hstep with
  | (match ?l !! ?i with _ => _ end) = Some _ => destruct (l !! i) as [[?|[|]|]|] eqn:?; try discriminate Hstep
  | (if ?b then _ else _) = Some _ => destruct b eqn:?; try discriminate Hstep
  end; injection Hstep as <-;
  try match goal with Hw : _ !! _ = Some _ |- _ => destruct (lookup_split _ _ _ Hw) as (l1 & l2 & Hl & Hins & Hdel) end.

(** ** The semaphore *)
(** Never more tasks in flight than the pool allows. *)
Lemma in_flight_bounded es s p : pool_run es (pool_start s) = Some p -> (in_flight p <= cap)%nat.
Proof.
  revert es p. apply pool_run_ind; [cbn; lia|]. unfold in_flight.
  pool_cases; cbn [po_workers with_worker]; rewrite ?Hins, ?Hdel; try rewrite Hl in Hp; revert Hp;
    rewrite ?List.filter_app; cbn [List.filter holds]; rewrite ?length_app; cbn [length]; try lia.
  match goal with H : _ && _ = true |- _ => apply andb_true_iff in H as [_ H]; apply Nat.ltb_lt in H; unfold in_flight in H; lia end.
Qed.

(** ** Every task has one outcome *)
Definition started (w : worker) : list Z := match w with Starting n => [n] | _ => [] end.
Definition tasks (p : pool) : list Z := map fst (po_outcomes p) ++ flat_map started (po_workers p).
Lemma tasks_numbered es s p : pool_run es (pool_start s) = Some p ->
  0 <= po_seq p /\ tasks p ≡ₚ map Z.of_nat (seq 1 (Z.to_nat (po_seq p))).
Proof.
  revert es p. apply pool_run_ind; [by split|]. unfold tasks.
  pool_cases; cbn [po_workers po_outcomes po_seq with_worker]; rewrite ?Hins, ?Hdel; destruct Hp as [H0 Hp]; rewrite <- ?Hp; try rewrite Hl;
    rewrite ?flat_map_app, ?map_app; cbn [flat_map started map fst app]; rewrite ?app_nil_r; (split; [lia|]); try done.
  - replace (Z.to_nat (po_seq p + 1)) with (Z.to_nat (po_seq p) + 1)%nat by lia. rewrite seq_app, map_app, <- Hp. cbn [seq map].
    replace (Z.of_nat (1 + Z.to_nat (po_seq p))) with (po_seq p + 1) by lia. by rewrite app_assoc.
  - rewrite <- !app_assoc. cbn [app]. apply Permutation_app_head. by rewrite Permutation_middle.
Qed.

(** ** The shared state *)
(** It is what the actions so far give in some order. *)
Definition todo (w : worker) : list Act := match w with Working l => l | _ => [] end.
Lemma shared_replays es s p : pool_run es (pool_start s) = Some p ->
  exists l, po_shared p = fold_left (fun s a => act a s) l s /\
    l ++ flat_map todo (po_workers p) ≡ₚ flat_map (fun no => effects no.1 no.2) (po_outcomes p).
Proof.
  revert es p. apply pool_run_ind; [by exists []|].
  pool_cases; destruct Hp as (l0 & Hs & Hp); cbn [po_workers po_outcomes po_shared with_worker] in *; rewrite ?Hins, ?Hdel; try rewrite Hl in Hp; revert Hp;
    rewrite ?flat_map_app; cbn [flat_map todo]; rewrite ?flat_map_app; cbn [flat_map fst snd app]; rewrite ?app_nil_r; intros Hp; try by exists l0.
  - exists l0. split; [done|]. rewrite <- Hp. solve_Permutation.
  - match goal with H : _ !! _ = Some (Working (?a :: _)) |- _ => exists (l0 ++ [a]) end. rewrite fold_left_app, <- Hs. split; [done|]. rewrite <- Hp. solve_Permutation.
Qed.

(** ** Counters *)
Lemma sumZ_nil {A} (f : A -> Z) : sumZ f [] = 0.
Proof. done. Qed.
Lemma sumZ_cons {A} (f : A -> Z) a l : sumZ f (a :: l) = f a + sumZ f l.
Proof. done. Qed.
Section counter.
(** A quantity of the shared state to which each action adds its weight. *)
Variables (measure : S -> Z) (weight : Act -> Z).
Hypothesis adds : forall a s, measure (act a s) = measure s + weight a.
Definition outstanding (w : worker) : Z := match w with Working l => sumZ weight l | _ => 0 end.
Lemma counter_balance es s p : pool_run es (pool_start s) = Some p ->
  measure (po_shared p) + sumZ outstanding (po_workers p) = measure s + sumZ (fun no => sumZ weight (effects no.1 no.2)) (po_outcomes p).
Proof.
  revert es p. apply pool_run_ind; [cbn; lia|].
  pool_cases; cbn [po_workers po_outcomes po_shared with_worker]; rewrite ?Hins, ?Hdel; try rewrite Hl in Hp; revert Hp;
    rewrite ?sumZ_app, ?sumZ_cons, ?sumZ_nil; cbn [outstanding fst snd]; rewrite ?sumZ_cons, ?sumZ_nil, ?adds; lia.
Qed.
End counter.

(** ** The group can always be waited for *)
Lemma pool_run_app es1 es2 p p1 p2 : pool_run es1 p = Some p1 -> pool_run es2 p1 = Some p2 -> pool_run (es1 ++ es2) p = Some p2.
Proof.
  revert p. induction es1 as [|e es1 IH]; intros p; cbn [app pool_run]; [by intros [= <-]|].
  destruct (pool_step e p) as [p3|]; [apply IH|done].
Qed.
Lemma work_off l : forall sh n ws st os, exists es sh', pool_run es (mkPool sh n (Working l :: ws) st os) = Some (mkPool sh' n ws st os).
Proof.
  induction l as [|a l IH]; intros sh n ws st os; [by exists [Release 0; GroupDone 0], sh|].
  destruct (IH (act a sh) n ws st os) as (es & sh' & Hrun). by exists (Action 0 :: es), sh'.
Qed.
(** Without a stuck request there is no deadlock: from every state the pool can be stopped
    and its workers waited for. *)
Lemma pool_can_finish (o : Out) p : exists es p', pool_run es p = Some p' /\ finished p' = true.
Proof.
  destruct p as [sh n ws st os]. assert (Hws : forall ws sh os, exists es p', pool_run es (mkPool sh n ws true os) = Some p' /\ finished p' = true).
  { clear ws sh st os. intros ws. induction ws as [|w ws IH]; intros sh os; [by exists [], (mkPool sh n [] true os)|].
    assert (Hw : exists es sh' os', pool_run es (mkPool sh n (w :: ws) true os) = Some (mkPool sh' n ws true os')).
    { destruct w as [m|l|].
      - destruct (work_off (effects m o) sh n ws true (os ++ [(m, o)])) as (es & sh' & Hrun). by exists (Outcome 0 o :: es), sh', (os ++ [(m, o)]).
      - destruct (work_off l sh n ws true os) as (es & sh' & Hrun). by exists es, sh', os.
      - by exists [GroupDone 0], sh, os. }
    destruct Hw as (es1 & sh' & os' & Hrun1), (IH sh' os') as (es2 & p' & Hrun2 & Hf). exists (es1 ++ es2), p'. split; [by eapply pool_run_app|done]. }
  destruct (Hws ws sh os) as (es & p' & Hrun & Hf). destruct st; [by exists es, p'|]. by exists (Stop :: es), p'.
Qed.
End pool.
