(* ===== verification/Httpload.v ===== *)
(** The HTTP load generator ([tools/httpload/main.go]): its flags, its requests, the
    pool of requests in flight and the report.

    A run is an interleaving of the dispatcher and the requests ([Pool]); the outcome of
    a request is that it could not be built, that it got no response, or its status.
    The report keeps durations as numbers; formatting them and writing the JSON is left
    to the standard library. *)
From S2P Require Import Prelude GoStrings Redis Traffic Pool.
From Stdlib Require Import SpecFloat.

(** ** Flags *)
Record load_flags : Type := mkLoadFlags {
  lf_url : string; lf_method : string; lf_body : string; lf_bearer : string; lf_bearer_file : string;
  lf_rate : Z; lf_concurrency : Z; lf_duration : Z; lf_request_timeout : Z;
  lf_idempotency : bool; lf_idempotency_prefix : string; lf_report : string; lf_scenario : string }.
Definition default_flags : load_flags :=
  mkLoadFlags "http://localhost:8080/health" "GET" "" "" "" 100 32 (30 * Second) (10 * Second) false "m7" "" "".
Definition load_flags_ok (f : load_flags) : bool :=
  negb ((lf_rate f <=? 0) || (lf_concurrency f <=? 0) || (lf_duration f <=? 0) || (lf_request_timeout f <=? 0)).
Definition load_interval (f : load_flags) : Z := let i := Z.quot Second (lf_rate f) in if i <=? 0 then 1 else i.

Section tokens.
Context `{UnicodeTables}.
(** [os.Open] and the lines its scanner gives, with the scanner's error. *)
Variable open_lines : string -> res (list string * option error).
Definition loadTokens (single path : string) : res (list string) :=
  let out := if bool_decide (TrimSpace single = "") then [] else [TrimSpace single] in
  if bool_decide (TrimSpace path = "") then Ok out else
  match open_lines path with
  | Err err => Err err
  | Ok (lines, err) =>
    let out := out ++ List.filter (fun v => negb (bool_decide (v = ""))) (map TrimSpace lines) in
    match err with Some err => Err err | None => Ok out end
  end.

(** ** Requests *)
Record load_request : Type := mkLoadRequest { lr_method : string; lr_url : string; lr_headers : list (string * string); lr_body : string }.
(** [started] is [started.UnixNano()]. *)
Definition load_key (f : load_flags) (started seq : Z) : string :=
  lf_idempotency_prefix f +:+ "-" +:+ FormatInt started +:+ "-" +:+ FormatInt seq.
Definition load_request_of (f : load_flags) (tokens : list string) (started seq : Z) : load_request :=
  mkLoadRequest (ToUpper (lf_method f)) (lf_url f)
    ([("Content-Type", "application/json")]
     ++ (if (0 <? length tokens)%nat
         then [("Authorization", "Bearer " +:+ nth (Z.to_nat (Z.rem (seq - 1) (Z.of_nat (length tokens)))) tokens "")] else [])
     ++ (if lf_idempotency f then [("Idempotency-Key", load_key f started seq)] else []))
    (lf_body f).
End tokens.

(** ** Counters *)
(** [sent] is the pool's own count. *)
Record tally : Type := mkTally {
  ta_completed : Z; ta_transport : Z; ta_http : Z; ta_statuses : gmap string Z; ta_samples : list Z }.
Definition zero_tally : tally := mkTally 0 0 0 ∅ [].
Inductive load_action : Type := AddSample (d : Z) | TransportFailed | LoadOrStore (code : Z) | AddStatus (code : Z) | HttpFailed | Completed.
Definition load_act (a : load_action) (s : tally) : tally :=
  match a with
  | AddSample d => mkTally (ta_completed s) (ta_transport s) (ta_http s) (ta_statuses s) (ta_samples s ++ [d])
  | TransportFailed => mkTally (ta_completed s) (ta_transport s + 1) (ta_http s) (ta_statuses s) (ta_samples s)
  | LoadOrStore code => mkTally (ta_completed s) (ta_transport s) (ta_http s)
      (<[FormatInt code := default 0 (ta_statuses s !! FormatInt code)]> (ta_statuses s)) (ta_samples s)
  | AddStatus code => mkTally (ta_completed s) (ta_transport s) (ta_http s)
      (<[FormatInt code := default 0 (ta_statuses s !! FormatInt code) + 1]> (ta_statuses s)) (ta_samples s)
  | HttpFailed => mkTally (ta_completed s) (ta_transport s) (ta_http s + 1) (ta_statuses s) (ta_samples s)
  | Completed => mkTally (ta_completed s + 1) (ta_transport s) (ta_http s) (ta_statuses s) (ta_samples s)
  end.

Inductive load_outcome : Type :=
| BuildFailed                          (** [http.NewRequestWithContext] *)
| NoResponse (latency : Z)             (** [client.Do] *)
| Answered (latency code : Z).
Definition success (code : Z) : bool := negb ((code <? 200) || (300 <=? code)).
(** What the goroutine of a request does after its outcome. *)
Definition load_effects (_ : Z) (o : load_outcome) : list load_action :=
  match o with
  | BuildFailed => [TransportFailed; Completed]
  | NoResponse d => [AddSample d; TransportFailed; Completed]
  | Answered d code => [AddSample d; LoadOrStore code; AddStatus code] ++ (if success code then [] else [HttpFailed]) ++ [Completed]
  end.
Abbreviation load_pool := (@pool tally load_action load_outcome).
Definition load_run (f : load_flags) (es : list (@pool_event load_outcome)) : option load_pool :=
  pool_run load_act load_effects (Z.to_nat (lf_concurrency f)) es (pool_start zero_tally).

(** ** Report *)
(** [int(x)] *)
Definition float_trunc (x : float64) : option Z :=
  match x with
  | S754_zero _ => Some 0
  | S754_finite s m e => Some ((if s then Z.opp else fun z => z) (Z.shiftl (Zpos m) e))
  | _ => None
  end.
Definition sorted (l : list Z) : list Z := merge_sort Z.le l.
Definition percent (n : Z) : float64 := fdiv (float_of_Z n) (float_of_Z 100).
Definition quant_index (n : nat) (p : float64) : option Z := float_trunc (fmul (float_of_Z (Z.of_nat n - 1)) p).
(** [None] is a panic: the index is out of range. *)
Definition quant (vals : list Z) (p : float64) : option Z :=
  match vals with
  | [] => Some 0
  | _ => match quant_index (length vals) p with
         | Some i => if i <? 0 then None else vals !! Z.to_nat i
         | None => None
         end
  end.
Definition max_latency (vals : list Z) : Z := match last vals with Some d => d | None => 0 end.

Record load_report : Type := mkLoadReport {
  rp_Scenario : string; rp_Duration : Z; rp_LoadDuration : Z; rp_TargetRate : Z; rp_AchievedRate : float64; rp_Concurrency : Z;
  rp_Method : string; rp_URL : string; rp_Body : string; rp_BodyBytes : Z; rp_Idempotency : bool; rp_BearerTokenCount : Z;
  rp_Sent : Z; rp_Completed : Z; rp_Failed : Z; rp_TransportFailed : Z; rp_HTTPFailed : Z; rp_Statuses : gmap string Z;
  rp_P50 : option Z; rp_P95 : option Z; rp_P99 : option Z; rp_Max : Z }.
Definition report_of `{UnicodeTables} (f : load_flags) (tokens : list string) (elapsed loadElapsed : Z) (p : load_pool) : load_report :=
  let t := po_shared p in
  let vals := sorted (ta_samples t) in
  mkLoadReport (lf_scenario f) elapsed loadElapsed (lf_rate f)
    (if 0 <? loadElapsed then fdiv (float_of_Z (po_seq p)) (Seconds loadElapsed) else zero) (lf_concurrency f)
    (ToUpper (lf_method f)) (lf_url f) (lf_body f) (slen (lf_body f)) (lf_idempotency f) (Z.of_nat (length tokens))
    (po_seq p) (ta_completed t) (ta_transport t + ta_http t) (ta_transport t) (ta_http t) (ta_statuses t)
    (quant vals (percent 50)) (quant vals (percent 95)) (quant vals (percent 99)) (max_latency vals).

(** [main]: exit code 2, or the report of a finished run. *)
Definition httpload_main `{UnicodeTables} (open_lines : string -> res (list string * option error)) (f : load_flags)
    (es : list (@pool_event load_outcome)) (elapsed loadElapsed : Z) : option (Z + load_report) :=
  if negb (load_flags_ok f) then Some (inl 2) else
  match loadTokens open_lines (lf_bearer f) (lf_bearer_file f) with
  | Err _ => Some (inl 2)
  | Ok tokens =>
    match load_run f es with
    | Some p => if finished p then Some (inr (report_of f tokens elapsed loadElapsed p)) else None
    | None => None
    end
  end.
