(* ===== verification/HttploadSpec.v ===== *)
(** What the report of the HTTP load generator says: every request is counted once,
    whatever the interleaving of the goroutines. *)
From S2P Require Import Prelude GoStrings Instances Redis Traffic Pool Httpload.
From Stdlib Require Import SpecFloat Permutation.

Definition unanswered (o : load_outcome) : bool := match o with Answered _ _ => false | _ => true end.
Definition refused (o : load_outcome) : bool := match o with Answered _ code => negb (success code) | _ => false end.
Definition succeeded (o : load_outcome) : bool := match o with Answered _ code => success code | _ => false end.
Definition answered (code : Z) (o : load_outcome) : bool := match o with Answered _ c => c =? code | _ => false end.
Definition latency (o : load_outcome) : list Z := match o with BuildFailed => [] | NoResponse d | Answered d _ => [d] end.

Lemma no_workers {S Act Out} (p : @pool S Act Out) : finished p = true -> po_workers p = [].
Proof. unfold finished. intros [_ Hl]%andb_true_iff. apply bool_decide_eq_true in Hl. by apply length_zero_iff_nil in Hl. Qed.
Section run.
Variables (f : load_flags) (es : list (@pool_event load_outcome)) (p : load_pool).
Hypothesis run : load_run f es = Some p.
Hypothesis done_ : finished p = true.

(** A counter at the end is the sum over the outcomes. *)
Lemma tallied (measure : tally -> Z) (weight : load_action -> Z) (value : load_outcome -> Z) :
  (forall a s, measure (load_act a s) = measure s + weight a) -> measure zero_tally = 0 ->
  (forall n o, sumZ weight (load_effects n o) = value o) ->
  measure (po_shared p) = sumZ (fun no => value no.2) (po_outcomes p).
Proof.
  intros Hadd H0 Hv. pose proof (counter_balance load_act load_effects (Z.to_nat (lf_concurrency f)) measure weight Hadd es zero_tally p run) as Hb.
  rewrite (no_workers p done_), H0 in Hb. cbn [sumZ foldr] in Hb. rewrite Z.add_0_r, Z.add_0_l in Hb. rewrite Hb. clear Hb.
  generalize (po_outcomes p). intros l. induction l as [|no l IH]; [done|]. by rewrite !sumZ_cons, IH, Hv.
Qed.
Lemma tallied_count measure weight (q : load_outcome -> bool) :
  (forall a s, measure (load_act a s) = measure s + weight a) -> measure zero_tally = 0 ->
  (forall n o, sumZ weight (load_effects n o) = if q o then 1 else 0) ->
  measure (po_shared p) = count_where q (map snd (po_outcomes p)).
Proof.
  intros Hadd H0 Hv. rewrite (tallied measure weight (fun o => if q o then 1 else 0) Hadd H0 Hv).
  unfold count_where. induction (po_outcomes p) as [|no l IH]; [done|]. rewrite sumZ_cons, IH. cbn [map List.filter]. destruct (q no.2); cbn [length]; lia.
Qed.

Lemma all_dispatched : map fst (po_outcomes p) ≡ₚ map Z.of_nat (seq 1 (Z.to_nat (po_seq p))) /\ po_seq p = Z.of_nat (length (po_outcomes p)).
Proof.
  destruct (tasks_numbered _ _ _ _ _ _ run) as [H0 Ht]. unfold tasks in Ht. rewrite (no_workers p done_) in Ht. cbn [flat_map] in Ht. rewrite app_nil_r in Ht.
  split; [done|]. apply Permutation_length in Ht. rewrite !length_map, length_seq in Ht. lia.
Qed.

Ltac effects := intros n [|d|d code]; unfold load_effects; cbn [refused]; try done; by destruct (success code).
Lemma completed_all : ta_completed (po_shared p) = po_seq p.
Proof.
  rewrite (tallied_count ta_completed (fun a => match a with Completed => 1 | _ => 0 end) (fun _ => true)); [|intros []; cbn; lia|done|effects].
  destruct all_dispatched as [_ ->]. unfold count_where. rewrite <- (length_map snd). f_equal. by induction (map snd (po_outcomes p)) as [|o l IH]; [|cbn; rewrite IH].
Qed.
Lemma transport_counted : ta_transport (po_shared p) = count_where unanswered (map snd (po_outcomes p)).
Proof. apply (tallied_count _ (fun a => match a with TransportFailed => 1 | _ => 0 end)); [intros []; cbn; lia|done|effects]. Qed.
Lemma http_counted : ta_http (po_shared p) = count_where refused (map snd (po_outcomes p)).
Proof. apply (tallied_count _ (fun a => match a with HttpFailed => 1 | _ => 0 end)); [intros []; cbn; lia|done|effects]. Qed.
Lemma status_counted code : default 0 (ta_statuses (po_shared p) !! FormatInt code) = count_where (answered code) (map snd (po_outcomes p)).
Proof.
  apply (tallied_count (fun s => default 0 (ta_statuses s !! FormatInt code)) (fun a => match a with AddStatus c => if c =? code then 1 else 0 | _ => 0 end)).
  - intros [] s; cbn [load_act ta_statuses]; try lia.
    + destruct (decide (FormatInt code0 = FormatInt code)) as [E|E]; [rewrite E, lookup_insert_eq; cbn; lia|by rewrite lookup_insert_ne; [lia|]].
    + destruct (Z.eqb_spec code0 code) as [->|Hne]; [rewrite lookup_insert_eq; done|].
      rewrite lookup_insert_ne; [lia|]. intros Heq. by apply FormatInt_inj in Heq.
  - reflexivity.
  - intros n [|d|d c]; unfold load_effects; try done. cbn [answered]. destruct (success c); cbn [app sumZ foldr]; destruct (c =? code); lia.
Qed.
Lemma samples_counted : ta_samples (po_shared p) ≡ₚ flat_map (fun no => latency no.2) (po_outcomes p).
Proof.
  apply (Permutation_count_occ Z.eq_dec). intros d. apply Nat2Z.inj.
  rewrite (tallied (fun s => Z.of_nat (count_occ Z.eq_dec (ta_samples s) d)) (fun a => match a with AddSample x => if Z.eq_dec x d then 1 else 0 | _ => 0 end)
    (fun o => Z.of_nat (count_occ Z.eq_dec (latency o) d))).
  - induction (po_outcomes p) as [|no l IH]; [done|]. rewrite sumZ_cons, IH. cbn [flat_map]. rewrite count_occ_app. lia.
  - intros [x| | | | |] s; cbn [load_act ta_samples]; try lia. rewrite count_occ_app. cbn. destruct (Z.eq_dec x d); cbn; lia.
  - done.
  - intros n [|x|x code]; unfold load_effects; try done; cbn [latency count_occ]; destruct (Z.eq_dec x d); try (destruct (success code)); cbn; destruct (Z.eq_dec x d); try done.
Qed.
Lemma failed_counted : ta_transport (po_shared p) + ta_http (po_shared p) = po_seq p - count_where succeeded (map snd (po_outcomes p)).
Proof.
  rewrite transport_counted, http_counted. destruct all_dispatched as [_ ->]. rewrite <- (length_map snd). unfold count_where.
  induction (map snd (po_outcomes p)) as [|o l IH]; [done|]. cbn [List.filter length]. destruct o as [|d|d code]; cbn [unanswered refused succeeded]; try destruct (success code); cbn [negb length]; lia.
Qed.
End run.

(** ** Percentiles *)
Definition in_range (p : float64) (n : nat) : bool :=
  match quant_index n p with Some i => (0 <=? i) && (i <? Z.of_nat n) | None => false end.
Lemma percentiles_in_range :
  forallb (fun n => in_range (percent 50) n && in_range (percent 95) n && in_range (percent 99) n) (seq 1 5000) = true.
Proof. vm_compute. reflexivity. Qed.
Lemma sorted_permutation l : sorted l ≡ₚ l.
Proof. apply merge_sort_Permutation. Qed.
Lemma quant_in l p : in_range p (length l) = true -> exists d, quant l p = Some d /\ d ∈ l.
Proof.
  unfold in_range. intros Hp. destruct (quant_index (length l) p) as [i|] eqn:E; [|done]. apply andb_true_iff in Hp as [H0 Hi]. apply Z.leb_le in H0. apply Z.ltb_lt in Hi.
  destruct (lookup_lt_is_Some_2 l (Z.to_nat i)) as [d Hd]; [lia|]. exists d. split; [|by apply list_elem_of_lookup_2 in Hd].
  unfold quant. destruct l as [|v l]; [cbn in Hi; lia|]. rewrite E. by destruct (Z.ltb_spec i 0); [lia|].
Qed.
(** A percentile is one of the samples, or the zero of a run without. *)
Lemma quant_is_a_sample vals p : (length vals <= 5000)%nat -> (forall n, (1 <= n <= 5000)%nat -> in_range p n = true) ->
  exists d, quant (sorted vals) p = Some d /\ (d ∈ vals \/ vals = [] /\ d = 0).
Proof.
  intros Hlen Hp. pose proof (sorted_permutation vals) as Hs. destruct vals as [|v l]; [exists 0; by auto|].
  destruct (quant_in (sorted (v :: l)) p) as (d & Hd & Hin); [apply Hp; rewrite (Permutation_length Hs); cbn [length] in *; lia|].
  exists d. split; [done|]. left. by rewrite Hs in Hin.
Qed.
Lemma max_latency_max vals d : d ∈ vals -> d <= max_latency (sorted vals).
Proof.
  intros Hd. rewrite <- (sorted_permutation vals) in Hd. unfold max_latency, sorted in *.
  pose proof (StronglySorted_merge_sort Z.le vals) as Hs. revert Hs Hd. generalize (merge_sort Z.le vals). clear. intros l Hs.
  induction Hs as [|x l Hs IH Hx]; [by intros Hd%elem_of_nil|]. rewrite last_cons, elem_of_cons.
  destruct (last l) as [m|] eqn:E.
  - intros [->|Hd]; [|by apply IH]. rewrite List.Forall_forall in Hx. apply Hx. apply list_elem_of_In, last_Some_elem_of. done.
  - intros [->|Hd]; [lia|]. apply last_None in E as ->. by apply elem_of_nil in Hd.
Qed.

(** ** Requests *)
Lemma interval_positive f : load_flags_ok f = true -> 0 < load_interval f.
Proof. intros _. unfold load_interval. case_match eqn:E; [lia|]. apply Z.leb_gt in E. lia. Qed.
Lemma load_key_inj f started n m : load_key f started n = load_key f started m -> n = m.
Proof.
  unfold load_key. intros Heq. by apply app_inj_l, app_inj_l, app_inj_l, app_inj_l, FormatInt_inj in Heq.
Qed.

(** The report of a load run counts every request once, whatever the interleaving of
    the goroutines: the requests are numbered from 1 to the reported count, no more than
    the concurrency are ever in flight, each request is completed, the failures are those
    that got no response or no 2xx status, each status is counted as often as it was
    answered, no latency exceeds the reported maximum, and in a run of up to 5000 requests
    the percentiles are latencies of the run. *)
Theorem load_report_accounts_every_request `{UnicodeTables} open_lines f es elapsed loadElapsed r :
  httpload_main open_lines f es elapsed loadElapsed = Some (inr r) ->
  exists p, load_run f es = Some p /\
  (forall es1 es2 p1, es = es1 ++ es2 -> load_run f es1 = Some p1 -> (in_flight p1 <= Z.to_nat (lf_concurrency f))%nat) /\
  map fst (po_outcomes p) ≡ₚ map Z.of_nat (seq 1 (Z.to_nat (rp_Sent r))) /\
  let os := map snd (po_outcomes p) in
  rp_Completed r = rp_Sent r /\ rp_Failed r = rp_Sent r - count_where succeeded os /\
  rp_TransportFailed r = count_where unanswered os /\ rp_HTTPFailed r = count_where refused os /\
  (forall code, default 0 (rp_Statuses r !! FormatInt code) = count_where (answered code) os) /\
  (forall d, d ∈ flat_map latency os -> d <= rp_Max r) /\
  (rp_Sent r <= 5000 -> forall q, q ∈ [rp_P50 r; rp_P95 r; rp_P99 r] ->
    exists d, q = Some d /\ (d ∈ flat_map latency os \/ flat_map latency os = [] /\ d = 0)).
Proof.
  unfold httpload_main. intros Hmain. destruct (load_flags_ok f); cbn [negb] in Hmain; [|done].
  destruct (loadTokens open_lines _ _) as [tokens|]; [|done]. destruct (load_run f es) as [p|] eqn:Hrun; [|done].
  destruct (finished p) eqn:Hf; [|done]. injection Hmain as <-. exists p. split; [done|].
  split; [intros es1 es2 p1 _ Hp1; by eapply in_flight_bounded|].
  destruct (all_dispatched _ _ _ Hrun Hf) as [Hperm Hseq]. split; [exact Hperm|]. cbn zeta. unfold report_of.
  cbn [rp_Completed rp_Sent rp_Failed rp_TransportFailed rp_HTTPFailed rp_Statuses rp_Max rp_P50 rp_P95 rp_P99].
  assert (Hs : ta_samples (po_shared p) ≡ₚ flat_map latency (map snd (po_outcomes p))).
  { rewrite (samples_counted _ _ _ Hrun Hf), !List.flat_map_concat_map, map_map. done. }
  split; [by apply (completed_all f es)|]. split; [by apply (failed_counted f es)|]. split; [by apply (transport_counted f es)|].
  split; [by apply (http_counted f es)|]. split; [intros code; by apply (status_counted f es)|].
  split; [intros d Hd; rewrite <- Hs in Hd; by apply max_latency_max|]. intros Hn q Hq.
  assert (Hlen : (length (ta_samples (po_shared p)) <= 5000)%nat).
  { rewrite (Permutation_length Hs). rewrite Hseq in Hn. clear - Hn. rewrite <- (length_map snd) in Hn. revert Hn. generalize (map snd (po_outcomes p)). intros os Hn.
    enough (length (flat_map latency os) <= length os)%nat by lia. clear. induction os as [|o os IH]; [done|]. cbn [flat_map length]. rewrite length_app. destruct o; cbn [latency length]; lia. }
  pose proof percentiles_in_range as Hr. rewrite List.forallb_forall in Hr.
  assert (Hq' : exists x, q = quant (sorted (ta_samples (po_shared p))) x /\ forall n, (1 <= n <= 5000)%nat -> in_range x n = true).
  { rewrite !elem_of_cons in Hq. destruct Hq as [->|[->|[->|Hq%elem_of_nil]]]; [| | |done]; eexists; (split; [reflexivity|]);
      intros n Hn'; specialize (Hr n ltac:(apply in_seq; lia)); by apply andb_true_iff in Hr as [[Hr1 Hr2]%andb_true_iff Hr3]. }
  destruct Hq' as (x & -> & Hx). destruct (quant_is_a_sample _ _ Hlen Hx) as (d & -> & Hd). exists d. split; [done|].
  destruct Hd as [Hd|[Hd ->]]; [left; by rewrite <- Hs|right]. split; [|done]. rewrite Hd in Hs. by apply Permutation_nil in Hs.
Qed.

(** ** A run
    Three requests over two slots: a 200, a 503 and a refused connection. *)
Module HttploadExamples.
Definition flags : load_flags :=
  mkLoadFlags "http://localhost:8080/health" "get" "" " tok " "" 100 2 (30 * Second) (10 * Second) true "m7" "" "smoke".
Definition no_lines (path : string) : res (list string * option error) := Err (Fresh "no such file").
Definition work (i n : nat) : list (@pool_event load_outcome) := repeat (Action i) n ++ [Release i; GroupDone i].
Definition events : list (@pool_event load_outcome) :=
  [Dispatch; Dispatch; Outcome 1 (Answered 30 503); Action 1; Outcome 0 (Answered 10 200); Action 1]
  ++ work 0 4 ++ work 0 3 ++ [Dispatch; Stop; Outcome 0 (NoResponse 20)] ++ work 0 3.
Definition no_report : load_report :=
  mkLoadReport "" 0 0 0 zero 0 "" "" "" 0 false 0 0 0 0 0 0 ∅ None None None 0.
Definition report : load_report :=
  Eval vm_compute in match @httpload_main ascii_tables no_lines flags events (2 * Second) Second with Some (inr r) => r | _ => no_report end.
Example report_of_three : (rp_Sent report, rp_Failed report, rp_TransportFailed report, rp_HTTPFailed report, rp_P50 report, rp_Max report) = (3, 2, 1, 1, Some 20, 30).
Proof. reflexivity. Qed.
(** A third request does not start while two are in flight. *)
Example full : load_run flags [Dispatch; Dispatch; Dispatch] = None.
Proof. reflexivity. Qed.

Lemma load_report_accounts_every_request_witness : exists p, load_run flags events = Some p /\ map fst (po_outcomes p) ≡ₚ [1; 2; 3].
Proof.
  destruct (@load_report_accounts_every_request ascii_tables no_lines flags events (2 * Second) Second report ltac:(vm_compute; reflexivity)) as (p & Hp & _ & Hperm & _).
  exists p. split; [exact Hp|]. exact Hperm.
Defined.
End HttploadExamples.
