(* ===== verification/Loadtest.v ===== *)
(** The WebSocket load generator ([tools/loadtest/main.go]): virtual viewers on the
    realtime server, whose callbacks count what they see; the loops that launch them and
    that publish; the report.

    The callbacks of one client run one after another, those of different clients and
    the goroutines interleave at each atomic operation: a callback is a [code] of such
    operations, a run a list of steps of the threads. The launch and publish loops are
    bounded pools ([Pool]). The websocket library and the sockets are not modelled; its
    events are the jobs of a run. *)
From S2P Require Import Prelude GoStrings Json Redis Traffic Realtime Auth Pool Httpload.
From Stdlib Require Import SpecFloat.

(** ** Configuration *)
Record load_config : Type := mkLoadConfig {
  lc_endpoint : string; lc_apiURL : string; lc_apiKey : string; lc_secret : string; lc_report : string; lc_scenario : string;
  lc_clients : Z; lc_rooms : Z; lc_roomBase : Z; lc_connectRate : float64; lc_publishRate : float64;
  lc_connectConcurrency : Z; lc_publishConcurrency : Z; lc_connectReadyTimeout : Z; lc_duration : Z; lc_slowDelay : Z;
  lc_slowRatio : float64; lc_messageBytes : Z }.
Definition default_load_config : load_config :=
  mkLoadConfig "ws://localhost:8000/connection/websocket" "http://localhost:8000/api/publish" "dev-api-key-change-me"
    "dev-token-secret-change-me" "" "" 1000 1 900000 (float_of_Z 1000) zero 256 64 (30 * Second) (30 * Second) (250 * Millisecond) zero 256.
Definition load_config_ok (c : load_config) : bool :=
  negb ((lc_clients c <=? 0) || (lc_rooms c <=? 0) || flt (lc_slowRatio c) zero || flt one (lc_slowRatio c)
        || (lc_connectConcurrency c <=? 0) || (lc_publishConcurrency c <=? 0) || (lc_messageBytes c <? 0) || (lc_connectReadyTimeout c <=? 0)).

(** ** Counters *)
Inductive counter : Type :=
| connectedCurrent | initialConnected | connectEvents | reconnectEvents | connectImmediateError | clientErrors
| disconnectEvents | fastDisconnects | slowDisconnects | subscribeEvents | initialSubscribed | resubscribeEvents
| subscriptionErrors | publications | fastPublications | slowPublications | recovered | recoveryAttempts | publishOK | publishErr.
#[export] Instance counter_eq_dec : EqDecision counter.
Proof. solve_decision. Defined.
Definition counters : Type := counter -> Z.
Inductive latencySet : Type := allLat | fastLat | slowLat.
#[export] Instance latencySet_eq_dec : EqDecision latencySet.
Proof. solve_decision. Defined.
(** What the goroutines share. *)
Record measured : Type := mkMeasured { ms_ctr : counters; ms_lat : latencySet -> list Z }.
Definition no_measures : measured := mkMeasured (fun _ => 0) (fun _ => []).
Definition atomic_Add (c : counter) (d : Z) (s : measured) : measured :=
  mkMeasured (fun c' => if decide (c' = c) then ms_ctr s c' + d else ms_ctr s c') (ms_lat s).
Definition Hour : Z := 60 * Minute.
Definition plausible (v : Z) : bool := negb ((v <? 0) || (Hour <? v)).
Definition latencySet_add (l : latencySet) (v : Z) (s : measured) : measured :=
  if plausible v then mkMeasured (ms_ctr s) (fun l' => if decide (l' = l) then ms_lat s l' ++ [v] else ms_lat s l') else s.

(** ** Callbacks *)
Inductive flag : Type := currentlyConnected | everConnected | everSubscribed.
Record flags : Type := mkFlags { fl_current : bool; fl_connected : bool; fl_subscribed : bool }.
Definition no_flags : flags := mkFlags false false false.
Definition get_flag (f : flag) (x : flags) : bool :=
  match f with currentlyConnected => fl_current x | everConnected => fl_connected x | everSubscribed => fl_subscribed x end.
Definition set_flag (f : flag) (b : bool) (x : flags) : flags :=
  match f with
  | currentlyConnected => mkFlags b (fl_connected x) (fl_subscribed x)
  | everConnected => mkFlags (fl_current x) b (fl_subscribed x)
  | everSubscribed => mkFlags (fl_current x) (fl_connected x) b
  end.

(** Straight-line code over the atomics. *)
Inductive code : Type :=
| Done
| Count (c : counter) (d : Z) (k : code)
| CompareAndSwap (f : flag) (old new : bool) (yes no : code)
| Latency (l : latencySet) (v : Z) (k : code).

Definition OnConnected : code :=
  let rest := Count connectEvents 1
    (CompareAndSwap everConnected false true (Count initialConnected 1 Done) (Count reconnectEvents 1 Done)) in
  CompareAndSwap currentlyConnected false true (Count connectedCurrent 1 rest) rest.
Definition OnDisconnected (slow : bool) : code :=
  let rest := Count disconnectEvents 1 (Count (if slow then slowDisconnects else fastDisconnects) 1 Done) in
  CompareAndSwap currentlyConnected true false (Count connectedCurrent (-1) rest) rest.
Definition OnSubscribed (wasRecovering hasRecovered : bool) : code :=
  let rest := (if wasRecovering then Count recoveryAttempts 1 else fun k => k) (if hasRecovered then Count recovered 1 Done else Done) in
  Count subscribeEvents 1
    (CompareAndSwap everSubscribed false true (Count initialSubscribed 1 rest) (Count resubscribeEvents 1 rest)).

Record load_payload : Type := mkLoadPayload { py_Seq : Z; py_SentAt : Z; py_Timestamp : Z; py_Padding : string }.
Definition load_payload_json (p : load_payload) : json :=
  JObj ([("seq", JNum (py_Seq p)); ("sent_at_unix_nano", JNum (py_SentAt p)); ("timestamp", JNum (py_Timestamp p))]
        ++ (if bool_decide (py_Padding p = "") then [] else [("padding", JStr (py_Padding p))])).
Definition unmarshal_load_payload (r : raw) : option load_payload :=
  o ← decode_object r;
  sq ← decode_field 0 dec_int64 "seq" o;
  sent ← decode_field 0 dec_int64 "sent_at_unix_nano" o;
  ts ← decode_field 0 dec_int64 "timestamp" o;
  pad ← decode_field "" dec_string "padding" o;
  Some (mkLoadPayload sq sent ts pad).
(** The time a publication was sent, when it says so. *)
Definition sent_at (p : load_payload) : option Z :=
  if 0 <? py_SentAt p then Some (py_SentAt p) else if 0 <? py_Timestamp p then Some (py_Timestamp p * Millisecond) else None.
(** [now] is the clock when the latency is taken. *)
Definition OnPublication (slow : bool) (data : raw) (now : Z) : code :=
  Count publications 1 (Count (if slow then slowPublications else fastPublications) 1
    (match unmarshal_load_payload data with
     | Some p =>
       match sent_at p with
       | Some sent => let v := now - sent in Latency allLat v (Latency (if slow then slowLat else fastLat) v Done)
       | None => Done
       end
     | None => Done
     end)).

(** What [makeClient] counts: which of its three calls fails. *)
Inductive made : Type := ConnectFailed | NewSubscriptionFailed | SubscribeFailed | Made.
Definition makeClient (m : made) : code :=
  match m with
  | ConnectFailed => Count connectImmediateError 1 Done
  | NewSubscriptionFailed | SubscribeFailed => Count subscriptionErrors 1 Done
  | Made => Done
  end.

(** The events of a client. *)
Inductive job : Type :=
| Connected | Disconnected | ClientError | Subscribed (wasRecovering hasRecovered : bool) | SubscriptionError
| Publication (data : raw) (now : Z) | MakeClient (m : made).
Definition job_code (slow : bool) (j : job) : code :=
  match j with
  | Connected => OnConnected
  | Disconnected => OnDisconnected slow
  | ClientError => Count clientErrors 1 Done
  | Subscribed wasRecovering hasRecovered => OnSubscribed wasRecovering hasRecovered
  | SubscriptionError => Count subscriptionErrors 1 Done
  | Publication data now => OnPublication slow data now
  | MakeClient m => makeClient m
  end.

(** ** Interleaving *)
(** One atomic operation. *)
Definition exec1 (k : code) (x : flags) (s : measured) : option (code * flags * measured) :=
  match k with
  | Done => None
  | Count c d k => Some (k, x, atomic_Add c d s)
  | CompareAndSwap f old new yes no => if eqb (get_flag f x) old then Some (yes, set_flag f new x, s) else Some (no, x, s)
  | Latency l v k => Some (k, x, latencySet_add l v s)
  end.
(** A thread with its events so far. *)
Record thread : Type := mkThread { th_slow : bool; th_flags : flags; th_code : code; th_jobs : list job }.
Definition idle (slow : bool) : thread := mkThread slow no_flags Done [].
Definition quiet (t : thread) : bool := match th_code t with Done => true | _ => false end.
Inductive thread_event : Type := Begin (i : nat) (j : job) | Step (i : nat).
Definition thread_step (e : thread_event) (ts : list thread) (s : measured) : option (list thread * measured) :=
  match e with
  | Begin i j =>
    match ts !! i with
    | Some t => if quiet t then Some (<[i := mkThread (th_slow t) (th_flags t) (job_code (th_slow t) j) (th_jobs t ++ [j])]> ts, s) else None
    | None => None
    end
  | Step i =>
    match ts !! i with
    | Some t =>
      match exec1 (th_code t) (th_flags t) s with
      | Some (k, x, s') => Some (<[i := mkThread (th_slow t) x k (th_jobs t)]> ts, s')
      | None => None
      end
    | None => None
    end
  end.
Fixpoint thread_run (es : list thread_event) (ts : list thread) (s : measured) : option (list thread * measured) :=
  match es with
  | [] => Some (ts, s)
  | e :: es => match thread_step e ts s with Some (ts, s) => thread_run es ts s | None => None end
  end.

(** ** Conversions of floats *)
(** [int(math.Round(x))] and [int(math.Ceil(x))] before the conversion's range. *)
Definition Round_Z (x : float64) : option Z :=
  match x with
  | S754_zero _ => Some 0
  | S754_finite s m e =>
    let a := if 0 <=? e then Z.shiftl (Zpos m) e else Z.shiftr (Zpos m + Z.shiftl 1 (- e - 1)) (- e) in Some (if s then - a else a)
  | _ => None
  end.
Definition Ceil_Z (x : float64) : option Z :=
  match x with
  | S754_zero _ => Some 0
  | S754_finite s m e => let v := if s then Zneg m else Zpos m in Some (if 0 <=? e then Z.shiftl v e else - Z.shiftr (- v) (- e))
  | _ => None
  end.

Section run.
(** What the conversion of a float outside [int64] gives is up to the implementation. *)
Variable undefined_int : float64 -> Z.
Definition to_int (x : float64) (v : option Z) : Z :=
  match v with Some z => if bool_decide (in_int64 z) then z else undefined_int x | None => undefined_int x end.
Definition rate_interval (rate : float64) : Z :=
  let x := fdiv (float_of_Z Second) rate in
  let i := to_int x (float_trunc x) in if i <=? 0 then 1 else i.

(** ** Launching *)
Record launch : Type := mkLaunch { la_userID : string; la_roomID : Z; la_slow : bool }.
Definition slow_clients (c : load_config) : Z :=
  let x := fmul (float_of_Z (lc_clients c)) (lc_slowRatio c) in to_int x (Round_Z x).
Definition launch_of (c : load_config) (i : Z) : launch :=
  mkLaunch (FormatInt (100000000 + i)) (wrap64 (lc_roomBase c + Z.rem i (lc_rooms c))) (i <? slow_clients c).
(** The slice of clients, by the goroutines of [launchClients]. *)
Definition store_client (a : Z * launch) (clients : list (option launch)) : list (option launch) := <[Z.to_nat a.1 := Some a.2]> clients.
Definition launchClients (c : load_config) (es : list (@pool_event unit)) : option (@pool (list (option launch)) (Z * launch) unit) :=
  match pool_run store_client (fun n _ => [(n - 1, launch_of c (n - 1))]) (Z.to_nat (lc_connectConcurrency c)) es
          (pool_start (repeat None (Z.to_nat (lc_clients c)))) with
  | Some p => if po_seq p <=? lc_clients c then Some p else None
  | None => None
  end.
(** The loop ends when the last client is dispatched and waits for all; or the context
    ended, and it returns without waiting. *)
Definition launch_returns (c : load_config) (cancelled : bool) (p : @pool (list (option launch)) (Z * launch) unit) : bool :=
  cancelled || ((po_seq p =? lc_clients c) && finished p).

(** [waitForInitialConnections], given what it reads at its wakes: [true] when all arrived. *)
Fixpoint waitForInitialConnections (c : load_config) (s : measured) (wakes : list (option measured)) : option bool :=
  if lc_clients c <=? ms_ctr s initialConnected + ms_ctr s connectImmediateError then Some true else
  match wakes with
  | [] => None
  | None :: _ => Some false
  | Some s :: wakes => waitForInitialConnections c s wakes
  end.

(** ** Publishing *)
Definition publish_room (c : load_config) (seq : Z) : Z := wrap64 (lc_roomBase c + Z.rem (seq - 1) (lc_rooms c)).
(** [strings.Repeat] *)
Fixpoint Repeat (s : string) (n : nat) : string := match n with O => "" | S n => s +:+ Repeat s n end.
Definition publish_padding (c : load_config) : string := Repeat "x" (Z.to_nat (Z.max 0 (lc_messageBytes c - 72))).
(** The JSON body of a request. *)
Definition publish_body (c : load_config) (seq now : Z) : json :=
  JObj [("channel", JStr (RoomStream (publish_room c seq))); ("data", load_payload_json (mkLoadPayload seq now 0 (publish_padding c)))].
Inductive publish_outcome : Type := RequestFailed | PublishFailed | PublishStatus (code : Z).
Definition published (o : publish_outcome) : bool := match o with PublishStatus code => success code | _ => false end.
Definition publish_act (c : counter) (s : measured) : measured := atomic_Add c 1 s.
Definition publish_effects (_ : Z) (o : publish_outcome) : list counter := [if published o then publishOK else publishErr].
Definition publishLoop (c : load_config) (es : list (@pool_event publish_outcome)) : option (@pool measured counter publish_outcome) :=
  pool_run publish_act publish_effects (Z.to_nat (lc_publishConcurrency c)) es (pool_start no_measures).

(** ** Latencies *)
(** The index is brought into the slice whatever the conversion gives. *)
Definition latency_index (n : nat) (p : float64) : Z :=
  let x := fmul p (float_of_Z (Z.of_nat n)) in
  let idx := wrap64 (to_int x (Ceil_Z x) - 1) in
  let idx := if idx <? 0 then 0 else idx in
  if Z.of_nat n <=? idx then Z.of_nat n - 1 else idx.
Definition latency_quantile (vals : list Z) (p : float64) : option Z :=
  match vals with [] => Some 0 | _ => vals !! Z.to_nat (latency_index (length vals) p) end.
Record latencySummary : Type := mkSummary { su_P50 : option Z; su_P95 : option Z; su_P99 : option Z; su_Max : Z }.
Definition summarizeLatency (vals : list Z) : latencySummary :=
  let vals := sorted vals in
  mkSummary (latency_quantile vals (percent 50)) (latency_quantile vals (percent 95)) (latency_quantile vals (percent 99)) (max_latency vals).

(** ** Report *)
(** Without the start time and what describes the host. *)
Record load_result : Type := mkLoadResult {
  lr_Scenario : string; lr_Duration : Z; lr_SteadyDuration : Z; lr_Clients : Z; lr_Rooms : Z; lr_MessageTargetBytes : Z;
  lr_ConnectRate : float64; lr_ConnectActualRate : float64; lr_ConnectConcurrency : Z; lr_ConnectReadyTimeout : Z;
  lr_ConnectPhaseDuration : Z; lr_ConnectionSuccessRate : float64; lr_PublishRate : float64; lr_PublishActualRate : float64;
  lr_PublishConcurrency : Z; lr_FanoutActualRate : float64; lr_SlowRatio : float64; lr_SlowDelay : Z;
  lr_Connected : Z; lr_InitialConnected : Z; lr_ConnectEvents : Z; lr_ReconnectEvents : Z; lr_ConnectImmediateErrors : Z; lr_ClientErrors : Z;
  lr_Disconnected : Z; lr_FastDisconnects : Z; lr_SlowDisconnects : Z; lr_Subscribed : Z; lr_InitialSubscribed : Z; lr_ResubscribeEvents : Z;
  lr_SubscriptionErrors : Z; lr_Publications : Z; lr_FastPublications : Z; lr_SlowPublications : Z; lr_RecoveryAttempts : Z; lr_Recovered : Z;
  lr_PublishOK : Z; lr_PublishErr : Z; lr_Latency : latencySummary; lr_FastLatency : latencySummary; lr_SlowLatency : latencySummary }.
Definition per_second (n d : Z) : float64 := if 0 <? d then fdiv (float_of_Z n) (Seconds d) else zero.
(** [ctr] as it is read, [elapsed] the time since the start. *)
Definition buildResult (c : load_config) (elapsed connectDuration steadyDuration : Z) (ctr : counters) (all fast slow : list Z) : load_result :=
  mkLoadResult (lc_scenario c) elapsed steadyDuration (lc_clients c) (lc_rooms c) (lc_messageBytes c)
    (lc_connectRate c) (per_second (ctr initialConnected) connectDuration) (lc_connectConcurrency c) (lc_connectReadyTimeout c)
    connectDuration (if 0 <? lc_clients c then fdiv (float_of_Z (ctr initialConnected)) (float_of_Z (lc_clients c)) else zero)
    (lc_publishRate c) (per_second (ctr publishOK) steadyDuration) (lc_publishConcurrency c) (per_second (ctr publications) steadyDuration)
    (lc_slowRatio c) (lc_slowDelay c)
    (ctr connectedCurrent) (ctr initialConnected) (ctr connectEvents) (ctr reconnectEvents) (ctr connectImmediateError) (ctr clientErrors)
    (ctr disconnectEvents) (ctr fastDisconnects) (ctr slowDisconnects) (ctr subscribeEvents) (ctr initialSubscribed) (ctr resubscribeEvents)
    (ctr subscriptionErrors) (ctr publications) (ctr fastPublications) (ctr slowPublications) (ctr recoveryAttempts) (ctr recovered)
    (ctr publishOK) (ctr publishErr) (summarizeLatency all) (summarizeLatency fast) (summarizeLatency slow).

(** What one run is made of: the steps of the launch loop, those of the callbacks and of
    [makeClient], those of the publish loop, and the measured durations. *)
Record load_events : Type := mkLoadEvents {
  le_launch : list (@pool_event unit); le_cancelled : bool; le_threads : list thread_event;
  le_publish : list (@pool_event publish_outcome); le_elapsed : Z; le_connect : Z; le_steady : Z }.
(** Two threads for each client: its callbacks, and the goroutine that makes it. *)
Definition client_threads (c : load_config) : list thread :=
  flat_map (fun i => let slow := la_slow (launch_of c (Z.of_nat i)) in [idle slow; idle slow]) (seq 0 (Z.to_nat (lc_clients c))).
(** The counters at the report: no callback and no publish request writes a counter of the
    others. *)
Definition all_counters (s p : measured) : counters := fun c => ms_ctr s c + ms_ctr p c.
(** Exit code 2, or the report with the threads it leaves. The wait for the first
    connections and the ticks that print only take time. *)
Definition loadtest_main (c : load_config) (e : load_events) : option (Z + (load_result * list thread)) :=
  if negb (load_config_ok c) then Some (inl 2) else
  match launchClients c (le_launch e), thread_run (le_threads e) (client_threads c) no_measures with
  | Some launched, Some (ts, s) =>
    if negb (launch_returns c (le_cancelled e) launched) then None else
    let report p := Some (inr (buildResult c (le_elapsed e) (le_connect e) (le_steady e) (all_counters s p)
                                 (ms_lat s allLat) (ms_lat s fastLat) (ms_lat s slowLat), ts)) in
    if flt zero (lc_publishRate c) then
      match publishLoop c (le_publish e) with
      | Some p => if finished p then report (po_shared p) else None
      | None => None
      end
    else report no_measures
  | _, _ => None
  end.
End run.

(** ** Tokens *)
Section tokens.
Context `{Crypto} `{JsonText}.
(** Marshalling these claims cannot fail. *)
Definition signJWT (secret : string) (claims : json) : string := with_mac secret (unsigned (json_text claims)).
(** The claims of a connection and of a subscription, with the clock for each; the keys
    of a map are written in order. *)
Definition tester_claims (userID : string) (exp_now iat_now : Z) : json :=
  JObj [("exp", JNum (Unix (exp_now + Hour))); ("iat", JNum (Unix iat_now)); ("sub", JStr userID)].
Definition tester_subscription_claims (userID : string) (roomID exp_now iat_now : Z) : json :=
  JObj [("channel", JStr (RoomStream roomID)); ("exp", JNum (Unix (exp_now + 10 * Minute))); ("expire_at", JNum 0);
        ("iat", JNum (Unix iat_now)); ("sub", JStr userID)].
End tokens.
