(* ===== verification/LoadtestSpec.v ===== *)
(** What the report of the WebSocket load generator says: whatever the interleaving of
    the callbacks, its counters are those of the events its clients saw. *)
From S2P Require Import Prelude GoStrings Json Redis Traffic Realtime Auth Pool Httpload HttploadSpec Loadtest.
From Stdlib Require Import SpecFloat Permutation.

(** ** The account of a thread *)
(** The flags after a code. *)
Fixpoint final (k : code) (x : flags) : flags :=
  match k with
  | Done => x
  | Count _ _ k | Latency _ _ k => final k x
  | CompareAndSwap f old new yes no => if eqb (get_flag f x) old then final yes (set_flag f new x) else final no x
  end.
Definition b2z (b : bool) : Z := if b then 1 else 0.

Section measure.
(** A quantity to which each operation adds its weight. *)
Variables (m : measured -> Z) (wc : counter -> Z -> Z) (wl : latencySet -> Z -> Z).
Hypothesis m_Add : forall c d s, m (atomic_Add c d s) = m s + wc c d.
Hypothesis m_Latency : forall l v s, m (latencySet_add l v s) = m s + wl l v.
(** What a code will add to it. *)
Fixpoint cost (k : code) (x : flags) : Z :=
  match k with
  | Done => 0
  | Count c d k => wc c d + cost k x
  | Latency l v k => wl l v + cost k x
  | CompareAndSwap f old new yes no => if eqb (get_flag f x) old then cost yes (set_flag f new x) else cost no x
  end.
(** Each event accounts for its own weight and for a change of its thread's flags. *)
Variables (potential : flags -> Z) (value : bool -> job -> Z).
Hypothesis job_cost : forall slow j x, cost (job_code slow j) x = potential (final (job_code slow j) x) - potential x + value slow j.
Hypothesis potential_start : potential no_flags = 0.

Lemma exec1_cost k x s k' x' s' : exec1 k x s = Some (k', x', s') -> m s' + cost k' x' = m s + cost k x /\ final k' x' = final k x.
Proof.
  destruct k as [|c d k|f old new yes no|l v k]; cbn [exec1 cost final]; [done|intros [= <- <- <-]; rewrite m_Add; split; [lia|done]| |intros [= <- <- <-]; rewrite m_Latency; split; [lia|done]].
  by destruct (eqb (get_flag f x) old); intros [= <- <- <-].
Qed.
(** The quantity owed by a thread: what its events are worth, less what is to come. *)
Definition earned (t : thread) : Z :=
  potential (final (th_code t) (th_flags t)) + sumZ (value (th_slow t)) (th_jobs t) - cost (th_code t) (th_flags t).
Lemma thread_step_earned e ts s ts' s' : thread_step e ts s = Some (ts', s') -> m s' - sumZ earned ts' = m s - sumZ earned ts.
Proof.
  destruct e as [i j|i]; cbn [thread_step]; destruct (ts !! i) as [t|] eqn:Ht; try done;
    destruct (lookup_split _ _ _ Ht) as (l1 & l2 & -> & Hins & _).
  - destruct (quiet t) eqn:Hq; [|done]. intros [= <- <-]. rewrite Hins, !sumZ_app, !sumZ_cons. unfold earned; cbn [th_code th_flags th_slow th_jobs].
    destruct t as [slow x k js]; cbn [quiet th_code th_flags th_slow th_jobs] in *. destruct k; try done. cbn [final cost].
    rewrite job_cost, sumZ_app, sumZ_cons, sumZ_nil. lia.
  - destruct (exec1 (th_code t) (th_flags t) s) as [[[k x] s1]|] eqn:E; [|done]. intros [= <- <-].
    apply exec1_cost in E as [Hm Hf]. rewrite Hins, !sumZ_app, !sumZ_cons. unfold earned; cbn [th_code th_flags th_slow th_jobs]. rewrite Hf. lia.
Qed.
Lemma thread_run_earned es : forall ts s ts' s', thread_run es ts s = Some (ts', s') -> m s' - sumZ earned ts' = m s - sumZ earned ts.
Proof.
  induction es as [|e es IH]; intros ts s ts' s'; cbn [thread_run]; [by intros [= <- <-]|].
  destruct (thread_step e ts s) as [[ts1 s1]|] eqn:E; [|done]. intros Hr. apply IH in Hr. apply thread_step_earned in E. lia.
Qed.
Lemma earned_idle slows : sumZ earned (map idle slows) = 0.
Proof. induction slows as [|b l IH]; [done|]. cbn [map]. rewrite sumZ_cons, IH. unfold earned, idle. cbn. rewrite potential_start. lia. Qed.
(** When no callback runs, the quantity is the sum over the threads. *)
Lemma at_rest es slows ts s : thread_run es (map idle slows) no_measures = Some (ts, s) -> forallb quiet ts = true ->
  m s = m no_measures + sumZ (fun t => potential (th_flags t) + sumZ (value (th_slow t)) (th_jobs t)) ts.
Proof.
  intros Hr Hq. apply thread_run_earned in Hr. rewrite earned_idle in Hr.
  enough (sumZ earned ts = sumZ (fun t => potential (th_flags t) + sumZ (value (th_slow t)) (th_jobs t)) ts) by lia.
  clear Hr. induction ts as [|t ts IH]; [done|]. cbn [forallb] in Hq. apply andb_true_iff in Hq as [Ht Hq].
  rewrite !sumZ_cons, IH by done. unfold earned. destruct t as [slow x k js]; cbn [quiet th_code th_flags th_slow th_jobs] in *. destruct k; try done. cbn [final cost]. lia.
Qed.
End measure.

(** ** Counters *)
(** What an event adds to a counter, and what the flags of its thread owe to it. *)
Definition adds (c : counter) (slow : bool) (j : job) : Z :=
  match c, j with
  | connectEvents, Connected | reconnectEvents, Connected | disconnectEvents, Disconnected | clientErrors, ClientError
  | subscribeEvents, Subscribed _ _ | resubscribeEvents, Subscribed _ _ | subscriptionErrors, SubscriptionError
  | subscriptionErrors, MakeClient (NewSubscriptionFailed | SubscribeFailed) | connectImmediateError, MakeClient ConnectFailed
  | publications, Publication _ _ => 1
  | slowDisconnects, Disconnected | slowPublications, Publication _ _ => b2z slow
  | fastDisconnects, Disconnected | fastPublications, Publication _ _ => b2z (negb slow)
  | recoveryAttempts, Subscribed b _ | recovered, Subscribed _ b => b2z b
  | _, _ => 0
  end.
Definition flagged (c : counter) (x : flags) : Z :=
  match c with
  | connectedCurrent => b2z (fl_current x)
  | initialConnected => b2z (fl_connected x)
  | reconnectEvents => - b2z (fl_connected x)
  | initialSubscribed => b2z (fl_subscribed x)
  | resubscribeEvents => - b2z (fl_subscribed x)
  | _ => 0
  end.
(** The latencies an event adds to a set. *)
Definition latencies (l : latencySet) (slow : bool) (j : job) : list Z :=
  match j with
  | Publication data now =>
    match unmarshal_load_payload data ≫= sent_at with
    | Some sent =>
      if plausible (now - sent) && match l with allLat => true | fastLat => negb slow | slowLat => slow end then [now - sent] else []
    | None => []
    end
  | _ => []
  end.

Section at_rest.
Variables (es : list thread_event) (slows : list bool) (ts : list thread) (s : measured).
Hypothesis run : thread_run es (map idle slows) no_measures = Some (ts, s).
Hypothesis rest : forallb quiet ts = true.

Lemma counter_at_rest c : ms_ctr s c = sumZ (fun t => flagged c (th_flags t) + sumZ (adds c (th_slow t)) (th_jobs t)) ts.
Proof.
  rewrite (at_rest (fun s => ms_ctr s c) (fun c' d => if decide (c = c') then d else 0) (fun _ _ => 0)) with (potential := flagged c) (value := adds c) (es := es) (slows := slows) (ts := ts); try done.
  - intros c' d s'. cbn [atomic_Add ms_ctr]. case_decide; lia.
  - intros l v s'. unfold latencySet_add. destruct (plausible v); cbn [ms_ctr]; lia.
  - intros slow j x. destruct j as [| | |wr hr| |data now|mk]; cbn [job_code]; unfold OnConnected, OnDisconnected, OnSubscribed, OnPublication.
    + destruct c, slow, x as [[] [] []]; reflexivity.
    + destruct c, slow, x as [[] [] []]; reflexivity.
    + destruct c, x as [[] [] []]; reflexivity.
    + destruct c, wr, hr, x as [[] [] []]; reflexivity.
    + destruct c, x as [[] [] []]; reflexivity.
    + destruct (unmarshal_load_payload data) as [p|]; [destruct (sent_at p)|]; destruct c, slow, x as [[] [] []]; reflexivity.
    + destruct c, mk, x as [[] [] []]; reflexivity.
  - destruct c; reflexivity.
Qed.
Lemma latencies_at_rest l : ms_lat s l ≡ₚ flat_map (fun t => flat_map (latencies l (th_slow t)) (th_jobs t)) ts.
Proof.
  apply (Permutation_count_occ Z.eq_dec). intros v. apply Nat2Z.inj.
  rewrite (at_rest (fun s => Z.of_nat (count_occ Z.eq_dec (ms_lat s l) v)) (fun _ _ => 0)
    (fun l' v' => if decide (l = l') then if plausible v' then Z.of_nat (count_occ Z.eq_dec [v'] v) else 0 else 0))
    with (potential := fun _ => 0) (value := fun slow j => Z.of_nat (count_occ Z.eq_dec (latencies l slow j) v)) (es := es) (slows := slows) (ts := ts); try done.
  - cbn [no_measures ms_lat count_occ]. clear. induction ts as [|t l' IH]; [done|]. rewrite sumZ_cons. cbn beta. cbn [flat_map]. rewrite count_occ_app, Nat2Z.inj_add, <- IH.
    enough (sumZ (fun j => Z.of_nat (count_occ Z.eq_dec (latencies l (th_slow t) j) v)) (th_jobs t) = Z.of_nat (count_occ Z.eq_dec (flat_map (latencies l (th_slow t)) (th_jobs t)) v)) by lia.
    induction (th_jobs t) as [|j js IHj]; [done|]. rewrite sumZ_cons. cbn [flat_map]. rewrite count_occ_app, IHj. lia.
  - intros c d s'. cbn [atomic_Add ms_lat]. lia.
  - intros l' v' s'. unfold latencySet_add. destruct (plausible v'); cbn [ms_lat]; [|case_decide; lia]. case_decide; [|lia]. rewrite count_occ_app. lia.
  - intros slow j [b1 b2 b3]. destruct j as [| | |wr hr| |data now|mk]; cbn [job_code]; unfold OnConnected, OnDisconnected, OnSubscribed, OnPublication.
    + destruct b1, b2; reflexivity.
    + destruct b1; reflexivity.
    + reflexivity.
    + destruct wr, hr, b3; reflexivity.
    + reflexivity.
    + cbn [latencies]. destruct (unmarshal_load_payload data) as [p|]; [|reflexivity]. cbn [mbind option_bind].
      destruct (sent_at p) as [sent|]; [|reflexivity]. generalize (now - sent). intros d. cbn [cost]. destruct (plausible d), l, slow; cbn [andb negb]; repeat case_decide; try congruence; cbn [count_occ]; lia.
    + destruct mk; reflexivity.
Qed.
End at_rest.

(** ** What a thread has seen *)
Definition connected (j : job) : bool := match j with Connected => true | _ => false end.
Definition disconnected (j : job) : bool := match j with Disconnected => true | _ => false end.
Definition subscribed (j : job) : bool := match j with Subscribed _ _ => true | _ => false end.
Definition publication (j : job) : bool := match j with Publication _ _ => true | _ => false end.
(** The last of its connections and disconnections was a connection. *)
Definition connected_now (js : list job) : bool :=
  fold_left (fun b j => match j with Connected => true | Disconnected => false | _ => b end) js false.
Definition flags_of (js : list job) : flags := mkFlags (connected_now js) (existsb connected js) (existsb subscribed js).

Lemma final_flags slow js j : final (job_code slow j) (flags_of js) = flags_of (js ++ [j]).
Proof.
  unfold flags_of, connected_now. rewrite fold_left_app, !existsb_app. generalize (fold_left (fun b j => match j with Connected => true | Disconnected => false | _ => b end) js false).
  generalize (existsb connected js), (existsb subscribed js). intros b1 b2 b3.
  destruct j as [| | |wr hr| |data now|mk]; cbn [job_code]; unfold OnConnected, OnDisconnected, OnSubscribed, OnPublication.
  - by destruct b1, b2, b3.
  - by destruct b1, b2, b3.
  - by destruct b1, b2, b3.
  - by destruct wr, hr, b1, b2, b3.
  - by destruct b1, b2, b3.
  - destruct (unmarshal_load_payload data) as [p|]; [destruct (sent_at p)|]; by destruct b1, b2, b3.
  - by destruct mk, b1, b2, b3.
Qed.
Definition thread_ok (t : thread) : Prop := final (th_code t) (th_flags t) = flags_of (th_jobs t).
Lemma exec1_final k x s k' x' s' : exec1 k x s = Some (k', x', s') -> final k' x' = final k x.
Proof.
  destruct k as [|c d k|f old new yes no|l v k]; cbn [exec1 final]; try done; try by intros [= <- <- <-].
  by destruct (eqb (get_flag f x) old); intros [= <- <- <-].
Qed.
Lemma thread_step_ok e ts s ts' s' : thread_step e ts s = Some (ts', s') ->
  Forall thread_ok ts -> Forall thread_ok ts' /\ map th_slow ts' = map th_slow ts.
Proof.
  destruct e as [i j|i]; cbn [thread_step]; destruct (ts !! i) as [t|] eqn:Ht; try done;
    destruct (lookup_split _ _ _ Ht) as (l1 & l2 & -> & Hins & _); rewrite Forall_app, Forall_cons.
  - destruct (quiet t) eqn:Hq; [|done]. intros [= <- <-] (H1 & Ht' & H2). rewrite Hins, Forall_app, Forall_cons, !map_app. split; [|done]. split; [done|]. split; [|done].
    destruct t as [slow x k js]; unfold thread_ok in *; cbn [quiet th_code th_flags th_slow th_jobs] in *. destruct k; try done. cbn [final] in Ht'. by rewrite Ht', final_flags.
  - destruct (exec1 (th_code t) (th_flags t) s) as [[[k x] s1]|] eqn:E; [|done]. intros [= <- <-] (H1 & Ht' & H2). rewrite Hins, Forall_app, Forall_cons, !map_app.
    split; [|done]. split; [done|]. split; [|done]. apply exec1_final in E. unfold thread_ok in *. cbn [th_code th_flags th_jobs]. by rewrite E, Ht'.
Qed.
Lemma thread_run_ok es : forall ts s ts' s', thread_run es ts s = Some (ts', s') ->
  Forall thread_ok ts -> Forall thread_ok ts' /\ map th_slow ts' = map th_slow ts.
Proof.
  induction es as [|e es IH]; intros ts s ts' s'; cbn [thread_run]; [by intros [= <- <-]|].
  destruct (thread_step e ts s) as [[ts1 s1]|] eqn:E; [|done]. intros Hr Hok. apply thread_step_ok in E as [Hok1 Hs]; [|done].
  apply IH in Hr as [Hok2 Hs2]; [|done]. by rewrite Hs2.
Qed.
Lemma quiet_flags es slows ts s : thread_run es (map idle slows) no_measures = Some (ts, s) -> forallb quiet ts = true ->
  forall t, t ∈ ts -> th_flags t = flags_of (th_jobs t).
Proof.
  intros Hr Hq t Ht. apply thread_run_ok in Hr as [Hok _]; [|by apply List.Forall_forall; intros ? (b & <- & _)%in_map_iff].
  rewrite List.Forall_forall in Hok. rewrite forallb_forall in Hq. apply list_elem_of_In in Ht. specialize (Hok _ Ht). specialize (Hq _ Ht).
  unfold thread_ok in Hok. unfold quiet in Hq. by destruct (th_code t).
Qed.

(** ** Sums over the threads *)
Lemma sumZ_ext {A} (f g : A -> Z) l : (forall x, x ∈ l -> f x = g x) -> sumZ f l = sumZ g l.
Proof.
  induction l as [|x l IH]; intros Hf; [done|]. rewrite !sumZ_cons, Hf by left. rewrite IH; [done|]. intros y Hy. apply Hf. by right.
Qed.
Lemma sumZ_count {A} (p : A -> bool) l : sumZ (fun x => b2z (p x)) l = count_where p l.
Proof. unfold count_where. induction l as [|x l IH]; [done|]. rewrite sumZ_cons, IH. cbn [List.filter]. destruct (p x); cbn [b2z length]; lia. Qed.
(** The events of a kind that the threads saw. *)
Definition seen (p : job -> bool) (ts : list thread) : Z := sumZ (fun t => count_where p (th_jobs t)) ts.
Section seen.
Variables (es : list thread_event) (slows : list bool) (ts : list thread) (s : measured).
Hypothesis run : thread_run es (map idle slows) no_measures = Some (ts, s).
Hypothesis rest : forallb quiet ts = true.
Local Abbreviation ctr := (ms_ctr s).
(** A counter that each thread moves by at most one, as one of its flags. *)
Lemma counted c (flag : list job -> bool) :
  (forall slow j, adds c slow j = 0) ->
  (forall js, b2z (flag js) = flagged c (flags_of js)) -> ctr c = count_where (fun t => flag (th_jobs t)) ts.
Proof.
  intros Ha Hf. rewrite (counter_at_rest _ _ _ _ run rest), <- sumZ_count. apply sumZ_ext. intros t Ht.
  rewrite (quiet_flags _ _ _ _ run rest t Ht), Hf. enough (sumZ (adds c (th_slow t)) (th_jobs t) = 0) by lia.
  induction (th_jobs t) as [|j js IH]; [done|]. rewrite sumZ_cons, Ha, IH. done.
Qed.
(** A counter that each event of a kind moves by one. *)
Lemma counted_events c p : (forall x, flagged c x = 0) -> (forall slow j, adds c slow j = b2z (p j)) -> ctr c = seen p ts.
Proof.
  intros Hf Ha. rewrite (counter_at_rest _ _ _ _ run rest). apply sumZ_ext. intros t _. rewrite Hf, <- sumZ_count.
  rewrite (sumZ_ext _ (fun j => b2z (p j))); [lia|]. by intros.
Qed.
(** Two counters that split a third. *)
Lemma counted_split c1 c2 c : (forall x, flagged c1 x + flagged c2 x = flagged c x) -> (forall slow j, adds c1 slow j + adds c2 slow j = adds c slow j) ->
  ctr c1 + ctr c2 = ctr c.
Proof.
  intros Hf Ha. rewrite !(counter_at_rest _ _ _ _ run rest), <- sumZ_plus. apply sumZ_ext. intros t _. rewrite <- Hf.
  rewrite <- (sumZ_ext _ _ _ (fun j _ => Ha (th_slow t) j)), sumZ_plus. lia.
Qed.
End seen.

(** ** Publishing *)
Section publish.
Variables (c : load_config) (es : list (@pool_event publish_outcome)) (p : @pool measured counter publish_outcome).
Hypothesis run : publishLoop c es = Some p.
Hypothesis done_ : finished p = true.
Lemma publish_counters ct : ms_ctr (po_shared p) ct =
  match ct with
  | publishOK => count_where published (map snd (po_outcomes p))
  | publishErr => count_where (fun o => negb (published o)) (map snd (po_outcomes p))
  | _ => 0
  end.
Proof.
  pose proof (counter_balance publish_act publish_effects (Z.to_nat (lc_publishConcurrency c)) (fun s => ms_ctr s ct) (fun c' => if decide (ct = c') then 1 else 0)) as Hb.
  specialize (Hb ltac:(intros a s; unfold publish_act; cbn [atomic_Add ms_ctr]; case_decide; lia) es no_measures p run). cbn beta in Hb.
  rewrite (no_workers p done_), sumZ_nil in Hb. cbn [no_measures ms_ctr] in Hb. rewrite Z.add_0_r, Z.add_0_l in Hb. rewrite Hb. clear Hb.
  generalize (po_outcomes p). intros os. unfold count_where. induction os as [|[n o] os IH]; [by destruct ct|]. rewrite sumZ_cons, IH. cbn [map snd fst List.filter].
  unfold publish_effects. rewrite sumZ_cons, sumZ_nil. destruct (published o), ct; case_decide; try congruence; cbn [negb length]; lia.
Qed.
Lemma publish_total : ms_ctr (po_shared p) publishOK + ms_ctr (po_shared p) publishErr = po_seq p.
Proof.
  rewrite !publish_counters. destruct (tasks_numbered _ _ _ _ _ _ run) as [H0 Ht]. unfold tasks in Ht. rewrite (no_workers p done_) in Ht. cbn [flat_map] in Ht. rewrite app_nil_r in Ht.
  apply Permutation_length in Ht. rewrite !length_map, length_seq in Ht. rewrite <- (length_map snd) in Ht. unfold count_where.
  assert (Hc : forall os : list publish_outcome, (length (List.filter published os) + length (List.filter (fun o => negb (published o)) os) = length os)%nat).
  { induction os as [|o os IH]; [done|]. cbn [List.filter]. destruct (published o); cbn [negb length]; lia. }
  specialize (Hc (map snd (po_outcomes p))). lia.
Qed.
End publish.

(** ** Launching *)
Lemma stores_lookup (f : Z -> launch) l : (forall a, a ∈ l -> 0 <= a.1 /\ a.2 = f a.1) -> forall (clients : list (option launch)) i,
  (i < length clients)%nat ->
  fold_left (fun s a => store_client a s) l clients !! i = if existsb (fun a => a.1 =? Z.of_nat i) l then Some (Some (f (Z.of_nat i))) else clients !! i.
Proof.
  induction l as [|a l IH]; intros Hl clients i Hi; [done|]. cbn [fold_left existsb]. unfold store_client at 2.
  destruct (Hl a) as [Ha0 Ha]; [left|]. rewrite IH; [|intros b Hb; apply Hl; by right|by rewrite length_insert].
  destruct (existsb (fun a => a.1 =? Z.of_nat i) l); [by rewrite orb_true_r|]. rewrite orb_false_r. destruct (Z.eqb_spec a.1 (Z.of_nat i)) as [He|He].
  - rewrite He, Nat2Z.id, Ha, He. by apply list_lookup_insert_eq.
  - rewrite list_lookup_insert_ne; [done|]. intros Heq. lia.
Qed.
Lemma stores_length l (clients : list (option launch)) : length (fold_left (fun s a => store_client a s) l clients) = length clients.
Proof. revert clients. induction l as [|a l IH]; intros clients; [done|]. cbn [fold_left]. rewrite IH. unfold store_client. apply length_insert. Qed.

Section launch.
Variables (undefined_int : float64 -> Z) (c : load_config).
(** Every client is made once, in its own slot. *)
Lemma all_launched es p : launchClients undefined_int c es = Some p -> launch_returns c false p = true ->
  po_shared p = map (fun i => Some (launch_of undefined_int c (Z.of_nat i))) (seq 0 (Z.to_nat (lc_clients c))).
Proof.
  unfold launchClients. set (effects := fun (n : Z) (_ : unit) => [(n - 1, launch_of undefined_int c (n - 1))]).
  destruct (pool_run _ _ _ _ _) as [q|] eqn:Hr; [|done]. destruct (po_seq q <=? lc_clients c); [|done]. intros [= <-].
  unfold launch_returns. cbn [orb]. intros [Hseq%Z.eqb_eq Hf]%andb_true_iff.
  destruct (tasks_numbered _ _ _ _ _ _ Hr) as [H0 Ht]. unfold tasks in Ht. rewrite (no_workers q Hf) in Ht. cbn [flat_map] in Ht. rewrite app_nil_r in Ht.
  destruct (shared_replays _ _ _ _ _ _ Hr) as (l & Hs & Hp). rewrite (no_workers q Hf) in Hp. cbn [flat_map] in Hp. rewrite app_nil_r in Hp.
  assert (Hl : l ≡ₚ map (fun i => (Z.of_nat i, launch_of undefined_int c (Z.of_nat i))) (seq 0 (Z.to_nat (lc_clients c)))).
  { rewrite Hp. replace (flat_map (fun no => effects no.1 no.2) (po_outcomes q)) with (map (fun n => (n - 1, launch_of undefined_int c (n - 1))) (map fst (po_outcomes q))).
    - rewrite Ht, Hseq, <- seq_shift, !map_map. apply Permutation_refl'. apply map_ext. intros i. by replace (Z.of_nat (S i) - 1) with (Z.of_nat i) by lia.
    - generalize (po_outcomes q). intros os. induction os as [|no os IH]; [done|]. cbn [map flat_map effects app]. by rewrite IH. }
  clear Hp Ht. apply list_eq. intros i. rewrite Hs. destruct (decide (i < Z.to_nat (lc_clients c))%nat) as [Hi|Hi].
  - rewrite (stores_lookup (launch_of undefined_int c)); [| |by rewrite repeat_length].
    + rewrite (proj2 (existsb_exists _ _)).
      * rewrite list_lookup_fmap, lookup_seq_lt by done. done.
      * exists (Z.of_nat i, launch_of undefined_int c (Z.of_nat i)). split; [|by apply Z.eqb_eq]. apply list_elem_of_In. rewrite Hl. apply list_elem_of_In, in_map_iff.
        exists i. split; [done|]. apply in_seq. lia.
    + intros a Ha. rewrite Hl in Ha. apply list_elem_of_In, in_map_iff in Ha as (k & <- & _). cbn. split; [lia|done].
  - rewrite !lookup_ge_None_2; [done| |]; rewrite ?stores_length, ?repeat_length, ?length_map, ?length_seq; lia.
Qed.
End launch.

(** ** Latencies *)
Lemma sorted_unique l1 l2 : l1 ≡ₚ l2 -> sorted l1 = sorted l2.
Proof.
  intros Hp. apply (StronglySorted_unique Z.le); try apply StronglySorted_merge_sort; try apply _. by rewrite !sorted_permutation.
Qed.
Lemma summary_unique undefined_int l1 l2 : l1 ≡ₚ l2 -> summarizeLatency undefined_int l1 = summarizeLatency undefined_int l2.
Proof. intros Hp. unfold summarizeLatency. by rewrite (sorted_unique _ _ Hp). Qed.
(** Whatever the index, a quantile is a sample. *)
Lemma latency_quantile_in undefined_int vals p : vals <> [] -> exists v, latency_quantile undefined_int vals p = Some v /\ v ∈ vals.
Proof.
  intros Hne. destruct (lookup_lt_is_Some_2 vals (Z.to_nat (latency_index undefined_int (length vals) p))) as [v Hv].
  - assert (0 < length vals)%nat by (destruct vals; [done|cbn; lia]). unfold latency_index. repeat case_match; lia.
  - exists v. split; [by destruct vals|by apply list_elem_of_lookup_2 in Hv].
Qed.
(** What the publisher sends, a client reads back as its latency. *)
Lemma published_latency sq sent pad now slow l : in_int64 sq -> 0 < sent <= int64_max -> 0 <= now - sent <= Hour ->
  latencies l slow (Publication (Valid (load_payload_json (mkLoadPayload sq sent 0 pad))) now) =
  if match l with allLat => true | fastLat => negb slow | slowLat => slow end then [now - sent] else [].
Proof.
  intros Hsq [Hs0 Hs1] Hn. cbn [latencies].
  assert (Hu : unmarshal_load_payload (Valid (load_payload_json (mkLoadPayload sq sent 0 pad))) = Some (mkLoadPayload sq sent 0 pad)).
  { unfold unmarshal_load_payload, load_payload_json. cbn [decode_object py_Seq py_SentAt py_Timestamp py_Padding app].
    assert (H1 : (int64_min <=? sq) && (sq <=? int64_max) = true) by (unfold in_int64 in Hsq; lia).
    assert (H2 : (int64_min <=? sent) && (sent <=? int64_max) = true) by (unfold int64_min; lia).
    case_bool_decide as Hp; cbn [app mbind option_bind]; json_keys; unfold dec_int64; rewrite H1, H2; cbn; [by rewrite Hp|done]. }
  rewrite Hu. cbn [mbind option_bind]. unfold sent_at. cbn [py_SentAt]. destruct (Z.ltb_spec 0 sent); [|lia].
  unfold plausible. destruct (Z.ltb_spec (now - sent) 0); [lia|]. destruct (Z.ltb_spec Hour (now - sent)); [lia|]. done.
Qed.

Lemma client_threads_idle undefined_int c : exists slows, client_threads undefined_int c = map idle slows.
Proof.
  unfold client_threads. generalize (seq 0 (Z.to_nat (lc_clients c))). intros l. induction l as [|i l (slows & IH)]; [by exists []|].
  cbn [flat_map]. rewrite IH. by exists (la_slow (launch_of undefined_int c (Z.of_nat i)) :: la_slow (launch_of undefined_int c (Z.of_nat i)) :: slows).
Qed.
Lemma none_seen ts : seen (fun _ => false) ts = 0.
Proof.
  unfold seen. induction ts as [|t ts IH]; [done|]. rewrite sumZ_cons, IH. unfold count_where.
  enough (length (List.filter (fun _ : job => false) (th_jobs t)) = 0%nat) by lia. by induction (th_jobs t).
Qed.
Ltac events := intros; repeat match goal with x : flags |- _ => destruct x as [[] [] []] | j : job |- _ => destruct j as [| | |? ?| | |[]] | b : bool |- _ => destruct b end; reflexivity.

(** C40 The report of the load test says what its clients saw. Taken while no callback
    runs, whatever the interleaving before, each counter is the number of the events it
    names: the connected clients are those whose last event of the kind is a connection,
    first connections and reconnections add up to the connections, fast and slow clients
    to all, the summaries are those of the plausible latencies the publications had, the
    publish counters are the answers of the requests sent; and when the launch was not
    interrupted every client was made, in its slot, for its room. *)
Theorem load_test_counts_what_its_clients_see undefined_int c e r ts :
  loadtest_main undefined_int c e = Some (inr (r, ts)) -> forallb quiet ts = true ->
  (le_cancelled e = false -> exists p, launchClients undefined_int c (le_launch e) = Some p /\
     po_shared p = map (fun i => Some (launch_of undefined_int c (Z.of_nat i))) (seq 0 (Z.to_nat (lc_clients c)))) /\
  (lr_Connected r = count_where (fun t => connected_now (th_jobs t)) ts /\ lr_InitialConnected r = count_where (fun t => existsb connected (th_jobs t)) ts /\
   lr_ConnectEvents r = seen connected ts /\ lr_InitialConnected r + lr_ReconnectEvents r = lr_ConnectEvents r) /\
  (lr_Disconnected r = seen disconnected ts /\ lr_FastDisconnects r + lr_SlowDisconnects r = lr_Disconnected r) /\
  (lr_InitialSubscribed r = count_where (fun t => existsb subscribed (th_jobs t)) ts /\
   lr_Subscribed r = seen subscribed ts /\ lr_InitialSubscribed r + lr_ResubscribeEvents r = lr_Subscribed r) /\
  (lr_Publications r = seen publication ts /\ lr_FastPublications r + lr_SlowPublications r = lr_Publications r) /\
  (forall l, match l with allLat => lr_Latency r | fastLat => lr_FastLatency r | slowLat => lr_SlowLatency r end =
     summarizeLatency undefined_int (flat_map (fun t => flat_map (latencies l (th_slow t)) (th_jobs t)) ts)) /\
  (flt zero (lc_publishRate c) = true -> exists p, publishLoop c (le_publish e) = Some p /\
     lr_PublishOK r = count_where published (map snd (po_outcomes p)) /\ lr_PublishOK r + lr_PublishErr r = po_seq p).
Proof.
  unfold loadtest_main. destruct (load_config_ok c); cbn [negb]; [|done].
  destruct (launchClients undefined_int c (le_launch e)) as [lp|] eqn:Hl; [|done].
  destruct (thread_run (le_threads e) (client_threads undefined_int c) no_measures) as [[ts' s]|] eqn:Hr; [|done].
  destruct (launch_returns c (le_cancelled e) lp) eqn:Hret; cbn [negb]; [|done].
  destruct (client_threads_idle undefined_int c) as [slows Hidle]. rewrite Hidle in Hr. intros Hmain Hq.
  assert (Hpub : exists q, Some (inr (A := Z) (buildResult undefined_int c (le_elapsed e) (le_connect e) (le_steady e) (all_counters s q) (ms_lat s allLat) (ms_lat s fastLat) (ms_lat s slowLat), ts')) = Some (inr (r, ts)) /\
    (forall ct, ct <> publishOK -> ct <> publishErr -> ms_ctr q ct = 0) /\
    (flt zero (lc_publishRate c) = true -> exists p, publishLoop c (le_publish e) = Some p /\ po_shared p = q /\ finished p = true)).
  { destruct (flt zero (lc_publishRate c)); [|by exists no_measures]. destruct (publishLoop c (le_publish e)) as [p|] eqn:Hp; [|done]. destruct (finished p) eqn:Hf; [|done].
    exists (po_shared p). split; [done|]. split; [|by exists p]. intros ct H1 H2. rewrite (publish_counters _ _ _ Hp Hf). by destruct ct. }
  clear Hmain. destruct Hpub as (q & [= <- <-] & Hz & Hpub).
  assert (Hc : forall ct, ct <> publishOK -> ct <> publishErr -> all_counters s q ct = ms_ctr s ct) by (intros ct H1 H2; unfold all_counters; rewrite Hz by done; lia).
  unfold buildResult. cbn [lr_Connected lr_InitialConnected lr_ConnectEvents lr_ReconnectEvents lr_Disconnected lr_FastDisconnects lr_SlowDisconnects lr_InitialSubscribed
    lr_Subscribed lr_ResubscribeEvents lr_Publications lr_FastPublications lr_SlowPublications lr_Latency lr_FastLatency lr_SlowLatency lr_PublishOK lr_PublishErr].
  rewrite !Hc by done.
  split; [intros Hcan; rewrite Hcan in Hret; exists lp; split; [done|by eapply all_launched]|].
  assert (Hone : forall ct flag, (forall slow j, adds ct slow j = 0) -> (forall js, b2z (flag js) = flagged ct (flags_of js)) -> ms_ctr s ct = count_where (fun t => flag (th_jobs t)) ts')
    by (intros ct flag; by eapply counted).
  assert (Hall : forall ct p, (forall x, flagged ct x = 0) -> (forall slow j, adds ct slow j = b2z (p j)) -> ms_ctr s ct = seen p ts') by (intros ct p; by eapply counted_events).
  assert (Htwo : forall c1 c2 ct, (forall x, flagged c1 x + flagged c2 x = flagged ct x) -> (forall slow j, adds c1 slow j + adds c2 slow j = adds ct slow j) -> ms_ctr s c1 + ms_ctr s c2 = ms_ctr s ct)
    by (intros c1 c2 ct; by eapply counted_split).
  split; [split_and!; [apply Hone|apply Hone|apply Hall|apply Htwo]; events|].
  split; [split; [apply Hall|apply Htwo]; events|]. split; [split_and!; [apply Hone|apply Hall|apply Htwo]; events|].
  split; [split; [apply Hall|apply Htwo]; events|].
  split; [intros l; destruct l; apply summary_unique; by eapply latencies_at_rest|].
  intros Hrate. destruct (Hpub Hrate) as (p & Hp & <- & Hf). exists p. split; [done|].
  assert (Hown : forall ct, ct = publishOK \/ ct = publishErr -> all_counters s (po_shared p) ct = ms_ctr (po_shared p) ct).
  { intros ct Hct. unfold all_counters. rewrite (Hall ct (fun _ => false)); [|destruct Hct as [-> | ->]; events|destruct Hct as [-> | ->]; events].
    rewrite none_seen. lia. }
  rewrite !Hown by auto. split; [by rewrite (publish_counters _ _ _ Hp Hf)|by rewrite (publish_total _ _ _ Hp Hf)].
Qed.

(** ** A run
    Two viewers of one room, the first one slow; it reconnects, and its first connection
    interleaves with the other's. One message is published and received by both. *)
Module LoadtestExamples.
Definition undefined (x : float64) : Z := 0.
Definition config : load_config :=
  mkLoadConfig "ws://localhost:8000" "http://localhost:8000/api/publish" "key" "secret" "" "smoke" 2 1 900000 zero one 1 1 Second Second Millisecond (percent 50) 80.
Definition launched : list (@pool_event unit) :=
  flat_map (fun _ => [Dispatch; Outcome 0 tt; Action 0; Release 0; GroupDone 0]) [1; 2]%nat ++ [Stop].
Definition whole (i n : nat) (j : job) : list thread_event := Begin i j :: repeat (Step i) n.
Definition message : raw := Valid (load_payload_json (mkLoadPayload 1 (5 * Second) 0 "xxxxxxxx")).
Definition callbacks : list thread_event :=
  whole 1 0 (MakeClient Made) ++ [Begin 0 Connected; Step 0; Begin 2 Connected; Step 2; Step 2; Step 0; Step 0; Step 2; Step 0; Step 2; Step 0; Step 2]
  ++ whole 0 4 Disconnected ++ whole 0 5 Connected ++ whole 0 3 (Subscribed false false) ++ whole 2 3 (Subscribed false false)
  ++ whole 0 4 (Publication message (6 * Second)) ++ whole 2 4 (Publication message (5 * Second + 7)).
Definition published_once : list (@pool_event publish_outcome) := [Dispatch; Stop; Outcome 0 (PublishStatus 200); Action 0; Release 0; GroupDone 0].
Definition run : load_events := mkLoadEvents launched false callbacks published_once (3 * Second) Second Second.
Definition nothing : load_result * list thread :=
  (buildResult undefined config 0 0 0 (fun _ => 0) [] [] [], []).
Definition outcome : load_result * list thread :=
  Eval vm_compute in match loadtest_main undefined config run with Some (inr o) => o | _ => nothing end.
Example report_counts :
  (lr_Connected outcome.1, lr_InitialConnected outcome.1, lr_ReconnectEvents outcome.1, lr_Disconnected outcome.1, lr_SlowPublications outcome.1,
   lr_PublishOK outcome.1, su_P50 (lr_SlowLatency outcome.1), su_Max (lr_FastLatency outcome.1)) = (2, 2, 1, 1, 1, 1, Some Second, 7).
Proof. vm_compute. reflexivity. Qed.

Lemma load_test_counts_what_its_clients_see_witness : lr_Connected outcome.1 = 2 /\ lr_InitialConnected outcome.1 + lr_ReconnectEvents outcome.1 = 3.
Proof.
  destruct (load_test_counts_what_its_clients_see undefined config run outcome.1 outcome.2 ltac:(vm_compute; reflexivity) ltac:(vm_compute; reflexivity))
    as (_ & (Hc & _ & He & Hsum) & _).
  split; [rewrite Hc; reflexivity|rewrite Hsum, He; reflexivity].
Defined.
End LoadtestExamples.
