(* ===== verification/Webui.v ===== *)
(** The web pages behind the gateway: [webui/embed.go]. *)
From Stdlib Require Import Ascii.
From S2P Require Import Prelude GoStrings Json Http.

(** ** [path.Clean] *)
(** The elements kept so far, the last first. *)
Fixpoint clean_segments (rooted : bool) (acc l : list string) : list string :=
  match l with
  | [] => rev acc
  | s :: l =>
    if bool_decide (s = "") || bool_decide (s = ".") then clean_segments rooted acc l
    else if bool_decide (s = "..") then
      match acc with
      | [] => clean_segments rooted (if rooted then [] else [s]) l
      | t :: acc' => clean_segments rooted (if bool_decide (t = "..") then s :: acc else acc') l
      end
    else clean_segments rooted (s :: acc) l
  end.
Definition path_Clean (path : string) : string :=
  let rooted := HasPrefix path "/" in
  let out := String.concat "/" (clean_segments rooted [] (Split "/"%char path)) in
  if rooted then "/" +:+ out else if bool_decide (out = "") then "." else out.

(** ** The handler *)
(** The [go:embed] directive. *)
Definition files : list string := ["index.html"; "app.js"; "gift-request.mjs"; "message-dedup.mjs"; "styles.css"; "lumi.css"].

Section handler.
(** The embedded contents, and the answer of [http.FileServer] over the directory
    [front_con] on the disk. *)
Variables (content : string -> string) (front_con : string -> response).

Definition serveIndex : response := mkResponse 200 (Invalid (content "index.html")).
(** [http.FileServer] for an embedded file: a path ending in [/index.html] or in a slash
    is redirected. *)
Definition static (path name : string) : response :=
  if HasSuffix path "/index.html" || HasSuffix path "/" then mkResponse 301 (Invalid "") else mkResponse 200 (Invalid (content name)).
(** [http.StripPrefix] *)
Definition StripPrefix (prefix : string) (next : string -> response) (path : string) : response :=
  if HasPrefix path prefix then next (TrimPrefix path prefix) else mkResponse 404 (Invalid "404 page not found").

Definition web_Handler (r : request) : response :=
  let path := path_text (q_Path r) in
  let clean := TrimPrefix (path_Clean path) "/" in
  if bool_decide (clean = ".") || bool_decide (clean = "") then serveIndex
  else if HasPrefix clean "front_con/" then StripPrefix "/front_con/" front_con path
  else if bool_decide (clean ∈ files) then static path clean
  else serveIndex.

(** ** What is served *)
Definition normal (s : string) : Prop := s <> "" /\ s <> "." /\ s <> ".." /\ free_of "/" s = true.

Lemma clean_normal acc l : Forall (fun s => free_of "/" s = true) l -> Forall normal acc -> Forall normal (clean_segments true acc l).
Proof.
  intros Hl. revert acc. induction Hl as [|s l Hs _ IH]; intros acc Hacc; cbn [clean_segments]; [by apply Forall_rev|].
  repeat case_bool_decide; cbn [orb]; auto.
  - destruct acc as [|t acc]; [by apply IH|]. apply Forall_cons in Hacc as [Ht Hacc]. rewrite bool_decide_eq_false_2 by apply Ht. by apply IH.
  - apply IH. by constructor.
Qed.
Lemma Split_concat l : l <> [] -> Forall (fun s => free_of "/" s = true) l -> Split "/"%char (String.concat "/" l) = l.
Proof.
  induction l as [|s l IH]; [done|]. intros _ [Hs Hl]%Forall_cons. destruct l as [|s' l]; [by apply Split_free|].
  change (String.concat "/" (s :: s' :: l)) with (s +:+ String "/" (String.concat "/" (s' :: l))).
  rewrite Split_app by done. f_equal. by apply IH.
Qed.
Lemma concat_inj l l' : l <> [] -> l' <> [] -> Forall (fun s => free_of "/" s = true) l -> Forall (fun s => free_of "/" s = true) l' ->
  String.concat "/" l = String.concat "/" l' -> l = l'.
Proof. intros Hn Hn' Hl Hl' Heq. by rewrite <-(Split_concat l), <-(Split_concat l'), Heq. Qed.
Lemma normal_free l : Forall normal l -> Forall (fun s => free_of "/" s = true) l.
Proof. intros Hl. eapply Forall_impl; [exact Hl|]. by intros s (_ & _ & _ & ?). Qed.

(** The elements of the cleaned path. *)
Definition page (r : request) : list string := clean_segments true [] (q_Path r).
Lemma clean_path r : q_Path r <> [] -> Forall (fun s => free_of "/" s = true) (q_Path r) ->
  TrimPrefix (path_Clean (path_text (q_Path r))) "/" = String.concat "/" (page r).
Proof.
  intros Hn Hfree. unfold path_Clean, path_text, page.
  change (Split "/"%char ("/" +:+ String.concat "/" (q_Path r))) with ("" :: Split "/"%char (String.concat "/" (q_Path r))).
  rewrite Split_concat by done. change (HasPrefix ("/" +:+ String.concat "/" (q_Path r)) "/") with (String.prefix "" (String.concat "/" (q_Path r))).
  assert (Hp : forall s, String.prefix "" s = true) by by intros []. rewrite Hp. cbn [clean_segments]. rewrite bool_decide_eq_true_2 by done. cbn [orb].
  unfold TrimPrefix. change (HasPrefix ("/" +:+ ?s) "/") with (String.prefix "" s). rewrite Hp. cbn. 
  generalize (String.concat "/" (clean_segments true [] (q_Path r))). by intros [].
Qed.
Lemma concat_under d l : free_of "/" d = true -> l <> [] -> Forall normal l ->
  HasPrefix (String.concat "/" l) (d +:+ "/") = bool_decide (hd "" l = d /\ tl l <> []).
Proof.
  intros Hd Hn Hl. apply normal_free in Hl. apply eq_true_iff_eq. rewrite bool_decide_eq_true. split.
  - intros (t & Ht)%prefix_spec. rewrite <-string_assoc in Ht. change ("/" +:+ t) with (String "/" t) in Ht.
    rewrite <-(Split_concat l Hn Hl), Ht, Split_app by done. split; [done|]. by destruct t; cbn; [|case_match; [|case_match]].
  - intros [<- Ht]. destruct l as [|s [|s' l]]; [done|done|]. cbn [hd].
    change (String.concat "/" (s :: s' :: l)) with (s +:+ ("/" +:+ String.concat "/" (s' :: l))). rewrite string_assoc. apply prefix_app.
Qed.

(** What a path is, by its cleaned elements. *)
Definition page_spec (r : request) : response :=
  match page r with
  | [] => serveIndex
  | [name] => if bool_decide (name ∈ files) then static (path_text (q_Path r)) name else serveIndex
  | dir :: _ => if bool_decide (dir = "front_con") then StripPrefix "/front_con/" front_con (path_text (q_Path r)) else serveIndex
  end.

(** The pages of the gateway, by the elements of the cleaned path: the root is the
    index page, a single element that names an embedded file is that file, paths under
    [front_con] come from that directory, and every other path - the routes of the
    single-page application - is the index page. No element is empty, [.] or [..], so
    no path leads outside the embedded files. *)
Theorem web_pages_are_files_or_the_index r :
  q_Path r <> [] -> Forall (fun s => free_of "/" s = true) (q_Path r) ->
  web_Handler r = page_spec r /\ Forall normal (page r).
Proof.
  intros Hn Hfree. assert (Hnorm : Forall normal (page r)) by (apply clean_normal; [done|constructor]). split; [|done].
  unfold web_Handler, page_spec. rewrite clean_path by done. destruct (page r) as [|d l] eqn:E; [reflexivity|].
  assert (Hd : normal d) by by apply Forall_cons in Hnorm as [? _].
  assert (Hne : forall s, free_of "/" s = true -> s <> d \/ l <> [] -> String.concat "/" (d :: l) <> s).
  { intros s Hs Hor Heq. assert (Hl : [s] = d :: l) by (apply concat_inj; [done..|by constructor|by apply normal_free|by rewrite Heq]).
    injection Hl as -> <-. by destruct Hor. }
  do 2 rewrite bool_decide_eq_false_2 by (apply Hne; [done|left; intros <-; by destruct Hd as (? & ? & ? & ?)]). cbn [orb].
  rewrite (concat_under "front_con") by done. destruct l as [|s l].
  - rewrite bool_decide_eq_false_2 by by intros [_ ?]. reflexivity.
  - cbn [hd tl]. rewrite (bool_decide_ext (d = "front_con" /\ s :: l <> []) (d = "front_con")) by (split; [by intros [? _]|done]).
    case_bool_decide; [done|]. case_bool_decide as Hin; [|done]. exfalso. revert Hin. unfold files. rewrite !elem_of_cons, elem_of_nil.
    intros Hin. repeat (destruct Hin as [Hin|Hin]; [revert Hin; apply Hne; [done|by right]|]). done.
Qed.
End handler.

Module WebuiExamples.
Definition content (name : string) : string := "the file " +:+ name.
Definition on_disk (name : string) : response := mkResponse 200 (Invalid ("on disk " +:+ name)).
Definition get (path : list string) : request := mkRequest "GET" path (fun _ => "") (fun _ => "") (mkBody (Invalid "") 0 false 0).
Lemma web_pages_are_files_or_the_index_witness :
  map (fun p => rs_body (web_Handler content on_disk (get p))) [[""]; ["room"; "42"]; ["lumi.css"]; ["a"; ".."; ".."; "app.js"]; ["front_con"; "logo.png"]]
  = [Invalid "the file index.html"; Invalid "the file index.html"; Invalid "the file lumi.css"; Invalid "the file app.js"; Invalid "on disk logo.png"]
  /\ web_Handler content on_disk (get ["room"; "42"]) = page_spec content on_disk (get ["room"; "42"]).
Proof.
  split; [vm_compute; reflexivity|].
  apply (web_pages_are_files_or_the_index content on_disk (get ["room"; "42"])); [discriminate|repeat constructor].
Defined.
Example cleaned : map path_Clean ["/a/../..//b/./c"; ""; "../x/.."; "a//b"] = ["/b/c"; "."; ".."; "a/b"].
Proof. vm_compute. reflexivity. Qed.
End WebuiExamples.
