(* ===== verification/Wiring.v ===== *)
(** The services as the processes wire them: the construction of the dependencies in
    [cmd/identityroom], [cmd/interaction], [cmd/commerce] and [cmd/query] from a
    configuration, over the databases and servers they share, and the gateway in
    front of them.

    All services but commerce run on a [shared] state: the identity and the room
    database, the read model, Redis, the Kafka client and the rest of the network.
    The commerce server has its own database next to it. The identity-room service
    is reached over HTTP by the interaction and commerce servers, as the services
    are by the gateway: an exchange is delivered, or its request or its response is
    lost. *)
From S2P Require Import Prelude GoStrings Mysql Json Message Realtime Kafka Commerce GiftRepository GiftService Room Redis Like Stats Traffic Auth Danmaku Http Contract HttpApi IdentityClient CommerceApi CommerceApiSpec Gateway Webui Query Config.

(** ** State *)
Record shared (K N : Type) : Type := mkShared {
  sh_users : Mysql UserDB;
  sh_rooms : Mysql RoomDB;
  sh_query : Mysql QueryDB;
  sh_redis : Redis;
  sh_kafka : K;
  sh_net : N }.
Arguments mkShared {K N}.
Arguments sh_users {K N}. Arguments sh_rooms {K N}. Arguments sh_query {K N}. Arguments sh_redis {K N}.
Arguments sh_kafka {K N}. Arguments sh_net {K N}.
Abbreviation world K N := (Mysql CommerceDB * shared K N)%type.

Section lenses.
Context {K N : Type}.
Ltac field_lens := by intros; repeat match goal with w : shared _ _ |- _ => destruct w end.
#[export, refine] Instance lens_users : Lens (Mysql UserDB) (shared K N) :=
  {| lget := sh_users; lset := fun x w => mkShared x (sh_rooms w) (sh_query w) (sh_redis w) (sh_kafka w) (sh_net w) |}.
Proof. all: field_lens. Defined.
#[export, refine] Instance lens_rooms : Lens (Mysql RoomDB) (shared K N) :=
  {| lget := sh_rooms; lset := fun x w => mkShared (sh_users w) x (sh_query w) (sh_redis w) (sh_kafka w) (sh_net w) |}.
Proof. all: field_lens. Defined.
#[export, refine] Instance lens_query : Lens (Mysql QueryDB) (shared K N) :=
  {| lget := sh_query; lset := fun x w => mkShared (sh_users w) (sh_rooms w) x (sh_redis w) (sh_kafka w) (sh_net w) |}.
Proof. all: field_lens. Defined.
#[export, refine] Instance lens_redis : Lens Redis (shared K N) :=
  {| lget := sh_redis; lset := fun x w => mkShared (sh_users w) (sh_rooms w) (sh_query w) x (sh_kafka w) (sh_net w) |}.
Proof. all: field_lens. Defined.
(** Not instances: the Kafka client and the network can be of any type. *)
#[refine] Definition lens_kafka : Lens K (shared K N) :=
  {| lget := sh_kafka; lset := fun x w => mkShared (sh_users w) (sh_rooms w) (sh_query w) (sh_redis w) x (sh_net w) |}.
Proof. all: field_lens. Defined.
#[refine] Definition lens_net : Lens N (shared K N) :=
  {| lget := sh_net; lset := fun x w => mkShared (sh_users w) (sh_rooms w) (sh_query w) (sh_redis w) (sh_kafka w) x |}.
Proof. all: field_lens. Defined.
End lenses.
Definition in_kafka {K N A} (m : M K A) : M (shared K N) A := zoom (H := lens_kafka) m.
Definition in_net {K N A} (m : M N A) : M (shared K N) A := zoom (H := lens_net) m.

(** What a request draws: the clocks, the identifiers, the salt and the avatar of a new
    account, and the trace carriers of the request and of the producer span. *)
Record readings : Type := mkReadings {
  rd_auth : Z; rd_now : Z; rd_now' : Z; rd_id : string; rd_id' : string; rd_id'' : string;
  rd_salt : res string; rd_avatar : nat; rd_ctx : trace_map; rd_span : trace_map }.

(** A dependency that is nil in a process. The routes of its server do not use it. *)
Definition absent {W A} : M W A := throw (Fresh "invalid memory address or nil pointer dereference").

(** The fate of an exchange over the network. *)
Inductive delivery : Type := Delivered | RequestLost (err : error) | ResponseLost (err : error).
Definition over {W A} (fate : M W delivery) (exchange : M W A) : M W A :=
  d ← fate;
  match d with
  | Delivered => exchange
  | RequestLost err => throw err
  | ResponseLost err => _ ← ignore exchange; throw err
  end.

Section wiring.
Context `{UnicodeTables} `{MySQLServer} `{Crypto} `{JsonText} `{TimeText} {K N : Type} `{AsyncClient K} `{HttpClient N}.
(** The fate of a call to the identity-room service and of a request the gateway forwards. *)
Variables (call_fate : http_request -> M N delivery) (forward_fate : backend -> request -> M N delivery).
Variables (c : Config) (x : readings).

Definition app_tokens : TokenManager := mkTokenManager (au_JWTSecret (cg_Auth c)) (au_TokenTTL (cg_Auth c)).
Definition cf_tokens : Issuer := mkIssuer (cf_TokenSecret (cg_Centrifugo c)) (cf_TokenTTL (cg_Centrifugo c)).
Definition shards : Z := shards_or_default (en_ActiveRoomShards (cg_Engagement c)).
Definition viewer_ttl : Z := en_ViewerTTL (cg_Engagement c).
Definition now_ms : Z := UnixMilli (rd_now x).

(** [realtime.NewCentrifugo] with the settings of the configuration. *)
Definition centrifugo : Centrifugo := NewCentrifugo (cf_APIURL (cg_Centrifugo c)) (cf_APIKey (cg_Centrifugo c)).
Definition centrifugo_controller : RealtimeController (shared K N) := {|
  rc_Ping := in_net (Ping centrifugo);
  rc_Publish := fun channel e => in_net (centrifugo_Publish centrifugo (rd_ctx x) channel e);
  rc_Unsubscribe := fun userID channel => in_net (Unsubscribe centrifugo userID channel) |}.

(** [stats.NewService(stats.NewRedisStore(redis))] and [viewer.NewService(redis, ttl)]. *)
Definition stats_service (roomID : Z) : M (shared K N) Snapshot := @stats_Get _ (redis_stats_store shards (rd_now x)) roomID.
Definition viewer_store : ViewerStore Redis := redis_viewer_store shards now_ms.

(** *** [cmd/identityroom] *)
(** [databasePingers.Ping] *)
Definition databasePingers_Ping : M (shared K N) unit :=
  _ ← zoom (H := lens_users) Store_Ping; zoom (H := lens_rooms) Store_Ping.
Definition user_store : UserStore (Mysql UserDB) := mysql_user_store (rd_avatar x).
(** [authService] as the user directory of the room service. *)
Definition directory (id : Z) : M (shared K N) (string * bool) := zoom (@AuthService.Nickname _ user_store id).
Definition identity_deps : Server (shared K N) := mkServer
  (Some databasePingers_Ping) (zoom redis_Ping) None (Some centrifugo_controller) None
  (fun username nickname password => zoom (@AuthService.Register _ _ _ _ user_store app_tokens (rd_now x) (rd_salt x) username nickname password))
  (fun username password => zoom (@AuthService.Login _ _ _ _ user_store app_tokens (rd_now x) username password))
  (fun id => zoom (@AuthService.User_ _ user_store id)) (fun _ => absent)
  app_tokens (Some cf_tokens) (cf_SubscriptionTokenTTL (cg_Centrifugo c))
  (Some (room_service_api (Some directory) (rd_now x)))
  (fun _ _ _ => absent) (fun _ _ _ => absent) (fun _ _ => absent) (fun _ _ => absent) (fun _ => absent) (fun _ => absent)
  (Some stats_service).
Definition identity_routes : list (route (shared K N)) :=
  Api.NewIdentityRoom identity_deps (rd_auth x) (rd_now x) (rd_id x) (Some (lift_governance redis_governance)).

(** *** The identity-room service over HTTP *)
(** Requests to its base URL reach the routes, others the rest of the network. *)
Definition identity_http : HttpClient (shared K N) := {|
  http_Do := fun rq =>
    let base := c_base (IdentityClient.New (cc_BaseURL (cg_IdentityRoom c))) in
    if HasPrefix (rq_url rq) base then over (in_net (call_fate rq)) (@http_Do _ (loopback base identity_routes) rq)
    else in_net (http_Do rq) |}.
#[local] Existing Instance identity_http.
Definition identity_client : Client := IdentityClient.New (cc_BaseURL (cg_IdentityRoom c)).

(** *** [cmd/interaction] *)
Definition danmaku_publisher : Publisher (shared K N) := {| Publish := rc_Publish centrifugo_controller |}.
Definition send_danmaku (roomID userID : Z) (content : string) : M (shared K N) DanmakuEvent :=
  @DanmakuService.Send _ _ _ (client_danmaku_rooms identity_client) (client_danmaku_users identity_client) danmaku_publisher
    (fun key limit window => zoom (Allow key limit window)) (Some (SensitiveFilter.NewSensitiveFilter (dk_SensitiveWords (cg_Danmaku c))))
    (Some (fun e => in_kafka (ProduceDanmaku (rd_ctx x) (rd_span x) (rd_now x) (ka_DanmakuTopic (cg_Kafka c)) e)))
    (Some (fun roomID messageID => zoom (@Decide _ (redis_sampler now_ms) (cg_Traffic c) roomID messageID)))
    (new_config (dk_UserRateLimit (cg_Danmaku c)) (dk_UserRateWindow (cg_Danmaku c)))
    (rd_id x) (rd_id' x) (rd_now x) (rd_now' x) roomID userID content.
Definition like_config : Like.LikeConfig :=
  let l := cg_Like c in Like.mkLikeConfig (lc_UserRateLimit l) (lc_UserRateWindow l) (lc_RoomCacheTTL l) (lc_BanCacheTTL l).
Definition interaction_deps : Server (shared K N) := mkServer
  None (zoom redis_Ping) None (Some centrifugo_controller) None
  (fun _ _ _ => absent) (fun _ _ => absent) (fun _ => absent) (fun _ => absent)
  app_tokens (Some cf_tokens) (cf_SubscriptionTokenTTL (cg_Centrifugo c))
  (Some (remote_rooms_api identity_client)) send_danmaku
  (fun roomID userID count => @LikeService.Add _ (client_like_rooms identity_client) (redis_like_store shards now_ms) like_config roomID userID count)
  (fun roomID userID => zoom (@ViewerService.Touch _ viewer_store viewer_ttl roomID userID))
  (fun roomID userID => zoom (@ViewerService.Leave _ viewer_store roomID userID))
  (fun roomID => zoom (@ViewerService.Top _ viewer_store roomID))
  (fun roomID => zoom (@ViewerService.Online _ viewer_store roomID))
  (Some stats_service).
Definition interaction_routes : list (route (shared K N)) := Api.NewInteraction interaction_deps (rd_auth x) (rd_now x).

(** *** [cmd/query] *)
Definition query_deps : Server (shared K N) := mkServer
  (Some (zoom (H := lens_query) Store_Ping)) (zoom redis_Ping) (Some (fun roomID limit => zoom (select_history roomID limit))) None None
  (fun _ _ _ => absent) (fun _ _ => absent) (fun _ => absent) (fun id => zoom (display_user id))
  app_tokens None 0 None
  (fun _ _ _ => absent) (fun _ _ _ => absent)
  (fun roomID userID => zoom (@ViewerService.Touch _ viewer_store viewer_ttl roomID userID))
  (fun roomID userID => zoom (@ViewerService.Leave _ viewer_store roomID userID))
  (fun roomID => zoom (@ViewerService.Top _ viewer_store roomID))
  (fun roomID => zoom (@ViewerService.Online _ viewer_store roomID))
  (Some stats_service).
Definition query_routes : list (route (shared K N)) := Api.NewQuery query_deps.

(** *** [cmd/commerce] *)
#[local] Instance gift_rooms : GiftRooms (shared K N) := client_gift_rooms identity_client.
Definition gift_config : GiftConfig :=
  let g := cg_Gift c in mkGiftConfig (gl_MaxCountPerRequest g) (gl_UserRateLimit g) (gl_UserRateWindow g).
Definition commerce_deps : CommerceServer (world K N) := commerce_server
  (Some (fun key limit window => zoom (Allow key limit window))) (GiftService.with_defaults gift_config) (ka_GiftTopic (cg_Kafka c))
  (cg_DevCreditEnabled c) app_tokens (zoom redis_Ping)
  (Some (fun roomID userID value => zoom (@ViewerService.AddGiftValue _ viewer_store roomID userID value)))
  (mkDraws (rd_ctx x) (rd_now x) (rd_auth x) (rd_id x) (rd_id' x) (rd_id'' x)).
Definition commerce_routes : list (route (world K N)) := CommerceApi.New commerce_deps (rd_auth x).

(** *** [cmd/api] *)
Definition lift_route {S W} `{Lens S W} (rt : route S) : route W :=
  mkRoute (rt_method rt) (rt_pattern rt) (fun r pv => zoom (rt_handler rt r pv)).
Definition service_routes (b : backend) : list (route (world K N)) :=
  match b with
  | Identity => map lift_route identity_routes
  | Interaction => map lift_route interaction_routes
  | CommerceBackend => commerce_routes
  | QueryBackend => map lift_route query_routes
  end.
(** A service over the network; a request without a route gets the mux's 404. *)
Definition service_exchange (b : backend) (r : request) : M (world K N) response :=
  over (zoom (in_net (forward_fate b r)))
    (match serve (service_routes b) r with Some m => m | None => mret (mkResponse 404 (Invalid "404 page not found")) end).
(** The gateway with the web pages. *)
Variables (content : string -> string) (front_con : string -> response).
Definition platform_serve (r : request) : option (M (world K N) response) :=
  gateway_serve service_exchange (fun r => mret (web_Handler content front_con r)) r.
End wiring.
