(* ===== verification/WiringSpec.v ===== *)
(** What the readiness endpoints of the deployed services report. *)
From S2P Require Import Prelude GoStrings Mysql Json Message Realtime Kafka Commerce GiftRepository GiftService Room Redis Like Stats Traffic Auth Danmaku Http Contract HttpApi IdentityClient CommerceApi CommerceApiSpec Gateway Webui Query Config Wiring.
From S2P Require Import Instances TaggedJson GiftProperties AuthSpec DanmakuSpec ConfigSpec.

Section readiness.
Context `{UnicodeTables} `{MySQLServer} `{Crypto} `{JsonText} `{TimeText} {K N : Type} `{AsyncClient K} `{HttpClient N}.
Variables (call_fate : http_request -> M N delivery) (forward_fate : backend -> request -> M N delivery).
Variables (c : Config) (x : readings) (content : string -> string) (front_con : string -> response).

(** The server answers a ping in its present state. *)
Definition mysql_up {T} (s : Mysql T) : bool := is_ok (Store_Ping s).1.
Definition redis_up (s : Redis) : bool := is_ok (redis_Ping s).1.
Definition failed_names (mysql redis : bool) : list string := (if mysql then [] else ["mysql"]) ++ (if redis then [] else ["redis"]).
Definition not_ready (failed : list string) : response :=
  writeJSON 503 (JObj [("status", JStr "not_ready"); ("failed", JArr (map JStr failed))]).

(** The answer names the dependencies that failed; without any it is 200. *)
Definition reports (failed : list string) (resp : response) : Prop :=
  match failed with [] => rs_status resp = 200 | _ => resp = not_ready failed end.

Definition ready_request (r : request) : Prop := q_Method r = "GET" /\ q_Path r = ["ready"].
(** The route of the request runs from [w] and gives an answer with [P]. *)
Definition probes {W} (routes : list (route W)) (r : request) (w : W) (P : response -> Prop) : Prop :=
  exists m resp w', serve routes r = Some m /\ m w = (Ok resp, w') /\ P resp.

Lemma string_list_cons l : l <> [] -> Api.string_list l = JArr (map JStr l).
Proof. by destruct l. Qed.

(** [ready] over a MySQL ping that says [m] and a Redis ping that says [r]. *)
Lemma ready_run {W} (s : Server W) (mysql : M W unit) (up_m up_r : bool) req pv w :
  sv_mysql s = Some mysql -> is_ok (mysql w).1 = up_m -> is_ok (sv_redis s (mysql w).2).1 = up_r ->
  exists resp w', Api.ready s req pv w = (Ok resp, w') /\ reports (failed_names up_m up_r) resp.
Proof.
  intros Hs Hm Hr. unfold Api.ready. rewrite Hs. unfold mbind, M_bind, try. destruct (mysql w) as [am w1]. cbn [fst snd] in *.
  destruct (sv_redis s w1) as [ar w2]. cbn [fst snd] in *. rewrite Hm, Hr.
  destruct up_m, up_r; cbn [failed_names app reports]; try (eexists _, _; split; [reflexivity|reflexivity]).
  destruct (sv_centrifugo s) as [rc|]; [|eexists _, _; split; reflexivity].
  cbn. destruct (rc_Ping rc w2) as [p w3]. eexists _, _. split; reflexivity.
Qed.

Lemma commerce_ready_run (s : CommerceServer (world K N)) req pv w :
  cs_mysql s = Some (zoom Store_Ping) -> cs_redis s = Some (zoom (zoom redis_Ping)) ->
  exists resp w', CommerceApi.ready s req pv w = (Ok resp, w') /\ reports (failed_names (mysql_up w.1) (redis_up (sh_redis w.2))) resp.
Proof.
  destruct w as [db w]. intros Hm Hr. unfold CommerceApi.ready, CommerceApi.ping. rewrite Hm, Hr.
  unfold mbind, M_bind, try, zoom, mysql_up, redis_up. cbn.
  destruct (Store_Ping db) as [[[]|e] s1]; cbn; destruct (redis_Ping (sh_redis w)) as [[[]|e'] s2]; cbn; by eexists _, _.
Qed.

Lemma redis_ping_in (w : shared K N) : is_ok (zoom redis_Ping w).1 = redis_up (sh_redis w).
Proof. unfold zoom, redis_up. cbn [lget lens_redis]. by destruct (redis_Ping (sh_redis w)). Qed.

(** C38 What [GET /ready] says of each process. The query, identity-room and commerce
    servers answer 200 exactly when their databases and Redis answer a ping, and
    otherwise 503 with the names of those that do not. The gateway answers 200
    whatever the state of the services. The interaction server has no database: its
    handler calls [Ping] on a nil interface, so it answers 500 always, whatever its
    dependencies do. *)
Theorem readiness_reports_the_dependencies r (w : world K N) :
  ready_request r ->
  probes (query_routes c x) r w.2 (reports (failed_names (mysql_up (sh_query w.2)) (redis_up (sh_redis w.2))))
  /\ probes (identity_routes c x) r w.2
       (reports (failed_names (mysql_up (sh_users w.2) && mysql_up (sh_rooms w.2)) (redis_up (sh_redis w.2))))
  /\ probes (commerce_routes call_fate c x) r w (reports (failed_names (mysql_up w.1) (redis_up (sh_redis w.2))))
  /\ (exists m resp, platform_serve call_fate forward_fate c x content front_con r = Some m /\ m w = (Ok resp, w) /\ rs_status resp = 200)
  /\ probes (interaction_routes call_fate c x) r w.2 (fun resp => resp = writeError 500 "INTERNAL_ERROR" "internal server error").
Proof.
  destruct r as [method path header query body]. intros [Hm Hp]. cbn in Hm, Hp. subst method path. destruct w as [db w]. cbn [fst snd].
  split; [|split; [|split; [|split]]].
  - edestruct (ready_run (W := shared K N) (Api.query_server (query_deps (K := K) (N := N) c x)) (zoom (H := lens_query) Store_Ping)) as (resp & w' & Hrun & Hrep);
      [reflexivity|reflexivity|apply redis_ping_in|].
    unfold probes. eexists _, resp, w'. split; [reflexivity|]. split; [exact Hrun|].
    unfold mysql_up. revert Hrep. unfold zoom. cbn [lget lens_query]. by destruct (Store_Ping (sh_query w)).
  - edestruct (ready_run (W := shared K N) (Api.identity_server (identity_deps c x) (Some (lift_governance redis_governance))) databasePingers_Ping) as (resp & w' & Hrun & Hrep);
      [reflexivity|reflexivity|apply redis_ping_in|].
    unfold probes. eexists _, resp, w'. split; [reflexivity|]. split; [exact Hrun|].
    revert Hrep. unfold databasePingers_Ping, mbind, M_bind, zoom, mysql_up. cbn [lget lens_users lens_rooms].
    destruct (Store_Ping (sh_users w)) as [[[]|e] s1]; cbn; [|done]. by destruct (Store_Ping (sh_rooms w)).
  - edestruct (commerce_ready_run (commerce_deps call_fate c x)) as (resp & w' & Hrun & Hrep); [reflexivity|reflexivity|].
    unfold probes. eexists _, resp, w'. split; [reflexivity|]. by split.
  - eexists _, _. split; [reflexivity|]. split; reflexivity.
  - unfold probes. do 3 eexists. split; [reflexivity|]. split; reflexivity.
Qed.
End readiness.

(** ** Examples *)
Module WiringExamples.
#[local] Existing Instances ascii_tables example_server nano_text tagged_json AuthExamples.padded_crypto DanmakuExamples.log_client.
(** The rest of the network answers 200 to everything. *)
Definition quiet_network : HttpClient unit := {| http_Do := fun _ => mret (mkHttpResponse 200 (Ok (Invalid ""))) |}.
#[local] Existing Instance quiet_network.
Definition settings : Config :=
  ltac:(let r := eval vm_compute in (ConfigExamples.load_with [("AUTH_JWT_SECRET", "secret"); ("ENABLE_DEV_WALLET_CREDIT", "true")]) in
        match r with Ok ?c => exact c end).
Definition drawn (n : string) : readings :=
  mkReadings (2000 * Second) (2000 * Second) (2000 * Second) n (n +:+ "'") (n +:+ "''") (Ok "0123456789abcdef") 0 [] [].
Abbreviation platform := (world (list (string * string * raw)) unit).
(** Migrated databases; [redis] is the schedule of faults of Redis. *)
Definition fresh (redis : list fault) : platform :=
  (mkMysql GiftExamples.start None GiftExamples.now [],
   mkShared (mkMysql (mkUserDB [] 1) None GiftExamples.now []) (mkMysql (mkRoomDB ∅ 1 ∅ ∅ ∅) None GiftExamples.now [])
     (mkMysql (mkQueryDB (mkUserDB [] 1) [] [] ∅) None GiftExamples.now []) (mkRedis (mkRedisDB ∅ ∅) 0 redis) [] tt).
Definition intact : http_request -> M unit delivery := fun _ => mret Delivered.
Definition forwarded : backend -> request -> M unit delivery := fun _ _ => mret Delivered.
Definition no_content (_ : string) : string := "".
Definition no_asset (_ : string) : response := mkResponse 404 (Invalid "").
Definition probe : request := mkRequest "GET" ["ready"] (fun _ => "") (fun _ => "") (mkBody (Invalid "") 0 false 0).

(** Redis is down: the query server says so, the gateway is ready, and the interaction
    server panics. *)
Lemma readiness_reports_the_dependencies_witness :
  ready_request probe
  /\ probes (query_routes settings (drawn "1")) probe (fresh [Fails (Fresh "down")]).2 (fun resp => resp = not_ready ["redis"])
  /\ probes (interaction_routes intact settings (drawn "1")) probe (fresh [Fails (Fresh "down")]).2
       (fun resp => resp = writeError 500 "INTERNAL_ERROR" "internal server error").
Proof.
  assert (Hp : ready_request probe) by (split; reflexivity).
  destruct (readiness_reports_the_dependencies intact forwarded settings (drawn "1") no_content no_asset probe (fresh [Fails (Fresh "down")]) Hp)
    as (Hquery & _ & _ & _ & Hinteraction).
  split; [exact Hp|]. split; [exact Hquery|exact Hinteraction].
Defined.
End WiringExamples.
