(* ===== verification/PlatformSpec.v ===== *)
(** The platform as a whole: whatever requests arrive at the gateway or at the
    services, whatever is lost on the way and whichever statements fail, the
    databases keep their invariants. *)
From S2P Require Import Prelude Instances TaggedJson DanmakuSpec ConfigSpec GoStrings Mysql Json Message Realtime Kafka Commerce Wallet GiftRepository GiftService GiftServiceSpec Room RoomSpec Redis Like Stats Traffic Auth AuthSpec Danmaku.
From S2P Require Import CommerceInvariants GiftProperties Http Contract HttpApi IdentitySpec IdentityClient CommerceApi CommerceApiSpec HandlerSpec Gateway Webui Query Config Wiring WiringSpec.

(** ** Keeping a property of a part of the state *)
Lemma keeps_frame {S W A} `{Lens S W} (P : W -> Prop) (m : M S A) :
  (forall s w, P w -> P (lset s w)) -> keeps P (zoom m).
Proof. intros HP w Hw. unfold zoom. destruct (m (lget w)). by apply HP. Qed.
Lemma keeps_db_exec {T A} (P : T -> Prop) (f : stmt T A) :
  (forall n t a t', P t -> f n t = Ok (a, t') -> P t') -> keeps (fun s => P (committed s)) (db_exec f).
Proof.
  intros Hf [c x n fl] Hc. unfold db_exec. cbn in *. destruct (next_fault fl) as [[|e|e] fl']; cbn; [|done|];
    destruct (f (NOW3 n) c) as [[a t]|e'] eqn:E; cbn; eauto.
Qed.
Lemma keeps_db_read {T A} (P : T -> Prop) (f : T -> res A) : keeps (fun s => P (committed s)) (db_exec (reads f)).
Proof. apply keeps_db_exec. unfold reads. intros n t a t' Ht. destruct (f t); [|done]. by intros [= _ <-]. Qed.
Lemma keeps_mapM {W A B} (P : W -> Prop) (f : A -> M W B) l : (forall a, keeps P (f a)) -> keeps P (mapM_res f l).
Proof. intros Hf. induction l; cbn [mapM_res]; keeps. Qed.
Lemma keeps_over {W A} (P : W -> Prop) (fate : M W delivery) (m : M W A) : keeps P fate -> keeps P m -> keeps P (over fate m).
Proof. intros Hf Hm. unfold over. keeps. Qed.
Lemma keeps_iff {W A} (P Q : W -> Prop) (m : M W A) : (forall w, P w <-> Q w) -> keeps P m -> keeps Q m.
Proof. intros HPQ Hm w Hw. apply HPQ, Hm. by apply HPQ. Qed.

Section accounts.
Context `{UnicodeTables} `{MySQLServer} `{Crypto} `{JsonText}.
Variables (avatar : nat) (tokens : TokenManager).
#[local] Existing Instance mysql_user_store.
Definition accounts_ok (s : Mysql UserDB) : Prop := users_ok (committed s).

Lemma keeps_create_user u n h : keeps accounts_ok (UserRepository.Create avatar u n h).
Proof.
  unfold UserRepository.Create. apply keeps_bind; [|intros id; apply keeps_db_read].
  apply keeps_db_exec. intros k t a t'. apply insert_user_keeps_ok.
Qed.
Lemma keeps_by_name u : keeps accounts_ok (UserRepository.ByUsername u).
Proof. apply keeps_db_read. Qed.
Lemma keeps_by_id id : keeps accounts_ok (UserRepository.ByID id).
Proof. apply keeps_db_read. Qed.
#[local] Hint Resolve keeps_create_user keeps_by_name keeps_by_id : keeps.
Lemma keeps_register now salt u n p :
  keeps accounts_ok (@AuthService.Register _ _ _ _ (mysql_user_store avatar) tokens now salt u n p).
Proof. unfold AuthService.Register. cbn [au_Create au_ByUsername mysql_user_store]. keeps. Qed.
Lemma keeps_login now u p : keeps accounts_ok (@AuthService.Login _ _ _ _ (mysql_user_store avatar) tokens now u p).
Proof. unfold AuthService.Login. cbn [au_ByUsername mysql_user_store]. keeps. Qed.
Lemma keeps_nickname id : keeps accounts_ok (@AuthService.Nickname _ (mysql_user_store avatar) id).
Proof. unfold AuthService.Nickname. cbn [au_ByID mysql_user_store]. keeps. Qed.
End accounts.

(** ** The shared databases *)
Section shared.
Context `{UnicodeTables} `{MySQLServer} `{!MySQLServerOk} `{Crypto} `{JsonText} `{TimeText} {K N : Type} `{AsyncClient K} `{HttpClient N}.
Implicit Types (w : shared K N).

(** The room of the order exists, has been live, and the order pays its anchor. *)
Definition in_room (t : RoomDB) (o : order_row) : Prop :=
  exists r, live_rooms t !! o_room_id o = Some r /\ rr_anchor_id r = o_anchor_id o /\ rr_status r <> StatusPreparing.
Lemma in_room_change now t t' o : room_inv now t -> room_change now t t' -> in_room t o -> in_room t' o.
Proof.
  intros Hi Hc (r & Hr & Ha & Hs). destruct (room_change_rows _ _ _ _ _ Hi Hc Hr) as (r' & Hr' & Ha' & _ & _ & Hst).
  exists r'. split; [done|]. split; [congruence|]. destruct Hst as [->|[[? _]|[_ ->]]]; [done|congruence|done].
Qed.

(** Accounts are unique; rooms are as [room_inv] says at the time of their server, and
    the [known_orders] are for rooms. *)
Variable known_orders : list order_row.
Definition accounts_part w : Prop := accounts_ok (sh_users w).
Definition rooms_part w : Prop :=
  txn (sh_rooms w) = None /\ room_inv (NOW3 (db_now (sh_rooms w))) (committed (sh_rooms w))
  /\ Forall (in_room (committed (sh_rooms w))) known_orders.
Definition shared_ok w : Prop := accounts_part w /\ rooms_part w.

Lemma keeps_ignored {W A} (P : W -> Prop) (m : M W A) : keeps P (ignore m) -> keeps P m.
Proof. done. Qed.
Lemma leads_keeps {A} (m : M (shared K N) A) : (forall n c, leads n (room_change (NOW3 n) c) m c) -> keeps rooms_part m.
Proof.
  intros Hl w (Ht & Hi & Ho). specialize (Hl (db_now (sh_rooms w)) (committed (sh_rooms w)) w). unfold wp, idle in Hl.
  destruct Hl as (Ht' & Hn & Hc); [by split_and!|]. cbn [lget lens_rooms] in Ht', Hn, Hc.
  split; [done|]. rewrite Hn. split; [by eapply room_change_inv|].
  eapply Forall_impl; [exact Ho|]. intros o. by eapply in_room_change.
Qed.

(** *** The identity-room service *)
Section identity.
Variables (c : Config) (x : readings).

Lemma directory_pure : forall u id w, Some (directory x) = Some u -> lget (S := Mysql RoomDB) (u id w).2 = lget w.
Proof. intros u id w [= <-]. unfold directory, zoom. by destruct (AuthService.Nickname id (lget w)). Qed.
Lemma keeps_room_op op : keeps rooms_part (run_room (Some (directory x)) op).
Proof. apply leads_keeps. intros n t. apply run_room_change, directory_pure. Qed.
Lemma keeps_room_get id : keeps rooms_part (RoomService.Get (Some (directory x)) id).
Proof.
  apply leads_keeps. intros n t. apply leads_nop, leads_Get; [apply directory_pure|constructor|].
  intros r name _. apply leads_ret. constructor.
Qed.

Lemma accounts_frame {A} (m : M (Mysql RoomDB) A) : keeps accounts_part (zoom m).
Proof. by apply keeps_frame. Qed.
Lemma accounts_directory id : keeps accounts_part (directory x id).
Proof. refine (keeps_zoom (W := shared K N) (H := lens_users) accounts_ok _ _). apply keeps_nickname. Qed.
Lemma accounts_mapM {A B} (f : A -> M (shared K N) B) l : (forall a, keeps accounts_part (f a)) -> keeps accounts_part (mapM_res f l).
Proof. apply keeps_mapM. Qed.
Lemma accounts_nickname id : keeps accounts_part (RoomService.nickname (Some (directory x)) id).
Proof. apply accounts_directory. Qed.
#[local] Hint Resolve accounts_frame accounts_nickname accounts_mapM : keeps.
Lemma accounts_anchor v : keeps accounts_part (RoomService.withAnchor (Some (directory x)) v).
Proof. unfold RoomService.withAnchor. keeps. Qed.
#[local] Hint Resolve accounts_anchor : keeps.
Lemma accounts_get id : keeps accounts_part (RoomService.Get (Some (directory x)) id).
Proof. unfold RoomService.Get. cbn [rs_ByID room_repository]. keeps. Qed.
Lemma accounts_require r a : keeps accounts_part (RoomService.requireAnchor (W := shared K N) r a).
Proof. unfold RoomService.requireAnchor. cbn [rs_ByID room_repository]. keeps. Qed.
Lemma accounts_validate u why : keeps accounts_part (RoomService.validateModerationTarget (Some (directory x)) u why).
Proof. unfold RoomService.validateModerationTarget. keeps. Qed.
#[local] Hint Resolve accounts_get accounts_require accounts_validate : keeps.

Ltac room_op op :=
  apply keeps_and; [|by apply keeps_ignored, (keeps_room_op op)].
Lemma keeps_rooms_api : rooms_keep shared_ok (room_service_api (Some (directory x)) (rd_now x)).
Proof.
  split; intros; cbn [room_service_api ra_Create ra_Get ra_List ra_Start ra_Stop ra_Join ra_GetRoomAccess ra_IsBanned ra_Mute ra_Unmute ra_ListMutes ra_Ban ra_Unban ra_ListBans].
  - room_op (OpCreateRoom u t). unfold RoomService.Create. cbn [rs_Create room_repository]. keeps.
  - apply keeps_and; [apply accounts_get|apply keeps_room_get].
  - room_op (OpList st n). unfold RoomService.List_. cbn [rs_List room_repository]. keeps.
  - room_op (OpStart r u). unfold RoomService.Start. cbn [rs_ByID rs_ChangeStatus room_repository]. keeps.
  - room_op (OpStop r u). unfold RoomService.Stop. cbn [rs_ByID rs_ChangeStatus room_repository]. keeps.
  - room_op (OpJoin r u). unfold RoomService.Join. cbn [rs_IsBanned rs_Join room_repository]. keeps.
  - room_op (OpGetAccess r u). unfold RoomService.GetRoomAccess. cbn [rs_IsBanned rs_IsMuted room_repository]. keeps.
  - apply keeps_and; [apply accounts_frame|]. apply leads_keeps. intros n t. apply leads_nop, leads_exec; [constructor|].
    unfold reads. intros b t' [= <- <-]. split; [constructor|]. apply leads_ret. constructor.
  - room_op (OpMute (rd_now x) r a' u d t). unfold RoomService.Mute_. cbn [rs_Mute room_repository]. keeps.
  - room_op (OpUnmute r a' u). unfold RoomService.Unmute. cbn [rs_Unmute room_repository]. keeps.
  - room_op (OpListMutes r u). unfold RoomService.ListMutes. cbn [rs_ListMutes room_repository]. keeps.
  - room_op (OpBan r a' u t). unfold RoomService.Ban_. cbn [rs_Ban room_repository]. keeps.
  - room_op (OpUnban r a' u). unfold RoomService.Unban. cbn [rs_Unban room_repository]. keeps.
  - room_op (OpListBans r u). unfold RoomService.ListBans. cbn [rs_ListBans room_repository]. keeps.
Qed.

(** Redis, the read model, Kafka and the network are other parts of the state. *)
Lemma shared_redis {A} (m : M Redis A) : keeps shared_ok (zoom m).
Proof. by apply keeps_frame. Qed.
Lemma shared_query {A} (m : M (Mysql QueryDB) A) : keeps shared_ok (zoom m).
Proof. by apply keeps_frame. Qed.
Lemma shared_net {A} (m : M N A) : keeps shared_ok (in_net m).
Proof. by apply keeps_frame. Qed.
Lemma shared_kafka {A} (m : M K A) : keeps shared_ok (in_kafka m).
Proof. by apply keeps_frame. Qed.
Lemma shared_users {A} (m : M (Mysql UserDB) A) : keeps accounts_ok m -> keeps shared_ok (zoom m).
Proof.
  intros Hm. apply keeps_and; [by refine (keeps_zoom (W := shared K N) (H := lens_users) accounts_ok _ _)|by apply keeps_frame].
Qed.
Lemma shared_rooms_ping : keeps shared_ok (zoom (H := lens_rooms) Store_Ping).
Proof.
  apply keeps_and; [by apply keeps_frame|]. apply leads_keeps. intros n t. apply leads_nop, leads_exec; [constructor|].
  unfold reads. intros b t' [= <- <-]. split; [constructor|]. apply leads_ret. constructor.
Qed.
Lemma shared_absent {A} : keeps shared_ok (absent : M _ A).
Proof. apply keeps_throw. Qed.
#[local] Hint Resolve shared_redis shared_query shared_net shared_kafka shared_rooms_ping shared_absent keeps_over : keeps.

Lemma keeps_controller : realtime_keeps shared_ok (centrifugo_controller c x).
Proof. split; intros; apply shared_net. Qed.
Lemma keeps_stats r : keeps shared_ok (stats_service c x r).
Proof. apply shared_redis. Qed.

Lemma keeps_identity_deps : server_keeps shared_ok (Api.identity_server (identity_deps c x) (Some (lift_governance redis_governance))).
Proof.
  split; cbn [Api.identity_server identity_deps sv_mysql sv_redis sv_history sv_centrifugo sv_governance sv_Register sv_Login sv_User sv_profiles
    sv_rooms sv_Danmaku sv_AddLikes sv_Touch sv_Leave sv_Top sv_Online sv_stats]; intros; simplify_eq; try apply shared_absent; try apply shared_redis.
  - unfold databasePingers_Ping. apply keeps_bind; [|intros _; apply shared_rooms_ping]. apply shared_users, keeps_db_read.
  - apply keeps_controller.
  - split; intros; apply shared_redis.
  - apply shared_users, keeps_register.
  - apply shared_users, keeps_login.
  - apply shared_users, keeps_by_id.
  - apply keeps_rooms_api.
Qed.
Lemma identity_routes_keep : routes_keep shared_ok (identity_routes c x).
Proof. apply identity_keeps, keeps_identity_deps. Qed.

(** *** The services that call it *)
Variable call_fate : http_request -> M N delivery.
Lemma keeps_loopback base routes rq : routes_keep shared_ok routes -> keeps shared_ok (@http_Do _ (loopback base routes) rq).
Proof.
  intros Hr. cbn [http_Do loopback]. destruct (negb _); [apply keeps_throw|].
  destruct (serve routes _) as [m|] eqn:E; [|apply keeps_ret]. apply keeps_bind; [by eapply serve_keeps|intros; apply keeps_ret].
Qed.
Lemma keeps_identity_http rq : keeps shared_ok (@http_Do _ (identity_http call_fate c x) rq).
Proof.
  cbn [http_Do identity_http]. destruct (HasPrefix _ _); [|apply shared_net].
  apply keeps_over; [apply shared_net|apply keeps_loopback, identity_routes_keep].
Qed.
#[local] Existing Instance identity_http.
Lemma keeps_call {A} method path (dec : raw -> option A) :
  keeps shared_ok (@call _ (identity_http call_fate c x) (identity_client c) _ method path dec).
Proof. unfold call. apply keeps_bind; [apply keeps_identity_http|]. intros res. handler. Qed.
#[local] Hint Resolve keeps_call : keeps.
Lemma keeps_unsupported {A} : keeps shared_ok (unsupported : M _ A).
Proof. apply keeps_throw. Qed.
#[local] Hint Resolve keeps_unsupported : keeps.
Lemma keeps_client_access r u : keeps shared_ok (@client_GetRoomAccess _ (identity_http call_fate c x) _ (identity_client c) r u).
Proof. apply keeps_call. Qed.
Lemma keeps_client_banned r u : keeps shared_ok (@client_IsBanned _ (identity_http call_fate c x) _ (identity_client c) r u).
Proof. apply keeps_bind; [apply keeps_call|intros; apply keeps_ret]. Qed.
Lemma keeps_client_get r : keeps shared_ok (@client_Get _ (identity_http call_fate c x) _ (identity_client c) r).
Proof. apply keeps_call. Qed.
Lemma keeps_client_user u : keeps shared_ok (@client_User _ (identity_http call_fate c x) _ (identity_client c) u).
Proof. apply keeps_call. Qed.
Lemma keeps_remote_rooms : rooms_keep shared_ok (@remote_rooms_api _ (identity_http call_fate c x) _ (identity_client c)).
Proof. split; intros; first [apply keeps_unsupported | apply keeps_call | apply keeps_client_banned]. Qed.
#[local] Hint Resolve keeps_client_access keeps_client_banned keeps_client_get keeps_client_user : keeps.

(** *** The interaction server *)
Lemma keeps_send_danmaku r u t : keeps shared_ok (send_danmaku call_fate c x r u t).
Proof. unfold send_danmaku, DanmakuService.Send. cbn [dr_GetRoomAccess du_User Publish client_danmaku_rooms client_danmaku_users danmaku_publisher centrifugo_controller rc_Publish]. handler. Qed.
Lemma keeps_add_likes config r u n :
  keeps shared_ok (@LikeService.Add _ (client_like_rooms (H := identity_http call_fate c x) (identity_client c))
    (redis_like_store (shards c) (now_ms x)) config r u n).
Proof.
  unfold LikeService.Add, LikeService.roomStatus, LikeService.isBanned.
  cbn [lr_Get lr_IsBanned client_like_rooms redis_like_store ls_Cache ls_Limiter ls_AddLikes CachedStatus CacheStatus CachedBan CacheBan]. handler.
Qed.
#[local] Hint Resolve keeps_send_danmaku keeps_add_likes keeps_stats : keeps.
Lemma keeps_interaction_deps : server_keeps shared_ok (Api.interaction_server (interaction_deps call_fate c x)).
Proof.
  split; cbn [Api.interaction_server interaction_deps sv_mysql sv_redis sv_history sv_centrifugo sv_governance sv_Register sv_Login sv_User sv_profiles
    sv_rooms sv_Danmaku sv_AddLikes sv_Touch sv_Leave sv_Top sv_Online sv_stats]; intros; simplify_eq; eauto with keeps.
  - apply keeps_controller.
  - apply keeps_remote_rooms.
Qed.
Lemma interaction_routes_keep : routes_keep shared_ok (interaction_routes call_fate c x).
Proof. apply interaction_keeps, keeps_interaction_deps. Qed.

(** *** The query server *)
Lemma query_routes_keep : routes_keep shared_ok (query_routes c x).
Proof.
  apply query_keeps. split; cbn [Api.query_server query_deps sv_mysql sv_redis sv_history sv_centrifugo sv_governance sv_Register sv_Login sv_User sv_profiles
    sv_rooms sv_Danmaku sv_AddLikes sv_Touch sv_Leave sv_Top sv_Online sv_stats]; intros; simplify_eq; eauto with keeps.
Qed.

(** *** The commerce server *)
Lemma keeps_other_half {A} (m : M (shared K N) A) : keeps shared_ok m -> keeps (fun w : world K N => shared_ok w.2) (zoom m).
Proof. intros Hm. refine (keeps_zoom (W := world K N) (H := lens_snd _ _) shared_ok _ _). exact Hm. Qed.
Lemma commerce_frame {A} (m : M (Mysql CommerceDB) A) : keeps (fun w : world K N => shared_ok w.2) (zoom m).
Proof. by apply keeps_frame. Qed.
#[local] Hint Resolve keeps_other_half commerce_frame : keeps.
Lemma keeps_send r u g n k : keeps (fun w : world K N => shared_ok w.2) (cs_Send (commerce_deps call_fate c x) r u g n k).
Proof.
  unfold commerce_deps, gift_rooms. cbn [cs_Send commerce_server]. unfold send, GiftService.Send, GiftService.replay_or, GiftService.replay.
  cbn [gs_ByRequestID gs_Create gr_Get gr_IsBanned gift_repository remote_rooms client_gift_rooms remote_limiter]. handler.
Qed.
Lemma commerce_routes_ok : routes_keep (fun w : world K N => shared_ok w.2) (commerce_routes call_fate c x).
Proof.
  apply commerce_routes_keep. split; intros; [| | |apply keeps_send|..]; unfold commerce_deps in *;
    cbn [commerce_server cs_mysql cs_redis cs_List cs_Order cs_Balance cs_Transactions cs_DevCredit cs_AddGiftValue] in *; simplify_eq;
    unfold GiftService.List_, GiftService.Order_; cbn [gs_ListActive gs_ByOrderNo gift_repository]; handler.
Qed.
(** A room that the commerce server is told about is a row of the room table. *)
Lemma service_get r w v w' :
  RoomService.Get (Some (directory x)) r w = (Ok v, w') ->
  exists row, live_rooms (committed (sh_rooms w)) !! r = Some row /\ rr_anchor_id row = room_AnchorID v /\ rr_status row = room_Status v.
Proof.
  unfold RoomService.Get. cbn [rs_ByID room_repository]. unfold mbind at 1, M_bind at 1, zoom, RoomRepository.ByID, db_exec, reads.
  cbn [lget lset lens_rooms]. destruct (sh_rooms w) as [t tx n fl]. cbn.
  destruct (next_fault fl) as [[|e|e] fl']; destruct (live_rooms t !! r) as [row|]; cbn; try done.
  unfold RoomService.withAnchor, RoomService.nickname, mbind, M_bind. destruct (directory x _ _) as [[nb|e] w2]; cbn; [|done].
  intros [= <- _]. by exists row.
Qed.
Lemma get_in_room r w v w' :
  @gr_Get _ (gift_rooms call_fate c x) r w = (Ok v, w') ->
  exists row, live_rooms (committed (sh_rooms w)) !! r = Some row /\ rr_anchor_id row = room_AnchorID v /\ rr_status row = room_Status v.
Proof.
  cbn [gr_Get gift_rooms client_gift_rooms]. unfold client_Get. intros (res & raw & Hdo & Hq & Hb & Hd)%call_answered.
  revert Hdo. cbn [http_Do identity_http rq_url]. unfold identity_client. unfold HasPrefix at 1. rewrite prefix_app.
  unfold over, mbind at 1, M_bind at 1, in_net, zoom. cbn [lget lset lens_net].
  destruct (call_fate _ (sh_net w)) as [[[|err|err]|e] net]; [|done| |done].
  2: { unfold ignore, mbind, M_bind. by destruct (http_Do _ _). }
  intros Hdo. set (w1 := mkShared _ _ _ _ _ _) in Hdo.
  edestruct (room_answer (Api.identity_server (identity_deps c x) (Some (lift_governance redis_governance))) (room_service_api (Some (directory x)) (rd_now x))
    (rd_auth x) (rd_now x) (rd_id x) (cc_BaseURL (cg_IdentityRoom c)) eq_refl r w1) as (v0 & Hget & Ha & Hs); [exact Hdo|done..|].
  cbn [room_service_api ra_Get] in Hget. destruct (RoomService.Get (Some (directory x)) r w1) as [a w2] eqn:E. cbn [fst] in Hget. subst a.
  apply service_get in E as (row & Hr & Hra & Hrs). exists row. split; [exact Hr|]. split; congruence.
Qed.
Lemma placed_in_room w o : @placed _ (gift_rooms call_fate c x) w o -> in_room (committed (sh_rooms w)) o.
Proof.
  intros (v & w' & (row & Hr & Ha & Hs)%get_in_room & Hl & Ho). exists row. split; [done|]. split; [congruence|]. by rewrite Hs, Hl.
Qed.
End identity.
End shared.

(** ** The platform *)
Section platform.
Context `{UnicodeTables} `{MySQLServer} `{!MySQLServerOk} `{Crypto} `{JsonText} `{TimeText} {K N : Type} `{AsyncClient K} `{HttpClient N}.
Implicit Types (w : world K N).

(** The orders [placed_before] stay, in front of the others. *)
Variable placed_before : list order_row.
Definition commerce_ok (s : Mysql CommerceDB) : Prop :=
  txn s = None /\ commerce_inv (committed s) /\ placed_before `prefix_of` orders (committed s).
Definition platform_ok w : Prop := commerce_ok w.1 /\ shared_ok (orders (committed w.1)) w.2.
Lemma commerce_ok_change s s' : commerce_ok s -> txn s' = None -> commerce_change (committed s) (committed s') -> commerce_ok s'.
Proof.
  intros (Ht & Hi & Hp) Ht' Hc. split; [done|]. split; [by eapply change_inv|]. etrans; [exact Hp|].
  destruct Hc; try reflexivity. by apply prefix_app_r.
Qed.

Lemma keeps_platform {A} (m : M (shared K N) A) : (forall l, keeps (shared_ok l) m) -> keeps platform_ok (zoom m).
Proof.
  intros Hm [s sh] [Hc Hs]. unfold zoom. cbn [lget lset lens_snd snd fst] in *. specialize (Hm _ sh Hs).
  by destruct (m sh) as [a sh'].
Qed.
Lemma lifted_routes_keep routes : (forall l, routes_keep (shared_ok l) routes) -> routes_keep platform_ok (map (lift_route (W := world K N)) routes).
Proof.
  intros Hr. unfold routes_keep. rewrite Forall_map. apply Forall_forall. intros rt Hrt r pv. cbn [rt_handler lift_route compose].
  apply keeps_platform. intros l. specialize (Hr l). unfold routes_keep in Hr. rewrite Forall_forall in Hr. by apply Hr.
Qed.

Section requests.
Variables (call_fate : http_request -> M N delivery) (forward_fate : backend -> request -> M N delivery).
Variables (c : Config) (x : readings) (content : string -> string) (front_con : string -> response).

Lemma commerce_request_keeps r m : serve (commerce_routes call_fate c x) r = Some m -> keeps platform_ok m.
Proof.
  intros Hs w [Hcom Hsh]. destruct (id Hcom) as [Ht _]. pose proof Hs as Hsafe. unfold commerce_routes, commerce_deps in Hsafe.
  apply (handlers_safe (R := shared K N)) in Hsafe. destruct (Hsafe w Ht) as (Ht' & Hch & Ho).
  split; [by eapply commerce_ok_change|].
  refine (serve_keeps _ _ _ _ (commerce_routes_ok (orders (committed (m w).2.1)) c x call_fate) Hs w _).
  destruct Hsh as (Ha & Hrt & Hri & Hrooms). split; [done|]. split; [done|]. split; [done|].
  apply Forall_forall. intros o [Hold|Hnew]%Ho; [by rewrite Forall_forall in Hrooms; apply Hrooms|by eapply placed_in_room].
Qed.
Lemma service_request_keeps b r m : serve (service_routes call_fate c x b) r = Some m -> keeps platform_ok m.
Proof.
  destruct b; cbn [service_routes]; [..|by apply commerce_request_keeps|]; intros Hs; refine (serve_keeps _ _ _ _ (lifted_routes_keep _ _) Hs); intros l;
    [apply identity_routes_keep|apply interaction_routes_keep|apply query_routes_keep].
Qed.
Lemma gateway_request_keeps r m : platform_serve call_fate forward_fate c x content front_con r = Some m -> keeps platform_ok m.
Proof.
  unfold platform_serve, gateway_serve. destruct (destination_of r) as [| |b| | |]; intros [= <-]; try apply keeps_ret.
  unfold proxy. apply keeps_reply; [|intros; apply keeps_ret|intros; apply keeps_ret]. unfold service_exchange. apply keeps_over.
  - apply keeps_platform. intros l. apply shared_net.
  - destruct (serve _ _) as [m|] eqn:E; [|apply keeps_ret]. by eapply service_request_keeps.
Qed.
End requests.

(** What happens besides requests: new connections and faults to come, anything in
    Redis, Kafka, the read model and on the network. The committed tables stay, and the
    clock of the room server does not run backwards. *)
Definition drift w w' : Prop :=
  txn w'.1 = None /\ committed w'.1 = committed w.1
  /\ committed (sh_users w'.2) = committed (sh_users w.2)
  /\ txn (sh_rooms w'.2) = None /\ committed (sh_rooms w'.2) = committed (sh_rooms w.2)
  /\ db_now (sh_rooms w.2) <= db_now (sh_rooms w'.2).

(** Requests to the gateway or to a service, with any configuration, any draws and any
    losses on the way; the outbox publisher of the worker; the environment. *)
Inductive platform_step : world K N -> world K N -> Prop :=
| gateway_request call_fate forward_fate c x content front_con r m w :
    platform_serve call_fate forward_fate c x content front_con r = Some m -> platform_step w (m w).2
| service_request call_fate c x b r m w :
    serve (service_routes call_fate c x b) r = Some m -> platform_step w (m w).2
| publisher_step op n fl n' fl' s sh :
    worker_op op = true -> platform_step (s, sh) (mkMysql (committed (run_op op (mkMysql (committed s) None n fl)).2) None n' fl', sh)
| environment w w' : drift w w' -> platform_step w w'.

(** After the migrations: a gift catalogue, wallets without money, no accounts, no rooms. *)
Definition launched w : Prop :=
  txn w.1 = None
  /\ (exists catalogue ws, committed w.1 = commerce_init catalogue ws /\ map_Forall (fun _ v => wallet_balance v = 0) ws)
  /\ committed (sh_users w.2) = mkUserDB [] 1 /\ txn (sh_rooms w.2) = None
  /\ (exists next, committed (sh_rooms w.2) = mkRoomDB ∅ next ∅ ∅ ∅).

Lemma launched_ok w : launched w -> placed_before = [] -> platform_ok w.
Proof.
  intros (Ht & (cat & ws & Hc & Hws) & Hu & Hrt & next & Hr) Hnone. split.
  - split; [done|]. rewrite Hc. split; [by apply init_inv|rewrite Hnone; apply prefix_nil].
  - split; [|split; [done|]].
    + unfold accounts_part, accounts_ok. rewrite Hu. apply users_ok_empty.
    + rewrite Hr, Hc. split; [|constructor]. split; simpl; intros; by rewrite lookup_empty in *.
Qed.
Lemma platform_step_ok w w' : platform_step w w' -> platform_ok w -> platform_ok w'.
Proof.
  intros [call_fate forward_fate c x content front_con r m w0 Hm|call_fate c x b r m w0 Hm|op n fl n' fl' s sh Hop|w0 w1 Hd] Hok.
  - by eapply gateway_request_keeps.
  - by eapply service_request_keeps.
  - destruct Hok as [Hcom Hs]. destruct (worker_changes_outbox op n fl (committed s) Hop) as (rows & -> & Hr).
    split; [|done]. eapply commerce_ok_change; [done..|]. by apply change_outbox.
  - destruct Hok as [(Ht & Hi & Hp) (Ha & Hrt & Hri & Ho)]. destruct Hd as (Ht' & Hc & Hu & Hrt' & Hr & Hn).
    split; [by unfold commerce_ok; rewrite Hc|]. rewrite Hc. split; [by unfold accounts_part, accounts_ok; rewrite Hu|].
    split; [done|]. rewrite Hr. split; [|done]. eapply room_inv_le; [by apply NOW3_le|done].
Qed.

Lemma platform_run_ok w w' : rtc platform_step w w' -> platform_ok w -> platform_ok w'.
Proof. intros Hrun. induction Hrun as [w|w1 w2 w Hs _ IH]; [done|]. intros Hw. by eapply IH, platform_step_ok. Qed.
End platform.

Section reachable.
Context `{UnicodeTables} `{MySQLServer} `{!MySQLServerOk} `{Crypto} `{JsonText} `{TimeText} {K N : Type} `{AsyncClient K} `{HttpClient N}.
Implicit Types (w : world K N).
Lemma reachable_ok w0 w : launched w0 -> rtc platform_step w0 w -> platform_ok [] w.
Proof. intros Hw Hrun. eapply platform_run_ok; [exact Hrun|]. by apply launched_ok. Qed.
(** An idle state is reached with its own orders in front. *)
Lemma platform_ok_now l w : platform_ok l w -> platform_ok (orders (committed w.1)) w.
Proof. intros [(Ht & Hi & _) Hs]. split; [|done]. split; [done|]. by split. Qed.

(** C10 The platform keeps its books and its rooms: from freshly migrated databases, after
    any requests to the gateway and to the services themselves - by anyone, in any order,
    with any bodies - with any database and Redis faults and any exchanges lost between
    the services, and with the outbox publisher running, (1) balances are what the ledger
    says, request ids are unique and ledger lines and outbox events are the orders;
    (2) account names and ids are unique; (3) rooms, mutes, bans and sessions are
    as the life of a room allows; and, across the two databases, (4) every order is
    for a room that exists and has gone live, and pays that room's anchor. *)
Theorem the_platform_keeps_its_books_and_rooms w0 w :
  launched w0 -> rtc platform_step w0 w ->
  commerce_inv (committed w.1) /\ users_ok (committed (sh_users w.2))
  /\ room_inv (NOW3 (db_now (sh_rooms w.2))) (committed (sh_rooms w.2))
  /\ forall o, o ∈ orders (committed w.1) -> in_room (committed (sh_rooms w.2)) o.
Proof.
  intros Hw Hrun. destruct (reachable_ok w0 w Hw Hrun) as [(_ & Hi & _) (Ha & _ & Hr & Ho)].
  split; [done|]. split; [done|]. split; [done|]. by apply Forall_forall.
Qed.
End reachable.

(** ** Examples *)
Module PlatformExamples.
Import WiringExamples.
#[local] Existing Instances ascii_tables example_server example_server_ok nano_text tagged_json AuthExamples.padded_crypto DanmakuExamples.log_client quiet_network.

(** A request through the gateway: the answer, and the platform after it. *)
Definition gateway (n : string) (r : request) : option (M platform response) :=
  platform_serve intact forwarded settings (drawn n) no_content no_asset r.
Definition after (w : platform) (nr : string * request) : platform :=
  match gateway nr.1 nr.2 with Some m => (m w).2 | None => w end.
Fixpoint statuses (l : list (string * request)) (w : platform) : list (option Z) :=
  match l with
  | [] => []
  | nr :: l =>
    match gateway nr.1 nr.2 with Some m => match (m w).1 with Ok resp => Some (rs_status resp) | Err _ => None end | None => None end
    :: statuses l (after w nr)
  end.

Definition post (path : list string) (token key : string) (body : json) : request :=
  mkRequest "POST" (["api"; "v1"] ++ path)
    (fun h => if bool_decide (h = "Authorization") then "Bearer " +:+ token else if bool_decide (h = "Idempotency-Key") then key else "")
    (fun _ => "") (mkBody (Valid body) 64 false 64).
Definition sign_up (name : string) : request :=
  post ["auth"; "register"] "" "" (JObj [("username", JStr name); ("nickname", JStr name); ("password", JStr "password1")]).
Definition token (userID : Z) : string := AuthExamples.token_of (Tokens.Issue (app_tokens settings) (1999 * Second) userID).
Definition gift (roomID : string) (key : string) : request :=
  post ["rooms"; roomID; "gifts"] (token 2) key (JObj [("gift_id", JNum 1); ("count", JNum 3)]).
(** Alice and Bob register; Alice opens a room; Bob gets money and tries to send three
    roses to a room that does not exist, and to Alice's before and after she goes live. *)
Definition rehearsal : list (string * request) :=
  [("1", sign_up "alice"); ("2", sign_up "bob");
   ("3", post ["rooms"] (token 1) "" (JObj [("title", JStr "Jazz")]));
   ("4", post ["wallet"; "dev-credit"] (token 2) "" (JObj [("amount", JNum 1000)]));
   ("5", gift "2" "request-1"); ("6", gift "1" "request-2");
   ("7", post ["rooms"; "1"; "start"] (token 1) "" (JObj []))].
Definition acknowledged : string * request := ("8", gift "1" "request-3").
Definition evening : list (string * request) := rehearsal ++ [acknowledged].
Example evening_statuses : statuses evening (fresh []) = [Some 201; Some 201; Some 201; Some 200; Some 500; Some 409; Some 200; Some 200].
Proof. vm_compute. reflexivity. Qed.
Definition tonight : platform := fold_left after evening (fresh []).

Lemma played l w : rtc platform_step w (fold_left after l w).
Proof.
  revert w. induction l as [|nr l IH]; intros w; [reflexivity|]. cbn [fold_left]. etrans; [|apply IH].
  unfold after. destruct (gateway nr.1 nr.2) as [m|] eqn:E; [|reflexivity]. apply rtc_once. by eapply gateway_request.
Qed.
Lemma fresh_launched : launched (fresh []).
Proof.
  split; [reflexivity|]. split; [exists GiftExamples.catalogue, ∅; split; [reflexivity|apply map_Forall_empty]|].
  split; [reflexivity|]. split; [reflexivity|]. by exists 1.
Qed.
Lemma the_platform_keeps_its_books_and_rooms_witness :
  launched (fresh []) /\ commerce_inv (committed tonight.1)
  /\ exists o, orders (committed tonight.1) = [o] /\ in_room (committed (sh_rooms tonight.2)) o.
Proof.
  pose proof fresh_launched as Hl.
  destruct (the_platform_keeps_its_books_and_rooms (fresh []) tonight Hl (played evening (fresh []))) as (Hc & _ & _ & Ho).
  split; [exact Hl|]. split; [exact Hc|].
  destruct (orders (committed tonight.1)) as [|o [|o' os]] eqn:E; [exfalso; vm_compute in E; discriminate E| |exfalso; vm_compute in E; discriminate E].
  exists o. split; [reflexivity|]. apply Ho. left.
Defined.
End PlatformExamples.
