(* ===== verification/ExactlyOnce.v ===== *)
(** A gift sent through the gateway until it is acknowledged is charged exactly once:
    from the answer of the gateway down to the ledger and the outbox, for every later
    state of the platform. *)
From S2P Require Import Prelude Instances TaggedJson DanmakuSpec ConfigSpec GoStrings Mysql Json Message Realtime Kafka Commerce Wallet GiftRepository GiftService GiftServiceSpec Room RoomSpec Redis Like Stats Traffic Auth AuthSpec Danmaku.
From S2P Require Import CommerceInvariants GiftProperties Http Contract HttpApi IdentitySpec IdentityClient CommerceApi CommerceApiSpec HandlerSpec Gateway GatewaySpec Webui Query Config Wiring WiringSpec PlatformSpec.

(** ** Lists with the same keys *)
Lemma filter_none {A B} (k : A -> string) (k' : B -> string) la lb key :
  map k la = map k' lb -> (forall b, b ∈ lb -> k' b <> key) -> List.filter (fun a => bool_decide (k a = key)) la = [].
Proof.
  revert la. induction lb as [|b lb IH]; intros [|a la]; [done..|]. intros [= Ha Hl] Hk. cbn [List.filter].
  rewrite bool_decide_false by (rewrite Ha; apply Hk; left). apply IH; [done|]. intros b' Hb. apply Hk. by right.
Qed.
(** The only line with the key of [o]. *)
Lemma filter_one {A B C} (f : A -> string * C) (g : B -> string * C) la lb o :
  map f la = map g lb -> NoDup (map (fun b => (g b).1) lb) -> o ∈ lb ->
  exists a, List.filter (fun a => bool_decide ((f a).1 = (g o).1)) la = [a] /\ f a = g o.
Proof.
  revert la. induction lb as [|b lb IH]; intros [|a la]; [by intros _ _ []%not_elem_of_nil|done|done|].
  intros [= Ha Hl] [Hnew Hnd]%NoDup_cons Ho. cbn [List.filter].
  assert (Hkeys : forall b', b' ∈ lb -> (g b').1 <> (g b).1).
  { intros b' Hb' Heq. apply Hnew. rewrite <- Heq. by apply (list_elem_of_fmap_2 (fun b => (g b).1)). }
  apply elem_of_cons in Ho as [->|Ho].
  - rewrite bool_decide_true by congruence. exists a. split; [|done]. f_equal.
    apply (filter_none (fun a => (f a).1) (fun b => (g b).1) la lb); [|done].
    change (map (fun a => fst (f a)) la = map (fun b => fst (g b)) lb). by rewrite <- (map_map f fst), <- (map_map g fst), Hl.
  - rewrite bool_decide_false by (rewrite Ha; intros Heq; by apply (Hkeys o Ho)). by apply IH.
Qed.

Section charged.
Context `{UnicodeTables} `{MySQLServer}.
(** One order with the request id, which is this gift; one ledger line that takes its
    price; one event that announces it. *)
Definition charged_once (t : CommerceDB) (key : string) (userID roomID giftID count : Z) : Prop :=
  exists o line event, o ∈ orders t /\ order_of key userID roomID giftID count o
    /\ (forall o', o' ∈ orders t -> str_eq (o_request_id o') key = true -> o' = o)
    /\ List.filter (fun l => bool_decide (wt_biz_id l = o_order_no o)) (gift_lines t) = [line]
    /\ wt_user_id line = userID /\ wt_amount line = - (o_unit_price o * count)
    /\ List.filter (fun e => bool_decide (ob_aggregate_id e = o_order_no o)) (outbox t) = [event]
    /\ ob_partition_key event = FormatInt roomID.

Lemma order_charged_once t key userID roomID giftID count o :
  commerce_inv t -> o ∈ orders t -> order_of key userID roomID giftID count o -> charged_once t key userID roomID giftID count.
Proof.
  intros Hi Ho Hof. destruct (id Hof) as (Hkey & Hu & Hr & Hg & Hn). pose proof (ci_orders t Hi o Ho) as (_ & _ & _ & Htotal & _).
  assert (Hnos : NoDup (map o_order_no (orders t))).
  { pose proof (ci_order_nos t Hi) as Hnd. rewrite <- (map_map o_order_no collate) in Hnd. by apply NoDup_fmap_1 in Hnd. }
  destruct (filter_one (fun l => (wt_biz_id l, (wt_user_id l, - wt_amount l))) (fun o => (o_order_no o, (o_user_id o, o_total_amount o))) (gift_lines t) (orders t) o)
    as (line & Hline & Heq); [|done..|].
  { pose proof (ci_gift_lines t Hi) as Hl. apply (f_equal (map (fun x => (x.1.1, (x.1.2, x.2))))) in Hl. by rewrite !map_map in Hl. }
  destruct (filter_one (fun e => (ob_aggregate_id e, ob_partition_key e)) (fun o => (o_order_no o, FormatInt (o_room_id o))) (outbox t) (orders t) o)
    as (event & Hevent & Heq'); [apply (ci_events t Hi)|done..|].
  cbn [fst] in Hline, Hevent. injection Heq as _ Hlu Hla. injection Heq' as _ Hpk.
  exists o, line, event. split; [done|]. split; [done|]. split.
  { intros o' Ho' Hk. apply (NoDup_map_inj _ _ _ _ (ci_request_ids t Hi) Ho' Ho). unfold str_eq in Hkey, Hk.
    apply bool_decide_eq_true in Hkey, Hk. congruence. }
  split; [done|]. split; [congruence|]. split; [nia|]. split; [done|]. congruence.
Qed.
End charged.

(** ** Through the gateway *)
Section acknowledged.
Context `{UnicodeTables} `{MySQLServer} `{!MySQLServerOk} `{Crypto} `{JsonText} `{TimeText} {K N : Type} `{AsyncClient K} `{HttpClient N}.
Implicit Types (w : world K N).

(** [POST /api/v1/rooms/{room_id}/gifts] *)
Definition gift_request (r : request) (rid : string) : Prop :=
  q_Method r = "POST" /\ q_Path r = ["api"; "v1"; "rooms"; rid; "gifts"] /\ rid <> "".
(** The token of the request, as [requireAuth] reads it, and the request id of the gift,
    trimmed by the handler and by the service. *)
Definition bearer (r : request) : string := TrimSpace (TrimPrefix (TrimSpace (q_Header r "Authorization")) "Bearer ").
Definition gift_key (r : request) : string := TrimSpace (TrimSpace (q_Header r "Idempotency-Key")).

Variables (call_fate : http_request -> M N delivery) (forward_fate : backend -> request -> M N delivery).
Variables (c : Config) (x : readings) (content : string -> string) (front_con : string -> response).

Ltac routed_to :=
  cbv [serve commerce_routes CommerceApi.New CommerceApi.api app method_match rt_method rt_pattern rt_handler match_path mbind option_bind q_Method q_Path];
  literals; cbv beta iota; cbn [orb andb]; literals; cbv beta iota;
  rewrite ?bool_decide_eq_false_2 by assumption; try reflexivity.

Lemma serve_gift r rid : gift_request r rid ->
  serve (commerce_routes (K := K) (N := N) call_fate c x) r
  = Some (CommerceApi.authed (commerce_deps call_fate c x) (rd_auth x) (CommerceApi.sendGift (commerce_deps call_fate c x)) r (path_value [("room_id", rid)])).
Proof. destruct r as [method path h q b]. intros (Hm & Hp & Hne). cbn in Hm, Hp. subst. routed_to. Qed.
Lemma gift_destination r rid : gift_request r rid -> destination_of r = Forwarded CommerceBackend.
Proof.
  intros (Hm & Hp & Hne). set (y := ("POST", a_room [Lit "gifts"], Forwarded CommerceBackend)).
  assert (Hy : y ∈ gateway_routes) by (apply (bool_decide_unpack _); vm_compute; exact I).
  assert (Hsig : sig_match (entry_sig y) r = true).
  { apply sig_match_spec. rewrite Hm, Hp. split; [reflexivity|]. cbn. literals. cbv iota. rewrite bool_decide_eq_false_2 by done. literals. by eexists. }
  unfold destination_of. destruct (routed gateway_routes r) as [d|] eqn:E.
  - apply routed_some in E as (z & Hz & Hzs & <-). apply (entries_disjoint z y); [done..|]. by eapply sig_meets.
  - by rewrite (routed_none _ _ E y Hy) in Hsig.
Qed.

(** An answer 200 to a gift comes from the commerce server, and its order is there. *)
Lemma gateway_gift_200 r rid m w resp w1 :
  txn w.1 = None -> gift_request r rid -> platform_serve call_fate forward_fate c x content front_con r = Some m ->
  m w = (Ok resp, w1) -> rs_status resp = 200 ->
  exists claims roomID giftID count o, Tokens.Verify (app_tokens c) (rd_auth x) (bearer r) = Ok claims
    /\ ParseInt rid = Some roomID /\ CommerceApi.gift_body r = Ok (giftID, count)
    /\ o ∈ orders (committed w1.1) /\ order_of (gift_key r) (cl_UserID claims) roomID giftID count o.
Proof.
  intros Ht Hr Hm Hrun H200. unfold platform_serve, gateway_serve in Hm. rewrite (gift_destination r rid Hr) in Hm.
  injection Hm as <-. revert Hrun. unfold proxy, reply. intros (a & w2 & Hup & Hrest)%bind_ok_inv.
  unfold try in Hup. destruct (service_exchange call_fate forward_fate c x CommerceBackend (director r) w) as [[resp'|e] w3] eqn:E; injection Hup as <- <-;
    injection Hrest as <- <-; [|discriminate H200].
  revert E. unfold service_exchange, over. intros (d & w4 & Hd & Hrest)%bind_ok_inv. destruct d as [|err|err]; [|discriminate Hrest|].
  2: { apply bind_ok_inv in Hrest as (u & w5 & _ & Hth). discriminate Hth. }
  assert (Ht4 : txn w4.1 = None).
  { revert Hd. unfold zoom. cbn [lget lset lens_snd]. destruct (in_net _ w.2) as [b s]. by intros [= _ <-]. }
  cbn [service_routes] in Hrest. rewrite (serve_gift (director r) rid) in Hrest by exact Hr. revert Hrest.
  unfold CommerceApi.authed, requireAuth. change (q_Header (director r) "Authorization") with (q_Header r "Authorization").
  destruct (negb _); [by intros [= <- _]|]. fold (bearer r). change (cs_tokens (commerce_deps call_fate c x)) with (app_tokens c).
  destruct (Tokens.Verify (app_tokens c) (rd_auth x) (bearer r)) as [claims|e]; [|by intros [= <- _]].
  intros Hgift. unfold commerce_deps in Hgift.
  apply (gift_answered_200 (R := shared K N)) in Hgift as (roomID & giftID & count & o & Hroom & Hbody & Ho & Hof); [|done..].
  exists claims, roomID, giftID, count, o. split; [done|]. split; [|done]. revert Hroom. unfold pathInt64.
  change (path_value [("room_id", rid)] "room_id") with rid. destruct (ParseInt rid) as [v|]; [|done]. destruct (v <=? 0); [done|]. congruence.
Qed.
End acknowledged.

Section exactly_once.
Context `{UnicodeTables} `{MySQLServer} `{!MySQLServerOk} `{Crypto} `{JsonText} `{TimeText} {K N : Type} `{AsyncClient K} `{HttpClient N}.
Implicit Types (w : world K N).

(** C11 A gift sent through the gateway until it is acknowledged is charged exactly once.
    On a platform reached by any traffic, faults and losses from migrated databases, when
    [POST /api/v1/rooms/{room_id}/gifts] through the gateway is answered 200, then now and
    in every later state - whatever is retried with the same [Idempotency-Key], by
    whomever, and whatever fails - there is exactly one order with that request id; it is
    the gift of the caller of the token, to the room of the path, with the gift and the
    count of the body; exactly one line of the ledger takes its price, from the caller;
    and exactly one outbox event announces it, keyed by its room. *)
Theorem acknowledged_gift_is_charged_exactly_once call_fate forward_fate c x content front_con r rid m w0 w resp w1 w2 :
  launched w0 -> rtc platform_step w0 w -> gift_request r rid ->
  platform_serve call_fate forward_fate c x content front_con r = Some m -> m w = (Ok resp, w1) -> rs_status resp = 200 ->
  rtc platform_step w1 w2 ->
  exists claims roomID giftID count, Tokens.Verify (app_tokens c) (rd_auth x) (bearer r) = Ok claims
    /\ ParseInt rid = Some roomID /\ CommerceApi.gift_body r = Ok (giftID, count)
    /\ charged_once (committed w2.1) (gift_key r) (cl_UserID claims) roomID giftID count.
Proof.
  intros Hw0 Hrun Hr Hm Hmw H200 Hlater. pose proof (reachable_ok w0 w Hw0 Hrun) as Hok.
  destruct (gateway_gift_200 call_fate forward_fate c x content front_con r rid m w resp w1) as (claims & roomID & giftID & count & o & Hv & Hp & Hb & Ho & Hof);
    [apply Hok|done..|].
  exists claims, roomID, giftID, count. split; [done|]. split; [done|]. split; [done|].
  assert (Hok1 : platform_ok [] w1) by (pose proof (gateway_request_keeps [] _ _ _ _ _ _ _ _ Hm w Hok) as Hk; by rewrite Hmw in Hk).
  apply platform_ok_now, (platform_run_ok _ _ _ Hlater) in Hok1 as [(_ & Hi & Hpre) _].
  apply (order_charged_once _ _ _ _ _ _ o); [done| |done]. destruct Hpre as [l ->]. apply elem_of_app. by left.
Qed.
End exactly_once.

(** ** Example *)
Module ExactlyOnceExamples.
Import WiringExamples PlatformExamples.
#[local] Existing Instances ascii_tables example_server example_server_ok nano_text tagged_json AuthExamples.padded_crypto DanmakuExamples.log_client quiet_network.

(** Bob's gift of the evening is acknowledged; he repeats it, twice. *)
Definition rehearsed : platform := fold_left after rehearsal (fresh []).
Definition repeated : platform := fold_left after [("9", gift "1" "request-3"); ("10", gift "1" "request-3")] tonight.
Lemma tonight_after : tonight = after rehearsed acknowledged.
Proof. unfold tonight, evening, rehearsed. generalize (fresh []) rehearsal acknowledged after. intros w l nr f. by rewrite fold_left_app. Qed.
Lemma after_some w n r m : gateway n r = Some m -> after w (n, r) = (m w).2.
Proof. unfold after. cbn [fst snd]. by intros ->. Qed.
(** The answer to the gift. *)
Lemma gift_acknowledged : exists m resp, gateway "8" (gift "1" "request-3") = Some m /\ m rehearsed = (Ok resp, tonight) /\ rs_status resp = 200.
Proof.
  assert (Ha : match gateway "8" (gift "1" "request-3") with
    | Some m => match (m rehearsed).1 with Ok resp => rs_status resp | Err _ => 0 end | None => 0 end = 200) by (vm_compute; reflexivity).
  rewrite tonight_after. generalize (after_some rehearsed "8" (gift "1" "request-3")). fold acknowledged.
  destruct (gateway "8" (gift "1" "request-3")) as [m|]; [|discriminate Ha]. intros Hm. rewrite (Hm m eq_refl). exists m.
  destruct (m rehearsed) as [[resp|e] w1]; [|discriminate Ha]. by exists resp.
Qed.
Lemma acknowledged_gift_is_charged_exactly_once_witness :
  gift_request (gift "1" "request-3") "1" /\ charged_once (committed repeated.1) "request-3" 2 1 1 3.
Proof.
  assert (Hr : gift_request (gift "1" "request-3") "1") by (split; [reflexivity|]; split; [reflexivity|discriminate]). split; [exact Hr|].
  destruct gift_acknowledged as (m & resp & Hm & Hrun & H200).
  destruct (acknowledged_gift_is_charged_exactly_once intact forwarded settings (drawn "8") no_content no_asset (gift "1" "request-3") "1" m
    (fresh []) rehearsed resp tonight repeated fresh_launched (played rehearsal (fresh [])) Hr Hm Hrun H200 (played _ tonight))
    as (claims & roomID & giftID & count & Hv & Hp & Hb & Hc).
  vm_compute in Hv, Hp, Hb. injection Hv as <-. injection Hp as <-. injection Hb as <- <-. exact Hc.
Defined.
End ExactlyOnceExamples.
